(* ===== verification/_CoqProject ===== *)
-Q . S2P
Prelude.v
JsValue.v
JsDate.v
Json.v
TurnControl.v
GatewayStore.v
StoreInv.v
EventLog.v
Auth.v
CodexEvents.v
CodexBridge.v
Sessions.v
Gateway.v
GatewayInv.v
GatewayCancel.v
Admission.v
Paths.v
Base64.v
Attachments.v
Relay.v
RelayClient.v
RelayInv.v
Threads.v
Aggregator.v
Timeline.v
Client.v
Delivery.v
WebSocketServer.v
Replay.v
EnvFile.v
RelayIdentity.v
CodexPath.v
CodexLink.v
ServerConfig.v
Process.v
Routes.v
Markdown.v
Highlight.v
Desktop.v
DesktopInv.v
Launcher.v
LauncherInv.v
ThreadSources.v
AppHook.v
AppHookInv.v
AppConnection.v
AppAccounts.v
Views.v
Forms.v
