(* ===== verification/Prelude.v ===== *)
(** * CodeHarbor Gateway: a verification library

    CodeHarbor lets a phone or a browser drive the Codex agent that runs on the
    user's computer. The part verified here is the gateway,
    src/gateway/acode-upstream: a Node server (server/src) that starts Codex as
    a child process, keeps sessions and their event logs on disk, serves an HTTP
    and WebSocket interface, and connects to a cloud relay; the launcher that
    configures and starts it (server/src/cli.ts); the desktop shell around it
    (desktop/electron/main.cjs); and the app, which keeps a connection and
    carries out the user's actions (app/src/hooks/useCodeHarbor.ts), folds events
    into a timeline (app/src/aggregator.ts), draws messages
    (app/src/components/MarkdownView.tsx, CodeBlock.tsx) and offers the user its
    views and forms (app/src/components).

    ** How the parts interact

    A request reaches a handler of index.ts. The handler checks the caller
    (auth.ts), resolves the session and its workspace, admits at most one turn
    per session (turnGate.ts), reserves the client's request id in the store
    (gatewayStore.ts), and starts a background run whose generation number
    (sessionRunState.ts) tells it later whether it was superseded. The run asks
    the Codex bridge (codexBridge.ts) over JSON-RPC; Codex answers and sends
    notifications, which index.ts turns into gateway messages and the bridge asks
    approvals for. A broadcast stores the message in the event log,
    updates the session it is about, and sends it to the clients. Clients replay
    what they missed by sequence number and fold events into turns. The relay
    client (relayClient.ts) keeps one authenticated socket to the cloud, tells
    it the list of sessions (relaySessionSync.ts) and executes the HTTP requests
    it forwards (relayProxy.ts). On the other side the app sends its requests
    to the relay as frames, and each waits for the frame that answers it. The
    desktop shell keeps the account and the secrets of an installation, starts
    the gateway with them and stops it when it quits.

    ** Files, sources and what is proved

    - [Prelude]: notation, tactics, hint databases, lists, JavaScript [Map] and
      [Set] as insertion-ordered lists. [JsValue]: dynamic values, own
      properties and spread, strings. [JsDate]: UTC dates, [Date.parse] and
      [toISOString]. [Json]: [JSON.stringify].
    - [TurnControl] (turnGate.ts, sessionRunState.ts): mutual exclusion of
      turns; which generation is current.
    - [GatewayStore] (gatewayStore.ts) with [StoreInv] (invariant of the whole
      store over any sequence of operations; exclusive reservations, and the
      eviction that ends one early; restart from the snapshot, and the failed
      write that is not repeated) and [EventLog] (in histories that are [tame],
      that is without failed writes and with pending events in the cache, the log
      with its write queue, cache and JSONL files refines a list of events and
      replay is complete; deletion erases; an eviction that repeats a sequence
      number).
    - [Auth] (auth.ts): bounded login failures, soundness and round trip of
      tokens, guarded routes.
    - [CodexEvents] (index.ts, the translation of notifications): the copies a
      message carries are bounded; every notification becomes a message the log
      accepts, of a type the protocol announces, but for one.
    - [CodexBridge] (codexBridge.ts): framing independent of chunking, approvals
      fail closed, bounded tables, the child's environment. [CodexLink], the
      same file's start-up: the processes, the handshake, the callers that wait
      for it. No request precedes the handshake, every call has an outcome or
      waits for a connection that is under way, one process at a time.
    - [Sessions] and [Gateway] (index.ts): the handlers as steps between awaits.
      A step receives the result of the call it waited for, so a run of the
      gateway is a list of events in any order the environment chooses.
      [GatewayInv]: the gateway only moves the store by the store's operations,
      full access needs a confirmation, one current run per session.
      [GatewayCancel]: what a superseded run can still do, a stop is not undone by
      late events other than approval requests, failures release the gate.
      [Admission]: behaviours of the code that
      contradict its intent, as theorems. [Routes]: the routes that only read, the
      widget's summary, and the error handler, whose answers disclose nothing at
      500 and above. [Process] (main.ts, audit.ts, sqlite.ts): signals and the end
      of the process, the audit file, the call of the SQLite program.
    - [Paths] (index.ts, the file-system routes), [Base64], [Attachments]
      (attachments.ts): what listing, download and upload can touch.
    - [Relay] (relaySessionSync.ts, relayProxy.ts): what leaves the computer, and
      what a forwarded request can do. [RelayClient] (relayClient.ts) as a state
      machine, [RelayInv] its invariant: one connection, final revocation,
      credentials of the handshake. [RelayIdentity]: addresses and the identity of
      a machine.
    - [Threads] (threads.ts and the thread lookup of index.ts): metadata and
      timelines of rollout files, complete and terminating pagination.
    - [Aggregator] (app/src/aggregator.ts) and [Timeline]: no event loses a turn,
      its prompt, its text, or a row of it.
    - [Client] (app/src/hooks/useCodeHarbor.ts): cursors, gap recovery, paged
      history, frames. [Delivery]: under repetition, reordering and loss of
      frames each session's events are consumed once and in order, until the
      server moves a cursor itself.
    - [AppHook], the rest of the same hook as a state machine whose events are
      those of the browser and the user: sockets and timers, requests proxied
      through the relay, HTTP calls, effects, sign-in, the user's actions.
      [AppHookInv]: every request is settled once. [AppConnection]: a signed-in
      app always has a way back, one socket at a time, unless a refresh repeats
      the token. [AppAccounts]: signing out is final but for lists still under
      way and the user name; a prompt is shown once.
    - [Markdown] (MarkdownView.tsx): on which messages the block parser ends, the
      links a message can carry, and that inline text loses only markers.
      [Highlight] (CodeBlock.tsx): colouring code keeps every character.
    - [Views] (utils.ts, SessionSidebar.tsx, ChatCanvas.tsx, DiffView.tsx,
      RawEventDrawer.tsx): the session list is complete and grouped, the
      interrupt button follows the hook, what a diff line keeps. [Forms]
      (ApprovalCard.tsx, MessageComposer.tsx, NewSessionModal.tsx and the handlers
      of Header.tsx, LandingPage.tsx, SettingsModal.tsx): state machines of the
      components that call the hook; one decision per card, no empty or concurrent
      message, full access only after a confirmation the gateway accepts.
    - [WebSocketServer] (the [/ws] route of index.ts): admission, heartbeat,
      replay, broadcast. [Replay] puts the log, the server and the client
      together: a client that reconnects catches up within the limits of one
      reply, and does not continue after a truncated one.
    - [EnvFile] (the configuration file as cli.ts and config.ts read and write
      it), [CodexPath] (codexPath.ts), [ServerConfig] (config.ts), [Launcher]
      (cli.ts, officialRelay.ts): the commands as functions on files and output.
      [LauncherInv]: a new configuration is one the server accepts with the
      values the launcher chose; keeping the file up to date is stable.
    - [Desktop] and [DesktopInv] (desktop/electron/main.cjs): settings, secrets,
      the gateway's process, sign-in and windows as a state machine. Quitting stops
      the gateway as long as no late exit is reported, accounts and passwords stay
      paired, secrets survive a restart if no write of the settings failed.
    - [ThreadSources] (threads.ts, index.ts): the SQL text and the rows of the
      Codex database, the app-server's list, the choice of a source, the search
      of rollout files. Queries are safe for every thread id; the search ends
      and finds what is there.

    ** Conventions

    Definitions keep the names of the source. Stateful code passes its state
    explicitly; code that can throw returns [option], a sum, or a type of its
    own with one constructor per outcome. Time, random ids, and the answers of
    Codex, the network, the file system and the disk are arguments of the
    operations, so theorems hold for all of them. A JavaScript object used as a
    map is an association list in insertion order, because the sources depend on
    that order; where its keys are free text, what the object inherits is
    modelled too ([flag] in [Views]). Numbers are integers of unbounded size where the source checks
    [Number.isSafeInteger], and the check is part of the model; sequence numbers
    saturate as doubles do at 2^53 ([js_succ]).

    Recursion is structural except for: the ten pages of [findThreadSummary],
    which is the source's own bound; [follow] in [Threads], a client that follows
    cursors, whose fuel of one page per thread and one more is proved enough;
    [find_loop] and [index_loop] in [ThreadSources], whose fuel of one per
    directory is proved enough; the twenty ports of [next_free] and the depth 4
    of [getEventSessionId], the source's bounds; [inline_loop] of [Markdown] and
    [tokens] of [Highlight], for which one turn per character is proved enough;
    [block_loop] of [Markdown], which ends within one turn per line exactly on the
    messages the source ends on ([markdown_terminates]). The two commits after an event
    of [AppHook] are enough because a commit that does not change the token does
    not change what effects depend on (lemma [effects_settle]).

    ** What is not modelled

    - The markup, styles, scrolling and clipboard of the React components, and the
      texts of utils.ts for sizes, durations and local times: they rest on
      floating-point logarithms and on the locale. What components compute and
      decide is in [Views] and [Forms].
    - The renderer and the preload script of the desktop shell (desktop/renderer),
      which forward buttons to the modelled handlers.
    - The packaging and probe scripts (scripts): build tooling.
    - The cloud relay server (cloud-relay-go), a program of its own in another
      language; its messages are arbitrary inputs.
    - SQLite, Electron, the browser's [URL] parser, SHA-256 and the other libraries
      the sources call: parameters.
    - Static file serving, the set-up of Fastify and its schemas in index.ts, and
      the list of past releases in config.ts, which is data. *)

From stdpp Require Export base list strings gmap sorting pretty.
From Stdlib Require Export ZArith Lia.

Declare Scope js_scope.
Delimit Scope js_scope with js.
Notation "a === b" := (String.eqb a b) (at level 70) : js_scope.
Notation "a !== b" := (negb (String.eqb a b)) (at level 70) : js_scope.
#[global] Open Scope js_scope.

(** ** Automation *)

Create HintDb js discriminated.
Create Rewrite HintDb js_map.

(** Destruct every [match] and [if] left in the goal or the hypotheses and
    close the branches that congruence sees. *)
Ltac js_cases := repeat (case_match; simplify_eq/=; try congruence).

(** Turn boolean string tests into (dis)equalities. *)
Ltac str_cases :=
  repeat match goal with
  | H : String.eqb _ _ = true |- _ => apply String.eqb_eq in H; subst
  | H : String.eqb _ _ = false |- _ => apply String.eqb_neq in H
  | H : negb _ = true |- _ => apply negb_true_iff in H
  | H : negb _ = false |- _ => apply negb_false_iff in H
  | H : andb _ _ = true |- _ => apply andb_true_iff in H as [? ?]
  | H : orb _ _ = false |- _ => apply orb_false_iff in H as [? ?]
  end.

(** ** Lists *)

(** [xs.slice(-n)] for [n > 0]. *)
Definition lastn {A} (n : nat) (l : list A) : list A := drop (length l - n) l.

(** [xs.at(-1)]. *)
Definition at_last {A} (l : list A) : option A := last l.

Section lists.
Context {A : Type}.
Implicit Types l : list A.

Lemma length_lastn n l : length (lastn n l) = Nat.min n (length l).
Proof. unfold lastn. rewrite length_drop. lia. Qed.

Lemma lastn_le n l : length (lastn n l) <= n.
Proof. rewrite length_lastn. lia. Qed.

Lemma lastn_all n l : length l <= n -> lastn n l = l.
Proof. intros. unfold lastn. by replace (length l - n) with 0 by lia. Qed.

Lemma lastn_suffix n l : exists l', l = l' ++ lastn n l.
Proof. exists (take (length l - n) l). unfold lastn. by rewrite take_drop. Qed.

Lemma elem_of_lastn n l x : x ∈ lastn n l -> x ∈ l.
Proof. destruct (lastn_suffix n l) as [l' E]. rewrite E at 2. set_solver. Qed.

Lemma lastn_snoc n l x : 0 < n -> x ∈ lastn n (l ++ [x]).
Proof.
  intros. unfold lastn. rewrite length_app. simpl.
  rewrite drop_app_le by lia. set_solver.
Qed.

Lemma NoDup_lastn n l : NoDup l -> NoDup (lastn n l).
Proof. intros H. destruct (lastn_suffix n l) as [l' E]. rewrite E in H.
  by apply NoDup_app in H as (_ & _ & H). Qed.

Lemma Forall_lastn P n l : Forall P l -> Forall P (lastn n l).
Proof. unfold lastn. by apply Forall_drop. Qed.
End lists.

(** Stable insertion sort: [Array.prototype.sort] is stable, so an element is
    placed after the elements it is not strictly smaller than. *)
Section isort.
Context {A : Type} (lt : A -> A -> bool).

Fixpoint insert_sorted (x : A) (l : list A) : list A :=
  match l with
  | [] => [x]
  | y :: l' => if lt y x then y :: insert_sorted x l' else x :: l
  end.

(** Elements are inserted from the right, each before its equals, so equal
    elements keep their order. *)
Definition isort (l : list A) : list A := foldr insert_sorted [] l.

Lemma insert_sorted_perm x l : insert_sorted x l ≡ₚ x :: l.
Proof.
  induction l as [|y l IH]; simpl; [done|].
  case_match; [|done]. rewrite IH. apply Permutation_swap.
Qed.

Lemma isort_perm l : isort l ≡ₚ l.
Proof. induction l as [|x l IH]; simpl; [done|]. by rewrite insert_sorted_perm, IH. Qed.

Lemma isort_elem_of x l : x ∈ isort l <-> x ∈ l.
Proof. by rewrite isort_perm. Qed.

Context (Htr : forall x y z, lt x y = false -> lt y z = false -> lt x z = false).
Context (Has : forall x y, lt x y = true -> lt y x = false).

#[local] Abbreviation le := (fun x y => lt y x = false).

Lemma insert_sorted_sorted x l :
  StronglySorted le l -> StronglySorted le (insert_sorted x l).
Proof using Htr Has.
  induction 1 as [|y l Hs IH Hf]; simpl; [by repeat constructor|].
  case_match eqn:E.
  - constructor; [done|]. rewrite insert_sorted_perm. constructor; [auto|done].
  - constructor; [by constructor|]. constructor; [done|].
    eapply Forall_impl; [done|]. simpl. intros z Hz. eauto.
Qed.

Lemma isort_sorted l : StronglySorted le (isort l).
Proof using Htr Has.
  induction l as [|x l IH]; simpl; [constructor|]. by apply insert_sorted_sorted.
Qed.
End isort.

Lemma Permutation_List_filter {A} (p : A -> bool) l l' : l ≡ₚ l' -> List.filter p l ≡ₚ List.filter p l'.
Proof.
  induction 1 as [|x l l' _ IH|x y l|l l' l'' _ IH _ IH']; simpl; [done|..].
  - destruct (p x); by rewrite IH.
  - destruct (p x), (p y); try done. apply Permutation_swap.
  - by rewrite IH.
Qed.

(** An already sorted list is left alone. *)
Lemma isort_id {A} (lt : A -> A -> bool) l :
  StronglySorted (fun x y => lt y x = false) l -> isort lt l = l.
Proof.
  induction 1 as [|x l Hs IH Hf]; simpl; [done|]. rewrite IH.
  destruct Hf as [|y l E Hf]; simpl; [done|]. by rewrite E.
Qed.

(** ** The JavaScript [Map]: insertion-ordered association lists

    [set] on a present key keeps its position; iteration and
    [keys().next()] follow insertion order. *)

Abbreviation jmap K V := (list (K * V)).

Section jmap.
Context {K V : Type} `{EqDecision K}.
Implicit Types (m : jmap K V) (k : K) (v : V).

Fixpoint mget k m : option V :=
  match m with
  | [] => None
  | (k', v) :: m' => if decide (k' = k) then Some v else mget k m'
  end.

Fixpoint mset k v m : jmap K V :=
  match m with
  | [] => [(k, v)]
  | (k', v') :: m' => if decide (k' = k) then (k, v) :: m' else (k', v') :: mset k v m'
  end.

Fixpoint mdelete k m : jmap K V :=
  match m with
  | [] => []
  | (k', v') :: m' => if decide (k' = k) then mdelete k m' else (k', v') :: mdelete k m'
  end.

Definition mhas k m : bool := match mget k m with Some _ => true | None => false end.

(** [for (const [k, v] of map) if (!p) map.delete(k)] *)
Definition mfilter (p : K -> V -> bool) m : jmap K V := List.filter (fun e => p e.1 e.2) m.

(** [while (map.size > max) map.delete(map.keys().next().value)] *)
Fixpoint mshrink (max : nat) m : jmap K V :=
  match m with
  | [] => []
  | _ :: m' => if decide (max < length m) then mshrink max m' else m
  end.

Lemma mget_mset_eq k v m : mget k (mset k v m) = Some v.
Proof. induction m as [|[k' v'] m IH]; simpl; [by rewrite decide_True|].
  case_decide; simpl; case_decide; naive_solver. Qed.

Lemma mget_mset_ne k k' v m : k' ≠ k -> mget k (mset k' v m) = mget k m.
Proof. intros. induction m as [|[k0 v0] m IH]; simpl; [by rewrite decide_False|].
  repeat (case_decide; simpl); naive_solver. Qed.

Lemma mget_mset k k' v m :
  mget k (mset k' v m) = if decide (k' = k) then Some v else mget k m.
Proof. case_decide; [subst; apply mget_mset_eq | by apply mget_mset_ne]. Qed.

Lemma mget_mdelete_eq k m : mget k (mdelete k m) = None.
Proof. induction m as [|[k' v'] m IH]; simpl; [done|]. case_decide; [done|].
  simpl. by rewrite decide_False. Qed.

Lemma mget_mdelete_ne k k' m : k' ≠ k -> mget k (mdelete k' m) = mget k m.
Proof. intros. induction m as [|[k0 v0] m IH]; simpl; [done|].
  repeat (case_decide; simpl); naive_solver. Qed.

Lemma mget_mdelete k k' m :
  mget k (mdelete k' m) = if decide (k' = k) then None else mget k m.
Proof. case_decide; [subst; apply mget_mdelete_eq | by apply mget_mdelete_ne]. Qed.

Lemma mhas_true k m : mhas k m = true <-> is_Some (mget k m).
Proof. unfold mhas. destruct (mget k m); naive_solver. Qed.

Lemma mhas_false k m : mhas k m = false <-> mget k m = None.
Proof. unfold mhas. destruct (mget k m); naive_solver. Qed.

Lemma mget_Some_elem k v m : mget k m = Some v -> (k, v) ∈ m.
Proof. induction m as [|[k' v'] m IH]; simpl; [done|].
  case_decide; intros; simplify_eq; set_solver. Qed.

Lemma mget_None_keys k m : mget k m = None <-> k ∉ m.*1.
Proof. induction m as [|[k' v'] m IH]; csimpl; [set_solver|].
  rewrite not_elem_of_cons. case_decide; naive_solver. Qed.

Lemma elem_mget k v m : NoDup m.*1 -> (k, v) ∈ m -> mget k m = Some v.
Proof.
  induction m as [|[k' v'] m IH]; simpl; [set_solver|].
  intros [Hk Hnd]%NoDup_cons [?|Hin]%elem_of_cons; simplify_eq; [by rewrite decide_True|].
  case_decide as E; [|auto]. subst. exfalso. apply Hk.
  apply list_elem_of_fmap. by exists (k, v).
Qed.

Lemma mget_elem_iff k v m : NoDup m.*1 -> mget k m = Some v <-> (k, v) ∈ m.
Proof. intros. split; [apply mget_Some_elem | by apply elem_mget]. Qed.

Lemma mset_keys k v m : (mset k v m).*1 = if mhas k m then m.*1 else m.*1 ++ [k].
Proof.
  unfold mhas in *. induction m as [|[k' v'] m IH]; csimpl; [done|].
  case_decide; csimpl; [by subst|]. rewrite IH. by destruct (mget k m).
Qed.

Lemma mset_NoDup k v m : NoDup m.*1 -> NoDup (mset k v m).*1.
Proof.
  intros H. rewrite mset_keys. destruct (mhas k m) eqn:E; [done|].
  apply mhas_false, mget_None_keys in E.
  apply NoDup_app. split_and!; [done| set_solver | apply NoDup_singleton].
Qed.

Lemma mfilter_keys_sub p m : (mfilter p m).*1 `sublist_of` m.*1.
Proof.
  unfold mfilter. induction m as [|[k v] m IH]; simpl; [constructor|].
  destruct (p k v); simpl; by constructor.
Qed.

Lemma mfilter_NoDup p m : NoDup m.*1 -> NoDup (mfilter p m).*1.
Proof. intros. eapply sublist_NoDup; eauto using mfilter_keys_sub. Qed.

Lemma mdelete_mfilter k m : mdelete k m = mfilter (fun k' _ => negb (bool_decide (k' = k))) m.
Proof.
  unfold mfilter. induction m as [|[k' v'] m IH]; simpl; [done|].
  case_decide; [rewrite bool_decide_true by done | rewrite bool_decide_false by done];
    simpl; by rewrite IH.
Qed.

Lemma mdelete_NoDup k m : NoDup m.*1 -> NoDup (mdelete k m).*1.
Proof. rewrite mdelete_mfilter. apply mfilter_NoDup. Qed.

Lemma mdelete_length k m : length (mdelete k m) <= length m.
Proof. induction m as [|[k' v'] m IH]; simpl; [lia|]. case_decide; simpl; lia. Qed.

Lemma mdelete_absent k m : mget k m = None -> mdelete k m = m.
Proof. induction m as [|[k' v'] m IH]; simpl; [done|]. case_decide; [done|].
  intros. f_equal. auto. Qed.

Lemma mset_length k v m :
  length (mset k v m) = if mhas k m then length m else S (length m).
Proof.
  unfold mhas. induction m as [|[k' v'] m IH]; simpl; [done|].
  case_decide; simpl; [done|]. rewrite IH. by destruct (mget k m).
Qed.

Lemma mset_absent k v m : mget k m = None -> mset k v m = m ++ [(k, v)].
Proof. induction m as [|[k' v'] m IH]; simpl; [done|]. case_decide; [done|].
  intros. f_equal. auto. Qed.

Lemma mget_mfilter p k m :
  NoDup m.*1 ->
  mget k (mfilter p m) = match mget k m with Some v => if p k v then Some v else None | None => None end.
Proof.
  unfold mfilter. induction m as [|[k' v'] m IH]; simpl; [done|].
  intros [Hk Hnd]%NoDup_cons. specialize (IH Hnd). case_decide as E.
  - subst. destruct (p k v') eqn:P; simpl; [by rewrite decide_True|].
    rewrite IH. apply mget_None_keys in Hk. by rewrite Hk.
  - destruct (p k' v'); simpl; [by rewrite decide_False|done].
Qed.

Lemma mshrink_drop max m : mshrink max m = lastn max m.
Proof.
  unfold lastn. induction m as [|e m IH]; [done|]. cbn [mshrink]. case_decide as E.
  - rewrite IH. simpl in *. by replace (S (length m) - max) with (S (length m - max)) by lia.
  - by replace (length (e :: m) - max) with 0 by (simpl in *; lia).
Qed.

Lemma mshrink_length max m : length (mshrink max m) <= max.
Proof. rewrite mshrink_drop. apply lastn_le. Qed.

Lemma mshrink_NoDup max m : NoDup m.*1 -> NoDup (mshrink max m).*1.
Proof. rewrite mshrink_drop. unfold lastn. rewrite fmap_drop.
  replace (length m - max) with (length m.*1 - max) by (by rewrite length_fmap).
  apply NoDup_lastn. Qed.

Lemma mget_lastn_Some n k v m :
  NoDup m.*1 -> mget k (lastn n m) = Some v -> mget k m = Some v.
Proof. intros Hnd H%mget_Some_elem%elem_of_lastn. by apply elem_mget. Qed.
End jmap.

#[export] Hint Resolve mset_NoDup mdelete_NoDup mfilter_NoDup mshrink_NoDup NoDup_lastn : js.
#[export] Hint Rewrite @mget_mset_eq @mget_mdelete_eq : js_map.

(** Case analysis on the keys of map updates. *)
Ltac map_cases :=
  repeat match goal with
  | H : context [mget _ (mset _ _ _)] |- _ => rewrite mget_mset in H; case_decide; simplify_eq
  | H : context [mget _ (mdelete _ _)] |- _ => rewrite mget_mdelete in H; case_decide; simplify_eq
  | |- context [mget _ (mset _ _ _)] => rewrite mget_mset; case_decide; simplify_eq
  | |- context [mget _ (mdelete _ _)] => rewrite mget_mdelete; case_decide; simplify_eq
  end.

(** ** The JavaScript [Set] of strings: insertion-ordered lists *)

Section jset.
Context {K : Type} `{EqDecision K}.
Implicit Types (s : list K) (k : K).

Definition shas k s : bool := bool_decide (k ∈ s).
Definition sadd k s : list K := if shas k s then s else s ++ [k].
Definition sdelete k s : list K := List.filter (fun x => negb (bool_decide (x = k))) s.

Lemma shas_true k s : shas k s = true <-> k ∈ s.
Proof. apply bool_decide_eq_true. Qed.

Lemma shas_false k s : shas k s = false <-> k ∉ s.
Proof. apply bool_decide_eq_false. Qed.

Lemma elem_of_sadd x k s : x ∈ sadd k s <-> x = k \/ x ∈ s.
Proof. unfold sadd. destruct (shas k s) eqn:E; [apply shas_true in E | apply shas_false in E];
  set_solver. Qed.

Lemma elem_of_sdelete x k s : x ∈ sdelete k s <-> x ≠ k /\ x ∈ s.
Proof. unfold sdelete. rewrite list_elem_of_In, filter_In, <- list_elem_of_In.
  rewrite negb_true_iff, bool_decide_eq_false. naive_solver. Qed.

Lemma sadd_NoDup k s : NoDup s -> NoDup (sadd k s).
Proof. unfold sadd. destruct (shas k s) eqn:E; [done|]. apply shas_false in E.
  intros. apply NoDup_app. split_and!; [done|set_solver|apply NoDup_singleton]. Qed.

Lemma shas_sadd x k s : shas x (sadd k s) = bool_decide (x = k) || shas x s.
Proof. apply eq_bool_prop_intro. rewrite orb_True, !Is_true_true, !shas_true, elem_of_sadd,
  bool_decide_eq_true. done. Qed.

Lemma shas_sdelete x k s : shas x (sdelete k s) = negb (bool_decide (x = k)) && shas x s.
Proof. apply eq_bool_prop_intro. rewrite andb_True, !Is_true_true, !shas_true, elem_of_sdelete,
  negb_true_iff, bool_decide_eq_false. done. Qed.
End jset.

(** ** Numbers *)

Definition max_safe_integer : Z := 9007199254740991.

(** [Number.isSafeInteger] on an integral number. *)
Definition is_safe_integer (z : Z) : bool := (Z.abs z <=? max_safe_integer)%Z.
