(* ===== verification/JsValue.v ===== *)
(** * JavaScript values

    The part of the language and of its standard library the sources use:
    dynamic values ([unknown], [JSON.parse] results), truthiness and property
    reads, string methods, [encodeURIComponent], UTC dates, and the own-property
    semantics of object spread.

    Strings are lists of code units in the range U+0000..U+00FF; literals of
    the sources outside that range are written in UTF-8 and never measured.
    A number is an integer, a finite non-integer (kept by its floor, the only
    part the sources compare with integers, and its decimal form), NaN or an
    infinity. *)

From Stdlib Require Import Ascii.
From S2P Require Import Prelude.

(** ** Dynamic values *)

Inductive num :=
| NInt (z : Z)
| NFrac (floor : Z) (repr : string)
| NNaN
| NInf (pos : bool).

#[global] Instance num_eq_dec : EqDecision num.
Proof. solve_decision. Defined.

Unset Elimination Schemes.
Inductive val :=
| VUndef
| VNull
| VBool (b : bool)
| VNum (n : num)
| VStr (s : string)
| VArr (l : list val)
| VObj (fs : list (string * val)).
Set Elimination Schemes.

(** Induction that reaches into arrays and objects. *)
Definition val_ind (P : val -> Prop)
    (Hu : P VUndef) (Hn : P VNull) (Hb : forall b, P (VBool b))
    (Hm : forall n, P (VNum n)) (Hs : forall s, P (VStr s))
    (Ha : forall l, Forall P l -> P (VArr l))
    (Ho : forall fs, Forall (fun e => P e.2) fs -> P (VObj fs)) : forall v, P v :=
  fix go v :=
    match v with
    | VUndef => Hu
    | VNull => Hn
    | VBool b => Hb b
    | VNum n => Hm n
    | VStr s => Hs s
    | VArr l => Ha l ((fix all l := match l return Forall P l with
                       | [] => Forall_nil_2 _
                       | x :: l' => Forall_cons_2 _ _ _ (go x) (all l') end) l)
    | VObj fs => Ho fs ((fix all l := match l return Forall (fun e => P e.2) l with
                       | [] => Forall_nil_2 _
                       | x :: l' => Forall_cons_2 _ _ _ (go x.2) (all l') end) fs)
    end.

Abbreviation vint z := (VNum (NInt z)).

Definition is_finite (n : num) : bool :=
  match n with NInt _ | NFrac _ _ => true | _ => false end.

(** [Number.isSafeInteger(value)] on any value. *)
Definition safe_integer (v : val) : option Z :=
  match v with
  | VNum (NInt z) => if is_safe_integer z then Some z else None
  | _ => None
  end.

(** [n > z] and [n <= z] for an integer [z]. *)
Definition num_gtb (n : num) (z : Z) : bool :=
  match n with
  | NInt x => (z <? x)%Z
  | NFrac f _ => (z <=? f)%Z
  | NInf pos => pos
  | NNaN => false
  end.

Definition num_is_zero_or_nan (n : num) : bool :=
  match n with NInt z => (z =? 0)%Z | NNaN => true | _ => false end.

Definition truthy (v : val) : bool :=
  match v with
  | VUndef | VNull => false
  | VBool b => b
  | VNum n => negb (num_is_zero_or_nan n)
  | VStr s => s !== ""
  | VArr _ | VObj _ => true
  end.

(** [value && typeof value === "object"] *)
Definition is_object (v : val) : bool :=
  match v with VArr _ | VObj _ => true | _ => false end.

(** [Array.isArray(value)] *)
Definition as_array (v : val) : option (list val) :=
  match v with VArr l => Some l | _ => None end.

(** [typeof value === "string" ? value : undefined] *)
Definition as_str (v : val) : option string :=
  match v with VStr s => Some s | _ => None end.

(** [value.key] on a value already known to be an object, and [value?.key] on
    any value; arrays and primitives have none of the keys the sources read. *)
Definition prop (key : string) (v : val) : val :=
  match v with
  | VObj fs => match mget key fs with Some x => x | None => VUndef end
  | _ => VUndef
  end.

(** ["key" in value] *)
Definition has_prop (key : string) (v : val) : bool :=
  match v with VObj fs => mhas key fs | _ => false end.

(** [a ?? b] and [a || b] *)
Definition nullish (a b : val) : val :=
  match a with VUndef | VNull => b | _ => a end.
Definition v_or (a b : val) : val := if truthy a then a else b.

Definition opt_val {A} (f : A -> val) (o : option A) : val :=
  match o with Some a => f a | None => VUndef end.

(** [JSON.parse(JSON.stringify(v))]: undefined object fields disappear,
    undefined array elements and non-finite numbers become null. *)
Fixpoint json_clone (v : val) : val :=
  match v with
  | VNum n => if is_finite n then v else VNull
  | VArr l => VArr (map (fun x => match x with VUndef => VNull | _ => json_clone x end) l)
  | VObj fs =>
      VObj ((fix go fs := match fs with
             | [] => []
             | (k, x) :: fs' => match x with
                                | VUndef => go fs'
                                | _ => (k, json_clone x) :: go fs'
                                end
             end) fs)
  | _ => v
  end.

(** ** Own properties and object spread

    An optional property of an object literal is absent, present with the
    value [undefined], or present with a value. [{...old, ...new}] copies the
    properties [new] owns, so a present [undefined] overwrites. *)

Inductive field (A : Type) :=
| Absent
| Undef
| Val (a : A).
Arguments Absent {A}.
Arguments Undef {A}.
Arguments Val {A} a.

#[global] Instance field_eq_dec {A} `{EqDecision A} : EqDecision (field A).
Proof. solve_decision. Defined.

Definition spread {A} (old new : field A) : field A :=
  match new with Absent => old | _ => new end.

(** Reading a property: [undefined] when absent. *)
Definition fget {A} (f : field A) : option A :=
  match f with Val a => Some a | _ => None end.

(** [{ key: o }] with [o] of type [A | undefined]. *)
Definition of_opt {A} (o : option A) : field A :=
  match o with Some a => Val a | None => Undef end.

(** [JSON.parse(JSON.stringify(...))] of one property. *)
Definition fclone {A} (f : field A) : field A :=
  match f with Undef => Absent | _ => f end.

Lemma fget_spread {A} (old new : field A) a :
  new = Val a -> fget (spread old new) = Some a.
Proof. by intros ->. Qed.

(** Truthiness and equality of [string | undefined]. *)
Definition str_truthy (o : option string) : bool :=
  match o with Some s => s !== "" | None => false end.
Definition opt_str_eqb (a b : option string) : bool :=
  match a, b with
  | Some x, Some y => x === y
  | None, None => true
  | _, _ => false
  end.

(** ** Strings *)

Definition slen (s : string) : nat := String.length s.
Definition slice0 (n : nat) (s : string) : string := String.substring 0 n s.
Fixpoint starts_with (p s : string) : bool :=
  match p, s with
  | "", _ => true
  | String c p', String d s' => Ascii.eqb c d && starts_with p' s'
  | String _ _, "" => false
  end.
Fixpoint sapp (a b : string) : string :=
  match a with "" => b | String c a' => String c (sapp a' b) end.
Infix "^^" := sapp (at level 60, right associativity) : js_scope.

Fixpoint srev_onto (s acc : string) : string :=
  match s with "" => acc | String c s' => srev_onto s' (String c acc) end.
Definition srev (s : string) : string := srev_onto s "".

Definition ends_with (p s : string) : bool := starts_with (srev p) (srev s).

Fixpoint skip (n : nat) (s : string) : string :=
  match n, s with
  | 0, _ => s
  | S n', String _ s' => skip n' s'
  | S _, "" => ""
  end.

(** [s.includes(p)] *)
Fixpoint includes (p s : string) : bool :=
  starts_with p s || match s with "" => false | String _ s' => includes p s' end.

Definition code (c : ascii) : nat := nat_of_ascii c.

(** White space and line terminators up to U+00FF. *)
Definition is_space (c : ascii) : bool :=
  let n := code c in
  ((9 <=? n) && (n <=? 13) || (n =? 32) || (n =? 160))%nat.

Fixpoint trim_start (s : string) : string :=
  match s with
  | "" => ""
  | String c s' => if is_space c then trim_start s' else s
  end.
Definition trim_end (s : string) : string := srev (trim_start (srev s)).
Definition trim (s : string) : string := trim_end (trim_start s).

Definition lower_char (c : ascii) : ascii :=
  let n := code c in
  if ((65 <=? n) && (n <=? 90) || (192 <=? n) && (n <=? 222) && negb (n =? 215))%nat
  then ascii_of_nat (n + 32) else c.

Fixpoint smap (f : ascii -> ascii) (s : string) : string :=
  match s with "" => "" | String c s' => String (f c) (smap f s') end.
Definition to_lower : string -> string := smap lower_char.

Fixpoint sfilter (f : ascii -> bool) (s : string) : string :=
  match s with
  | "" => ""
  | String c s' => if f c then String c (sfilter f s') else sfilter f s'
  end.

Fixpoint sforall (f : ascii -> bool) (s : string) : bool :=
  match s with "" => true | String c s' => f c && sforall f s' end.

(** [s.split(c)] for a one-character separator. *)
Fixpoint split_char (c : ascii) (s : string) : list string :=
  match s with
  | "" => [""]
  | String a s' =>
      if Ascii.eqb a c then "" :: split_char c s'
      else match split_char c s' with
           | [] => [String a ""]
           | x :: xs => String a x :: xs
           end
  end.

(** [xs.join(sep)] *)
Fixpoint join (sep : string) (xs : list string) : string :=
  match xs with
  | [] => ""
  | [x] => x
  | x :: xs' => x ^^ sep ^^ join sep xs'
  end.

(** [s.replace(/\s+/g, " ")] *)
Fixpoint collapse_spaces (s : string) : string :=
  match s with
  | "" => ""
  | String c s' =>
      if is_space c then
        match s' with
        | String d _ => if is_space d then collapse_spaces s' else String " " (collapse_spaces s')
        | "" => " "
        end
      else String c (collapse_spaces s')
  end.

(** [Buffer.byteLength(s)]: UTF-8 length. *)
Fixpoint byte_length (s : string) : nat :=
  match s with
  | "" => 0
  | String c s' => (if (code c <? 128)%nat then 1 else 2) + byte_length s'
  end.

Definition zstr (z : Z) : string := pretty z.

(** [String(v)] of the primitives the sources convert. *)
Definition num_str (n : num) : string :=
  match n with
  | NInt z => zstr z
  | NFrac _ repr => repr
  | NNaN => "NaN"
  | NInf true => "Infinity"
  | NInf false => "-Infinity"
  end.

(** Code-unit order, the order of [<] on strings and of [localeCompare] on the
    ISO timestamps the sources sort by. *)
Fixpoint str_ltb (a b : string) : bool :=
  match a, b with
  | "", "" => false
  | "", String _ _ => true
  | String _ _, "" => false
  | String c a', String d b' =>
      if (code c <? code d)%nat then true
      else if (code d <? code c)%nat then false else str_ltb a' b'
  end.

Lemma str_ltb_irrefl a : str_ltb a a = false.
Proof. induction a as [|c a IH]; simpl; [done|]. by rewrite Nat.ltb_irrefl. Qed.

Lemma str_ltb_asym a b : str_ltb a b = true -> str_ltb b a = false.
Proof.
  revert b. induction a as [|c a IH]; intros [|d b]; simpl; try done.
  destruct (Nat.ltb_spec (code c) (code d)), (Nat.ltb_spec (code d) (code c)); auto; lia.
Qed.

Lemma str_ltb_negtrans a b c :
  str_ltb a b = false -> str_ltb b c = false -> str_ltb a c = false.
Proof.
  revert b c. induction a as [|x a IH]; intros [|y b] [|z c]; simpl; try done.
  destruct (Nat.ltb_spec (code x) (code y)), (Nat.ltb_spec (code y) (code x)),
    (Nat.ltb_spec (code y) (code z)), (Nat.ltb_spec (code z) (code y)),
    (Nat.ltb_spec (code x) (code z)), (Nat.ltb_spec (code z) (code x)); try done; try lia; eauto.
Qed.

Lemma slen_sapp a b : slen (a ^^ b) = slen a + slen b.
Proof. unfold slen. induction a as [|c a IH]; simpl; [done|]. by rewrite IH. Qed.

Lemma sapp_nil_r a : a ^^ "" = a.
Proof. induction a as [|c a IH]; simpl; [done|]. by rewrite IH. Qed.

Lemma sapp_assoc a b c : (a ^^ b) ^^ c = a ^^ (b ^^ c).
Proof. induction a as [|x a IH]; simpl; [done|]. by rewrite IH. Qed.

Lemma sapp_inj_l a b c : a ^^ b = a ^^ c -> b = c.
Proof. induction a as [|x a IH]; simpl; [done|]. intros [= H]. auto. Qed.

Lemma slice0_le n s : slen (slice0 n s) = Nat.min n (slen s).
Proof.
  unfold slice0, slen. revert n. induction s as [|c s IH]; intros [|n]; simpl; try done.
  by rewrite IH.
Qed.

Lemma slice0_all n s : slen s <= n -> slice0 n s = s.
Proof.
  unfold slice0, slen. revert n. induction s as [|c s IH]; intros [|n] H; simpl in *; try done.
  - lia.
  - rewrite IH; [done|lia].
Qed.

Lemma slice0_sapp n a b : slen a = n -> slice0 n (a ^^ b) = a.
Proof.
  unfold slice0, slen. revert n. induction a as [|c a IH]; intros n; simpl; intros <-.
  - by destruct b.
  - simpl. by rewrite IH.
Qed.

Lemma starts_with_iff p s : starts_with p s = true <-> exists t, s = p ^^ t.
Proof.
  revert s. induction p as [|c p IH]; intros s; simpl; [naive_solver|].
  destruct s as [|d s]; [naive_solver|].
  rewrite andb_true_iff, Ascii.eqb_eq, IH. naive_solver.
Qed.

Lemma starts_with_sapp p s : starts_with p (p ^^ s) = true.
Proof. apply starts_with_iff. by exists s. Qed.

Lemma sforall_sapp f a b : sforall f (a ^^ b) = sforall f a && sforall f b.
Proof. induction a as [|c a IH]; simpl; [done|]. by rewrite IH, andb_assoc. Qed.

Lemma sforall_impl (f g : ascii -> bool) s :
  (forall c, f c = true -> g c = true) -> sforall f s = true -> sforall g s = true.
Proof.
  intros H. induction s as [|c s IH]; simpl; [done|]. intros [Hc Hs]%andb_true_iff.
  by rewrite (H c Hc), IH.
Qed.

Lemma srev_onto_sforall f s acc : sforall f (srev_onto s acc) = sforall f s && sforall f acc.
Proof.
  revert acc. induction s as [|c s IH]; intros acc; simpl; [done|]. rewrite IH. simpl.
  by destruct (f c), (sforall f s).
Qed.

Lemma sforall_srev f s : sforall f (srev s) = sforall f s.
Proof. unfold srev. rewrite srev_onto_sforall. apply andb_true_r. Qed.

(** ** [encodeURIComponent] *)

Definition uri_unreserved (c : ascii) : bool :=
  let n := code c in
  ((48 <=? n) && (n <=? 57) || (65 <=? n) && (n <=? 90) || (97 <=? n) && (n <=? 122)
   || (n =? 45) || (n =? 95) || (n =? 46) || (n =? 33) || (n =? 126) || (n =? 42)
   || (n =? 39) || (n =? 40) || (n =? 41))%nat.

Definition hex_digit (n : nat) : ascii :=
  if (n <? 10)%nat then ascii_of_nat (48 + n) else ascii_of_nat (55 + n).

Definition pct_byte (n : nat) : string :=
  String "%" (String (hex_digit (n / 16)) (String (hex_digit (n mod 16)) "")).

(** UTF-8 bytes of one code unit below U+0100, percent-encoded. *)
Definition uri_char (c : ascii) : string :=
  let n := code c in
  if uri_unreserved c then String c ""
  else if (n <? 128)%nat then pct_byte n
  else pct_byte (192 + n / 64) ^^ pct_byte (128 + n mod 64).

Fixpoint encodeURIComponent (s : string) : string :=
  match s with "" => "" | String c s' => uri_char c ^^ encodeURIComponent s' end.

(** Decoding of the first character of an encoded component. *)
Definition unhex (c : ascii) : nat :=
  let n := code c in if (n <? 58)%nat then n - 48 else n - 55.

Definition uri_decode1 (s : string) : option (ascii * string) :=
  match s with
  | "" => None
  | String c s' =>
      if Ascii.eqb c "%" then
        match s' with
        | String h (String l rest) =>
            let b := 16 * unhex h + unhex l in
            if (b <? 128)%nat then Some (ascii_of_nat b, rest)
            else match rest with
                 | String _ (String h2 (String l2 rest2)) =>
                     Some (ascii_of_nat (64 * (b - 192) + (16 * unhex h2 + unhex l2 - 128)), rest2)
                 | _ => None
                 end
        | _ => None
        end
      else Some (c, s')
  end.

Lemma uri_decode1_char c s : uri_decode1 (uri_char c ^^ s) = Some (c, s).
Proof. destruct c as [[] [] [] [] [] [] [] []]; reflexivity. Qed.

Lemma encodeURIComponent_inj a b : encodeURIComponent a = encodeURIComponent b -> a = b.
Proof.
  revert b. induction a as [|c a IH]; intros [|d b]; simpl; intros H; try done;
    apply (f_equal uri_decode1) in H; rewrite ?uri_decode1_char in H; try done.
  injection H as -> H. f_equal. auto.
Qed.

(** An encoded component contains neither a path separator nor a NUL. *)
Definition no_separator (c : ascii) : bool :=
  negb (Ascii.eqb c "/") && negb (Ascii.eqb c "\") && negb (code c =? 0)%nat.

Lemma uri_char_safe c : sforall no_separator (uri_char c) = true.
Proof. destruct c as [[] [] [] [] [] [] [] []]; reflexivity. Qed.

Lemma encodeURIComponent_safe s : sforall no_separator (encodeURIComponent s) = true.
Proof. induction s as [|c s IH]; simpl; [done|]. by rewrite sforall_sapp, IH, uri_char_safe. Qed.
