(* ===== verification/JsDate.v ===== *)
(** * UTC dates

    [new Date(ms).toISOString()] and [Date.parse] on the ISO 8601 date-time
    strings the sources exchange (years 0000..9999, optional fraction, [Z] or a
    numeric offset), over the proleptic Gregorian calendar. [parse_iso_roundtrip]
    is the law every handler that stores and later compares a timestamp uses. *)

From Stdlib Require Import Ascii.
From S2P Require Import Prelude JsValue.

Local Open Scope Z_scope.

(** ** Calendar *)

Record civil := { c_year : Z; c_month : Z; c_day : Z }.

(** Day of a 400-year era, counted from March 1st. *)
Definition civil_of_doe (doe : Z) : Z * Z * Z :=
  let century := Z.min (doe / 36524) 3 in
  let in_century := doe - 36524 * century in
  let cycle := in_century / 1461 in
  let in_cycle := in_century - 1461 * cycle in
  let year := Z.min (in_cycle / 365) 3 in
  let doy := in_cycle - 365 * year in
  let mp := (5 * doy + 2) / 153 in
  (100 * century + 4 * cycle + year, mp, doy - (153 * mp + 2) / 5 + 1).

Definition doe_of_civil (yoe mp d : Z) : Z :=
  365 * yoe + yoe / 4 - yoe / 100 + ((153 * mp + 2) / 5 + d - 1).

Definition civil_of_days (days : Z) : civil :=
  let z := days + 719468 in
  let '(yoe, mp, d) := civil_of_doe (z mod 146097) in
  let m := if mp <? 10 then mp + 3 else mp - 9 in
  {| c_year := yoe + 400 * (z / 146097) + (if m <=? 2 then 1 else 0);
     c_month := m; c_day := d |}.

Definition days_of_civil (c : civil) : Z :=
  let y := c_year c - (if c_month c <=? 2 then 1 else 0) in
  let mp := if 2 <? c_month c then c_month c - 3 else c_month c + 9 in
  146097 * (y / 400) + doe_of_civil (y mod 400) mp (c_day c) - 719468.

(** ** Formatting and parsing *)

Definition digit (n : Z) : ascii := ascii_of_nat (48 + Z.to_nat n).

Definition undigit (c : ascii) : option Z :=
  let n := code c in
  if ((48 <=? n) && (n <=? 57))%nat then Some (Z.of_nat n - 48) else None.

Definition pad2 (n : Z) : string := String (digit (n / 10)) (String (digit (n mod 10)) "").
Definition pad3 (n : Z) : string := String (digit (n / 100)) (pad2 (n mod 100)).
Definition pad4 (n : Z) : string := pad2 (n / 100) ^^ pad2 (n mod 100).

(** [new Date(ms).toISOString()] *)
Definition toISOString (ms : Z) : string :=
  let c := civil_of_days (ms / 86400000) in
  let t := ms mod 86400000 in
  pad4 (c_year c) ^^ "-" ^^ pad2 (c_month c) ^^ "-" ^^ pad2 (c_day c) ^^ "T" ^^
  pad2 (t / 3600000) ^^ ":" ^^ pad2 (t / 60000 mod 60) ^^ ":" ^^ pad2 (t / 1000 mod 60) ^^
  "." ^^ pad3 (t mod 1000) ^^ "Z".

(** Read exactly [n] digits. *)
Fixpoint take_digits (n : nat) (acc : Z) (s : string) : option (Z * string) :=
  match n with
  | O => Some (acc, s)
  | S n' => match s with
            | String c s' => match undigit c with
                             | Some d => take_digits n' (10 * acc + d) s'
                             | None => None
                             end
            | "" => None
            end
  end.

Definition expect (c : ascii) (s : string) : option string :=
  match s with String d s' => if Ascii.eqb c d then Some s' else None | "" => None end.

(** Fraction digits, scaled to milliseconds and truncated after the third. *)
Fixpoint fraction (scale acc : Z) (s : string) : Z * string :=
  match s with
  | String c s' => match undigit c with
                   | Some d => fraction (scale / 10) (acc + d * scale) s'
                   | None => (acc, s)
                   end
  | "" => (acc, s)
  end.

Definition parse_zone (s : string) : option Z :=
  match s with
  | String "Z" "" => Some 0
  | String c s' =>
      let sign := if Ascii.eqb c "+" then Some 1 else if Ascii.eqb c "-" then Some (-1) else None in
      sg ← sign; '(h, s1) ← take_digits 2 0 s'; s2 ← expect ":" s1;
      '(m, s3) ← take_digits 2 0 s2;
      if (s3 === "") && (h <=? 23) && (m <=? 59) then Some (sg * (h * 60 + m)) else None
  | "" => None
  end.

Definition days_in_month (y m : Z) : Z :=
  days_of_civil {| c_year := if m =? 12 then y + 1 else y; c_month := if m =? 12 then 1 else m + 1; c_day := 1 |}
  - days_of_civil {| c_year := y; c_month := m; c_day := 1 |}.

(** [Date.parse(s)] for a date-time with a zone; [None] is NaN. *)
Definition date_parse (s : string) : option Z :=
  '(y, s) ← take_digits 4 0 s; s ← expect "-" s;
  '(mo, s) ← take_digits 2 0 s; s ← expect "-" s;
  '(d, s) ← take_digits 2 0 s; s ← expect "T" s;
  '(h, s) ← take_digits 2 0 s; s ← expect ":" s;
  '(mi, s) ← take_digits 2 0 s; s ← expect ":" s;
  '(sec, s) ← take_digits 2 0 s;
  let '(frac, s) := match s with String "." s' => fraction 100 0 s' | _ => (0, s) end in
  z ← parse_zone s;
  if (1 <=? mo) && (mo <=? 12) && (1 <=? d) && (d <=? days_in_month y mo)
     && (h <=? 23) && (mi <=? 59) && (sec <=? 59)
  then Some (86400000 * days_of_civil {| c_year := y; c_month := mo; c_day := d |}
             + h * 3600000 + mi * 60000 + sec * 1000 + frac - z * 60000)
  else None.

Example iso_epoch : toISOString 0 = "1970-01-01T00:00:00.000Z".
Proof. reflexivity. Qed.

Example iso_leap : toISOString 1709210096789 = "2024-02-29T12:34:56.789Z".
Proof. vm_compute. reflexivity. Qed.

Example parse_offset : date_parse "2024-02-29T14:34:56+02:00" = Some 1709210096000.
Proof. vm_compute. reflexivity. Qed.

(** ** Round trip *)

(** First day of the month after [mp]; the last month of an era ends with it. *)
Definition next_month_doe (yoe mp : Z) : Z :=
  if mp <? 11 then doe_of_civil yoe (mp + 1) 1
  else if yoe =? 399 then 146097 else doe_of_civil (yoe + 1) 0 1.

(** The decomposition of a day of the era, with its bounds. *)
Lemma civil_of_doe_spec doe yoe mp d :
  0 <= doe < 146097 -> civil_of_doe doe = (yoe, mp, d) ->
  doe_of_civil yoe mp d = doe /\ 0 <= yoe < 400 /\ 0 <= mp <= 11 /\ 1 <= d <= 31
  /\ d <= next_month_doe yoe mp - doe_of_civil yoe mp 1.
Proof.
  intros Hb. unfold civil_of_doe. intros [= Hy Hm Hd].
  set (c := Z.min (doe / 36524) 3) in *. set (r := doe - 36524 * c) in *.
  set (q := r / 1461) in *. set (r2 := r - 1461 * q) in *.
  set (y := Z.min (r2 / 365) 3) in *. set (doy := r2 - 365 * y) in *.
  assert (0 <= c <= 3 /\ 0 <= r <= 36524 /\ (r = 36524 -> c = 3)) as (? & ? & ?)
    by (subst c r; Z.to_euclidean_division_equations; lia).
  assert (0 <= q <= 24 /\ 0 <= r2 <= 1460 /\ (q = 24 -> c < 3 -> r2 <= 1459)) as (? & ? & ?)
    by (subst q r2; Z.to_euclidean_division_equations; lia).
  assert (0 <= y <= 3 /\ 0 <= doy <= 365 /\ (doy = 365 -> y = 3 /\ (q = 24 -> c = 3))) as (? & ? & ?)
    by (subst y doy; Z.to_euclidean_division_equations; lia).
  assert (yoe / 4 = 25 * c + q /\ yoe / 100 = c) as [E4 E100]
    by (subst yoe; Z.to_euclidean_division_equations; lia).
  assert (365 * yoe + (25 * c + q) - c + doy = doe) as Hdoe by (subst yoe doy r2 r; lia).
  assert ((yoe + 1) / 4 - (yoe + 1) / 100 = 25 * c + q - c + (if (y =? 3) && ((q <? 24) || (c =? 3)) then 1 else 0)
          \/ yoe = 399) as Hn.
  { destruct (y =? 3) eqn:?, (q <? 24) eqn:?, (c =? 3) eqn:?; cbn [andb orb];
      subst yoe; Z.to_euclidean_division_equations; lia. }
  clearbody c r q r2 y doy. unfold next_month_doe, doe_of_civil. rewrite E4, E100. subst mp d.
  split_and!; try (Z.to_euclidean_division_equations; lia).
  destruct ((5 * doy + 2) / 153 <? 11) eqn:?; [Z.to_euclidean_division_equations; lia|].
  destruct (yoe =? 399) eqn:E; [Z.to_euclidean_division_equations; lia|].
  change ((153 * 0 + 2) / 5) with 0.
  destruct Hn as [Hn|]; [|lia]. revert Hn.
  destruct (y =? 3) eqn:?, (q <? 24) eqn:?, (c =? 3) eqn:?; cbn [andb orb]; intros;
    generalize dependent ((yoe + 1) / 4); generalize dependent ((yoe + 1) / 100); intros;
    Z.to_euclidean_division_equations; lia.
Qed.

Ltac z_lit z := match z with Z0 => idtac | Zpos _ => idtac | Zneg _ => idtac end.

(** Evaluate arithmetic and comparisons between literals. *)
Ltac z_eval :=
  repeat match goal with
  | |- context [Z.add ?a ?b] => z_lit a; z_lit b; let x := eval vm_compute in (Z.add a b) in change (Z.add a b) with x
  | |- context [Z.sub ?a ?b] => z_lit a; z_lit b; let x := eval vm_compute in (Z.sub a b) in change (Z.sub a b) with x
  | |- context [Z.ltb ?a ?b] => z_lit a; z_lit b; let x := eval vm_compute in (Z.ltb a b) in change (Z.ltb a b) with x
  | |- context [Z.leb ?a ?b] => z_lit a; z_lit b; let x := eval vm_compute in (Z.leb a b) in change (Z.leb a b) with x
  | |- context [Z.eqb ?a ?b] => z_lit a; z_lit b; let x := eval vm_compute in (Z.eqb a b) in change (Z.eqb a b) with x
  | |- context [if true then ?a else ?b] => change (if true then a else b) with a
  | |- context [if false then ?a else ?b] => change (if false then a else b) with b
  end.

(** Case analysis on [n], known to lie in [0, k). *)
Ltac z_range n k :=
  lazymatch k with
  | O => exfalso; lia
  | S ?k' => let z := eval vm_compute in (Z.of_nat k') in
             destruct (Z.eq_dec n z) as [-> | ?]; [| z_range n k']
  end.

(** The decomposition of a day, with the bounds parsing needs. *)
Record civil_spec (days : Z) (c : civil) : Prop := {
  cs_days : days_of_civil c = days;
  cs_month : 1 <= c_month c <= 12;
  cs_day : 1 <= c_day c <= 31;
  cs_len : c_day c <= days_in_month (c_year c) (c_month c)
}.

Lemma civil_of_days_spec days : civil_spec days (civil_of_days days).
Proof.
  unfold civil_of_days. set (z := days + 719468).
  pose proof (Z.mod_pos_bound z 146097 ltac:(lia)) as Hb.
  destruct (civil_of_doe (z mod 146097)) as [[yoe mp] d] eqn:Hc.
  destruct (civil_of_doe_spec _ _ _ _ Hb Hc) as (H & Hyoe & Hmp & Hday & H0).
  assert (yoe / 400 = 0 /\ yoe mod 400 = yoe) as [Hd Hm] by (split; Z.to_euclidean_division_equations; lia).
  assert (forall k, (yoe + 400 * k) / 400 = k /\ (yoe + 400 * k) mod 400 = yoe) as Hk
    by (intros k; split; Z.to_euclidean_division_equations; lia).
  assert (forall k, (yoe + 400 * k + 1) / 400 = (if yoe =? 399 then k + 1 else k)
                 /\ (yoe + 400 * k + 1) mod 400 = (if yoe =? 399 then 0 else yoe + 1)) as Hk1
    by (intros k; destruct (yoe =? 399) eqn:?; split; Z.to_euclidean_division_equations; lia).
  pose proof (Z.div_mod z 146097 ltac:(lia)) as Hz.
  set (k := z / 146097) in *. destruct (Hk k) as [E1 E2]. destruct (Hk1 k) as [E3 E4].
  revert H0 H. unfold next_month_doe. z_range mp 12%nat; z_eval; intros H0 H; split; unfold days_in_month, days_of_civil; cbn [c_year c_month c_day];
    z_eval; rewrite ?Z.add_0_r, ?Z.sub_0_r, ?Z.add_simpl_r; rewrite ?E1, ?E2, ?E3, ?E4; try lia.
  destruct (yoe =? 399) eqn:?; [|lia]. change (doe_of_civil 0 0 1) with 0. lia.
Qed.

Lemma civil_year_bound days c :
  civil_spec days c -> 0 <= days <= 2932896 -> 0 <= c_year c <= 9999.
Proof.
  intros [Hd Hm Hday _] Hb. unfold days_of_civil, doe_of_civil in Hd.
  destruct (Z.leb_spec (c_month c) 2), (Z.ltb_spec 2 (c_month c)); try lia;
    Z.to_euclidean_division_equations; lia.
Qed.

Lemma undigit_digit n : 0 <= n <= 9 -> undigit (digit n) = Some n.
Proof.
  intros. z_range n 10%nat; reflexivity.
Qed.

Lemma take_pad2 n acc k s :
  0 <= n <= 99 -> take_digits (2 + k) acc (pad2 n ^^ s) = take_digits k (100 * acc + n) s.
Proof.
  intros. cbn -[Z.mul Z.add Z.div Z.modulo].
  rewrite !undigit_digit by (Z.to_euclidean_division_equations; lia).
  f_equal. Z.to_euclidean_division_equations; lia.
Qed.

Lemma take_pad2_end n s : 0 <= n <= 99 -> take_digits 2 0 (pad2 n ^^ s) = Some (n, s).
Proof. intros. rewrite (take_pad2 _ _ 0) by done. reflexivity. Qed.

Lemma take_pad4 n s : 0 <= n <= 9999 -> take_digits 4 0 (pad4 n ^^ s) = Some (n, s).
Proof.
  intros. unfold pad4. rewrite sapp_assoc.
  rewrite (take_pad2 _ _ 2), (take_pad2 _ _ 0) by (Z.to_euclidean_division_equations; lia).
  simpl. do 2 f_equal. Z.to_euclidean_division_equations; lia.
Qed.

Lemma fraction_pad3 n :
  0 <= n <= 999 -> fraction 100 0 (pad3 n ^^ "Z") = (n, "Z").
Proof.
  intros. unfold pad3, pad2. cbn -[Z.mul Z.add Z.div Z.modulo].
  rewrite !undigit_digit by (Z.to_euclidean_division_equations; lia).
  change (100 / 10) with 10. change (10 / 10) with 1. f_equal.
  Z.to_euclidean_division_equations; lia.
Qed.

(** Parsing a formatted instant gives the instant back, for every instant from
    1970 to the end of the year 9999. *)
Lemma parse_iso_roundtrip ms :
  0 <= ms < 253402300800000 -> date_parse (toISOString ms) = Some ms.
Proof.
  intros Hms. unfold toISOString. set (c := civil_of_days (ms / 86400000)).
  pose proof (civil_of_days_spec (ms / 86400000)) as Hc. fold c in Hc.
  assert (0 <= ms / 86400000 <= 2932896) as Hd by (Z.to_euclidean_division_equations; lia).
  pose proof (civil_year_bound _ _ Hc Hd) as Hy. destruct Hc as [Hdays Hm Hday Hlen].
  assert (0 <= ms mod 86400000 < 86400000) as Ht by (apply Z.mod_pos_bound; lia).
  pose proof (Z.div_mod ms 86400000 ltac:(lia)) as Hdm.
  set (t := ms mod 86400000) in *. unfold date_parse.
  rewrite take_pad4 by done. cbn [mbind option_bind expect sapp Ascii.eqb Bool.eqb andb].
  do 5 (rewrite take_pad2_end by (Z.to_euclidean_division_equations; lia);
        cbn [mbind option_bind expect sapp Ascii.eqb Bool.eqb andb]).
  rewrite fraction_pad3 by (Z.to_euclidean_division_equations; lia).
  cbn [parse_zone mbind option_bind].
  rewrite !(proj2 (Z.leb_le _ _)) by (Z.to_euclidean_division_equations; lia).
  cbn [andb]. f_equal. destruct c as [y m d]. cbn [c_year c_month c_day] in *.
  rewrite Hdays. Z.to_euclidean_division_equations; lia.
Qed.
