(* ===== verification/Json.v ===== *)
(** * [JSON.stringify]

    Serialization of the dynamic values of [JsValue]: undefined object fields
    disappear, undefined array elements and non-finite numbers become [null],
    strings are quoted with the escapes of the specification. *)

From Stdlib Require Import Ascii.
From S2P Require Import Prelude JsValue.

Definition QUOTE : ascii := ascii_of_nat 34.
Definition BACKSLASH : ascii := ascii_of_nat 92.

Definition lower_hex (n : nat) : ascii :=
  if (n <? 10)%nat then ascii_of_nat (48 + n) else ascii_of_nat (87 + n).

(** One code unit inside a string literal. *)
Definition json_char (c : ascii) : string :=
  let esc x := String BACKSLASH (String x "") in
  match code c with
  | 8 => esc "b"%char
  | 9 => esc "t"%char
  | 10 => esc "n"%char
  | 12 => esc "f"%char
  | 13 => esc "r"%char
  | 34 => esc QUOTE
  | 92 => esc BACKSLASH
  | n => if (n <? 32)%nat
         then String BACKSLASH ("u00" ^^ String (lower_hex (n / 16)) (String (lower_hex (n mod 16)) ""))
         else String c ""
  end.

Fixpoint json_chars (s : string) : string :=
  match s with "" => "" | String c s' => json_char c ^^ json_chars s' end.

Definition json_string (s : string) : string :=
  String QUOTE (json_chars s ^^ String QUOTE "").

(** The text of a value other than [undefined]. *)
Fixpoint stringify (v : val) : string :=
  match v with
  | VUndef | VNull => "null"
  | VBool true => "true"
  | VBool false => "false"
  | VNum n => if is_finite n then num_str n else "null"
  | VStr s => json_string s
  | VArr l => "[" ^^ join "," (map stringify l) ^^ "]"
  | VObj fs =>
      "{" ^^ join "," ((fix go fs := match fs with
        | [] => []
        | (k, x) :: fs' => match x with
                           | VUndef => go fs'
                           | _ => (json_string k ^^ ":" ^^ stringify x) :: go fs'
                           end
        end) fs) ^^ "}"
  end.

(** Serialization only depends on what survives it. *)
Lemma stringify_clone v : stringify (json_clone v) = stringify v.
Proof.
  induction v as [| |b|n|s|l IH|fs IH] using val_ind; simpl; try done.
  - by destruct n.
  - do 3 f_equal. rewrite List.map_map. apply List.map_ext_in. intros x Hx.
    rewrite Forall_forall in IH. specialize (IH x (proj2 (list_elem_of_In _ _) Hx)).
    by destruct x.
  - do 3 f_equal. induction IH as [|[k x] fs Hx _ IHfs]; [done|]. simpl in Hx.
    destruct x as [| | |[]| | |]; try done; simpl in *; f_equal; try exact IHfs; by rewrite Hx.
Qed.
