(* ===== verification/TurnControl.v ===== *)
(** * Turn admission and run generations

    [TurnGate] (server/src/turnGate.ts) serializes the top-level turns of a
    session; [SessionRunState] (server/src/sessionRunState.ts) numbers the runs
    of a session so that a superseded asynchronous run can recognize itself. *)

From S2P Require Import Prelude JsValue.

(** ** TurnGate *)

Module TurnGate.

Inductive TurnAdmission := accepted | duplicate | busy.

#[global] Instance TurnAdmission_eq_dec : EqDecision TurnAdmission.
Proof. solve_decision. Defined.

(** [activeSessions] *)
Record TurnGate := { activeSessions : list string }.

Definition empty : TurnGate := {| activeSessions := [] |}.

Definition acquire (sessionId : string) (clientRequestId persistedRequestId : option string)
    (g : TurnGate) : TurnAdmission * TurnGate :=
  if str_truthy clientRequestId && opt_str_eqb clientRequestId persistedRequestId
  then (duplicate, g)
  else if shas sessionId (activeSessions g) then (busy, g)
  else (accepted, {| activeSessions := sadd sessionId (activeSessions g) |}).

Definition release (sessionId : string) (g : TurnGate) : TurnGate :=
  {| activeSessions := sdelete sessionId (activeSessions g) |}.

Definition isActive (sessionId : string) (g : TurnGate) : bool :=
  shas sessionId (activeSessions g).

(** Calls on the gate, in the order the event loop makes them. *)
Inductive call :=
| Acquire (sessionId : string) (clientRequestId persistedRequestId : option string)
| Release (sessionId : string).

#[global] Instance call_eq_dec : EqDecision call.
Proof. solve_decision. Defined.

Definition exec (c : call) (g : TurnGate) : option (string * TurnAdmission) * TurnGate :=
  match c with
  | Acquire s c p => let '(a, g') := acquire s c p g in (Some (s, a), g')
  | Release s => (None, release s g)
  end.

Fixpoint run (cs : list call) (g : TurnGate) : list (string * TurnAdmission) * TurnGate :=
  match cs with
  | [] => ([], g)
  | c :: cs' =>
      let '(o, g') := exec c g in
      let '(os, g'') := run cs' g' in
      (match o with Some x => x :: os | None => os end, g'')
  end.

Lemma isActive_acquire s c p g s' :
  isActive s' (acquire s c p g).2 =
  isActive s' g || (bool_decide (s' = s) && bool_decide ((acquire s c p g).1 = accepted)).
Proof.
  unfold acquire, isActive. destruct (_ && _); simpl.
  { by rewrite andb_false_r, orb_false_r. }
  destruct (shas s _) eqn:E; simpl.
  { by rewrite andb_false_r, orb_false_r. }
  rewrite shas_sadd, andb_true_r. apply orb_comm.
Qed.

Lemma isActive_release s g s' :
  isActive s' (release s g) = negb (bool_decide (s' = s)) && isActive s' g.
Proof. unfold isActive, release. simpl. apply shas_sdelete. Qed.

Lemma acquire_active s c p g : isActive s g = true -> (acquire s c p g).1 <> accepted.
Proof. unfold isActive, acquire. intros ->. by destruct (_ && _). Qed.

(** C1: a turn admitted for a session excludes every other one until the gate of
    that session is released: whatever calls the event loop makes in between, on
    this session or on others, no [acquire] for it is accepted, and the session
    stays active. *)
Theorem turn_mutual_exclusion s c p g cs :
  (acquire s c p g).1 = accepted ->
  (Release s ∉ cs) ->
  let '(answers, g') := run cs (acquire s c p g).2 in
  ((s, accepted) ∉ answers) /\ isActive s g' = true.
Proof.
  intros Hacc Hrel.
  assert (isActive s (acquire s c p g).2 = true) as Hact.
  { rewrite isActive_acquire, !bool_decide_true by done. by rewrite orb_true_r. }
  revert Hact. generalize (acquire s c p g).2. clear Hacc.
  induction cs as [|[s' c' p'|s'] cs IH]; intros g' Hact; simpl.
  - split; [set_solver|done].
  - pose proof (isActive_acquire s' c' p' g' s) as Ha.
    pose proof (acquire_active s c' p' g' Hact) as Hn.
    destruct (acquire s' c' p' g') as [a g1] eqn:E. simpl in *.
    rewrite Hact in Ha. specialize (IH ltac:(set_solver) g1 Ha).
    destruct (run cs g1) as [os g2]. destruct IH as [H1 H2]. split; [|done].
    apply not_elem_of_cons. split; [|done]. intros [= <- <-]. by rewrite E in Hn.
  - assert (s <> s') by set_solver.
    specialize (IH ltac:(set_solver) (release s' g')).
    rewrite isActive_release, bool_decide_false, Hact in IH by done.
    specialize (IH eq_refl). by destruct (run cs (release s' g')).
Qed.

Lemma turn_mutual_exclusion_witness :
  let g := empty in
  let cs := [Acquire "s" (Some "r2") None; Release "t"; Acquire "s" (Some "r3") None] in
  (acquire "s" (Some "r1") None g).1 = accepted /\
  (let '(answers, g') := run cs (acquire "s" (Some "r1") None g).2 in
   (("s", accepted) ∉ answers) /\ isActive "s" g' = true).
Proof.
  split; [reflexivity|].
  apply (turn_mutual_exclusion "s" (Some "r1") None empty
    [Acquire "s" (Some "r2") None; Release "t"; Acquire "s" (Some "r3") None]).
  - reflexivity.
  - apply (bool_decide_unpack _). vm_compute. exact I.
Defined.

(** Releasing makes the session available again, to a request that is not a
    retry of the persisted one. *)
Lemma release_then_acquire s c p g :
  str_truthy c && opt_str_eqb c p = false -> (acquire s c p (release s g)).1 = accepted.
Proof.
  intros H. unfold acquire. rewrite H.
  assert (shas s (activeSessions (release s g)) = false) as ->; [|done].
  pose proof (isActive_release s g s) as E. unfold isActive in E.
  by rewrite bool_decide_true in E.
Qed.

End TurnGate.

(** ** SessionRunState *)

Module SessionRunState.

Local Open Scope Z_scope.

Record SessionRunState := { generations : jmap string Z }.

Definition empty : SessionRunState := {| generations := [] |}.

Definition generation_of (sessionId : string) (r : SessionRunState) : Z :=
  match mget sessionId (generations r) with Some g => g | None => 0 end.

Definition begin (sessionId : string) (r : SessionRunState) : Z * SessionRunState :=
  let generation := generation_of sessionId r + 1 in
  (generation, {| generations := mset sessionId generation (generations r) |}).

Definition cancel (sessionId : string) (r : SessionRunState) : Z * SessionRunState :=
  begin sessionId r.

Definition isCurrent (sessionId : string) (generation : Z) (r : SessionRunState) : bool :=
  match mget sessionId (generations r) with Some g => g =? generation | None => false end.

Inductive call := Begin (sessionId : string) | Cancel (sessionId : string).

Definition target (c : call) : string := match c with Begin s | Cancel s => s end.

Definition exec (c : call) (r : SessionRunState) : SessionRunState :=
  match c with Begin s => (begin s r).2 | Cancel s => (cancel s r).2 end.

Definition run (cs : list call) (r : SessionRunState) : SessionRunState :=
  fold_left (fun r c => exec c r) cs r.

Lemma generation_exec c r s :
  generation_of s (exec c r) = generation_of s r + (if decide (target c = s) then 1 else 0).
Proof.
  destruct c as [s'|s']; unfold exec, cancel, begin, generation_of; simpl;
    map_cases; try lia; by rewrite Z.add_0_r.
Qed.

Lemma generation_mono cs r s : generation_of s r <= generation_of s (run cs r).
Proof.
  revert r. induction cs as [|c cs IH]; intros r; simpl; [lia|].
  specialize (IH (exec c r)). rewrite generation_exec in IH. case_decide; unfold run in *; lia.
Qed.

Lemma isCurrent_spec s g r :
  isCurrent s g r = true <-> mget s (generations r) = Some g.
Proof.
  unfold isCurrent. destruct (mget s _) as [x|]; [|done]. rewrite Z.eqb_eq. naive_solver.
Qed.

Lemma mget_run_untouched cs r s :
  Forall (fun c => target c <> s) cs -> mget s (generations (run cs r)) = mget s (generations r).
Proof.
  revert r. induction cs as [|c cs IH]; intros r; [done|]. intros [Hc Hcs]%Forall_cons.
  simpl. change (fold_left _ cs (exec c r)) with (run cs (exec c r)). rewrite IH by done.
  destruct c as [s'|s']; unfold exec, cancel, begin; simpl in *; by rewrite mget_mset_ne.
Qed.

(** the generation a run received from [begin] is current exactly as long as
    no later [begin] or [cancel] was made for its session, whatever happens to
    other sessions; a superseded run is never mistaken for the current one. *)
Theorem generation_current_iff s r cs :
  let '(g, r') := begin s r in
  isCurrent s g (run cs r') = true <-> Forall (fun c => target c <> s) cs.
Proof.
  simpl. set (g := generation_of s r + 1). set (r' := {| generations := _ |}).
  assert (mget s (generations r') = Some g) as Hg by apply mget_mset_eq.
  split; [|intros H; rewrite isCurrent_spec; by rewrite mget_run_untouched].
  assert (g <= generation_of s r') as Hle by (unfold generation_of; rewrite Hg; lia).
  rewrite isCurrent_spec. clear Hg. revert Hle. generalize r'.
  induction cs as [|c cs IH]; intros r1 Hle Hrun; [constructor|].
  simpl in Hrun. destruct (decide (target c = s)) as [E|E].
  - exfalso. pose proof (generation_mono cs (exec c r1) s) as Hm.
    rewrite generation_exec, decide_True in Hm by done.
    unfold generation_of at 2 in Hm. rewrite Hrun in Hm. lia.
  - constructor; [done|]. apply (IH (exec c r1)); [|done].
    rewrite generation_exec, decide_False by done. lia.
Qed.

End SessionRunState.
