(* ===== verification/GatewayStore.v ===== *)
(** * GatewayStore: sessions, the event log and the idempotency ledgers

    server/src/gatewayStore.ts. The store keeps its state in memory and mirrors
    it on disk: one JSONL event file per session, and JSON snapshots of the
    sessions, the sub-agent relations and the create-request ledger.

    The state [GatewayStore] has the fields of the class, the files it owns and
    the pending tasks of its promise chains; each method is a function on it.
    [Date.now()] is an argument. What the file system answers is the field
    [fs], which the environment may change between two calls. Sequence numbers
    are integers. *)

From S2P Require Import Prelude JsValue JsDate.
From Stdlib Require Import Ascii.

Local Open Scope Z_scope.

(** ** Data *)

Inductive GatewaySessionStatus :=
| starting | running | waiting_approval | completed | failed | cancelled.
Inductive SessionPolicyMode := confirm | full_access.
Inductive ResumeStatus := resumable | history_only | missing_thread.
Inductive Provider := codex.

#[global] Instance GatewaySessionStatus_eq_dec : EqDecision GatewaySessionStatus.
Proof. solve_decision. Defined.
#[global] Instance SessionPolicyMode_eq_dec : EqDecision SessionPolicyMode.
Proof. solve_decision. Defined.

(** Optional properties are [field]s: object spread tells an absent property
    from one that is [undefined]. *)
Record GatewaySession := mkSession {
  s_id : string;
  s_provider : Provider;
  s_providerSessionId : string;
  s_title : string;
  s_workspacePath : string;
  s_status : GatewaySessionStatus;
  s_sessionPolicyMode : SessionPolicyMode;
  s_activeTurnId : field string;
  s_canResume : bool;
  s_resumeStatus : ResumeStatus;
  s_command : string;
  s_args : list string;
  s_prompt : string;
  s_modelLabel : field string;
  s_modelProvider : field string;
  s_createdAt : string;
  s_lastUpdatedAt : string;
  s_startedAt : field string;
  s_finishedAt : field string;
  s_lastTurnStartedAt : field string;
  s_lastTurnFinishedAt : field string;
  s_lastClientRequestId : field string;
  s_recentClientRequestIds : field (list string);
  s_exitCode : field (option Z);
  s_parentSessionId : field string;
  s_childSessionIds : field (list string);
  s_threadSource : field string;
  s_agentNickname : field string;
  s_agentRole : field string;
  s_agentPath : field string
}.

Definition with_s_title (v : string) (r : GatewaySession) : GatewaySession :=
  mkSession (s_id r) (s_provider r) (s_providerSessionId r) v (s_workspacePath r) (s_status r)
    (s_sessionPolicyMode r) (s_activeTurnId r) (s_canResume r) (s_resumeStatus r) (s_command
    r) (s_args r) (s_prompt r) (s_modelLabel r) (s_modelProvider r) (s_createdAt r)
    (s_lastUpdatedAt r) (s_startedAt r) (s_finishedAt r) (s_lastTurnStartedAt r)
    (s_lastTurnFinishedAt r) (s_lastClientRequestId r) (s_recentClientRequestIds r)
    (s_exitCode r) (s_parentSessionId r) (s_childSessionIds r) (s_threadSource r)
    (s_agentNickname r) (s_agentRole r) (s_agentPath r).
Definition with_s_workspacePath (v : string) (r : GatewaySession) : GatewaySession :=
  mkSession (s_id r) (s_provider r) (s_providerSessionId r) (s_title r) v (s_status r)
    (s_sessionPolicyMode r) (s_activeTurnId r) (s_canResume r) (s_resumeStatus r) (s_command
    r) (s_args r) (s_prompt r) (s_modelLabel r) (s_modelProvider r) (s_createdAt r)
    (s_lastUpdatedAt r) (s_startedAt r) (s_finishedAt r) (s_lastTurnStartedAt r)
    (s_lastTurnFinishedAt r) (s_lastClientRequestId r) (s_recentClientRequestIds r)
    (s_exitCode r) (s_parentSessionId r) (s_childSessionIds r) (s_threadSource r)
    (s_agentNickname r) (s_agentRole r) (s_agentPath r).
Definition with_s_status (v : GatewaySessionStatus) (r : GatewaySession) : GatewaySession :=
  mkSession (s_id r) (s_provider r) (s_providerSessionId r) (s_title r) (s_workspacePath r) v
    (s_sessionPolicyMode r) (s_activeTurnId r) (s_canResume r) (s_resumeStatus r) (s_command
    r) (s_args r) (s_prompt r) (s_modelLabel r) (s_modelProvider r) (s_createdAt r)
    (s_lastUpdatedAt r) (s_startedAt r) (s_finishedAt r) (s_lastTurnStartedAt r)
    (s_lastTurnFinishedAt r) (s_lastClientRequestId r) (s_recentClientRequestIds r)
    (s_exitCode r) (s_parentSessionId r) (s_childSessionIds r) (s_threadSource r)
    (s_agentNickname r) (s_agentRole r) (s_agentPath r).
Definition with_s_sessionPolicyMode (v : SessionPolicyMode) (r : GatewaySession) : GatewaySession :=
  mkSession (s_id r) (s_provider r) (s_providerSessionId r) (s_title r) (s_workspacePath r)
    (s_status r) v (s_activeTurnId r) (s_canResume r) (s_resumeStatus r) (s_command r)
    (s_args r) (s_prompt r) (s_modelLabel r) (s_modelProvider r) (s_createdAt r)
    (s_lastUpdatedAt r) (s_startedAt r) (s_finishedAt r) (s_lastTurnStartedAt r)
    (s_lastTurnFinishedAt r) (s_lastClientRequestId r) (s_recentClientRequestIds r)
    (s_exitCode r) (s_parentSessionId r) (s_childSessionIds r) (s_threadSource r)
    (s_agentNickname r) (s_agentRole r) (s_agentPath r).
Definition with_s_activeTurnId (v : field string) (r : GatewaySession) : GatewaySession :=
  mkSession (s_id r) (s_provider r) (s_providerSessionId r) (s_title r) (s_workspacePath r)
    (s_status r) (s_sessionPolicyMode r) v (s_canResume r) (s_resumeStatus r) (s_command r)
    (s_args r) (s_prompt r) (s_modelLabel r) (s_modelProvider r) (s_createdAt r)
    (s_lastUpdatedAt r) (s_startedAt r) (s_finishedAt r) (s_lastTurnStartedAt r)
    (s_lastTurnFinishedAt r) (s_lastClientRequestId r) (s_recentClientRequestIds r)
    (s_exitCode r) (s_parentSessionId r) (s_childSessionIds r) (s_threadSource r)
    (s_agentNickname r) (s_agentRole r) (s_agentPath r).
Definition with_s_canResume (v : bool) (r : GatewaySession) : GatewaySession :=
  mkSession (s_id r) (s_provider r) (s_providerSessionId r) (s_title r) (s_workspacePath r)
    (s_status r) (s_sessionPolicyMode r) (s_activeTurnId r) v (s_resumeStatus r) (s_command
    r) (s_args r) (s_prompt r) (s_modelLabel r) (s_modelProvider r) (s_createdAt r)
    (s_lastUpdatedAt r) (s_startedAt r) (s_finishedAt r) (s_lastTurnStartedAt r)
    (s_lastTurnFinishedAt r) (s_lastClientRequestId r) (s_recentClientRequestIds r)
    (s_exitCode r) (s_parentSessionId r) (s_childSessionIds r) (s_threadSource r)
    (s_agentNickname r) (s_agentRole r) (s_agentPath r).
Definition with_s_resumeStatus (v : ResumeStatus) (r : GatewaySession) : GatewaySession :=
  mkSession (s_id r) (s_provider r) (s_providerSessionId r) (s_title r) (s_workspacePath r)
    (s_status r) (s_sessionPolicyMode r) (s_activeTurnId r) (s_canResume r) v (s_command r)
    (s_args r) (s_prompt r) (s_modelLabel r) (s_modelProvider r) (s_createdAt r)
    (s_lastUpdatedAt r) (s_startedAt r) (s_finishedAt r) (s_lastTurnStartedAt r)
    (s_lastTurnFinishedAt r) (s_lastClientRequestId r) (s_recentClientRequestIds r)
    (s_exitCode r) (s_parentSessionId r) (s_childSessionIds r) (s_threadSource r)
    (s_agentNickname r) (s_agentRole r) (s_agentPath r).
Definition with_s_prompt (v : string) (r : GatewaySession) : GatewaySession :=
  mkSession (s_id r) (s_provider r) (s_providerSessionId r) (s_title r) (s_workspacePath r)
    (s_status r) (s_sessionPolicyMode r) (s_activeTurnId r) (s_canResume r) (s_resumeStatus
    r) (s_command r) (s_args r) v (s_modelLabel r) (s_modelProvider r) (s_createdAt r)
    (s_lastUpdatedAt r) (s_startedAt r) (s_finishedAt r) (s_lastTurnStartedAt r)
    (s_lastTurnFinishedAt r) (s_lastClientRequestId r) (s_recentClientRequestIds r)
    (s_exitCode r) (s_parentSessionId r) (s_childSessionIds r) (s_threadSource r)
    (s_agentNickname r) (s_agentRole r) (s_agentPath r).
Definition with_s_modelLabel (v : field string) (r : GatewaySession) : GatewaySession :=
  mkSession (s_id r) (s_provider r) (s_providerSessionId r) (s_title r) (s_workspacePath r)
    (s_status r) (s_sessionPolicyMode r) (s_activeTurnId r) (s_canResume r) (s_resumeStatus
    r) (s_command r) (s_args r) (s_prompt r) v (s_modelProvider r) (s_createdAt r)
    (s_lastUpdatedAt r) (s_startedAt r) (s_finishedAt r) (s_lastTurnStartedAt r)
    (s_lastTurnFinishedAt r) (s_lastClientRequestId r) (s_recentClientRequestIds r)
    (s_exitCode r) (s_parentSessionId r) (s_childSessionIds r) (s_threadSource r)
    (s_agentNickname r) (s_agentRole r) (s_agentPath r).
Definition with_s_modelProvider (v : field string) (r : GatewaySession) : GatewaySession :=
  mkSession (s_id r) (s_provider r) (s_providerSessionId r) (s_title r) (s_workspacePath r)
    (s_status r) (s_sessionPolicyMode r) (s_activeTurnId r) (s_canResume r) (s_resumeStatus
    r) (s_command r) (s_args r) (s_prompt r) (s_modelLabel r) v (s_createdAt r)
    (s_lastUpdatedAt r) (s_startedAt r) (s_finishedAt r) (s_lastTurnStartedAt r)
    (s_lastTurnFinishedAt r) (s_lastClientRequestId r) (s_recentClientRequestIds r)
    (s_exitCode r) (s_parentSessionId r) (s_childSessionIds r) (s_threadSource r)
    (s_agentNickname r) (s_agentRole r) (s_agentPath r).
Definition with_s_lastUpdatedAt (v : string) (r : GatewaySession) : GatewaySession :=
  mkSession (s_id r) (s_provider r) (s_providerSessionId r) (s_title r) (s_workspacePath r)
    (s_status r) (s_sessionPolicyMode r) (s_activeTurnId r) (s_canResume r) (s_resumeStatus
    r) (s_command r) (s_args r) (s_prompt r) (s_modelLabel r) (s_modelProvider r)
    (s_createdAt r) v (s_startedAt r) (s_finishedAt r) (s_lastTurnStartedAt r)
    (s_lastTurnFinishedAt r) (s_lastClientRequestId r) (s_recentClientRequestIds r)
    (s_exitCode r) (s_parentSessionId r) (s_childSessionIds r) (s_threadSource r)
    (s_agentNickname r) (s_agentRole r) (s_agentPath r).
Definition with_s_startedAt (v : field string) (r : GatewaySession) : GatewaySession :=
  mkSession (s_id r) (s_provider r) (s_providerSessionId r) (s_title r) (s_workspacePath r)
    (s_status r) (s_sessionPolicyMode r) (s_activeTurnId r) (s_canResume r) (s_resumeStatus
    r) (s_command r) (s_args r) (s_prompt r) (s_modelLabel r) (s_modelProvider r)
    (s_createdAt r) (s_lastUpdatedAt r) v (s_finishedAt r) (s_lastTurnStartedAt r)
    (s_lastTurnFinishedAt r) (s_lastClientRequestId r) (s_recentClientRequestIds r)
    (s_exitCode r) (s_parentSessionId r) (s_childSessionIds r) (s_threadSource r)
    (s_agentNickname r) (s_agentRole r) (s_agentPath r).
Definition with_s_finishedAt (v : field string) (r : GatewaySession) : GatewaySession :=
  mkSession (s_id r) (s_provider r) (s_providerSessionId r) (s_title r) (s_workspacePath r)
    (s_status r) (s_sessionPolicyMode r) (s_activeTurnId r) (s_canResume r) (s_resumeStatus
    r) (s_command r) (s_args r) (s_prompt r) (s_modelLabel r) (s_modelProvider r)
    (s_createdAt r) (s_lastUpdatedAt r) (s_startedAt r) v (s_lastTurnStartedAt r)
    (s_lastTurnFinishedAt r) (s_lastClientRequestId r) (s_recentClientRequestIds r)
    (s_exitCode r) (s_parentSessionId r) (s_childSessionIds r) (s_threadSource r)
    (s_agentNickname r) (s_agentRole r) (s_agentPath r).
Definition with_s_lastTurnStartedAt (v : field string) (r : GatewaySession) : GatewaySession :=
  mkSession (s_id r) (s_provider r) (s_providerSessionId r) (s_title r) (s_workspacePath r)
    (s_status r) (s_sessionPolicyMode r) (s_activeTurnId r) (s_canResume r) (s_resumeStatus
    r) (s_command r) (s_args r) (s_prompt r) (s_modelLabel r) (s_modelProvider r)
    (s_createdAt r) (s_lastUpdatedAt r) (s_startedAt r) (s_finishedAt r) v
    (s_lastTurnFinishedAt r) (s_lastClientRequestId r) (s_recentClientRequestIds r)
    (s_exitCode r) (s_parentSessionId r) (s_childSessionIds r) (s_threadSource r)
    (s_agentNickname r) (s_agentRole r) (s_agentPath r).
Definition with_s_lastTurnFinishedAt (v : field string) (r : GatewaySession) : GatewaySession :=
  mkSession (s_id r) (s_provider r) (s_providerSessionId r) (s_title r) (s_workspacePath r)
    (s_status r) (s_sessionPolicyMode r) (s_activeTurnId r) (s_canResume r) (s_resumeStatus
    r) (s_command r) (s_args r) (s_prompt r) (s_modelLabel r) (s_modelProvider r)
    (s_createdAt r) (s_lastUpdatedAt r) (s_startedAt r) (s_finishedAt r)
    (s_lastTurnStartedAt r) v (s_lastClientRequestId r) (s_recentClientRequestIds r)
    (s_exitCode r) (s_parentSessionId r) (s_childSessionIds r) (s_threadSource r)
    (s_agentNickname r) (s_agentRole r) (s_agentPath r).
Definition with_s_lastClientRequestId (v : field string) (r : GatewaySession) : GatewaySession :=
  mkSession (s_id r) (s_provider r) (s_providerSessionId r) (s_title r) (s_workspacePath r)
    (s_status r) (s_sessionPolicyMode r) (s_activeTurnId r) (s_canResume r) (s_resumeStatus
    r) (s_command r) (s_args r) (s_prompt r) (s_modelLabel r) (s_modelProvider r)
    (s_createdAt r) (s_lastUpdatedAt r) (s_startedAt r) (s_finishedAt r)
    (s_lastTurnStartedAt r) (s_lastTurnFinishedAt r) v (s_recentClientRequestIds r)
    (s_exitCode r) (s_parentSessionId r) (s_childSessionIds r) (s_threadSource r)
    (s_agentNickname r) (s_agentRole r) (s_agentPath r).
Definition with_s_recentClientRequestIds (v : field (list string)) (r : GatewaySession) : GatewaySession :=
  mkSession (s_id r) (s_provider r) (s_providerSessionId r) (s_title r) (s_workspacePath r)
    (s_status r) (s_sessionPolicyMode r) (s_activeTurnId r) (s_canResume r) (s_resumeStatus
    r) (s_command r) (s_args r) (s_prompt r) (s_modelLabel r) (s_modelProvider r)
    (s_createdAt r) (s_lastUpdatedAt r) (s_startedAt r) (s_finishedAt r)
    (s_lastTurnStartedAt r) (s_lastTurnFinishedAt r) (s_lastClientRequestId r) v (s_exitCode
    r) (s_parentSessionId r) (s_childSessionIds r) (s_threadSource r) (s_agentNickname r)
    (s_agentRole r) (s_agentPath r).
Definition with_s_exitCode (v : field (option Z)) (r : GatewaySession) : GatewaySession :=
  mkSession (s_id r) (s_provider r) (s_providerSessionId r) (s_title r) (s_workspacePath r)
    (s_status r) (s_sessionPolicyMode r) (s_activeTurnId r) (s_canResume r) (s_resumeStatus
    r) (s_command r) (s_args r) (s_prompt r) (s_modelLabel r) (s_modelProvider r)
    (s_createdAt r) (s_lastUpdatedAt r) (s_startedAt r) (s_finishedAt r)
    (s_lastTurnStartedAt r) (s_lastTurnFinishedAt r) (s_lastClientRequestId r)
    (s_recentClientRequestIds r) v (s_parentSessionId r) (s_childSessionIds r)
    (s_threadSource r) (s_agentNickname r) (s_agentRole r) (s_agentPath r).
Definition with_s_parentSessionId (v : field string) (r : GatewaySession) : GatewaySession :=
  mkSession (s_id r) (s_provider r) (s_providerSessionId r) (s_title r) (s_workspacePath r)
    (s_status r) (s_sessionPolicyMode r) (s_activeTurnId r) (s_canResume r) (s_resumeStatus
    r) (s_command r) (s_args r) (s_prompt r) (s_modelLabel r) (s_modelProvider r)
    (s_createdAt r) (s_lastUpdatedAt r) (s_startedAt r) (s_finishedAt r)
    (s_lastTurnStartedAt r) (s_lastTurnFinishedAt r) (s_lastClientRequestId r)
    (s_recentClientRequestIds r) (s_exitCode r) v (s_childSessionIds r) (s_threadSource r)
    (s_agentNickname r) (s_agentRole r) (s_agentPath r).
Definition with_s_childSessionIds (v : field (list string)) (r : GatewaySession) : GatewaySession :=
  mkSession (s_id r) (s_provider r) (s_providerSessionId r) (s_title r) (s_workspacePath r)
    (s_status r) (s_sessionPolicyMode r) (s_activeTurnId r) (s_canResume r) (s_resumeStatus
    r) (s_command r) (s_args r) (s_prompt r) (s_modelLabel r) (s_modelProvider r)
    (s_createdAt r) (s_lastUpdatedAt r) (s_startedAt r) (s_finishedAt r)
    (s_lastTurnStartedAt r) (s_lastTurnFinishedAt r) (s_lastClientRequestId r)
    (s_recentClientRequestIds r) (s_exitCode r) (s_parentSessionId r) v (s_threadSource r)
    (s_agentNickname r) (s_agentRole r) (s_agentPath r).

(** [{ ...existing, ...session }] *)
Definition spread_session (old new : GatewaySession) : GatewaySession :=
  mkSession (s_id new) (s_provider new) (s_providerSessionId new) (s_title new) (s_workspacePath
    new) (s_status new) (s_sessionPolicyMode new) (spread (s_activeTurnId old)
    (s_activeTurnId new)) (s_canResume new) (s_resumeStatus new) (s_command new) (s_args
    new) (s_prompt new) (spread (s_modelLabel old) (s_modelLabel new)) (spread
    (s_modelProvider old) (s_modelProvider new)) (s_createdAt new) (s_lastUpdatedAt new)
    (spread (s_startedAt old) (s_startedAt new)) (spread (s_finishedAt old) (s_finishedAt
    new)) (spread (s_lastTurnStartedAt old) (s_lastTurnStartedAt new)) (spread
    (s_lastTurnFinishedAt old) (s_lastTurnFinishedAt new)) (spread (s_lastClientRequestId
    old) (s_lastClientRequestId new)) (spread (s_recentClientRequestIds old)
    (s_recentClientRequestIds new)) (spread (s_exitCode old) (s_exitCode new)) (spread
    (s_parentSessionId old) (s_parentSessionId new)) (spread (s_childSessionIds old)
    (s_childSessionIds new)) (spread (s_threadSource old) (s_threadSource new)) (spread
    (s_agentNickname old) (s_agentNickname new)) (spread (s_agentRole old) (s_agentRole
    new)) (spread (s_agentPath old) (s_agentPath new)).

(** [JSON.parse(JSON.stringify(session))] *)
Definition clone_session (s : GatewaySession) : GatewaySession :=
  mkSession (s_id s) (s_provider s) (s_providerSessionId s) (s_title s) (s_workspacePath s)
    (s_status s) (s_sessionPolicyMode s) (fclone (s_activeTurnId s)) (s_canResume s)
    (s_resumeStatus s) (s_command s) (s_args s) (s_prompt s) (fclone (s_modelLabel s))
    (fclone (s_modelProvider s)) (s_createdAt s) (s_lastUpdatedAt s) (fclone (s_startedAt
    s)) (fclone (s_finishedAt s)) (fclone (s_lastTurnStartedAt s)) (fclone
    (s_lastTurnFinishedAt s)) (fclone (s_lastClientRequestId s)) (fclone
    (s_recentClientRequestIds s)) (fclone (s_exitCode s)) (fclone (s_parentSessionId s))
    (fclone (s_childSessionIds s)) (fclone (s_threadSource s)) (fclone (s_agentNickname s))
    (fclone (s_agentRole s)) (fclone (s_agentPath s)).

Record GatewayMessage := mkMessage {
  m_type : string;
  m_requestId : option string;
  m_sessionId : option string;
  m_timestamp : string;
  m_payload : val;
  m_eventSeq : option Z
}.

Definition with_m_eventSeq (v : option Z) (m : GatewayMessage) : GatewayMessage :=
  mkMessage (m_type m) (m_requestId m) (m_sessionId m) (m_timestamp m) (m_payload m) v.

(** [JSON.parse(JSON.stringify(message))] *)
Definition clone_message (m : GatewayMessage) : GatewayMessage :=
  mkMessage (m_type m) (m_requestId m) (m_sessionId m) (m_timestamp m)
    (json_clone (m_payload m)) (m_eventSeq m).

(** [entry.message.eventSeq ?? 0] *)
Definition seq_of (m : GatewayMessage) : Z := default 0 (m_eventSeq m).

Record CreateRequestRecord := { c_sessionId : string; c_createdAt : Z }.

(** Timeline entries [{ message }] are represented by their message. *)
Record CachedEvents := { entries : list GatewayMessage; complete : bool }.

Definition EVENT_CACHE_MAX_SESSIONS : nat := 64.
Definition EVENT_CACHE_MAX_ENTRIES : nat := Z.to_nat 512.
Definition REQUEST_RESERVATION_TTL_MS : Z := 10 * 60 * 1000.
Definition REQUEST_RESERVATION_MAX : nat := Z.to_nat 10000.

(** ** Files *)

(** A line of an event file: not JSON, the JSON [null], or an object with its
    [message] property. *)
Inductive line :=
| LCorrupt
| LNull
| LEntry (message : option GatewayMessage).

Record event_file := { f_lines : list line; f_readable : bool }.

(** A JSON snapshot: missing, blank, not JSON, or a value. *)
Inductive json_file (A : Type) :=
| FMissing
| FBlank
| FCorrupt
| FJson (a : A).
Arguments FMissing {A}.
Arguments FBlank {A}.
Arguments FCorrupt {A}.
Arguments FJson {A} a.

(** A session as [sessions.json] holds it: files written by earlier versions
    lack [sessionPolicyMode], and [recentClientRequestIds] is checked. *)
Record PersistedSession := {
  p_session : GatewaySession;
  p_policy : option SessionPolicyMode;
  p_recent : option (list val)
}.

(** What the file system answers: the directory and the temporary file can be
    written, the rename succeeds, the direct write succeeds, fails before
    or fails after truncating. *)
Inductive direct_write := DWritten | DRefused | DTruncated.
Record fs_answers := {
  mkdir_ok : bool; tmp_ok : bool; rename_ok : bool; direct_answer : direct_write
}.

(** A task chained on the promise [t_after]; its own promise is [t_id]. *)
Inductive action := Append (l : line) | Remove.
Record task := { t_id : nat; t_after : option nat; t_file : string; t_action : action }.

(** The fields of the class, then the pending tasks of the promise chains, the
    files and the answers of the file system. *)
Record GatewayStore := mkStore {
  sessions : jmap string GatewaySession;
  subagentRelations : jmap string string;
  createRequests : jmap string CreateRequestRecord;
  latestSeqBySession : jmap string Z;
  eventCache : jmap string CachedEvents;
  eventWriteChains : jmap string nat;
  eventWriteErrors : jmap string string;
  deletedSessions : list string;
  clientRequestReservations : jmap string Z;
  createRequestReservations : jmap string Z;
  sessionPersistTimer : bool;
  sessionPersistDirty : bool;
  tasks : list task;
  next_task : nat;
  event_files : jmap string event_file;
  sessions_file : json_file (list PersistedSession);
  relations_file : json_file (jmap string string);
  create_file : json_file (jmap string (option CreateRequestRecord));
  fs : fs_answers
}.

Definition with_sessions (v : jmap string GatewaySession) (r : GatewayStore) : GatewayStore :=
  mkStore v (subagentRelations r) (createRequests r) (latestSeqBySession r) (eventCache r)
    (eventWriteChains r) (eventWriteErrors r) (deletedSessions r) (clientRequestReservations
    r) (createRequestReservations r) (sessionPersistTimer r) (sessionPersistDirty r) (tasks
    r) (next_task r) (event_files r) (sessions_file r) (relations_file r) (create_file r)
    (fs r).
Definition with_subagentRelations (v : jmap string string) (r : GatewayStore) : GatewayStore :=
  mkStore (sessions r) v (createRequests r) (latestSeqBySession r) (eventCache r)
    (eventWriteChains r) (eventWriteErrors r) (deletedSessions r) (clientRequestReservations
    r) (createRequestReservations r) (sessionPersistTimer r) (sessionPersistDirty r) (tasks
    r) (next_task r) (event_files r) (sessions_file r) (relations_file r) (create_file r)
    (fs r).
Definition with_createRequests (v : jmap string CreateRequestRecord) (r : GatewayStore) : GatewayStore :=
  mkStore (sessions r) (subagentRelations r) v (latestSeqBySession r) (eventCache r)
    (eventWriteChains r) (eventWriteErrors r) (deletedSessions r) (clientRequestReservations
    r) (createRequestReservations r) (sessionPersistTimer r) (sessionPersistDirty r) (tasks
    r) (next_task r) (event_files r) (sessions_file r) (relations_file r) (create_file r)
    (fs r).
Definition with_latestSeqBySession (v : jmap string Z) (r : GatewayStore) : GatewayStore :=
  mkStore (sessions r) (subagentRelations r) (createRequests r) v (eventCache r) (eventWriteChains
    r) (eventWriteErrors r) (deletedSessions r) (clientRequestReservations r)
    (createRequestReservations r) (sessionPersistTimer r) (sessionPersistDirty r) (tasks r)
    (next_task r) (event_files r) (sessions_file r) (relations_file r) (create_file r) (fs
    r).
Definition with_eventCache (v : jmap string CachedEvents) (r : GatewayStore) : GatewayStore :=
  mkStore (sessions r) (subagentRelations r) (createRequests r) (latestSeqBySession r) v
    (eventWriteChains r) (eventWriteErrors r) (deletedSessions r) (clientRequestReservations
    r) (createRequestReservations r) (sessionPersistTimer r) (sessionPersistDirty r) (tasks
    r) (next_task r) (event_files r) (sessions_file r) (relations_file r) (create_file r)
    (fs r).
Definition with_eventWriteChains (v : jmap string nat) (r : GatewayStore) : GatewayStore :=
  mkStore (sessions r) (subagentRelations r) (createRequests r) (latestSeqBySession r) (eventCache
    r) v (eventWriteErrors r) (deletedSessions r) (clientRequestReservations r)
    (createRequestReservations r) (sessionPersistTimer r) (sessionPersistDirty r) (tasks r)
    (next_task r) (event_files r) (sessions_file r) (relations_file r) (create_file r) (fs
    r).
Definition with_eventWriteErrors (v : jmap string string) (r : GatewayStore) : GatewayStore :=
  mkStore (sessions r) (subagentRelations r) (createRequests r) (latestSeqBySession r) (eventCache
    r) (eventWriteChains r) v (deletedSessions r) (clientRequestReservations r)
    (createRequestReservations r) (sessionPersistTimer r) (sessionPersistDirty r) (tasks r)
    (next_task r) (event_files r) (sessions_file r) (relations_file r) (create_file r) (fs
    r).
Definition with_deletedSessions (v : list string) (r : GatewayStore) : GatewayStore :=
  mkStore (sessions r) (subagentRelations r) (createRequests r) (latestSeqBySession r) (eventCache
    r) (eventWriteChains r) (eventWriteErrors r) v (clientRequestReservations r)
    (createRequestReservations r) (sessionPersistTimer r) (sessionPersistDirty r) (tasks r)
    (next_task r) (event_files r) (sessions_file r) (relations_file r) (create_file r) (fs
    r).
Definition with_clientRequestReservations (v : jmap string Z) (r : GatewayStore) : GatewayStore :=
  mkStore (sessions r) (subagentRelations r) (createRequests r) (latestSeqBySession r) (eventCache
    r) (eventWriteChains r) (eventWriteErrors r) (deletedSessions r) v
    (createRequestReservations r) (sessionPersistTimer r) (sessionPersistDirty r) (tasks r)
    (next_task r) (event_files r) (sessions_file r) (relations_file r) (create_file r) (fs
    r).
Definition with_createRequestReservations (v : jmap string Z) (r : GatewayStore) : GatewayStore :=
  mkStore (sessions r) (subagentRelations r) (createRequests r) (latestSeqBySession r) (eventCache
    r) (eventWriteChains r) (eventWriteErrors r) (deletedSessions r)
    (clientRequestReservations r) v (sessionPersistTimer r) (sessionPersistDirty r) (tasks
    r) (next_task r) (event_files r) (sessions_file r) (relations_file r) (create_file r)
    (fs r).
Definition with_sessionPersistTimer (v : bool) (r : GatewayStore) : GatewayStore :=
  mkStore (sessions r) (subagentRelations r) (createRequests r) (latestSeqBySession r) (eventCache
    r) (eventWriteChains r) (eventWriteErrors r) (deletedSessions r)
    (clientRequestReservations r) (createRequestReservations r) v (sessionPersistDirty r)
    (tasks r) (next_task r) (event_files r) (sessions_file r) (relations_file r)
    (create_file r) (fs r).
Definition with_sessionPersistDirty (v : bool) (r : GatewayStore) : GatewayStore :=
  mkStore (sessions r) (subagentRelations r) (createRequests r) (latestSeqBySession r) (eventCache
    r) (eventWriteChains r) (eventWriteErrors r) (deletedSessions r)
    (clientRequestReservations r) (createRequestReservations r) (sessionPersistTimer r) v
    (tasks r) (next_task r) (event_files r) (sessions_file r) (relations_file r)
    (create_file r) (fs r).
Definition with_tasks (v : list task) (r : GatewayStore) : GatewayStore :=
  mkStore (sessions r) (subagentRelations r) (createRequests r) (latestSeqBySession r) (eventCache
    r) (eventWriteChains r) (eventWriteErrors r) (deletedSessions r)
    (clientRequestReservations r) (createRequestReservations r) (sessionPersistTimer r)
    (sessionPersistDirty r) v (next_task r) (event_files r) (sessions_file r)
    (relations_file r) (create_file r) (fs r).
Definition with_next_task (v : nat) (r : GatewayStore) : GatewayStore :=
  mkStore (sessions r) (subagentRelations r) (createRequests r) (latestSeqBySession r) (eventCache
    r) (eventWriteChains r) (eventWriteErrors r) (deletedSessions r)
    (clientRequestReservations r) (createRequestReservations r) (sessionPersistTimer r)
    (sessionPersistDirty r) (tasks r) v (event_files r) (sessions_file r) (relations_file r)
    (create_file r) (fs r).
Definition with_event_files (v : jmap string event_file) (r : GatewayStore) : GatewayStore :=
  mkStore (sessions r) (subagentRelations r) (createRequests r) (latestSeqBySession r) (eventCache
    r) (eventWriteChains r) (eventWriteErrors r) (deletedSessions r)
    (clientRequestReservations r) (createRequestReservations r) (sessionPersistTimer r)
    (sessionPersistDirty r) (tasks r) (next_task r) v (sessions_file r) (relations_file r)
    (create_file r) (fs r).
Definition with_sessions_file (v : json_file (list PersistedSession)) (r : GatewayStore) : GatewayStore :=
  mkStore (sessions r) (subagentRelations r) (createRequests r) (latestSeqBySession r) (eventCache
    r) (eventWriteChains r) (eventWriteErrors r) (deletedSessions r)
    (clientRequestReservations r) (createRequestReservations r) (sessionPersistTimer r)
    (sessionPersistDirty r) (tasks r) (next_task r) (event_files r) v (relations_file r)
    (create_file r) (fs r).
Definition with_relations_file (v : json_file (jmap string string)) (r : GatewayStore) : GatewayStore :=
  mkStore (sessions r) (subagentRelations r) (createRequests r) (latestSeqBySession r) (eventCache
    r) (eventWriteChains r) (eventWriteErrors r) (deletedSessions r)
    (clientRequestReservations r) (createRequestReservations r) (sessionPersistTimer r)
    (sessionPersistDirty r) (tasks r) (next_task r) (event_files r) (sessions_file r) v
    (create_file r) (fs r).
Definition with_create_file (v : json_file (jmap string (option CreateRequestRecord))) (r : GatewayStore) : GatewayStore :=
  mkStore (sessions r) (subagentRelations r) (createRequests r) (latestSeqBySession r) (eventCache
    r) (eventWriteChains r) (eventWriteErrors r) (deletedSessions r)
    (clientRequestReservations r) (createRequestReservations r) (sessionPersistTimer r)
    (sessionPersistDirty r) (tasks r) (next_task r) (event_files r) (sessions_file r)
    (relations_file r) v (fs r).
Definition with_fs (v : fs_answers) (r : GatewayStore) : GatewayStore :=
  mkStore (sessions r) (subagentRelations r) (createRequests r) (latestSeqBySession r) (eventCache
    r) (eventWriteChains r) (eventWriteErrors r) (deletedSessions r)
    (clientRequestReservations r) (createRequestReservations r) (sessionPersistTimer r)
    (sessionPersistDirty r) (tasks r) (next_task r) (event_files r) (sessions_file r)
    (relations_file r) (create_file r) v.

(** ** Helpers of the module *)

(** [n + 1] on the doubles: exact below 2^53, where it gets stuck. *)
Definition js_succ (n : Z) : Z := if n <? 9007199254740992 then n + 1 else n.

Definition NUL : string := String (ascii_of_nat 0) "".

Definition safeFileName (sessionId : string) : string := encodeURIComponent sessionId.

(** The event file of a session, inside the events directory. *)
Definition event_path (sessionId : string) : string := safeFileName sessionId ^^ ".jsonl".

(** The value read, and the file afterwards: a corrupt snapshot is renamed. *)
Definition readJson {A} (a : fs_answers) (file : json_file A) (fallback : A) : A * json_file A :=
  match file with
  | FMissing => (fallback, FMissing)
  | FBlank => (fallback, FBlank)
  | FCorrupt => (fallback, if rename_ok a then FMissing else FCorrupt)
  | FJson v => (v, file)
  end.

Definition writeJsonAtomic {A} (a : fs_answers) (value : A) (file : json_file A) : json_file A :=
  if mkdir_ok a && tmp_ok a then
    if rename_ok a then FJson value
    else match direct_answer a with
         | DWritten => FJson value
         | DRefused => file
         | DTruncated => FCorrupt
         end
  else file.

(** [Array.from(new Set(l))] *)
Definition unique (l : list string) : list string := foldl (fun s x => sadd x s) [] l.

(** ** Sessions *)

Definition session_before (a b : GatewaySession) : bool :=
  str_ltb (s_lastUpdatedAt b) (s_lastUpdatedAt a).

Definition listSessions (st : GatewayStore) : list GatewaySession :=
  isort session_before (sessions st).*2.

Definition getSession (sessionId : string) (st : GatewayStore) : option GatewaySession :=
  mget sessionId (sessions st).

Definition persisted (s : GatewaySession) : PersistedSession :=
  {| p_session := clone_session s;
     p_policy := Some (s_sessionPolicyMode s);
     p_recent := map VStr <$> fget (s_recentClientRequestIds s) |}.

Definition persistSessionsNow (st : GatewayStore) : GatewayStore :=
  with_sessions_file (writeJsonAtomic (fs st) (map persisted (listSessions st)) (sessions_file st)) st.

(** Marks the snapshot dirty and starts the 100 ms timer unless it is running. *)
Definition persistSessions (st : GatewayStore) : GatewayStore :=
  with_sessionPersistTimer true (with_sessionPersistDirty true st).

(** The callback of that timer. *)
Definition persistTimerFires (st : GatewayStore) : GatewayStore :=
  if sessionPersistTimer st then
    let st := with_sessionPersistTimer false st in
    if sessionPersistDirty st then persistSessionsNow (with_sessionPersistDirty false st) else st
  else st.

Definition saveSession (session : GatewaySession) (st : GatewayStore) : GatewayStore :=
  persistSessions
    (with_sessions (mset (s_id session) session (sessions st))
      (with_deletedSessions (sdelete (s_id session) (deletedSessions st)) st)).

Definition merge_session (st : GatewayStore) (session : GatewaySession) : GatewaySession :=
  match mget (s_id session) (sessions st) with
  | Some existing => with_s_lastUpdatedAt (s_lastUpdatedAt session) (spread_session existing session)
  | None => session
  end.

Definition upsertSession (session : GatewaySession) (st : GatewayStore) : GatewaySession * GatewayStore :=
  let merged := merge_session st session in (merged, saveSession merged st).

Definition upsertSessions (l : list GatewaySession) (st : GatewayStore)
    : list GatewaySession * GatewayStore :=
  let st := foldl (fun st session =>
    with_sessions (mset (s_id session) (merge_session st session) (sessions st)) st) st l in
  let st := persistSessions st in
  (listSessions st, st).

Definition updateSession (sessionId : string) (updater : GatewaySession -> GatewaySession)
    (st : GatewayStore) : option GatewaySession * GatewayStore :=
  match mget sessionId (sessions st) with
  | None => (None, st)
  | Some existing => let s := updater existing in (Some s, saveSession s st)
  end.

(** ** The event log *)

Definition getCachedEvents (sessionId : string) (st : GatewayStore)
    : option CachedEvents * GatewayStore :=
  match mget sessionId (eventCache st) with
  | None => (None, st)
  | Some cached =>
      (Some cached, with_eventCache (mset sessionId cached (mdelete sessionId (eventCache st))) st)
  end.

Definition bound_cache (l : list GatewayMessage) (all : bool) : CachedEvents :=
  let bounded := if decide (EVENT_CACHE_MAX_ENTRIES < length l)%nat
                 then lastn EVENT_CACHE_MAX_ENTRIES l else l in
  {| entries := bounded; complete := all && (length bounded =? length l)%nat |}.

Definition cacheEvents (sessionId : string) (l : list GatewayMessage) (all : bool)
    (st : GatewayStore) : GatewayStore :=
  with_eventCache
    (mshrink EVENT_CACHE_MAX_SESSIONS
      (mset sessionId (bound_cache l all) (mdelete sessionId (eventCache st)))) st.

Definition by_seq (l : list GatewayMessage) (acc : jmap Z GatewayMessage) : jmap Z GatewayMessage :=
  foldl (fun acc m => match m_eventSeq m with Some q => mset q m acc | None => acc end) acc l.

Definition seq_before (a b : GatewayMessage) : bool := seq_of a <? seq_of b.

Definition mergeEvents (disk cached : list GatewayMessage) : list GatewayMessage :=
  match cached with
  | [] => disk
  | _ => isort seq_before (by_seq cached (by_seq disk [])).*2
  end.

(** Numbering of the entries read: [fallbackSeq] is threaded through. *)
Fixpoint renumber (fallbackSeq : Z) (l : list GatewayMessage) : list GatewayMessage :=
  match l with
  | [] => []
  | m :: l' =>
      let q := match m_eventSeq m with
               | Some q => if fallbackSeq <? q then q else js_succ fallbackSeq
               | None => js_succ fallbackSeq
               end in
      with_m_eventSeq (Some q) m :: renumber q l'
  end.

(** The messages of a file that belong to the session; [None] when reading a
    property of [null] throws. *)
Fixpoint parse_lines (sessionId : string) (l : list line) : option (list GatewayMessage) :=
  match l with
  | [] => Some []
  | LCorrupt :: l' => parse_lines sessionId l'
  | LNull :: _ => None
  | LEntry None :: l' => parse_lines sessionId l'
  | LEntry (Some m) :: l' =>
      rest ← parse_lines sessionId l';
      Some (if opt_str_eqb (m_sessionId m) (Some sessionId) then m :: rest else rest)
  end.

Definition readEventsFromDisk (sessionId : string) (st : GatewayStore) : list GatewayMessage :=
  match mget (event_path sessionId) (event_files st) with
  | None => []
  | Some f =>
      if f_readable f then
        match parse_lines sessionId (f_lines f) with
        | Some l => renumber 0 l
        | None => []
        end
      else []
  end.

Definition last_seq (l : list GatewayMessage) : option Z := m ← last l; m_eventSeq m.

Definition listEvents (sessionId : string) (st : GatewayStore) : list GatewayMessage * GatewayStore :=
  let '(cached, st) := getCachedEvents sessionId st in
  let l := match cached with
           | Some c => if complete c then entries c
                       else mergeEvents (readEventsFromDisk sessionId st) (entries c)
           | None => mergeEvents (readEventsFromDisk sessionId st) []
           end in
  let st := cacheEvents sessionId l (match cached with Some c => complete c | None => true end) st in
  let st := match last_seq l with
            | Some latest => if latest =? 0 then st
                             else with_latestSeqBySession (mset sessionId latest (latestSeqBySession st)) st
            | None => st
            end in
  (l, st).

(** [this.latestSeqBySession.get(id) ?? this.listEvents(id).at(-1)?.message.eventSeq] *)
Definition latest_seq (sessionId : string) (st : GatewayStore) : option Z * GatewayStore :=
  match mget sessionId (latestSeqBySession st) with
  | Some q => (Some q, st)
  | None => let '(l, st) := listEvents sessionId st in (last_seq l, st)
  end.

Definition queueEventWrite (filePath : string) (l : line) (st : GatewayStore) : GatewayStore :=
  let next := next_task st in
  let t := {| t_id := next; t_after := mget filePath (eventWriteChains st);
              t_file := filePath; t_action := Append l |} in
  with_eventWriteChains (mset filePath next (eventWriteChains st))
    (with_next_task (S next) (with_tasks (tasks st ++ [t]) st)).

Inductive append_result :=
| Dropped
| MkdirThrew
| Appended (m : GatewayMessage).

Definition appendEvent (message : GatewayMessage) (st : GatewayStore) : append_result * GatewayStore :=
  match m_sessionId message with
  | None => (Dropped, st)
  | Some sessionId =>
      if (sessionId === "") || shas sessionId (deletedSessions st) then (Dropped, st)
      else
        let '(latest, st) := latest_seq sessionId st in
        let currentSeq := default 0 latest in
        let eventSeq := match m_eventSeq message with
                        | Some q => if is_safe_integer q && (currentSeq <? q) then q else js_succ currentSeq
                        | None => js_succ currentSeq
                        end in
        let persistedMessage := with_m_eventSeq (Some eventSeq) message in
        if mkdir_ok (fs st) then
          let '(cached, st) := getCachedEvents sessionId st in
          let l := match cached with
                   | Some c => entries c ++ [persistedMessage]
                   | None => readEventsFromDisk sessionId st ++ [persistedMessage]
                   end in
          let st := cacheEvents sessionId l (match cached with Some c => complete c | None => true end) st in
          let st := queueEventWrite (event_path sessionId)
                      (LEntry (Some (clone_message persistedMessage))) st in
          (Appended persistedMessage,
           with_latestSeqBySession (mset sessionId eventSeq (latestSeqBySession st)) st)
        else (MkdirThrew, st)
  end.

(** A task may run when the promise it waits for has settled and the
    reactions registered on that promise before it have run. *)
Definition blocks (t u : task) : bool :=
  match t_after t with
  | None => false
  | Some p =>
      (t_id u =? p)%nat
      || match t_action u, t_after u with Remove, Some p' => (p' =? p)%nat | _, _ => false end
  end.

Definition ready (before : list task) (t : task) : bool := negb (existsb (blocks t) before).

Definition append_line (filePath : string) (l : line) (files : jmap string event_file) :=
  let f := default {| f_lines := []; f_readable := true |} (mget filePath files) in
  mset filePath {| f_lines := f_lines f ++ [l]; f_readable := f_readable f |} files.

Definition removeFile (filePath : string) (st : GatewayStore) : GatewayStore :=
  with_eventWriteChains (mdelete filePath (eventWriteChains st))
    (with_event_files (mdelete filePath (event_files st)) st).

(** The outcome of a task: the append, its [catch] and its [finally]. *)
Definition perform (t : task) (ok : bool) (error : string) (st : GatewayStore) : GatewayStore :=
  match t_action t with
  | Append l =>
      let st := if ok then with_event_files (append_line (t_file t) l (event_files st)) st
                else with_eventWriteErrors (mset (t_file t) error (eventWriteErrors st)) st in
      if decide (mget (t_file t) (eventWriteChains st) = Some (t_id t))
      then with_eventWriteChains (mdelete (t_file t) (eventWriteChains st)) st else st
  | Remove => removeFile (t_file t) st
  end.

(** The event loop settles the [i]-th pending task. *)
Definition settle (i : nat) (ok : bool) (error : string) (st : GatewayStore) : GatewayStore :=
  match tasks st !! i with
  | Some t =>
      if ready (take i (tasks st)) t
      then perform t ok error (with_tasks (take i (tasks st) ++ drop (S i) (tasks st)) st)
      else st
  | None => st
  end.

(** The synchronous part of [flush]; it then awaits the pending tasks. *)
Definition flush (st : GatewayStore) : GatewayStore :=
  let st := with_sessionPersistTimer false st in
  if sessionPersistDirty st then persistSessionsNow (with_sessionPersistDirty false st) else st.

Definition getEventWriteErrors (st : GatewayStore) : list (string * string) := eventWriteErrors st.

Definition takeEventWriteErrors (st : GatewayStore) : list (string * string) * GatewayStore :=
  (getEventWriteErrors st, with_eventWriteErrors [] st).

Definition listEventsAfter (sessionId : string) (cursor : Z) (st : GatewayStore)
    : list GatewayMessage * GatewayStore :=
  let '(l, st) := listEvents sessionId st in
  (List.filter (fun m => cursor <? seq_of m) l, st).

Definition hasEvents (sessionId : string) (st : GatewayStore) : bool :=
  mhas (event_path sessionId) (event_files st).

Record EventPage := { page : list GatewayMessage; nextCursor : Z; truncated : bool }.

(** [limit] is an integer: [Math.floor(limit) || 1] maps 0 to 1. *)
Definition safe_limit (limit : Z) : Z :=
  Z.max 1 (Z.min 5000 (if limit =? 0 then 1 else limit)).

Definition page_of (l : list GatewayMessage) (cursor limit : Z) : EventPage :=
  let safeLimit := Z.to_nat (safe_limit limit) in
  let trunc := (safeLimit <? length l)%nat in
  let p := if trunc then take safeLimit l else l in
  {| page := p; nextCursor := default cursor (last_seq p); truncated := trunc |}.

Definition listEventsAfterLimited (sessionId : string) (cursor limit : Z) (st : GatewayStore)
    : EventPage * GatewayStore :=
  let '(l, st) := listEventsAfter sessionId cursor st in (page_of l cursor limit, st).

Definition latestCursors (st : GatewayStore) : jmap string Z * GatewayStore :=
  foldl (fun '(cursors, st) session =>
    let '(q, st) := latest_seq (s_id session) st in
    (match q with
     | Some q => if q =? 0 then cursors else mset (s_id session) q cursors
     | None => cursors
     end, st)) ([], st) (sessions st).*2.

Definition nextEventSeq (sessionId : string) (st : GatewayStore) : Z * GatewayStore :=
  let '(q, st) := latest_seq sessionId st in (js_succ (default 0 q), st).

(** ** Sub-agent relations *)

Definition write_relations (st : GatewayStore) : GatewayStore :=
  with_relations_file (writeJsonAtomic (fs st) (subagentRelations st) (relations_file st)) st.

Definition linkSubagent (parentId childId : string) (st : GatewayStore) : GatewayStore :=
  if (parentId === "") || (childId === "") || (parentId === childId) then st
  else
    let st := write_relations
      (with_subagentRelations (mset childId parentId (subagentRelations st)) st) in
    let st := if mhas parentId (sessions st)
              then (updateSession parentId (fun s =>
                     with_s_childSessionIds
                       (Val (unique (default [] (fget (s_childSessionIds s)) ++ [childId]))) s) st).2
              else st in
    if mhas childId (sessions st)
    then (updateSession childId (with_s_parentSessionId (Val parentId)) st).2 else st.

Definition getSubagentParent (childId : string) (st : GatewayStore) : option string :=
  mget childId (subagentRelations st).

(** ** Idempotency ledgers and reservations *)

Definition write_create_requests (st : GatewayStore) : GatewayStore :=
  with_create_file (writeJsonAtomic (fs st)
    (map (fun e => (e.1, Some e.2)) (createRequests st)) (create_file st)) st.

Definition pruneReservations (now : Z) (reservations : jmap string Z) : jmap string Z :=
  let cutoff := now - REQUEST_RESERVATION_TTL_MS in
  mshrink REQUEST_RESERVATION_MAX (mfilter (fun _ createdAt => cutoff <? createdAt) reservations).

Definition hasClientRequest (sessionId requestId : string) (st : GatewayStore) : bool :=
  if requestId === "" then false
  else match mget sessionId (sessions st) with
       | None => false
       | Some s =>
           bool_decide (requestId ∈ default [] (fget (s_recentClientRequestIds s)))
           || opt_str_eqb (fget (s_lastClientRequestId s)) (Some requestId)
       end.

Definition reservation_key (sessionId requestId : string) : string := sessionId ^^ NUL ^^ requestId.

Definition reserveClientRequest (now : Z) (sessionId requestId : string) (st : GatewayStore)
    : bool * GatewayStore :=
  if (sessionId === "") || (requestId === "") then (true, st)
  else if hasClientRequest sessionId requestId st then (false, st)
  else
    let reservations := pruneReservations now (clientRequestReservations st) in
    let key := reservation_key sessionId requestId in
    if mhas key reservations then (false, with_clientRequestReservations reservations st)
    else (true, with_clientRequestReservations (mset key now reservations) st).

Definition releaseClientRequest (sessionId requestId : string) (st : GatewayStore) : GatewayStore :=
  if (sessionId === "") || (requestId === "") then st
  else with_clientRequestReservations
         (mdelete (reservation_key sessionId requestId) (clientRequestReservations st)) st.

Definition rememberClientRequest (sessionId requestId : string) (st : GatewayStore) : GatewayStore :=
  if requestId === "" then st
  else
    let st := releaseClientRequest sessionId requestId st in
    match mget sessionId (sessions st) with
    | None => st
    | Some session =>
        let ids := lastn 128 (List.filter (fun v => v !== "")
          (unique (default [] (fget (s_recentClientRequestIds session)) ++ [requestId]))) in
        saveSession (with_s_lastClientRequestId (Val requestId)
          (with_s_recentClientRequestIds (Val ids) session)) st
    end.

Definition getCreateRequestSession (requestId : string) (st : GatewayStore)
    : option string * GatewayStore :=
  if requestId === "" then (None, st)
  else match mget requestId (createRequests st) with
       | None => (None, st)
       | Some record =>
           if mhas (c_sessionId record) (sessions st) then (Some (c_sessionId record), st)
           else (None, write_create_requests
                         (with_createRequests (mdelete requestId (createRequests st)) st))
       end.

Inductive create_reservation :=
| Reserved
| AlreadyCreated (sessionId : string)
| CreatePending.

(** The empty session id is falsy. *)
Definition reserveCreateRequest (now : Z) (requestId : string) (st : GatewayStore)
    : create_reservation * GatewayStore :=
  if requestId === "" then (Reserved, st)
  else
    let '(existing, st) := getCreateRequestSession requestId st in
    if str_truthy existing then (AlreadyCreated (default "" existing), st)
    else
      let reservations := pruneReservations now (createRequestReservations st) in
      if mhas requestId reservations
      then (CreatePending, with_createRequestReservations reservations st)
      else (Reserved, with_createRequestReservations (mset requestId now reservations) st).

Definition releaseCreateRequest (requestId : string) (st : GatewayStore) : GatewayStore :=
  if requestId === "" then st
  else with_createRequestReservations (mdelete requestId (createRequestReservations st)) st.

Definition rememberCreateRequest (now : Z) (requestId sessionId : string) (st : GatewayStore)
    : GatewayStore :=
  if (requestId === "") || (sessionId === "") then st
  else
    let st := with_createRequestReservations (mdelete requestId (createRequestReservations st)) st in
    let all := mset requestId {| c_sessionId := sessionId; c_createdAt := now |} (createRequests st) in
    write_create_requests (with_createRequests (lastn (Z.to_nat 512) all) st).

(** ** Deletion *)

(** Unlinks the event file: at once, or after the pending writes. *)
Definition remove_events (filePath : string) (st : GatewayStore) : GatewayStore :=
  match mget filePath (eventWriteChains st) with
  | Some pendingWrite =>
      let t := {| t_id := next_task st; t_after := Some pendingWrite;
                  t_file := filePath; t_action := Remove |} in
      with_next_task (S (next_task st)) (with_tasks (tasks st ++ [t]) st)
  | None => removeFile filePath st
  end.

(** Removes the child from the parent's list. *)
Definition unlink_child (sessionId : string) (parentId : option string) (st : GatewayStore)
    : GatewayStore :=
  match parentId with
  | Some p =>
      if (p !== "") && mhas p (sessions st) then
        (updateSession p (fun s => with_s_childSessionIds
           (Val (List.filter (fun c => c !== sessionId)
              (default [] (fget (s_childSessionIds s))))) s) st).2
      else st
  | None => st
  end.

Definition forget_create_requests (sessionId : string) (st : GatewayStore) : GatewayStore :=
  let kept := mfilter (fun _ r => c_sessionId r !== sessionId) (createRequests st) in
  let changed := existsb (fun e => c_sessionId e.2 === sessionId) (createRequests st) in
  let st := with_createRequests kept st in
  if changed then write_create_requests st else st.

(** The session, its relations and its create requests. *)
Definition forget_session (sessionId : string) (st : GatewayStore) : GatewayStore :=
  let st := with_deletedSessions (sadd sessionId (deletedSessions st)) st in
  let deleted := mhas sessionId (sessions st) in
  let st := with_sessions (mdelete sessionId (sessions st)) st in
  let st := if deleted then persistSessions st else st in
  let parentId := mget sessionId (subagentRelations st) in
  let st := with_subagentRelations
    (mfilter (fun _ linkedParentId => linkedParentId !== sessionId)
      (mdelete sessionId (subagentRelations st))) st in
  let st := unlink_child sessionId parentId st in
  forget_create_requests sessionId (write_relations st).

(** The in-memory traces of its events and reservations. *)
Definition forget_events (sessionId : string) (st : GatewayStore) : GatewayStore :=
  let st := with_latestSeqBySession (mdelete sessionId (latestSeqBySession st)) st in
  let st := with_eventCache (mdelete sessionId (eventCache st)) st in
  with_clientRequestReservations
    (mfilter (fun key _ => negb (starts_with (sessionId ^^ NUL) key))
      (clientRequestReservations st)) st.

Definition deleteSession (sessionId : string) (st : GatewayStore) : bool * GatewayStore :=
  (mhas sessionId (sessions st),
   forget_events sessionId (remove_events (event_path sessionId) (forget_session sessionId st))).

(** ** Start-up *)

Definition normalizePersistedSession (now : Z) (p : PersistedSession) : GatewaySession :=
  let session := p_session p in
  let recent := match p_recent p with
                | Some l => lastn 128 (List.filter (fun s => s !== "") (omap as_str l))
                | None => if str_truthy (fget (s_lastClientRequestId session))
                          then option_list (fget (s_lastClientRequestId session)) else []
                end in
  let normalized := with_s_recentClientRequestIds (Val recent)
    (with_s_sessionPolicyMode (default confirm (p_policy p)) session) in
  match s_status normalized with
  | running | starting =>
      let now := toISOString now in
      with_s_status completed
        (with_s_activeTurnId Undef
          (with_s_finishedAt (Val (default now (fget (s_finishedAt normalized))))
            (with_s_lastTurnFinishedAt (Val (default now (fget (s_lastTurnFinishedAt normalized))))
              normalized)))
  | _ => normalized
  end.

Definition load_create (st_sessions : jmap string GatewaySession)
    (l : jmap string (option CreateRequestRecord)) : jmap string CreateRequestRecord :=
  foldl (fun acc '(requestId, value) =>
    match value with
    | Some r => if mhas (c_sessionId r) st_sessions then mset requestId r acc else acc
    | None => acc
    end) [] l.

(** [new GatewayStore()] on the files a previous process left. *)
Definition constructor (now : Z) (files : jmap string event_file)
    (sf : json_file (list PersistedSession)) (rf : json_file (jmap string string))
    (cf : json_file (jmap string (option CreateRequestRecord))) (a : fs_answers) : GatewayStore :=
  let '(ss, sf) := readJson a sf [] in
  let loaded := foldl (fun acc p => mset (s_id (p_session p)) (normalizePersistedSession now p) acc) [] ss in
  let '(rs, rf) := readJson a rf [] in
  let '(cs, cf) := readJson a cf [] in
  persistSessions
    (mkStore loaded (foldl (fun acc '(c, p) => mset c p acc) [] rs) (load_create loaded cs)
       [] [] [] [] [] [] [] false false [] 0 files sf rf cf a).

Definition restart (now : Z) (st : GatewayStore) : GatewayStore :=
  constructor now (event_files st) (sessions_file st) (relations_file st) (create_file st) (fs st).

(** ** Operations, in the order the event loop makes them *)

Inductive op :=
| SaveSession (s : GatewaySession)
| UpsertSession (s : GatewaySession)
| UpsertSessions (l : list GatewaySession)
| UpdateSession (sessionId : string) (updater : GatewaySession -> GatewaySession)
| AppendEvent (m : GatewayMessage)
| ListEvents (sessionId : string)
| LatestCursors
| LinkSubagent (parentId childId : string)
| DeleteSession (sessionId : string)
| ReserveClient (now : Z) (sessionId requestId : string)
| ReleaseClient (sessionId requestId : string)
| RememberClient (sessionId requestId : string)
| ReserveCreate (now : Z) (requestId : string)
| ReleaseCreate (requestId : string)
| RememberCreate (now : Z) (requestId sessionId : string)
| TakeErrors
| PersistTimer
| Flush
| Settle (i : nat) (ok : bool) (error : string)
| FsAnswers (a : fs_answers)
| Restart (now : Z).

Definition exec (o : op) (st : GatewayStore) : GatewayStore :=
  match o with
  | SaveSession s => saveSession s st
  | UpsertSession s => (upsertSession s st).2
  | UpsertSessions l => (upsertSessions l st).2
  | UpdateSession sid f => (updateSession sid f st).2
  | AppendEvent m => (appendEvent m st).2
  | ListEvents sid => (listEvents sid st).2
  | LatestCursors => (latestCursors st).2
  | LinkSubagent p c => linkSubagent p c st
  | DeleteSession sid => (deleteSession sid st).2
  | ReserveClient now sid r => (reserveClientRequest now sid r st).2
  | ReleaseClient sid r => releaseClientRequest sid r st
  | RememberClient sid r => rememberClientRequest sid r st
  | ReserveCreate now r => (reserveCreateRequest now r st).2
  | ReleaseCreate r => releaseCreateRequest r st
  | RememberCreate now r sid => rememberCreateRequest now r sid st
  | TakeErrors => (takeEventWriteErrors st).2
  | PersistTimer => persistTimerFires st
  | Flush => flush st
  | Settle i ok e => settle i ok e st
  | FsAnswers a => with_fs a st
  | Restart now => restart now st
  end.

Definition run (os : list op) (st : GatewayStore) : GatewayStore :=
  foldl (fun st o => exec o st) st os.
