(* ===== verification/StoreInv.v ===== *)
(** * Invariants of the GatewayStore

    The well-formedness invariant of server/src/gatewayStore.ts over every
    sequence of operations, restarts included; the idempotency ledgers and
    reservations; durability of the session snapshot. *)

From S2P Require Import Prelude JsValue JsDate GatewayStore.

Local Open Scope Z_scope.

(** ** Well-formedness *)

Record wf (st : GatewayStore) : Prop := {
  wf_sessions : NoDup (sessions st).*1;
  wf_ids : Forall (fun e => s_id e.2 = e.1) (sessions st);
  wf_relations : NoDup (subagentRelations st).*1;
  wf_create : NoDup (createRequests st).*1;
  wf_create_max : (length (createRequests st) <= 512)%nat;
  wf_create_file : match create_file st with
                   | FJson l => (length l <= 512)%nat | _ => True end;
  wf_latest : NoDup (latestSeqBySession st).*1;
  wf_cache : NoDup (eventCache st).*1;
  wf_cache_max : (length (eventCache st) <= EVENT_CACHE_MAX_SESSIONS)%nat;
  wf_cache_entries : Forall (fun e => (length (entries e.2) <= EVENT_CACHE_MAX_ENTRIES)%nat) (eventCache st);
  wf_client_res : NoDup (clientRequestReservations st).*1;
  wf_client_max : (length (clientRequestReservations st) <= S REQUEST_RESERVATION_MAX)%nat;
  wf_create_res : NoDup (createRequestReservations st).*1;
  wf_create_res_max : (length (createRequestReservations st) <= S REQUEST_RESERVATION_MAX)%nat;
  wf_timer : sessionPersistDirty st = true -> sessionPersistTimer st = true
}.

(** *** Facts about map operations under a predicate on the bindings *)

Section forall_map.
Context {K V : Type} `{EqDecision K} (P : K * V -> Prop).

Lemma Forall_mset k v m : P (k, v) -> Forall P m -> Forall P (mset k v m).
Proof.
  intros Hp. induction 1 as [|[k' v'] m H Hm IH]; simpl; [by constructor|].
  case_decide; by constructor.
Qed.

Lemma Forall_mfilter p m : Forall P m -> Forall P (mfilter p m).
Proof. unfold mfilter. induction 1 as [|[k' v'] m H Hm IH]; simpl; [constructor|].
  destruct (p k' v'); [by constructor|done]. Qed.

Lemma Forall_mdelete k m : Forall P m -> Forall P (mdelete k m).
Proof. rewrite mdelete_mfilter. apply Forall_mfilter. Qed.

Lemma Forall_mshrink n m : Forall P m -> Forall P (mshrink n m).
Proof. rewrite mshrink_drop. apply Forall_lastn. Qed.
End forall_map.

Lemma mfilter_length {K V} (p : K -> V -> bool) (m : jmap K V) : (length (mfilter p m) <= length m)%nat.
Proof. unfold mfilter. induction m as [|[k v] m IH]; simpl; [lia|]. destruct (p k v); simpl; lia. Qed.

#[export] Hint Resolve Forall_mset Forall_mfilter Forall_mdelete Forall_mshrink : js.

Lemma pruneReservations_length now m :
  (length (pruneReservations now m) <= REQUEST_RESERVATION_MAX)%nat.
Proof. apply mshrink_length. Qed.

Lemma pruneReservations_NoDup now m : NoDup m.*1 -> NoDup (pruneReservations now m).*1.
Proof. unfold pruneReservations. auto with js. Qed.

Lemma mset_length_le {K V} `{EqDecision K} k (v : V) (m : jmap K V) :
  (length (mset k v m) <= S (length m))%nat.
Proof. rewrite mset_length. destruct (mhas k m); lia. Qed.

Lemma bound_cache_entries l all : (length (entries (bound_cache l all)) <= EVENT_CACHE_MAX_ENTRIES)%nat.
Proof. unfold bound_cache. simpl. case_decide; [apply lastn_le | lia]. Qed.

#[export] Hint Resolve pruneReservations_NoDup bound_cache_entries : js.

(** The fields of [wf] that an update does not touch are copied. *)
Ltac wf_copy H := destruct H; constructor; simpl; auto with js.

Lemma wf_persistSessions st : wf st -> wf (persistSessions st).
Proof. intros H. by wf_copy H. Qed.

Lemma wf_with_sessions m st :
  NoDup m.*1 -> Forall (fun e => s_id e.2 = e.1) m -> wf st -> wf (with_sessions m st).
Proof. intros ?? H. by wf_copy H. Qed.

Lemma wf_saveSession s st : wf st -> wf (saveSession s st).
Proof.
  intros H. apply wf_persistSessions, wf_with_sessions; try (by wf_copy H);
    simpl; destruct H; auto with js.
Qed.

Lemma wf_updateSession sid f st : wf st -> wf (updateSession sid f st).2.
Proof. intros H. unfold updateSession. case_match; simpl; auto using wf_saveSession. Qed.

Lemma s_id_merge st s : s_id (merge_session st s) = s_id s.
Proof. unfold merge_session. by case_match. Qed.

Lemma wf_upsertSessions l st : wf st -> wf (upsertSessions l st).2.
Proof.
  intros H. apply wf_persistSessions. revert st H.
  induction l as [|s l IH]; intros st H; simpl; [done|]. apply IH.
  pose proof (s_id_merge st s).
  apply wf_with_sessions; [..|done]; destruct H; auto with js.
Qed.

Lemma wf_persistSessionsNow st : wf st -> wf (persistSessionsNow st).
Proof. intros H. by wf_copy H. Qed.

Lemma wf_timer_off st :
  wf st -> wf (with_sessionPersistDirty false (with_sessionPersistTimer false st)).
Proof. intros H. by wf_copy H. Qed.

Lemma wf_persistTimerFires st : wf st -> wf (persistTimerFires st).
Proof.
  intros H. unfold persistTimerFires. destruct (sessionPersistTimer st); [|done]. simpl.
  destruct (sessionPersistDirty st) eqn:E.
  - apply wf_persistSessionsNow. by wf_copy H.
  - wf_copy H. congruence.
Qed.

Lemma wf_flush st : wf st -> wf (flush st).
Proof.
  intros H. unfold flush. simpl. destruct (sessionPersistDirty st) eqn:E.
  - apply wf_persistSessionsNow. by wf_copy H.
  - wf_copy H. congruence.
Qed.

(** *** The event cache *)

Lemma wf_getCachedEvents sid st : wf st -> wf (getCachedEvents sid st).2.
Proof.
  intros H. unfold getCachedEvents. destruct (mget sid (eventCache st)) eqn:E; simpl; [|done].
  destruct H. constructor; simpl; auto with js.
  - rewrite mset_length. rewrite (proj2 (mhas_false _ _)) by apply mget_mdelete_eq.
    assert (length (mdelete sid (eventCache st)) < length (eventCache st))%nat; [|lia].
    clear -E. induction (eventCache st) as [|[k v] m IH]; simpl in *; [done|].
    case_decide; simpl; [pose proof (mdelete_length sid m); lia|]. apply IH in E. lia.
  - apply Forall_mset; auto with js. apply mget_Some_elem in E.
    rewrite Forall_forall in wf_cache_entries0. by apply (wf_cache_entries0 (sid, c)).
Qed.

Lemma wf_cacheEvents sid l all st : wf st -> wf (cacheEvents sid l all st).
Proof.
  intros H. destruct H. constructor; simpl; auto with js; [apply mshrink_length|].
  apply Forall_mshrink, Forall_mset; auto with js. apply bound_cache_entries.
Qed.

Lemma wf_set_latest m st : NoDup m.*1 -> wf st -> wf (with_latestSeqBySession m st).
Proof. intros ? H. by wf_copy H. Qed.

Lemma wf_listEvents sid st : wf st -> wf (listEvents sid st).2.
Proof.
  intros H. unfold listEvents. apply (wf_getCachedEvents sid) in H.
  destruct (getCachedEvents sid st) as [c st1]. simpl in *.
  destruct (last_seq _) as [q|]; [destruct (q =? 0)|]; try (apply wf_set_latest; [destruct H; auto with js|]);
    by apply wf_cacheEvents.
Qed.

Lemma wf_latest_seq sid st : wf st -> wf (latest_seq sid st).2.
Proof.
  intros H. unfold latest_seq. case_match; [done|].
  apply (wf_listEvents sid) in H. by destruct (listEvents sid st).
Qed.

Lemma wf_queueEventWrite f l st : wf st -> wf (queueEventWrite f l st).
Proof. intros H. by wf_copy H. Qed.

Lemma wf_appendEvent m st : wf st -> wf (appendEvent m st).2.
Proof.
  intros H. unfold appendEvent. destruct (m_sessionId m) as [sid|]; [|done].
  destruct (_ || _); [done|]. apply (wf_latest_seq sid) in H.
  destruct (latest_seq sid st) as [q st1]. simpl in *. case_match; [|done].
  apply (wf_getCachedEvents sid) in H. destruct (getCachedEvents sid st1) as [c st2]. simpl in *.
  apply wf_set_latest; [destruct H; simpl; auto with js|].
  apply wf_queueEventWrite, wf_cacheEvents, H.
Qed.

Lemma wf_latestCursors st : wf st -> wf (latestCursors st).2.
Proof.
  unfold latestCursors. generalize (@nil (string * Z)) as acc. generalize (sessions st).*2 as l.
  intros l. revert st. induction l as [|s l IH]; intros st acc H; [done|]. simpl.
  apply (wf_latest_seq (s_id s)) in H. destruct (latest_seq (s_id s) st). by apply IH.
Qed.

Lemma wf_settle i ok e st : wf st -> wf (settle i ok e st).
Proof.
  intros H. unfold settle. destruct (tasks st !! i); [|done]. case_match; [|done].
  unfold perform. case_match; [|by wf_copy H].
  destruct ok; case_decide; by wf_copy H.
Qed.

(** *** Ledgers, relations, deletion *)

Lemma writeJsonAtomic_cases {A} a (v : A) f :
  writeJsonAtomic a v f = FJson v \/ writeJsonAtomic a v f = f \/ writeJsonAtomic a v f = FCorrupt.
Proof. unfold writeJsonAtomic. repeat case_match; auto. Qed.

Lemma wf_write_relations st : wf st -> wf (write_relations st).
Proof. intros H. by wf_copy H. Qed.

Lemma wf_write_create st : wf st -> wf (write_create_requests st).
Proof.
  intros H. wf_copy H.
  destruct (writeJsonAtomic_cases (fs st) (map (fun e => (e.1, Some e.2)) (createRequests st)) (create_file st))
    as [-> | [-> | ->]]; [by rewrite length_map | done | done].
Qed.

Lemma wf_with_create m st :
  NoDup m.*1 -> (length m <= 512)%nat -> wf st -> wf (with_createRequests m st).
Proof. intros ?? H. by wf_copy H. Qed.

Lemma wf_linkSubagent p c st : wf st -> wf (linkSubagent p c st).
Proof.
  intros H. unfold linkSubagent. case_match; [done|].
  assert (wf (write_relations (with_subagentRelations (mset c p (subagentRelations st)) st))) as H1
    by (apply wf_write_relations; by wf_copy H).
  repeat (case_match; auto using wf_updateSession).
Qed.

Lemma wf_with_client m st :
  NoDup m.*1 -> (length m <= S REQUEST_RESERVATION_MAX)%nat -> wf st ->
  wf (with_clientRequestReservations m st).
Proof. intros ?? H. by wf_copy H. Qed.

Lemma wf_with_create_res m st :
  NoDup m.*1 -> (length m <= S REQUEST_RESERVATION_MAX)%nat -> wf st ->
  wf (with_createRequestReservations m st).
Proof. intros ?? H. by wf_copy H. Qed.

Lemma wf_remove_events f st : wf st -> wf (remove_events f st).
Proof. intros H. unfold remove_events. case_match; by wf_copy H. Qed.

Lemma wf_unlink_child sid p st : wf st -> wf (unlink_child sid p st).
Proof. intros H. unfold unlink_child. repeat case_match; auto using wf_updateSession. Qed.

Lemma wf_forget_create sid st : wf st -> wf (forget_create_requests sid st).
Proof.
  intros H. unfold forget_create_requests.
  assert (wf (with_createRequests (mfilter (fun _ r => c_sessionId r !== sid) (createRequests st)) st)) as H1.
  { apply wf_with_create; [destruct H; auto with js| |done]. etrans; [apply mfilter_length|apply H]. }
  case_match; [by apply wf_write_create|done].
Qed.

Lemma wf_forget_session sid st : wf st -> wf (forget_session sid st).
Proof.
  intros H. apply wf_forget_create, wf_write_relations, wf_unlink_child.
  destruct (mhas sid (sessions _)); wf_copy H.
Qed.

Lemma wf_forget_events sid st : wf st -> wf (forget_events sid st).
Proof.
  intros H. wf_copy H.
  - etrans; [apply mdelete_length|done].
  - etrans; [apply mfilter_length|done].
Qed.

Lemma wf_deleteSession sid st : wf st -> wf (deleteSession sid st).2.
Proof. intros H. by apply wf_forget_events, wf_remove_events, wf_forget_session. Qed.

Lemma wf_reserveClient now sid r st : wf st -> wf (reserveClientRequest now sid r st).2.
Proof.
  intros H. unfold reserveClientRequest. repeat case_match; try done; simpl;
    (apply wf_with_client; [..|done]); try (destruct H; auto with js; fail).
  - etrans; [apply pruneReservations_length|lia].
  - etrans; [apply mset_length_le|]. pose proof (pruneReservations_length now (clientRequestReservations st)). lia.
Qed.

Lemma wf_releaseClient sid r st : wf st -> wf (releaseClientRequest sid r st).
Proof.
  intros H. unfold releaseClientRequest. case_match; [done|].
  apply wf_with_client; [..|done]; [destruct H; auto with js|].
  etrans; [apply mdelete_length|apply H].
Qed.

Lemma wf_rememberClient sid r st : wf st -> wf (rememberClientRequest sid r st).
Proof.
  intros H. unfold rememberClientRequest. case_match; [done|]. apply (wf_releaseClient sid r) in H.
  case_match; auto using wf_saveSession.
Qed.

Lemma wf_getCreateRequestSession r st : wf st -> wf (getCreateRequestSession r st).2.
Proof.
  intros H. unfold getCreateRequestSession. repeat case_match; try done. simpl.
  apply wf_write_create, wf_with_create; [..|done]; [destruct H; auto with js|].
  etrans; [apply mdelete_length|apply H].
Qed.

Lemma wf_reserveCreate now r st : wf st -> wf (reserveCreateRequest now r st).2.
Proof.
  intros H. unfold reserveCreateRequest. case_match; [done|].
  apply (wf_getCreateRequestSession r) in H. destruct (getCreateRequestSession r st) as [ex st1].
  simpl in *. case_match; [done|].
  case_match; simpl; (apply wf_with_create_res; [..|done]); try (destruct H; auto with js; fail).
  - etrans; [apply pruneReservations_length|lia].
  - etrans; [apply mset_length_le|]. pose proof (pruneReservations_length now (createRequestReservations st1)). lia.
Qed.

Lemma wf_releaseCreate r st : wf st -> wf (releaseCreateRequest r st).
Proof.
  intros H. unfold releaseCreateRequest. case_match; [done|].
  apply wf_with_create_res; [..|done]; [destruct H; auto with js|].
  etrans; [apply mdelete_length|apply H].
Qed.

Lemma NoDup_lastn_keys {K V} `{EqDecision K} n (m : jmap K V) : NoDup m.*1 -> NoDup (lastn n m).*1.
Proof. rewrite <- mshrink_drop. apply mshrink_NoDup. Qed.

Lemma wf_rememberCreate now r sid st : wf st -> wf (rememberCreateRequest now r sid st).
Proof.
  intros H. unfold rememberCreateRequest. case_match; [done|]. simpl.
  apply wf_write_create, wf_with_create.
  - apply NoDup_lastn_keys. destruct H. simpl. auto with js.
  - apply lastn_le.
  - apply wf_with_create_res; [..|done]; [destruct H; auto with js|].
    etrans; [apply mdelete_length|apply H].
Qed.

(** *** Start-up *)

Lemma load_create_spec (ss : jmap string GatewaySession) (l : jmap string (option CreateRequestRecord)) acc :
  let r := foldl (fun acc '(requestId, value) =>
    match value with
    | Some r => if mhas (c_sessionId r) ss then mset requestId r acc else acc
    | None => acc
    end) acc l in
  (NoDup acc.*1 -> NoDup r.*1) /\ (length r <= length acc + length l)%nat.
Proof.
  revert acc. induction l as [|[k [c|]] l IH]; intros acc; simpl; [split; [done|lia]| |].
  - destruct (mhas _ ss).
    + destruct (IH (mset k c acc)) as [H1 H2]. split; [auto with js|].
      pose proof (mset_length_le k c acc). lia.
    + destruct (IH acc) as [H1 H2]. split; [done|lia].
  - destruct (IH acc) as [H1 H2]. split; [done|lia].
Qed.

Lemma load_sessions_spec now l acc :
  NoDup acc.*1 -> Forall (fun e => s_id e.2 = e.1) acc ->
  let r := foldl (fun acc p => mset (s_id (p_session p)) (normalizePersistedSession now p) acc) acc l in
  NoDup r.*1 /\ Forall (fun e => s_id e.2 = e.1) r.
Proof.
  revert acc. induction l as [|p l IH]; intros acc Hn Hf; simpl; [done|].
  apply IH; [auto with js|]. apply Forall_mset; [|done]. simpl.
  unfold normalizePersistedSession. simpl. by destruct (s_status _).
Qed.

Lemma load_relations_NoDup (l : jmap string string) acc :
  NoDup acc.*1 -> NoDup (foldl (fun acc '(c, p) => mset c p acc) acc l).*1.
Proof. revert acc. induction l as [|[c p] l IH]; intros acc H; simpl; [done|]. auto with js. Qed.

Lemma readJson_file {A} a (f : json_file A) v :
  (readJson a f v).2 = f \/ (readJson a f v).2 = FMissing.
Proof. destruct f; simpl; auto. destruct (rename_ok a); auto. Qed.

Lemma wf_constructor now files sf rf cf a :
  match cf with FJson l => (length l <= 512)%nat | _ => True end ->
  wf (constructor now files sf rf cf a).
Proof.
  intros Hc. unfold constructor.
  destruct (readJson a sf []) as [ss sf1]. destruct (readJson a rf []) as [rs rf1].
  pose proof (readJson_file a cf []) as Hf. destruct (readJson a cf []) as [cs cf1] eqn:Ecf.
  apply wf_persistSessions.
  destruct (load_sessions_spec now ss []) as [H1 H2]; [constructor..|].
  constructor; simpl; auto using NoDup_nil_2; try lia; try done.
  - apply load_relations_NoDup. constructor.
  - unfold load_create. apply load_create_spec. constructor.
  - unfold load_create. etrans; [apply load_create_spec|]. simpl.
    destruct cf; simpl in *; simplify_eq; simpl in *; lia.
  - simpl in Hf. by destruct Hf as [-> | ->].
Qed.

Lemma wf_restart now st : wf st -> wf (restart now st).
Proof. intros H. apply wf_constructor. apply H. Qed.

Lemma wf_exec o st : wf st -> wf (exec o st).
Proof.
  intros H. destruct o; cbn [exec];
    auto using wf_saveSession, wf_upsertSessions, wf_updateSession, wf_appendEvent, wf_listEvents,
      wf_latestCursors, wf_linkSubagent, wf_deleteSession, wf_reserveClient, wf_releaseClient,
      wf_rememberClient, wf_reserveCreate, wf_releaseCreate, wf_rememberCreate,
      wf_persistTimerFires, wf_flush, wf_settle, wf_restart; first [by wf_copy H | by apply wf_saveSession].
Qed.

Lemma wf_run os st : wf st -> wf (run os st).
Proof. revert st. induction os as [|o os IH]; intros st H; [done|]. by apply IH, wf_exec. Qed.

(** The store of a fresh data directory. *)
Definition fresh (now : Z) (a : fs_answers) : GatewayStore :=
  constructor now [] FMissing FMissing FMissing a.

Lemma wf_fresh now a : wf (fresh now a).
Proof. by apply wf_constructor. Qed.

(** C2: the store is well-formed after every sequence of operations, restarts
    and file-system failures included: every map has one binding per key, a
    session is stored under its own id, the event cache holds at most 64
    sessions of at most 512 entries, the create-request ledger (in memory and
    on disk) at most 512 records, each reservation table at most 10001, and a
    dirty snapshot always has its timer running. *)
Theorem store_invariant os now a : wf (run os (fresh now a)).
Proof. apply wf_run, wf_fresh. Qed.

(** ** Frames: what the log operations leave alone *)

Definition frames (st st' : GatewayStore) : Prop :=
  exists cache latest, st' = with_latestSeqBySession latest (with_eventCache cache st).

Lemma frames_refl st : frames st st.
Proof. exists (eventCache st), (latestSeqBySession st). by destruct st. Qed.

Lemma frames_trans st1 st2 st3 : frames st1 st2 -> frames st2 st3 -> frames st1 st3.
Proof. intros (c1 & l1 & ->) (c2 & l2 & ->). by exists c2, l2. Qed.

#[global] Instance frames_preorder : PreOrder frames.
Proof. split; [exact frames_refl | exact frames_trans]. Qed.

Lemma frames_cache c st : frames st (with_eventCache c st).
Proof. by exists c, (latestSeqBySession st). Qed.

Lemma frames_latest l st : frames st (with_latestSeqBySession l st).
Proof. by exists (eventCache st), l. Qed.

#[export] Hint Resolve frames_refl frames_cache frames_latest : js.

Lemma frames_getCachedEvents sid st : frames st (getCachedEvents sid st).2.
Proof. unfold getCachedEvents. case_match; simpl; auto with js. Qed.

Lemma frames_listEvents sid st : frames st (listEvents sid st).2.
Proof.
  unfold listEvents. pose proof (frames_getCachedEvents sid st) as H.
  destruct (getCachedEvents sid st) as [c st1]. cbn [snd] in *. etrans; [exact H|].
  set (l := match c with Some c => _ | None => _ end). set (b := match c with Some c => _ | None => _ end).
  transitivity (cacheEvents sid l b st1); [apply frames_cache|].
  destruct (last_seq l) as [q|]; [destruct (q =? 0)|]; auto with js.
Qed.

Lemma frames_latest_seq sid st : frames st (latest_seq sid st).2.
Proof.
  unfold latest_seq. case_match; [apply frames_refl|].
  pose proof (frames_listEvents sid st). by destruct (listEvents sid st).
Qed.

Lemma frames_latestCursors st : frames st (latestCursors st).2.
Proof.
  unfold latestCursors. generalize (@nil (string * Z)) as acc. generalize (sessions st).*2 as l.
  intros l. revert st. induction l as [|s l IH]; intros st acc; [apply frames_refl|]. simpl.
  pose proof (frames_latest_seq (s_id s) st). destruct (latest_seq (s_id s) st).
  etrans; [done|apply IH].
Qed.

(** ** Client request reservations *)

(** [key] was reserved at time [t] and at most [k] reservations followed. *)
Definition held (key : string) (t : Z) (k : nat) (m : jmap string Z) : Prop :=
  exists pre post, m = pre ++ (key, t) :: post /\ (length post <= k)%nat.

Section held.
Context (key : string) (t : Z).

Lemma held_mhas k m : held key t k m -> mhas key m = true.
Proof.
  intros (pre & post & -> & _). apply mhas_true, not_eq_None_Some.
  rewrite mget_None_keys, fmap_app. set_solver.
Qed.

Lemma held_mono k k' m : (k <= k')%nat -> held key t k m -> held key t k' m.
Proof. intros ? (pre & post & -> & ?). exists pre, post. split; [done|lia]. Qed.

Lemma held_mfilter p k m : p key t = true -> held key t k m -> held key t k (mfilter p m).
Proof.
  intros Hp (pre & post & -> & Hl). unfold mfilter. rewrite List.filter_app. simpl. rewrite Hp.
  eexists _, _. split; [done|]. etrans; [apply (mfilter_length p)|done].
Qed.

Lemma held_mdelete key' k m : key' <> key -> held key t k m -> held key t k (mdelete key' m).
Proof. intros. rewrite mdelete_mfilter. apply held_mfilter; [by rewrite bool_decide_false|done]. Qed.

Lemma held_mshrink n k m : (k < n)%nat -> held key t k m -> held key t k (mshrink n m).
Proof.
  intros ? (pre & post & -> & ?). rewrite mshrink_drop. unfold lastn.
  rewrite drop_app_le by (rewrite length_app; simpl; lia). eexists _, _. done.
Qed.

Lemma held_mset key' v k m : key' <> key -> held key t k m -> held key t (S k) (mset key' v m).
Proof.
  intros Hne (pre & post & -> & Hl). induction pre as [|[k0 v0] pre IH]; simpl.
  - rewrite decide_False by done. eexists [], _. split; [done|].
    pose proof (mset_length_le key' v post). lia.
  - case_decide; [exists ((key', v) :: pre), post; split; [done|lia]|].
    destruct IH as (pre' & post' & E & ?). exists ((k0, v0) :: pre'), post'.
    by rewrite E.
Qed.

Lemma held_prune now k m :
  now < t + REQUEST_RESERVATION_TTL_MS -> (k < REQUEST_RESERVATION_MAX)%nat ->
  held key t k m -> held key t k (pruneReservations now m).
Proof. intros. apply held_mshrink; [done|]. apply held_mfilter; [lia|done]. Qed.

Lemma held_new m : mget key m = None -> held key t 0 (mset key t m).
Proof. intros. rewrite mset_absent by done. exists m, []. done. Qed.
End held.

Lemma client_saveSession s st : clientRequestReservations (saveSession s st) = clientRequestReservations st.
Proof. done. Qed.

Lemma client_updateSession sid f st :
  clientRequestReservations (updateSession sid f st).2 = clientRequestReservations st.
Proof. unfold updateSession. by case_match. Qed.

Lemma client_upsertSessions l st :
  clientRequestReservations (upsertSessions l st).2 = clientRequestReservations st.
Proof. unfold upsertSessions. simpl. revert st. induction l as [|s l IH]; intros st; simpl; [done|].
  by rewrite IH. Qed.

Lemma client_linkSubagent p c st :
  clientRequestReservations (linkSubagent p c st) = clientRequestReservations st.
Proof.
  unfold linkSubagent. repeat case_match; rewrite ?client_updateSession; try done.
Qed.

Lemma client_frames st st' : frames st st' -> clientRequestReservations st' = clientRequestReservations st.
Proof. by intros (c & l & ->). Qed.

Lemma client_appendEvent m st :
  clientRequestReservations (appendEvent m st).2 = clientRequestReservations st.
Proof.
  unfold appendEvent. destruct (m_sessionId m) as [sid|]; [|done]. case_match; [done|].
  pose proof (client_frames _ _ (frames_latest_seq sid st)) as E1.
  destruct (latest_seq sid st) as [q st1]. simpl in *. case_match; [|done].
  pose proof (client_frames _ _ (frames_getCachedEvents sid st1)) as E2.
  destruct (getCachedEvents sid st1) as [c st2]. simpl in *. congruence.
Qed.

Lemma client_settle i ok e st :
  clientRequestReservations (settle i ok e st) = clientRequestReservations st.
Proof.
  unfold settle, perform, removeFile. repeat (case_match; simpl; try done); by destruct ok.
Qed.

Lemma client_getCreate r st :
  clientRequestReservations (getCreateRequestSession r st).2 = clientRequestReservations st.
Proof. unfold getCreateRequestSession. by repeat case_match. Qed.

Lemma client_reserveCreate now r st :
  clientRequestReservations (reserveCreateRequest now r st).2 = clientRequestReservations st.
Proof.
  unfold reserveCreateRequest. case_match; [done|]. pose proof (client_getCreate r st) as E.
  destruct (getCreateRequestSession r st). simpl in *. by repeat case_match.
Qed.

Lemma client_deleteSession sid st :
  clientRequestReservations (deleteSession sid st).2 =
  mfilter (fun key _ => negb (starts_with (sid ^^ NUL) key)) (clientRequestReservations st).
Proof.
  assert (clientRequestReservations (forget_session sid st) = clientRequestReservations st) as E.
  { unfold forget_session, forget_create_requests, unlink_child. cbv zeta.
    repeat (case_match; simpl; rewrite ?client_updateSession; try done). }
  simpl. unfold remove_events. case_match; simpl; by rewrite E.
Qed.

(** The operations that may take a reservation away from its holder. *)
Definition frees (key : string) (o : op) : bool :=
  match o with
  | ReleaseClient s r | RememberClient s r => reservation_key s r === key
  | DeleteSession s => starts_with (s ^^ NUL) key
  | Restart _ => true
  | _ => false
  end.

(** The clock an operation reads for the reservation table. *)
Definition within_ttl (t : Z) (o : op) : bool :=
  match o with ReserveClient now _ _ => now <? t + REQUEST_RESERVATION_TTL_MS | _ => true end.

Lemma held_release key t k s r st :
  reservation_key s r <> key ->
  held key t k (clientRequestReservations st) ->
  held key t k (clientRequestReservations (releaseClientRequest s r st)).
Proof. intros. unfold releaseClientRequest. case_match; [done|]. by apply held_mdelete. Qed.

(** The number of reservations an operation may add to the table. *)
Definition reserving (o : op) : nat := match o with ReserveClient _ _ _ => 1 | _ => 0 end.

Definition reservations (os : list op) : nat := foldr (fun o n => reserving o + n)%nat 0%nat os.

Lemma held_exec key t k o st :
  frees key o = false -> within_ttl t o = true -> (k + reserving o <= REQUEST_RESERVATION_MAX)%nat ->
  held key t k (clientRequestReservations st) ->
  held key t (k + reserving o) (clientRequestReservations (exec o st)).
Proof.
  intros Hf Ht Hk H.
  destruct o; cbn [exec frees within_ttl reserving] in *; str_cases; rewrite ?Nat.add_0_r in *;
    rewrite ?client_upsertSessions, ?client_updateSession, ?client_appendEvent, ?client_linkSubagent,
      ?client_settle, ?client_reserveCreate; try done.
  - by rewrite (client_frames _ _ (frames_listEvents _ _)).
  - by rewrite (client_frames _ _ (frames_latestCursors _)).
  - rewrite client_deleteSession. apply held_mfilter; [by rewrite Hf|done].
  - apply Z.ltb_lt in Ht. rewrite Nat.add_1_r in *.
    assert (held key t (S k) (clientRequestReservations st)) as H' by (eapply held_mono; [|done]; lia).
    pose proof (held_prune key t now k _ Ht ltac:(lia) H) as Hp.
    unfold reserveClientRequest. do 2 (case_match; [done|]).
    case_match eqn:E; simpl; [eapply held_mono; [|exact Hp]; lia|].
    apply held_mset; [|done]. intros E'. apply held_mhas in Hp. congruence.
  - by apply held_release.
  - unfold rememberClientRequest. case_match; [done|].
    case_match; [rewrite client_saveSession|]; by apply held_release.
  - unfold releaseCreateRequest. by case_match.
  - unfold rememberCreateRequest. by case_match.
  - unfold persistTimerFires. by repeat case_match.
  - unfold flush. by case_match.
Qed.

Lemma held_run key t os k st :
  forallb (fun o => negb (frees key o) && within_ttl t o) os = true ->
  (k + reservations os <= REQUEST_RESERVATION_MAX)%nat ->
  held key t k (clientRequestReservations st) ->
  held key t (k + reservations os) (clientRequestReservations (run os st)).
Proof.
  revert k st. induction os as [|o os IH]; intros k st Ho Hk H.
  - by rewrite Nat.add_0_r.
  - cbn [reservations foldr forallb] in *. fold (reservations os) in *. str_cases.
    rewrite Nat.add_assoc in *. apply IH; [done|done|]. apply held_exec; [done|done|lia|done].
Qed.

Lemma reserve_true_held now s r st :
  s <> "" -> r <> "" -> (reserveClientRequest now s r st).1 = true ->
  held (reservation_key s r) now 0 (clientRequestReservations (reserveClientRequest now s r st).2).
Proof.
  unfold reserveClientRequest. intros Hs Hr.
  rewrite (proj2 (String.eqb_neq _ _) Hs), (proj2 (String.eqb_neq _ _) Hr). simpl.
  case_match; [done|]. case_match eqn:E; [done|]. simpl. intros _.
  apply held_new. by apply mhas_false.
Qed.

(** C3: a granted turn reservation is exclusive: until it is released,
    remembered, its session deleted or the process restarted, every other
    reservation of the same request is refused, for any interleaving of
    operations in which fewer than 10,000 further reservations are asked for
    and whose clock stays within the ten-minute lifetime. The bound is exact:
    [reservation_evicted] below loses a live reservation to the ten
    thousandth. *)
Theorem client_reservation_exclusive now now' s r st os :
  s <> "" -> r <> "" ->
  (reserveClientRequest now s r st).1 = true ->
  forallb (fun o => negb (frees (reservation_key s r) o) && within_ttl now o) os = true ->
  (reservations os < REQUEST_RESERVATION_MAX)%nat ->
  now' < now + REQUEST_RESERVATION_TTL_MS ->
  (reserveClientRequest now' s r (run os (reserveClientRequest now s r st).2)).1 = false.
Proof.
  intros Hs Hr Hg Hos Hl Hn. apply (reserve_true_held now s r st Hs Hr) in Hg.
  eapply held_run in Hg; [|done|simpl; lia]. simpl in Hg.
  apply (held_prune _ _ now') in Hg; [|done..]. apply held_mhas in Hg.
  unfold reserveClientRequest at 1.
  rewrite (proj2 (String.eqb_neq _ _) Hs), (proj2 (String.eqb_neq _ _) Hr). simpl.
  case_match; [done|]. by rewrite Hg.
Qed.

(** A file system that accepts every write. *)
Definition fs_good : fs_answers :=
  {| mkdir_ok := true; tmp_ok := true; rename_ok := true; direct_answer := DWritten |}.

Lemma client_reservation_exclusive_witness :
  let st := fresh 0 fs_good in
  let os := [ReserveClient 5000 "s" "r2"; ReleaseClient "s" "r2"; Flush; ReserveClient 7000 "s" "r1"] in
  (reserveClientRequest 1000 "s" "r1" st).1 = true /\
  (reserveClientRequest 9000 "s" "r1" (run os (reserveClientRequest 1000 "s" "r1" st).2)).1 = false.
Proof.
  split; [reflexivity|].
  apply (client_reservation_exclusive 1000 9000 "s" "r1" (fresh 0 fs_good)
    [ReserveClient 5000 "s" "r2"; ReleaseClient "s" "r2"; Flush; ReserveClient 7000 "s" "r1"]);
    try discriminate; try reflexivity.
  unfold REQUEST_RESERVATION_MAX. cbn [reservations foldr reserving]. lia.
Defined.

(** The table drops its oldest entries when it is full, expired or not: the
    request at its head, followed by the reservations of 10,000 other
    requests, is granted a second time while the first grant is still live. *)
Lemma reservation_evicted now t s r m st :
  s <> "" -> r <> "" -> hasClientRequest s r st = false ->
  clientRequestReservations st = (reservation_key s r, t) :: m ->
  reservation_key s r ∉ m.*1 -> length m = REQUEST_RESERVATION_MAX ->
  Forall (fun e => now - REQUEST_RESERVATION_TTL_MS < e.2) m ->
  now < t + REQUEST_RESERVATION_TTL_MS ->
  (reserveClientRequest now s r st).1 = true.
Proof.
  intros Hs Hr Hh Hm Hn Hl Hf Ht. unfold reserveClientRequest.
  rewrite (proj2 (String.eqb_neq _ _) Hs), (proj2 (String.eqb_neq _ _) Hr), Hh, Hm. cbn [orb].
  assert (pruneReservations now ((reservation_key s r, t) :: m) = m) as ->.
  { unfold pruneReservations, mfilter. cbv zeta. rewrite (List.forallb_filter_id _ (_ :: m)).
    - rewrite mshrink_drop. unfold lastn. cbn [length]. rewrite Hl.
      by replace (S REQUEST_RESERVATION_MAX - REQUEST_RESERVATION_MAX)%nat with 1%nat by lia.
    - apply forallb_forall. intros e [<-|He]; apply Z.ltb_lt; [simpl; lia|].
      rewrite Forall_forall in Hf. by apply Hf, list_elem_of_In. }
  by rewrite (proj2 (mhas_false _ _)) by by apply mget_None_keys.
Qed.

(** ** Durability of the session snapshot *)

Definition writes_ok (a : fs_answers) : bool :=
  mkdir_ok a && tmp_ok a && (rename_ok a || match direct_answer a with DWritten => true | _ => false end).

Lemma writeJsonAtomic_ok {A} a (v : A) f : writes_ok a = true -> writeJsonAtomic a v f = FJson v.
Proof. unfold writes_ok, writeJsonAtomic. destruct a as [[] [] [] []]; simpl; done. Qed.

(** The snapshot on disk is current unless the store knows it is dirty. *)
Definition snapshot_ok (st : GatewayStore) : Prop :=
  writes_ok (fs st) = true /\
  (sessionPersistDirty st = true \/ sessions_file st = FJson (map persisted (listSessions st))).

Definition same_snapshot (st st' : GatewayStore) : Prop :=
  sessions st' = sessions st /\ sessions_file st' = sessions_file st /\
  sessionPersistDirty st' = sessionPersistDirty st /\ fs st' = fs st.

Lemma same_snapshot_ok st st' : same_snapshot st st' -> snapshot_ok st -> snapshot_ok st'.
Proof. unfold snapshot_ok, listSessions. intros (-> & -> & -> & ->). done. Qed.

#[global] Instance same_snapshot_preorder : PreOrder same_snapshot.
Proof. split; [done|]. intros ??? (?&?&?&?) (?&?&?&?). repeat split; congruence. Qed.

Lemma same_frames st st' : frames st st' -> same_snapshot st st'.
Proof. by intros (c & l & ->). Qed.

Lemma snapshot_saveSession s st : snapshot_ok st -> snapshot_ok (saveSession s st).
Proof. intros [H _]. split; [done|by left]. Qed.

Lemma snapshot_updateSession sid f st : snapshot_ok st -> snapshot_ok (updateSession sid f st).2.
Proof. intros H. unfold updateSession. case_match; [by apply snapshot_saveSession|done]. Qed.

Lemma snapshot_upsertSessions l st : snapshot_ok st -> snapshot_ok (upsertSessions l st).2.
Proof.
  intros [H _]. split; [|by left]. unfold upsertSessions. simpl. revert st H.
  induction l as [|s l IH]; intros st H; simpl; [done|]. by apply IH.
Qed.

Lemma same_appendEvent m st : same_snapshot st (appendEvent m st).2.
Proof.
  unfold appendEvent. destruct (m_sessionId m) as [sid|]; [|done]. case_match; [done|].
  pose proof (same_frames _ _ (frames_latest_seq sid st)) as E1.
  destruct (latest_seq sid st) as [q st1]. simpl in *. case_match; [|done].
  pose proof (same_frames _ _ (frames_getCachedEvents sid st1)) as E2.
  destruct (getCachedEvents sid st1) as [c st2]. simpl in *.
  etrans; [exact E1|]. etrans; [exact E2|]. done.
Qed.

Lemma same_settle i ok e st : same_snapshot st (settle i ok e st).
Proof. unfold settle, perform, removeFile. repeat (case_match; simpl; try done); by destruct ok. Qed.

Lemma same_getCreate r st : same_snapshot st (getCreateRequestSession r st).2.
Proof. unfold getCreateRequestSession. by repeat case_match. Qed.

Lemma same_reserveCreate now r st : same_snapshot st (reserveCreateRequest now r st).2.
Proof.
  unfold reserveCreateRequest. case_match; [done|]. pose proof (same_getCreate r st) as E.
  destruct (getCreateRequestSession r st). simpl in *. repeat case_match; done.
Qed.

Lemma same_reserveClient now s r st : same_snapshot st (reserveClientRequest now s r st).2.
Proof. unfold reserveClientRequest. by repeat case_match. Qed.

Lemma same_releaseClient s r st : same_snapshot st (releaseClientRequest s r st).
Proof. unfold releaseClientRequest. by case_match. Qed.

Lemma snapshot_linkSubagent p c st : snapshot_ok st -> snapshot_ok (linkSubagent p c st).
Proof.
  intros H. unfold linkSubagent. case_match; [done|].
  repeat (case_match; auto using snapshot_updateSession).
Qed.

Lemma snapshot_forget_session sid st : snapshot_ok st -> snapshot_ok (forget_session sid st).
Proof.
  intros H.
  assert (forall st p, snapshot_ok st -> snapshot_ok (unlink_child sid p st)) as Hp.
  { intros st' p Hs. unfold unlink_child. repeat case_match; auto using snapshot_updateSession. }
  assert (forall st, snapshot_ok st -> snapshot_ok (forget_create_requests sid st)) as Hc.
  { intros st' Hs. eapply same_snapshot_ok; [|exact Hs]. unfold forget_create_requests. by case_match. }
  unfold forget_session. apply Hc. cbv zeta.
  eapply same_snapshot_ok; [|apply Hp]; [done|].
  destruct (mhas sid (sessions _)) eqn:E; [split; [apply H|by left]|].
  apply mhas_false in E. eapply same_snapshot_ok; [|exact H]. repeat split; simpl in *.
  by rewrite mdelete_absent.
Qed.

Lemma snapshot_deleteSession sid st : snapshot_ok st -> snapshot_ok (deleteSession sid st).2.
Proof.
  intros H%(snapshot_forget_session sid). eapply same_snapshot_ok; [|exact H].
  simpl. unfold remove_events. by case_match.
Qed.

Definition fs_op_ok (o : op) : bool := match o with FsAnswers a => writes_ok a | _ => true end.

Lemma snapshot_constructor now files sf rf cf a :
  writes_ok a = true -> snapshot_ok (constructor now files sf rf cf a).
Proof.
  intros H. unfold constructor. destruct (readJson a sf []), (readJson a rf []), (readJson a cf []).
  split; [done|by left].
Qed.

Lemma snapshot_exec o st : fs_op_ok o = true -> snapshot_ok st -> snapshot_ok (exec o st).
Proof.
  intros Ho H. destruct o; cbn [exec];
    auto using snapshot_saveSession, snapshot_updateSession, snapshot_upsertSessions,
      snapshot_linkSubagent, snapshot_deleteSession;
    try (by apply snapshot_saveSession);
    try (eapply same_snapshot_ok; [|exact H]; first [apply same_appendEvent | apply same_settle
      | apply same_reserveCreate | apply same_reserveClient | apply same_releaseClient
      | by apply same_frames, frames_listEvents | by apply same_frames, frames_latestCursors
      | done]).
  - pose proof (same_snapshot_ok _ _ (same_releaseClient sessionId requestId st) H).
    unfold rememberClientRequest. case_match; [done|]. case_match; [|done].
    by apply snapshot_saveSession.
  - eapply same_snapshot_ok; [|exact H]. unfold releaseCreateRequest. by case_match.
  - eapply same_snapshot_ok; [|exact H]. unfold rememberCreateRequest. by case_match.
  - destruct H as [H1 H2]. unfold persistTimerFires. destruct (sessionPersistTimer st); [|done]. simpl.
    destruct (sessionPersistDirty st) eqn:E; [|split; [done|simpl; rewrite E; by right; destruct H2]].
    split; [done|right]. unfold persistSessionsNow. simpl. by rewrite writeJsonAtomic_ok.
  - destruct H as [H1 H2]. unfold flush. simpl.
    destruct (sessionPersistDirty st) eqn:E; [|split; [done|simpl; rewrite E; by right; destruct H2]].
    split; [done|right]. unfold persistSessionsNow. simpl. by rewrite writeJsonAtomic_ok.
  - by split; [|destruct H].
  - apply snapshot_constructor, H.
Qed.

Lemma snapshot_run os st :
  forallb fs_op_ok os = true -> snapshot_ok st -> snapshot_ok (run os st).
Proof.
  revert st. induction os as [|o os IH]; intros st Ho H; simpl in *; [done|]. str_cases.
  by apply IH, snapshot_exec.
Qed.

Lemma flush_file st :
  snapshot_ok st -> sessions_file (flush st) = FJson (map persisted (listSessions st)).
Proof.
  intros [H1 H2]. unfold flush. simpl. destruct (sessionPersistDirty st) eqn:E.
  - unfold persistSessionsNow. simpl. by rewrite writeJsonAtomic_ok.
  - by destruct H2.
Qed.

(** Loading a list of distinct ids. *)
Lemma load_get now id l acc :
  NoDup (map (fun p => s_id (p_session p)) l) ->
  mget id (foldl (fun acc p => mset (s_id (p_session p)) (normalizePersistedSession now p) acc) acc l) =
  match List.find (fun p => s_id (p_session p) === id) l with
  | Some p => Some (normalizePersistedSession now p)
  | None => mget id acc
  end.
Proof.
  revert acc. induction l as [|p l IH]; intros acc H; simpl; [done|].
  apply NoDup_cons in H as [Hn H]. rewrite IH by done.
  destruct (String.eqb_spec (s_id (p_session p)) id) as [E|E].
  - destruct (List.find _ l) eqn:F; [|by rewrite E, mget_mset_eq].
    apply List.find_some in F as [F1 F2]. apply String.eqb_eq in F2. exfalso. apply Hn.
    rewrite E, <- F2. apply list_elem_of_In, (List.in_map (fun p => s_id (p_session p))), F1.
  - case_match; [done|]. by apply mget_mset_ne.
Qed.

Lemma find_mget id (m : jmap string GatewaySession) l :
  NoDup m.*1 -> Forall (fun e => s_id e.2 = e.1) m -> l ≡ₚ m.*2 ->
  List.find (fun p => s_id (p_session p) === id) (map persisted l) = persisted <$> mget id m.
Proof.
  intros Hn Hf Hp. destruct (List.find _ _) as [p|] eqn:F.
  - apply List.find_some in F as [F1 F2]. apply String.eqb_eq in F2.
    apply List.in_map_iff in F1 as (s & <- & F1). simpl in F2.
    apply list_elem_of_In in F1. rewrite Hp in F1. apply list_elem_of_fmap in F1 as ([k s'] & -> & F1).
    rewrite Forall_forall in Hf. pose proof (Hf _ F1) as E. simpl in *.
    assert (k = id) as -> by congruence. by rewrite (elem_mget id s').
  - destruct (mget id m) as [s|] eqn:G; [|done]. exfalso.
    apply mget_Some_elem in G. rewrite Forall_forall in Hf. pose proof (Hf _ G) as E. simpl in E.
    assert (List.In (persisted s) (map persisted l)) as Hin.
    { apply List.in_map, list_elem_of_In. rewrite Hp. apply list_elem_of_fmap. by exists (id, s). }
    pose proof (List.find_none _ _ F _ Hin) as N. simpl in N. by rewrite E, String.eqb_refl in N.
Qed.

Lemma persisted_ids_NoDup (m : jmap string GatewaySession) l :
  NoDup m.*1 -> Forall (fun e => s_id e.2 = e.1) m -> l ≡ₚ m.*2 ->
  NoDup (map (fun p => s_id (p_session p)) (map persisted l)).
Proof.
  intros Hn Hf Hp. rewrite List.map_map. simpl. change (map (fun x => s_id x) l) with (s_id <$> l).
  rewrite Hp, <- list_fmap_compose. erewrite list_fmap_ext; [exact Hn|].
  intros i [k s] Hi. simpl. rewrite Forall_forall in Hf.
  apply (Hf (k, s)). by eapply list_elem_of_lookup_2.
Qed.

Lemma restart_get now id st :
  wf st -> snapshot_ok st ->
  getSession id (restart now (flush st)) = (normalizePersistedSession now ∘ persisted) <$> getSession id st.
Proof.
  intros Hwf Hs. unfold restart, constructor. rewrite flush_file by done. cbn [readJson].
  destruct (readJson _ (relations_file _) _), (readJson _ (create_file _) _).
  unfold getSession at 1. simpl.
  assert (listSessions st ≡ₚ (sessions st).*2) as Hp by apply isort_perm.
  destruct Hwf. rewrite load_get by eauto using persisted_ids_NoDup.
  rewrite (find_mget id (sessions st)) by done. unfold getSession.
  by destruct (mget id (sessions st)).
Qed.

(** C4: the session snapshot round-trips: after any history [before], failed
    writes included, let the file system accept writes while a change of the
    sessions is still waiting to be written (a new process starts that way)
    and go on accepting them. Then, whatever operations follow, flushing the
    store and starting a new process gives back every session and no other,
    normalized as [normalizePersistedSession] prescribes. Without the pending
    change the claim fails: [failed_write_not_retried] below. *)
Theorem restart_restores_sessions before os now0 now a id :
  let st0 := run before (fresh now0 a) in
  writes_ok (fs st0) = true -> sessionPersistDirty st0 = true ->
  forallb fs_op_ok os = true ->
  let st := run os st0 in
  getSession id (restart now (flush st)) =
  (normalizePersistedSession now ∘ persisted) <$> getSession id st.
Proof.
  intros st0 Ha Hd Hos st. apply restart_get; [by apply wf_run, wf_run, wf_fresh|].
  apply snapshot_run; [done|]. by split; [|left].
Qed.

(** A file system that refuses every write. *)
Definition fs_bad : fs_answers :=
  {| mkdir_ok := false; tmp_ok := false; rename_ok := false; direct_answer := DRefused |}.

(** A session for concrete runs. *)
Definition sample (id : string) (st : GatewaySessionStatus) : GatewaySession :=
  mkSession id codex id "title" "/work" st confirm (Val "turn-1") true resumable "codex" []
    "prompt" Absent Absent "2026-01-01T00:00:00.000Z" "2026-01-01T00:00:00.000Z" Absent Absent
    Absent Absent Absent Absent Absent Absent Absent Absent Absent Absent Absent.

Lemma restart_restores_sessions_witness :
  let before := [PersistTimer; FsAnswers fs_bad; SaveSession (sample "s" running); FsAnswers fs_good] in
  let os := [PersistTimer; RememberClient "s" "r"] in
  let st := run os (run before (fresh 0 fs_good)) in
  getSession "s" (restart 86400000 (flush st)) =
  (normalizePersistedSession 86400000 ∘ persisted) <$> getSession "s" st /\
  (s_status <$> getSession "s" (restart 86400000 (flush st))) = Some completed.
Proof.
  split; [|reflexivity].
  by apply (restart_restores_sessions
    [PersistTimer; FsAnswers fs_bad; SaveSession (sample "s" running); FsAnswers fs_good]
    [PersistTimer; RememberClient "s" "r"] 0 86400000 fs_good "s").
Defined.

(** The flag of a pending change is cleared before the write, and a failed
    write is swallowed without setting it again: the disk refuses one write,
    recovers, and neither the timer nor the flush at shutdown tries again, so
    the new process does not know the session. *)
Lemma failed_write_not_retried :
  let st := run [FsAnswers fs_bad; SaveSession (sample "s" completed); PersistTimer;
                 FsAnswers fs_good; PersistTimer] (fresh 0 fs_good) in
  (s_status <$> getSession "s" st) = Some completed /\
  writes_ok (fs st) = true /\
  getSession "s" (restart 1000 (flush st)) = None.
Proof. vm_compute. auto. Qed.

(** a new process never inherits a running turn: whatever the files hold,
    no session is [running] or [starting] after start-up, a session that was
    is [completed] with no active turn and a finish time, and every
    idempotency ledger holds at most 128 non-empty ids. *)
Theorem restart_settles_turns now files sf rf cf a :
  Forall (fun '(_, s) =>
      s_status s <> running /\ s_status s <> starting /\
      (exists ids, s_recentClientRequestIds s = Val ids /\ (length ids <= 128)%nat /\ ("" ∉ ids)))
    (sessions (constructor now files sf rf cf a)) /\
  (forall p, s_status (p_session p) = running \/ s_status (p_session p) = starting ->
     let s := normalizePersistedSession now p in
     s_status s = completed /\ fget (s_activeTurnId s) = None /\ is_Some (fget (s_finishedAt s))).
Proof.
  split.
  - assert (forall p, let s := normalizePersistedSession now p in
      s_status s <> running /\ s_status s <> starting /\
      (exists ids, s_recentClientRequestIds s = Val ids /\ (length ids <= 128)%nat /\ ("" ∉ ids))) as Hn.
    { intros p. unfold normalizePersistedSession.
      set (ids := match p_recent p with Some l => _ | None => _ end).
      assert ((length ids <= 128)%nat /\ ("" ∉ ids)) as Hids.
      { subst ids. destruct (p_recent p) as [l|].
        - split; [apply lastn_le|]. intros H%elem_of_lastn%list_elem_of_In%filter_In.
          by destruct H.
        - destruct (fget _) as [x|]; simpl; [|split; [lia|set_solver]].
          destruct (String.eqb_spec x ""); simpl; (split; [lia|set_solver]). }
      simpl. destruct (s_status (p_session p)) eqn:E; simpl; rewrite ?E; naive_solver. }
    unfold constructor. destruct (readJson a sf []) as [ss sf1].
    destruct (readJson a rf []), (readJson a cf []). simpl.
    generalize (@Forall_nil_2 _ (fun '((_, s) : string * GatewaySession) =>
      s_status s <> running /\ s_status s <> starting /\
      (exists ids, s_recentClientRequestIds s = Val ids /\ (length ids <= 128)%nat /\ ("" ∉ ids)))).
    generalize (@nil (string * GatewaySession)).
    induction ss as [|p ss IH]; intros acc Hacc; simpl; [done|].
    apply IH, Forall_mset; [apply Hn|done].
  - intros p Hp. unfold normalizePersistedSession. simpl.
    destruct Hp as [-> | ->]; simpl; eauto.
Qed.

(** ** The durable ledgers *)

Lemma elem_of_unique_acc (l acc : list string) x :
  x ∈ foldl (fun s x => sadd x s) acc l <-> x ∈ acc \/ x ∈ l.
Proof.
  revert acc. induction l as [|y l IH]; intros acc; simpl; [set_solver|].
  rewrite IH, elem_of_sadd. set_solver.
Qed.

Lemma elem_of_unique l x : x ∈ unique l <-> x ∈ l.
Proof. unfold unique. rewrite elem_of_unique_acc. set_solver. Qed.

Lemma hasClientRequest_spec sid r st s :
  r <> "" -> getSession sid st = Some s ->
  fget (s_lastClientRequestId s) = Some r -> hasClientRequest sid r st = true.
Proof.
  unfold hasClientRequest, getSession. intros Hr -> ->.
  rewrite (proj2 (String.eqb_neq _ _) Hr). simpl. by rewrite String.eqb_refl, orb_true_r.
Qed.

Lemma remember_session sid r st s :
  wf st -> r <> "" -> getSession sid st = Some s ->
  exists s', getSession sid (rememberClientRequest sid r st) = Some s' /\
    s_lastClientRequestId s' = Val r /\ s_status s' = s_status s.
Proof.
  intros Hwf Hr Hs. unfold rememberClientRequest.
  rewrite (proj2 (String.eqb_neq _ _) Hr).
  assert (sessions (releaseClientRequest sid r st) = sessions st) as E
    by (unfold releaseClientRequest; by case_match).
  rewrite E. unfold getSession in *. rewrite Hs. simpl. rewrite E.
  destruct Hwf. apply mget_Some_elem in Hs. rewrite Forall_forall in wf_ids0.
  pose proof (wf_ids0 _ Hs) as Hid. simpl in Hid. rewrite Hid, mget_mset_eq. eauto.
Qed.

(** the turn ledger is durable: once a request of a stored session has been
    remembered, a retry is refused both at once and, when the snapshot can be
    written, by the process that starts after a flush. *)
Theorem remembered_request_refused os now0 now now' a sid r :
  sid <> "" -> r <> "" -> writes_ok a = true -> forallb fs_op_ok os = true ->
  let st := run os (fresh now0 a) in
  is_Some (getSession sid st) ->
  let st' := rememberClientRequest sid r st in
  (reserveClientRequest now sid r st').1 = false /\
  (reserveClientRequest now sid r (restart now' (flush st'))).1 = false.
Proof.
  intros Hsid Hr Ha Hos st [s Hs] st'.
  assert (wf st) as Hwf by apply wf_run, wf_fresh.
  assert (snapshot_ok st) as Hsn by (by apply snapshot_run; [|apply snapshot_constructor]).
  assert (forall st, hasClientRequest sid r st = true -> (reserveClientRequest now sid r st).1 = false) as Hhas.
  { intros st0 H0. unfold reserveClientRequest. rewrite H0.
    by rewrite (proj2 (String.eqb_neq _ _) Hsid), (proj2 (String.eqb_neq _ _) Hr). }
  destruct (remember_session sid r st s Hwf Hr Hs) as (s' & Hs' & Hl & _). fold st' in Hs'.
  split; apply Hhas.
  - eapply hasClientRequest_spec; [done..|]. by rewrite Hl.
  - assert (getSession sid (restart now' (flush st')) = Some (normalizePersistedSession now' (persisted s'))) as E.
    { rewrite restart_get, Hs'; [done|by apply wf_rememberClient|].
      by apply (snapshot_exec (RememberClient sid r)). }
    eapply hasClientRequest_spec; [done|exact E|].
    unfold normalizePersistedSession. simpl. destruct (s_status s'); simpl; by rewrite Hl.
Qed.

Lemma remembered_request_refused_witness :
  let st := run [SaveSession (sample "s" running)] (fresh 0 fs_good) in
  is_Some (getSession "s" st) /\
  let st' := rememberClientRequest "s" "r" st in
  (reserveClientRequest 5 "s" "r" st').1 = false /\
  (reserveClientRequest 5 "s" "r" (restart 10 (flush st'))).1 = false.
Proof.
  split; [eexists; reflexivity|].
  apply (remembered_request_refused [SaveSession (sample "s" running)] 0 5 10 fs_good "s" "r");
    try discriminate; try reflexivity. eexists; reflexivity.
Defined.

Lemma mget_lastn_mset {K V} `{EqDecision K} n k (v : V) (m : jmap K V) :
  NoDup m.*1 -> (0 < n)%nat -> (length m <= n)%nat -> mget k (lastn n (mset k v m)) = Some v.
Proof.
  intros Hn Hp Hl. destruct (mget k m) as [w|] eqn:E.
  - rewrite lastn_all; [apply mget_mset_eq|]. rewrite mset_length.
    by rewrite (proj2 (mhas_true _ _)) by (by eexists).
  - apply elem_mget; [by apply NoDup_lastn_keys, mset_NoDup|].
    rewrite mset_absent by done. by apply lastn_snoc.
Qed.

Lemma createRes_updateSession sid f st :
  createRequestReservations (updateSession sid f st).2 = createRequestReservations st /\
  createRequests (updateSession sid f st).2 = createRequests st.
Proof. unfold updateSession. by case_match. Qed.

Lemma create_deleteSession sid st :
  createRequestReservations (deleteSession sid st).2 = createRequestReservations st /\
  createRequests (deleteSession sid st).2 =
    mfilter (fun _ r => c_sessionId r !== sid) (createRequests st).
Proof.
  assert (createRequestReservations (forget_session sid st) = createRequestReservations st /\
    createRequests (forget_session sid st) =
      mfilter (fun _ r => c_sessionId r !== sid) (createRequests st)) as [E1 E2].
  { unfold forget_session, forget_create_requests, unlink_child. cbv zeta.
    repeat (case_match; simpl; rewrite ?(proj1 (createRes_updateSession _ _ _)),
      ?(proj2 (createRes_updateSession _ _ _)); simpl; try done). }
  simpl. unfold remove_events. case_match; simpl; by rewrite E1, E2.
Qed.

(** creation is idempotent: after a create request has been recorded for a
    stored session, a retry is answered with that session, until the session is
    deleted, which makes the request fresh again. *)
Theorem create_request_idempotent os now0 now now' a sid r :
  sid <> "" -> r <> "" ->
  let st := run os (fresh now0 a) in
  is_Some (getSession sid st) ->
  let st' := rememberCreateRequest now r sid st in
  (reserveCreateRequest now' r st').1 = AlreadyCreated sid /\
  (reserveCreateRequest now' r (deleteSession sid st').2).1 = Reserved.
Proof.
  intros Hsid Hr st Hs st'. pose proof (wf_run os _ (wf_fresh now0 a)) as Hwf. fold st in Hwf.
  pose proof (proj2 (String.eqb_neq _ _) Hsid) as Es. pose proof (proj2 (String.eqb_neq _ _) Hr) as Er.
  assert (mget r (createRequests st') = Some {| c_sessionId := sid; c_createdAt := now |} /\
    sessions st' = sessions st /\ mget r (createRequestReservations st') = None) as (Hget & Hss & Hres).
  { subst st'. unfold rememberCreateRequest. rewrite Es, Er. simpl.
    rewrite mget_mdelete_eq. split; [|done]. destruct Hwf. by apply mget_lastn_mset; [..|lia|]. }
  split.
  - unfold reserveCreateRequest, getCreateRequestSession. rewrite Er, Hget, Hss. simpl.
    rewrite (proj2 (mhas_true _ _) Hs). simpl. by rewrite Es.
  - assert (wf st') as Hwf' by (by apply wf_rememberCreate).
    destruct (create_deleteSession sid st') as [E1 E2].
    generalize dependent (deleteSession sid st').2. intros sd E1 E2.
    unfold reserveCreateRequest, getCreateRequestSession. rewrite Er, E2.
    rewrite mget_mfilter by apply Hwf'. rewrite Hget. simpl. rewrite String.eqb_refl. simpl.
    rewrite E1. case_match eqn:E; [|done]. exfalso. revert E. apply not_true_iff_false, mhas_false.
    apply mget_None_keys. unfold pruneReservations. intros Hin.
    rewrite mshrink_drop in Hin. apply list_elem_of_fmap in Hin as (e & -> & Hin%elem_of_lastn).
    apply mget_None_keys in Hres. apply Hres. eapply elem_of_sublist; [|apply mfilter_keys_sub].
    by apply list_elem_of_fmap_2.
Qed.

Lemma create_request_idempotent_witness :
  let st := run [SaveSession (sample "s" completed)] (fresh 0 fs_good) in
  is_Some (getSession "s" st) /\
  let st' := rememberCreateRequest 1 "r" "s" st in
  (reserveCreateRequest 2 "r" st').1 = AlreadyCreated "s" /\
  (reserveCreateRequest 2 "r" (deleteSession "s" st').2).1 = Reserved.
Proof.
  split; [eexists; reflexivity|].
  apply (create_request_idempotent [SaveSession (sample "s" completed)] 0 1 2 fs_good "s" "r");
    try discriminate. eexists; reflexivity.
Defined.
