(* ===== verification/EventLog.v ===== *)
(** * The event log: refinement of an append-only log

    The event cache, the promise chains and the JSONL files of
    server/src/gatewayStore.ts together implement, for each session, an
    append-only log with strictly increasing sequence numbers. [abs_exec] is
    that log; [event_log_refines] shows that the store implements it on every
    run whose pending writes are still covered by the cache ([drained]), and
    [eviction_repeats_sequence] what happens on a run that violates this. *)

From S2P Require Import Prelude JsValue JsDate GatewayStore StoreInv.

Local Open Scope Z_scope.

(** ** The abstract log *)

(** The number the log gives to a message. *)
Definition abs_seq (supplied : option Z) (current : Z) : Z :=
  match supplied with
  | Some q => if is_safe_integer q && (current <? q) then q else current + 1
  | None => current + 1
  end.

Definition current_seq (log : list GatewayMessage) : Z := default 0 (last_seq log).

Definition abs_append (m : GatewayMessage) (log : list GatewayMessage) : list GatewayMessage :=
  log ++ [clone_message (with_m_eventSeq (Some (abs_seq (m_eventSeq m) (current_seq log))) m)].

(** Only [appendEvent] on the session changes its log. *)
Definition abs_exec (sid : string) (o : op) (log : list GatewayMessage) : list GatewayMessage :=
  match o with
  | AppendEvent m => if opt_str_eqb (m_sessionId m) (Some sid) then abs_append m log else log
  | _ => log
  end.

Definition abs_run (sid : string) (os : list op) (log : list GatewayMessage) : list GatewayMessage :=
  foldl (fun log o => abs_exec sid o log) log os.

(** ** The runs considered *)

Definition tasks_of (f : string) (l : list task) : list task := List.filter (fun t => t_file t === f) l.

(** The events the file lacks are in the cache. *)
Definition drained (sid : string) (st : GatewayStore) : bool :=
  let pending := length (tasks_of (event_path sid) (tasks st)) in
  match mget sid (eventCache st) with
  | Some c => complete c || (pending <=? length (entries c))%nat
  | None => (pending =? 0)%nat
  end.

(** No deletion of the session, successful writes, no restart over pending
    writes, and sequence numbers below 2^53. *)
Definition op_tame (sid : string) (o : op) (log : list GatewayMessage) (st : GatewayStore) : bool :=
  match o with
  | AppendEvent _ => mkdir_ok (fs st) && (current_seq log <? 9007199254740992)
  | DeleteSession s => s !== sid
  | Settle _ ok _ => ok
  | Restart _ => (length (tasks_of (event_path sid) (tasks st)) =? 0)%nat
  | _ => true
  end.

Fixpoint tame (sid : string) (os : list op) (log : list GatewayMessage) (st : GatewayStore) : bool :=
  drained sid st &&
  match os with
  | [] => true
  | o :: os' => op_tame sid o log st && tame sid os' (abs_exec sid o log) (exec o st)
  end.

(** ** Well-formed logs *)

(** Sequence numbers above [q], strictly increasing. *)
Fixpoint increasing (q : Z) (l : list GatewayMessage) : Prop :=
  match l with
  | [] => True
  | m :: l' => exists q', m_eventSeq m = Some q' /\ q < q' /\ increasing q' l'
  end.

Definition own (sid : string) (m : GatewayMessage) : Prop :=
  m_sessionId m = Some sid /\ clone_message m = m.

Definition log_ok (sid : string) (log : list GatewayMessage) : Prop :=
  increasing 0 log /\ Forall (own sid) log.

Lemma json_clone_idem v : json_clone (json_clone v) = json_clone v.
Proof.
  induction v as [| | | n | |l IH|fs IH] using val_ind; simpl; try done.
  - by destruct n.
  - f_equal. rewrite List.map_map. apply List.map_ext_in. intros x Hx.
    rewrite Forall_forall in IH. specialize (IH x (proj2 (list_elem_of_In _ _) Hx)).
    destruct x as [| | |n| | |]; try done. simpl in *. by destruct (is_finite n).
  - f_equal. induction IH as [|[k x] fs Hx _ IHfs]; [done|]. simpl in Hx.
    destruct x as [| | |[]| | |]; try done; simpl in *; f_equal; try exact IHfs; by rewrite Hx.
Qed.

Lemma clone_idem m : clone_message (clone_message m) = clone_message m.
Proof. unfold clone_message. simpl. by rewrite json_clone_idem. Qed.

Lemma clone_seq m : m_eventSeq (clone_message m) = m_eventSeq m.
Proof. done. Qed.

Lemma increasing_mono q q' l : q' <= q -> increasing q l -> increasing q' l.
Proof. destruct l as [|m l]; simpl; [done|]. intros ? (x & ? & ? & ?). exists x. split_and!; [done|lia|done]. Qed.

Lemma increasing_app q l1 l2 :
  increasing q (l1 ++ l2) <-> increasing q l1 /\ increasing (default q (last_seq l1)) l2.
Proof.
  revert q. induction l1 as [|m l1 IH]; intros q; simpl; [tauto|].
  split.
  - intros (x & Hx & Hq & H). apply IH in H as [H1 H2]. split; [eauto|].
    unfold last_seq in *. rewrite last_cons. destruct (last l1) as [m'|] eqn:E; simpl in *.
    + assert (is_Some (m_eventSeq m')) as [y Hy].
      { clear -H1 E. revert x H1 E. induction l1 as [|a l1 IH]; intros x H1 E; [done|].
        simpl in H1. destruct H1 as (z & Hz & _ & H1). rewrite last_cons in E.
        destruct (last l1) eqn:F; simplify_eq; eauto. }
      rewrite Hy in *. done.
    + by rewrite Hx.
  - intros [(x & Hx & Hq & H1) H2]. exists x. split_and!; [done..|]. apply IH. split; [done|].
    unfold last_seq in *. rewrite last_cons in H2. destruct (last l1) as [m'|] eqn:E; simpl in *.
    + destruct (m_eventSeq m') eqn:F; simpl in *; [done|].
      exfalso. clear -H1 E F. revert x H1 E. induction l1 as [|a l1 IH]; intros x H1 E; [done|].
      simpl in H1. destruct H1 as (z & Hz & _ & H1). rewrite last_cons in E.
      destruct (last l1) eqn:G; simplify_eq; eauto; congruence.
    + by rewrite Hx in H2.
Qed.

Lemma increasing_gt q l m : increasing q l -> m ∈ l -> exists x, m_eventSeq m = Some x /\ q < x.
Proof.
  revert q. induction l as [|a l IH]; intros q H Hin; [set_solver|].
  destruct H as (x & Hx & Hq & H). apply elem_of_cons in Hin as [->|Hin]; [eauto|].
  destruct (IH x H Hin) as (y & ? & ?). exists y. split; [done|lia].
Qed.

Lemma increasing_clone q l : increasing q (clone_message <$> l) <-> increasing q l.
Proof. revert q. induction l as [|m l IH]; intros q; simpl; [done|].
  split; intros (x & ? & ? & ?); exists x; (split_and!; [done..|]); by apply IH. Qed.

Lemma last_seq_clone l : last_seq (clone_message <$> l) = last_seq l.
Proof. unfold last_seq. rewrite fmap_last. by destruct (last l). Qed.

Lemma last_seq_snoc l m : last_seq (l ++ [m]) = m_eventSeq m.
Proof. unfold last_seq. by rewrite last_snoc. Qed.

Lemma abs_seq_gt supplied current : current < abs_seq supplied current.
Proof. unfold abs_seq. case_match; [|lia]. case_match eqn:E; [|lia]. str_cases. lia. Qed.

Lemma current_seq_last log : default 0 (last_seq log) = current_seq log.
Proof. done. Qed.

Lemma log_ok_append sid m log :
  m_sessionId m = Some sid -> log_ok sid log -> log_ok sid (abs_append m log).
Proof.
  intros Hm [H1 H2]. split.
  - unfold abs_append. apply increasing_app. split; [done|]. simpl.
    eexists. split_and!; [done| |done]. apply abs_seq_gt.
  - apply Forall_app. split; [done|]. constructor; [|constructor].
    split; [done|apply clone_idem].
Qed.

(** ** Reading the file back *)

Lemma renumber_id q l : increasing q l -> renumber q l = l.
Proof.
  revert q. induction l as [|m l IH]; intros q; simpl; [done|]. intros (x & Hx & Hq & H).
  rewrite Hx. rewrite (proj2 (Z.ltb_lt q x)) by done. rewrite IH by done.
  f_equal. destruct m. simpl in *. by subst.
Qed.

Lemma parse_lines_own sid l :
  Forall (own sid) l -> parse_lines sid (map (fun m => LEntry (Some m)) l) = Some l.
Proof.
  induction 1 as [|m l [H _] Hl IH]; simpl; [done|]. rewrite IH. simpl. rewrite H. simpl.
  by rewrite String.eqb_refl.
Qed.

(** The file of the session holds exactly [disk]. *)
Definition disk_is (sid : string) (disk : list GatewayMessage) (files : jmap string event_file) : Prop :=
  mget (event_path sid) files = Some {| f_lines := map (fun m => LEntry (Some m)) disk; f_readable := true |}
  \/ (mget (event_path sid) files = None /\ disk = []).

Lemma readEventsFromDisk_is sid disk st :
  log_ok sid disk -> disk_is sid disk (event_files st) -> readEventsFromDisk sid st = disk.
Proof.
  intros [H1 H2] [E|[E ->]]; unfold readEventsFromDisk; rewrite E; [|done]. simpl.
  rewrite parse_lines_own by done. by apply renumber_id.
Qed.

Lemma sapp_inj_r a b c : a ^^ c = b ^^ c -> a = b.
Proof.
  intros H. revert b H. induction a as [|x a IH]; intros [|y b] H; simpl in *; [done| | |].
  - apply (f_equal slen) in H. simpl in H. rewrite slen_sapp in H. lia.
  - apply (f_equal slen) in H. simpl in H. rewrite slen_sapp in H. lia.
  - injection H as -> H. f_equal. auto.
Qed.

Lemma event_path_inj a b : event_path a = event_path b -> a = b.
Proof. unfold event_path, safeFileName. intros H%sapp_inj_r. by apply encodeURIComponent_inj. Qed.

(** ** Merging the file with the cache *)

Definition keyed (l : list GatewayMessage) : jmap Z GatewayMessage := map (fun m => (seq_of m, m)) l.

Lemma keyed_app a b : keyed (a ++ b) = keyed a ++ keyed b.
Proof. apply List.map_app. Qed.

Lemma keyed_values l : (keyed l).*2 = l.
Proof. induction l as [|m l IH]; simpl; [done|]. by f_equal. Qed.

Lemma increasing_seq_of q l m : increasing q l -> m ∈ l -> m_eventSeq m = Some (seq_of m) /\ q < seq_of m.
Proof. intros H Hin. destruct (increasing_gt q l m H Hin) as (x & E & ?). unfold seq_of. by rewrite E. Qed.

Lemma keyed_fresh q pre m rest :
  increasing q (pre ++ m :: rest) -> mget (seq_of m) (keyed pre) = None.
Proof.
  intros H. apply mget_None_keys. intros Hin.
  apply list_elem_of_fmap in Hin as ([k x] & E & Hin). simpl in E. subst k.
  apply list_elem_of_In, List.in_map_iff in Hin as (y & [= E ->] & Hin). apply list_elem_of_In in Hin.
  apply list_elem_of_split in Hin as (p1 & p2 & ->). rewrite <- app_assoc in H. simpl in H.
  apply increasing_app in H as [_ (a & Ha & _ & H)].
  destruct (increasing_seq_of a _ m H) as [_ Hlt]; [set_solver|].
  unfold seq_of in *. rewrite Ha in E. simpl in E. lia.
Qed.

Lemma mset_keyed pre m m' rest :
  mget (seq_of m') (keyed pre) = None -> seq_of m' = seq_of m ->
  mset (seq_of m') m' (keyed (pre ++ m :: rest)) = keyed (pre ++ m' :: rest).
Proof.
  intros Hn E. rewrite !keyed_app. induction (keyed pre) as [|[k v] p IH]; simpl in *.
  - rewrite decide_True by done. done.
  - case_decide; [done|]. f_equal. auto.
Qed.

(** Entries that are already there are replaced in place. *)
Lemma by_seq_replace q pre mid mid' rest :
  increasing q (pre ++ mid ++ rest) -> clone_message <$> mid' = clone_message <$> mid ->
  by_seq mid' (keyed (pre ++ mid ++ rest)) = keyed (pre ++ mid' ++ rest).
Proof.
  revert pre mid. induction mid' as [|m' mid' IH]; intros pre [|m mid] H E; try done.
  injection E as Em E. assert (m_eventSeq m' = m_eventSeq m) as Es by congruence. simpl in *.
  assert (seq_of m' = seq_of m) as Eq by (unfold seq_of; by rewrite Es).
  pose proof (keyed_fresh _ _ _ _ H) as Hf.
  assert (m_eventSeq m = Some (seq_of m)) as Hs
    by (eapply increasing_seq_of; [exact H|set_solver]).
  unfold by_seq. simpl. rewrite Es, Hs, <- Eq. rewrite mset_keyed; [|by rewrite Eq|done].
  replace (pre ++ m' :: mid ++ rest) with ((pre ++ [m']) ++ mid ++ rest) by (by rewrite <- app_assoc).
  fold (by_seq mid' (keyed ((pre ++ [m']) ++ mid ++ rest))).
  rewrite IH; [by rewrite <- !app_assoc| |done].
  rewrite <- app_assoc. simpl. apply increasing_app in H as [Ha (x & Hx & Hlt & Hb)].
  apply increasing_app. split; [done|]. exists x. by rewrite Es.
Qed.

(** New entries are appended. *)
Lemma by_seq_new q pre rest :
  increasing q (pre ++ rest) -> by_seq rest (keyed pre) = keyed (pre ++ rest).
Proof.
  revert pre. induction rest as [|m rest IH]; intros pre H; [by rewrite app_nil_r|].
  assert (m_eventSeq m = Some (seq_of m)) as Hs by (eapply increasing_seq_of; [exact H|set_solver]).
  unfold by_seq. simpl. rewrite Hs, mset_absent by (by eapply keyed_fresh).
  replace (pre ++ m :: rest) with ((pre ++ [m]) ++ rest) in * by (by rewrite <- app_assoc).
  change (keyed pre ++ [(seq_of m, m)]) with (keyed pre ++ keyed [m]). rewrite <- keyed_app.
  by apply IH.
Qed.

Lemma increasing_sorted q l : increasing q l -> StronglySorted (fun x y => seq_before y x = false) l.
Proof.
  revert q. induction l as [|m l IH]; intros q H; constructor.
  - destruct H as (x & _ & _ & H). eauto.
  - destruct H as (x & Hx & _ & H). apply Forall_forall. intros y Hy.
    destruct (increasing_seq_of x l y H Hy) as [_ ?]. unfold seq_before, seq_of in *.
    rewrite Hx. simpl. lia.
Qed.

(** The file [pre ++ mid] and a cached tail [mid' ++ rest] whose common part
    agrees up to serialization merge to the whole timeline. *)
Lemma mergeEvents_overlap pre mid mid' rest :
  increasing 0 (pre ++ mid) -> increasing 0 (pre ++ mid' ++ rest) ->
  clone_message <$> mid' = clone_message <$> mid -> mid' ++ rest <> [] ->
  mergeEvents (pre ++ mid) (mid' ++ rest) = pre ++ mid' ++ rest.
Proof.
  intros H1 H2 E Hne. unfold mergeEvents. destruct (mid' ++ rest) as [|x l] eqn:F; [done|].
  rewrite <- F in *. change (@nil (Z * GatewayMessage)) with (keyed []).
  rewrite (by_seq_new 0 [] (pre ++ mid)) by done. simpl.
  unfold by_seq. rewrite foldl_app. fold (by_seq mid' (keyed (pre ++ mid))).
  pose proof (by_seq_replace 0 pre mid mid' []) as B. rewrite !app_nil_r in B. rewrite B by done.
  fold (by_seq rest (keyed (pre ++ mid'))).
  rewrite (by_seq_new 0) by (by rewrite <- app_assoc). rewrite keyed_values, <- app_assoc.
  apply isort_id. by eapply increasing_sorted.
Qed.

(** ** The refinement invariant *)

(** Each pending task of the file waits for the one before it. *)
Fixpoint linked (l : list task) : Prop :=
  match l with
  | t :: ((u :: _) as l') => t_after u = Some (t_id t) /\ linked l'
  | _ => True
  end.

Definition append_task (t : task) (m : GatewayMessage) : Prop := t_action t = Append (LEntry (Some m)).

Definition cache_ok (c : CachedEvents) (log : list GatewayMessage) : Prop :=
  if complete c then clone_message <$> entries c = log
  else entries c <> [] /\ exists pre, log = pre ++ (clone_message <$> entries c).

Record refines (sid : string) (log : list GatewayMessage) (st : GatewayStore) : Prop := {
  rf_log : log_ok sid log;
  rf_live : sid <> "" /\ (sid ∉ deletedSessions st);
  rf_ids : NoDup (t_id <$> tasks st) /\ Forall (fun t => (t_id t < next_task st)%nat) (tasks st);
  rf_disk : exists disk pending, log = disk ++ pending /\ disk_is sid disk (event_files st) /\
      Forall2 append_task (tasks_of (event_path sid) (tasks st)) pending;
  rf_linked : linked (tasks_of (event_path sid) (tasks st));
  rf_chain : mget (event_path sid) (eventWriteChains st) = t_id <$> last (tasks_of (event_path sid) (tasks st));
  rf_cache : forall c, mget sid (eventCache st) = Some c -> cache_ok c log;
  rf_latest : forall q, mget sid (latestSeqBySession st) = Some q -> last_seq log = Some q;
  rf_known : tasks_of (event_path sid) (tasks st) <> [] -> is_Some (mget sid (latestSeqBySession st))
}.

(** The part of the state the invariant reads. *)
Lemma refines_transfer sid log st st' :
  refines sid log st ->
  (sid ∉ deletedSessions st -> sid ∉ deletedSessions st') ->
  (NoDup (t_id <$> tasks st') /\ Forall (fun t => (t_id t < next_task st')%nat) (tasks st')) ->
  mget (event_path sid) (event_files st') = mget (event_path sid) (event_files st) ->
  tasks_of (event_path sid) (tasks st') = tasks_of (event_path sid) (tasks st) ->
  mget (event_path sid) (eventWriteChains st') = mget (event_path sid) (eventWriteChains st) ->
  (forall c, mget sid (eventCache st') = Some c -> mget sid (eventCache st) = Some c) ->
  mget sid (latestSeqBySession st') = mget sid (latestSeqBySession st) ->
  refines sid log st'.
Proof.
  intros [? [? ?] ? (D & P & ? & Hd & ?) ? ? ? ? ?] Hdel Hids Hf Ht Hc Hca Hl.
  constructor; rewrite ?Ht, ?Hc, ?Hl; eauto. exists D, P. unfold disk_is in *. by rewrite Hf.
Qed.

(** Operations on sessions and ledgers. *)
Definition same_log (st st' : GatewayStore) : Prop :=
  (forall x, x ∈ deletedSessions st' -> x ∈ deletedSessions st) /\ tasks st' = tasks st /\
  next_task st' = next_task st /\ event_files st' = event_files st /\
  eventWriteChains st' = eventWriteChains st /\ eventCache st' = eventCache st /\
  latestSeqBySession st' = latestSeqBySession st.

#[global] Instance same_log_preorder : PreOrder same_log.
Proof. split; [done|]. intros ??? (?&?&?&?&?&?&?) (?&?&?&?&?&?&?). repeat split; try congruence; auto. Qed.

Lemma refines_same_log sid log st st' : same_log st st' -> refines sid log st -> refines sid log st'.
Proof.
  intros (Hd & E1 & E2 & E3 & E4 & E5 & E6) H.
  eapply refines_transfer; [exact H|..]; rewrite ?E1, ?E2, ?E3, ?E4, ?E5, ?E6; try done.
  - auto.
  - apply H.
Qed.

Lemma same_log_saveSession s st : same_log st (saveSession s st).
Proof. repeat split; try done. simpl. intros x. rewrite elem_of_sdelete. tauto. Qed.

Lemma same_log_updateSession sid f st : same_log st (updateSession sid f st).2.
Proof. unfold updateSession. case_match; [apply same_log_saveSession|done]. Qed.

Lemma same_log_upsertSessions l st : same_log st (upsertSessions l st).2.
Proof.
  unfold upsertSessions. simpl. transitivity (foldl (fun st session =>
    with_sessions (mset (s_id session) (merge_session st session) (sessions st)) st) st l); [|done].
  revert st. induction l as [|s l IH]; intros st; [done|]. simpl. etrans; [|apply IH]. done.
Qed.

Lemma same_log_linkSubagent p c st : same_log st (linkSubagent p c st).
Proof.
  unfold linkSubagent. case_match; [done|]. cbv zeta.
  set (st1 := write_relations _). assert (same_log st st1) as H1 by done.
  set (st2 := if mhas p (sessions st1) then _ else st1).
  assert (same_log st1 st2) as H2 by (subst st2; case_match; [apply same_log_updateSession|done]).
  etrans; [exact H1|]. etrans; [exact H2|]. case_match; [apply same_log_updateSession|done].
Qed.

Lemma same_log_ledgers o st :
  match o with
  | ReserveClient _ _ _ | ReleaseClient _ _ | RememberClient _ _ | ReserveCreate _ _
  | ReleaseCreate _ | RememberCreate _ _ _ | TakeErrors | PersistTimer | Flush | FsAnswers _ => True
  | _ => False
  end -> same_log st (exec o st).
Proof.
  destruct o; try done; intros _; cbn [exec].
  - unfold reserveClientRequest. by repeat case_match.
  - unfold releaseClientRequest. by case_match.
  - unfold rememberClientRequest. case_match; [done|].
    assert (same_log st (releaseClientRequest sessionId requestId st)) as H1
      by (unfold releaseClientRequest; by case_match).
    etrans; [exact H1|]. case_match; [apply same_log_saveSession|done].
  - unfold reserveCreateRequest. case_match; [done|].
    assert (same_log st (getCreateRequestSession requestId st).2) as H1
      by (unfold getCreateRequestSession; by repeat case_match).
    destruct (getCreateRequestSession requestId st). simpl in *. etrans; [exact H1|].
    by repeat case_match.
  - unfold releaseCreateRequest. by case_match.
  - unfold rememberCreateRequest. by case_match.
  - unfold persistTimerFires. by repeat case_match.
  - unfold flush. by case_match.
Qed.

(** *** Cache lookups *)

Lemma mget_cacheEvents_eq sid l b st :
  wf st -> mget sid (eventCache (cacheEvents sid l b st)) = Some (bound_cache l b).
Proof.
  intros []. simpl. rewrite mshrink_drop. apply mget_lastn_mset; [auto with js| |].
  - unfold EVENT_CACHE_MAX_SESSIONS. lia.
  - etrans; [apply mdelete_length|done].
Qed.

Lemma mget_cacheEvents_ne sid sid' l b st c :
  wf st -> sid' <> sid ->
  mget sid (eventCache (cacheEvents sid' l b st)) = Some c -> mget sid (eventCache st) = Some c.
Proof.
  intros [] Hne. simpl. rewrite mshrink_drop. intros H%mget_lastn_Some; [|auto with js].
  by rewrite mget_mset_ne, mget_mdelete_ne in H by done.
Qed.

Lemma mget_getCachedEvents sid sid' st :
  mget sid (eventCache (getCachedEvents sid' st).2) = mget sid (eventCache st).
Proof.
  unfold getCachedEvents. destruct (mget sid' (eventCache st)) eqn:E; simpl; [|done].
  rewrite mget_mset. case_decide; [by subst|]. by rewrite mget_mdelete_ne.
Qed.

Lemma latest_getCachedEvents sid' st :
  latestSeqBySession (getCachedEvents sid' st).2 = latestSeqBySession st.
Proof. unfold getCachedEvents. by case_match. Qed.

Lemma getCachedEvents_fst sid st : (getCachedEvents sid st).1 = mget sid (eventCache st).
Proof. unfold getCachedEvents. by case_match. Qed.

(** A state that differs in the cache and the sequence map only. *)
Lemma refines_frames sid log st st' :
  refines sid log st -> frames st st' ->
  (forall c, mget sid (eventCache st') = Some c -> cache_ok c log) ->
  (forall q, mget sid (latestSeqBySession st') = Some q -> last_seq log = Some q) ->
  (is_Some (mget sid (latestSeqBySession st)) -> is_Some (mget sid (latestSeqBySession st'))) ->
  refines sid log st'.
Proof.
  intros [] (c & l & ->) Hc Hl Hk. constructor; simpl in *; eauto.
Qed.

Lemma bound_cache_ok l b log :
  clone_message <$> l = log -> (b = false -> l <> []) -> cache_ok (bound_cache l b) log.
Proof.
  intros E Hne. unfold cache_ok, bound_cache. simpl. case_decide as D; simpl.
  - rewrite length_lastn, Nat.min_l by lia.
    rewrite (proj2 (Nat.eqb_neq EVENT_CACHE_MAX_ENTRIES (length l))), andb_false_r by lia. split.
    + intros F. apply (f_equal length) in F. rewrite length_lastn in F.
      assert (0 < EVENT_CACHE_MAX_ENTRIES)%nat by (unfold EVENT_CACHE_MAX_ENTRIES; lia).
      cbn [length] in F. lia.
    + destruct (lastn_suffix EVENT_CACHE_MAX_ENTRIES l) as [pre Hpre].
      exists (clone_message <$> pre). rewrite <- fmap_app, <- Hpre. done.
  - rewrite Nat.eqb_refl, andb_true_r. destruct b; [done|].
    split; [auto|]. by exists [].
Qed.

(** What [listEvents] reads. *)
Definition timeline (sid : string) (st : GatewayStore) : list GatewayMessage :=
  match mget sid (eventCache st) with
  | Some c => if complete c then entries c
              else mergeEvents (readEventsFromDisk sid st) (entries c)
  | None => readEventsFromDisk sid st
  end.

Lemma listEvents_fst sid st : (listEvents sid st).1 = timeline sid st.
Proof.
  unfold listEvents, timeline. pose proof (getCachedEvents_fst sid st) as E.
  pose proof (frames_getCachedEvents sid st) as (c & l & F).
  destruct (getCachedEvents sid st) as [cached st1]. simpl in *. subst. done.
Qed.

Lemma pending_length sid st P :
  Forall2 append_task (tasks_of (event_path sid) (tasks st)) P ->
  length (tasks_of (event_path sid) (tasks st)) = length P.
Proof. apply Forall2_length. Qed.

(** A cached tail that covers the pending writes merges with the file. *)
Lemma timeline_incomplete log disk pend pre es :
  log = disk ++ pend -> log = pre ++ (clone_message <$> es) -> es <> [] ->
  increasing 0 log -> (length pend <= length es)%nat ->
  clone_message <$> disk = disk ->
  clone_message <$> mergeEvents disk es = log.
Proof.
  intros E1 E2 Hne Hi Hlen Hd. pose proof E2 as E3. rewrite E1 in E3.
  assert (length disk + length pend = length pre + length es)%nat as L.
  { apply (f_equal length) in E3. by rewrite !length_app, length_fmap in E3. }
  assert (exists mid, disk = pre ++ mid /\ (clone_message <$> es) = mid ++ pend) as (mid & -> & Es).
  { exists (drop (length pre) disk).
    assert (take (length pre) disk = pre) as T.
    { apply (f_equal (take (length pre))) in E3.
      rewrite take_app_le, take_app_length in E3 by lia. done. }
    split; [rewrite <- T at 1; by rewrite take_drop|].
    apply (f_equal (drop (length pre))) in E3.
    rewrite drop_app_le, drop_app_length in E3 by lia. done. }
  assert (exists mid' rest, es = mid' ++ rest /\ clone_message <$> mid' = mid) as (mid' & rest & -> & Em).
  { exists (take (length mid) es), (drop (length mid) es). split; [by rewrite take_drop|].
    rewrite fmap_take, Es. apply take_app_length. }
  assert (increasing 0 (pre ++ mid' ++ rest)) as Hi2.
  { rewrite E2 in Hi. apply increasing_clone. apply increasing_clone in Hi.
    rewrite fmap_app in *. rewrite <- list_fmap_compose in Hi.
    rewrite (list_fmap_ext (clone_message ∘ clone_message) clone_message (mid' ++ rest)) in Hi; [done|].
    intros; apply clone_idem. }
  rewrite fmap_app in Hd. apply app_inj_1 in Hd as [Hp Hm]; [|by rewrite length_fmap].
  rewrite mergeEvents_overlap; [by rewrite E2, fmap_app, Hp| |done| |done].
  - rewrite E1 in Hi. by apply increasing_app in Hi as [Hi _].
  - by rewrite Hm.
Qed.

Lemma own_clone sid l : Forall (own sid) l -> clone_message <$> l = l.
Proof. induction 1 as [|m l [_ E] _ IH]; [done|]. csimpl. by rewrite E, IH. Qed.

Lemma log_ok_prefix sid a b : log_ok sid (a ++ b) -> log_ok sid a.
Proof. intros [H1%increasing_app H2%Forall_app]. split; [apply H1|apply H2]. Qed.

Lemma timeline_log sid log st :
  refines sid log st -> drained sid st = true -> clone_message <$> timeline sid st = log.
Proof.
  intros [Hlog _ _ (D & P & E & Hd & Hp) _ _ Hc _ _] Hdr. unfold drained in Hdr.
  rewrite (pending_length _ _ _ Hp) in Hdr. pose proof Hlog as Hdl. rewrite E in Hdl.
  apply log_ok_prefix in Hdl. pose proof (own_clone sid D (proj2 Hdl)) as Hcl.
  unfold timeline. rewrite (readEventsFromDisk_is sid D st Hdl Hd).
  destruct (mget sid (eventCache st)) as [c|]; [|destruct P; [|done]; rewrite app_nil_r in E; by subst].
  specialize (Hc c eq_refl). unfold cache_ok in Hc. destruct (complete c); [done|]. simpl in Hdr.
  destruct Hc as [Hne [pre Epre]]. apply Nat.leb_le in Hdr.
  eapply timeline_incomplete; [exact E|exact Epre|done|apply Hlog|done|done].
Qed.

Lemma pending_bound sid log st :
  wf st -> refines sid log st -> drained sid st = true ->
  (length (tasks_of (event_path sid) (tasks st)) <= EVENT_CACHE_MAX_ENTRIES)%nat.
Proof.
  intros Hwf [_ _ _ (D & P & E & _ & Hp) _ _ Hc _ _] Hdr. unfold drained in Hdr.
  rewrite (pending_length _ _ _ Hp) in *.
  destruct (mget sid (eventCache st)) as [c|] eqn:F; [|apply Nat.eqb_eq in Hdr; lia].
  assert (length (entries c) <= EVENT_CACHE_MAX_ENTRIES)%nat as Hb.
  { apply mget_Some_elem in F. pose proof (wf_cache_entries st Hwf) as W.
    rewrite Forall_forall in W. by apply (W (sid, c)). }
  specialize (Hc c eq_refl). unfold cache_ok in Hc. destruct (complete c).
  - apply (f_equal length) in Hc. rewrite length_fmap, E, length_app in Hc. lia.
  - simpl in Hdr. apply Nat.leb_le in Hdr. lia.
Qed.

(** *** [listEvents] *)

Definition cached_flag (sid : string) (st : GatewayStore) : bool :=
  match mget sid (eventCache st) with Some c => complete c | None => true end.

Lemma listEvents_cache sid st :
  wf st -> mget sid (eventCache (listEvents sid st).2) = Some (bound_cache (timeline sid st) (cached_flag sid st)).
Proof.
  intros Hwf. unfold listEvents, timeline, cached_flag. pose proof (getCachedEvents_fst sid st) as E.
  pose proof (frames_getCachedEvents sid st) as (c & l & F).
  pose proof (wf_getCachedEvents sid st Hwf) as Hwf1.
  destruct (getCachedEvents sid st) as [cached st1]. cbn [fst snd] in *. subst cached.
  assert (forall x, readEventsFromDisk x st1 = readEventsFromDisk x st) as R by (intros; by subst st1).
  rewrite R. set (tl := match mget sid (eventCache st) with Some c => _ | None => _ end).
  change (readEventsFromDisk sid st) with (mergeEvents (readEventsFromDisk sid st) []) in tl.
  pose proof (mget_cacheEvents_eq sid tl (match mget sid (eventCache st) with Some c => complete c | None => true end) st1 Hwf1).
  destruct (last_seq tl) as [q|]; [destruct (q =? 0)|]; done.
Qed.

Lemma listEvents_latest sid st :
  latestSeqBySession (listEvents sid st).2 =
  match last_seq (timeline sid st) with
  | Some q => if q =? 0 then latestSeqBySession st else mset sid q (latestSeqBySession st)
  | None => latestSeqBySession st
  end.
Proof.
  rewrite <- (listEvents_fst sid st). unfold listEvents.
  pose proof (latest_getCachedEvents sid st) as E. destruct (getCachedEvents sid st) as [cached st1].
  cbn [fst snd] in *. rewrite <- E.
  set (tl := match cached with Some c => _ | None => _ end).
  destruct (last_seq tl) as [q|]; [destruct (q =? 0)|]; done.
Qed.

Lemma tl_nonempty sid log st :
  refines sid log st -> drained sid st = true -> cached_flag sid st = false -> timeline sid st <> [].
Proof.
  intros H Hdr Hf E. pose proof (timeline_log sid log st H Hdr) as T. rewrite E in T. simpl in T.
  unfold cached_flag in Hf. destruct (mget sid (eventCache st)) as [c|] eqn:F; [|done].
  apply H in F. unfold cache_ok in F. rewrite Hf in F. destruct F as [Hne [pre Epre]].
  rewrite <- T in Epre. symmetry in Epre. apply app_eq_nil in Epre as [_ Epre].
  apply fmap_nil_inv in Epre. done.
Qed.

Lemma listEvents_refines sid log st :
  wf st -> refines sid log st -> drained sid st = true ->
  refines sid log (listEvents sid st).2 /\ drained sid (listEvents sid st).2 = true.
Proof.
  intros Hwf H Hdr. pose proof (timeline_log sid log st H Hdr) as T.
  pose proof (listEvents_cache sid st Hwf) as C. split.
  - eapply refines_frames; [exact H|apply frames_listEvents| | |].
    + intros c Hc. rewrite C in Hc. injection Hc as <-. apply bound_cache_ok; [done|].
      by eapply tl_nonempty.
    + intros q Hq. rewrite listEvents_latest, <- last_seq_clone, T in Hq.
      destruct (last_seq log) as [q0|] eqn:E; [|rewrite <- E; by apply H].
      destruct (q0 =? 0); [rewrite <- E; by apply H|]. by rewrite mget_mset_eq in Hq.
    + rewrite listEvents_latest. intros ?. repeat case_match; try done. rewrite mget_mset_eq. eauto.
  - pose proof (pending_bound sid log st Hwf H Hdr) as B. unfold drained. rewrite C.
    pose proof (frames_listEvents sid st) as (ca & la & F). rewrite F. simpl.
    destruct H as [_ _ _ (D & P & E & _ & Hp) _ _ _ _ _].
    rewrite (pending_length _ _ _ Hp) in *. apply (f_equal length) in T.
    rewrite length_fmap, E, length_app in T. apply orb_true_iff. right. apply Nat.leb_le.
    case_decide; [rewrite length_lastn; lia|lia].
Qed.

Lemma listEvents_other sid sid' log st :
  wf st -> sid' <> sid -> refines sid log st -> refines sid log (listEvents sid' st).2.
Proof.
  intros Hwf Hne H. eapply refines_frames; [exact H|apply frames_listEvents| | |].
  - intros c. unfold listEvents. pose proof (mget_getCachedEvents sid sid' st) as E.
    pose proof (wf_getCachedEvents sid' st Hwf) as Hwf1.
    destruct (getCachedEvents sid' st) as [cached st1]. cbn [snd] in *.
    intros Hc. apply H. rewrite <- E.
    eapply (mget_cacheEvents_ne sid sid'); [done..|].
    destruct (last_seq _) as [q|]; [destruct (q =? 0)|]; exact Hc.
  - intros q Hq. apply H. rewrite listEvents_latest in Hq.
    destruct (last_seq _) as [q0|]; [destruct (q0 =? 0)|]; try done. by rewrite mget_mset_ne in Hq.
  - rewrite listEvents_latest. intros ?. repeat case_match; try done. by rewrite mget_mset_ne.
Qed.

(** *** [latest_seq]: a session with pending writes has a known number *)

Lemma drained_or_known sid log st :
  refines sid log st -> mget sid (latestSeqBySession st) = None -> drained sid st = true.
Proof.
  intros H E. unfold drained. destruct (tasks_of _ _) as [|t l] eqn:T.
  - case_match; [|done]. by rewrite orb_true_r.
  - destruct (rf_known _ _ _ H) as [q Hq]; [by rewrite T|]. congruence.
Qed.

Lemma latest_seq_fst sid log st : refines sid log st -> (latest_seq sid st).1 = last_seq log.
Proof.
  intros H. unfold latest_seq. destruct (mget sid (latestSeqBySession st)) as [q|] eqn:E.
  - symmetry. by apply H.
  - pose proof (listEvents_fst sid st) as F. destruct (listEvents sid st) as [l st1]. simpl in *.
    rewrite F, <- last_seq_clone, (timeline_log sid log st); [done..|]. by eapply drained_or_known.
Qed.

Lemma latest_seq_refines sid sid' log st :
  wf st -> refines sid log st ->
  refines sid log (latest_seq sid' st).2 /\
  (sid' = sid -> drained sid st = true -> drained sid (latest_seq sid' st).2 = true).
Proof.
  intros Hwf H. unfold latest_seq. destruct (mget sid' (latestSeqBySession st)) eqn:E; [done|].
  destruct (decide (sid' = sid)) as [->|Hne].
  - pose proof (drained_or_known sid log st H E) as Hdr.
    destruct (listEvents_refines sid log st Hwf H Hdr). by destruct (listEvents sid st).
  - pose proof (listEvents_other sid sid' log st Hwf Hne H). by destruct (listEvents sid' st).
Qed.

Lemma latestCursors_refines sid log st :
  wf st -> refines sid log st -> refines sid log (latestCursors st).2.
Proof.
  unfold latestCursors. generalize (@nil (string * Z)) as acc. generalize (sessions st).*2 as l.
  intros l. revert st. induction l as [|s l IH]; intros st acc Hwf H; [done|]. simpl.
  pose proof (wf_latest_seq (s_id s) st Hwf). destruct (latest_seq_refines sid (s_id s) log st Hwf H) as [H1 _].
  destruct (latest_seq (s_id s) st). by apply IH.
Qed.

(** *** [appendEvent] *)

Lemma tasks_of_snoc f l t :
  tasks_of f (l ++ [t]) = tasks_of f l ++ (if t_file t === f then [t] else []).
Proof. unfold tasks_of. rewrite List.filter_app. simpl. by case_match. Qed.

Lemma linked_snoc l t : linked l -> t_after t = t_id <$> last l -> linked (l ++ [t]).
Proof.
  induction l as [|u l IH]; intros Hl Ht; [done|]. destruct l as [|v l]; [done|].
  destruct Hl as [H1 H2]. split; [done|]. apply IH; [done|]. by rewrite Ht.
Qed.

Lemma ids_snoc l t n :
  NoDup (t_id <$> l) /\ Forall (fun t => (t_id t < n)%nat) l -> t_id t = n ->
  NoDup (t_id <$> l ++ [t]) /\ Forall (fun t => (t_id t < S n)%nat) (l ++ [t]).
Proof.
  intros [H1 H2] E. split.
  - rewrite fmap_app. apply NoDup_app. split_and!; [done| |apply NoDup_singleton].
    intros x Hx. apply list_elem_of_fmap in Hx as (u & -> & Hu).
    rewrite Forall_forall in H2. apply H2 in Hu. intros Hin. apply list_elem_of_singleton in Hin. lia.
  - apply Forall_app. split; [eapply Forall_impl; [exact H2|]; simpl; lia|].
    constructor; [lia|constructor].
Qed.

Lemma js_succ_small n : n < 9007199254740992 -> js_succ n = n + 1.
Proof. unfold js_succ. intros. by rewrite (proj2 (Z.ltb_lt _ _)). Qed.

(** The state after the number has been chosen. *)
Definition append_tail (sid : string) (m : GatewayMessage) (q : Z) (st : GatewayStore) : GatewayStore :=
  let es := match mget sid (eventCache st) with
            | Some c => entries c | None => readEventsFromDisk sid st end in
  let st1 := cacheEvents sid (es ++ [m]) (cached_flag sid st) (getCachedEvents sid st).2 in
  let st2 := queueEventWrite (event_path sid) (LEntry (Some (clone_message m))) st1 in
  with_latestSeqBySession (mset sid q (latestSeqBySession st2)) st2.

Definition chosen_seq (supplied : option Z) (current : Z) : Z :=
  match supplied with
  | Some q => if is_safe_integer q && (current <? q) then q else js_succ current
  | None => js_succ current
  end.

Lemma chosen_seq_abs supplied current :
  current < 9007199254740992 -> chosen_seq supplied current = abs_seq supplied current.
Proof. intros. unfold chosen_seq, abs_seq. by rewrite js_succ_small. Qed.

Lemma appendEvent_eq sid m st :
  m_sessionId m = Some sid -> sid <> "" -> (sid ∉ deletedSessions st) -> mkdir_ok (fs st) = true ->
  let q := chosen_seq (m_eventSeq m) (default 0 (latest_seq sid st).1) in
  let m' := with_m_eventSeq (Some q) m in
  appendEvent m st = (Appended m', append_tail sid m' q (latest_seq sid st).2).
Proof.
  intros Em Hs Hd Hk q m'. unfold appendEvent. rewrite Em.
  rewrite (proj2 (String.eqb_neq _ _) Hs), (proj2 (shas_false _ _) Hd). cbn [orb].
  pose proof (frames_latest_seq sid st) as (ca & la & F).
  subst m' q. destruct (latest_seq sid st) as [latest st1]. cbn [fst snd] in *.
  assert (mkdir_ok (fs st1) = true) as -> by (by subst st1).
  unfold append_tail, cached_flag. pose proof (getCachedEvents_fst sid st1) as E.
  pose proof (frames_getCachedEvents sid st1) as (c & l & G).
  destruct (getCachedEvents sid st1) as [cached st2]. cbn [fst snd] in *. subst cached.
  assert (readEventsFromDisk sid st2 = readEventsFromDisk sid st1) as R by (by subst st2).
  rewrite R. unfold chosen_seq. destruct (mget sid (eventCache st1)); reflexivity.
Qed.

Lemma append_tail_cache sid log m q st :
  wf st -> refines sid log st -> drained sid st = true ->
  cache_ok (bound_cache (match mget sid (eventCache st) with
            | Some c => entries c | None => readEventsFromDisk sid st end ++ [m]) (cached_flag sid st))
    (log ++ [clone_message (with_m_eventSeq (Some q) m)]) \/ m_eventSeq m <> Some q.
Proof.
  intros Hwf H Hdr. destruct (decide (m_eventSeq m = Some q)) as [Eq|]; [left|by right].
  assert (with_m_eventSeq (Some q) m = m) as -> by (destruct m; simpl in *; by subst).
  destruct (mget sid (eventCache st)) as [c|] eqn:E; unfold cached_flag; rewrite E.
  - apply H in E. unfold cache_ok in E. destruct (complete c) eqn:C.
    + apply bound_cache_ok; [by rewrite fmap_app, E|done].
    + destruct E as [Hne [pre Epre]]. unfold bound_cache, cache_ok. simpl. split.
      * case_decide as D; [|by destruct (entries c)].
        intros F. apply (f_equal length) in F. rewrite length_lastn in F.
        assert (0 < EVENT_CACHE_MAX_ENTRIES)%nat by (unfold EVENT_CACHE_MAX_ENTRIES; lia).
        cbn [length] in F. lia.
      * rewrite Epre. case_decide.
        -- destruct (lastn_suffix EVENT_CACHE_MAX_ENTRIES (entries c ++ [m])) as [p2 Hp2].
           exists (pre ++ (clone_message <$> p2)).
           rewrite <- !app_assoc, <- fmap_app, <- Hp2. by rewrite fmap_app.
        -- exists pre. by rewrite <- app_assoc, fmap_app.
  - apply bound_cache_ok; [|done]. rewrite fmap_app. f_equal.
    pose proof (timeline_log sid log st H Hdr) as T. unfold timeline in T. by rewrite E in T.
Qed.

Lemma append_tail_refines sid log m q st :
  wf st -> refines sid log st -> drained sid st = true -> m_sessionId m = Some sid ->
  default 0 (last_seq log) < q -> m_eventSeq m = Some q ->
  refines sid (log ++ [clone_message m]) (append_tail sid m q st).
Proof.
  intros Hwf H Hdr Hm Hq Eq. pose proof (append_tail_cache sid log m q st Hwf H Hdr) as Hc.
  destruct Hc as [Hc|]; [|done].
  assert (with_m_eventSeq (Some q) m = m) as Em by (destruct m; simpl in *; by subst). rewrite Em in Hc.
  destruct H as [[Hi Ho] Hlive Hids (D & P & E & Hd & Hp) Hl Hch _ _ _].
  pose proof (mget_cacheEvents_eq sid (match mget sid (eventCache st) with
            | Some c => entries c | None => readEventsFromDisk sid st end ++ [m]) (cached_flag sid st)
      _ (wf_getCachedEvents sid st Hwf)) as Hce.
  pose proof (frames_getCachedEvents sid st) as (ca & la & F).
  unfold append_tail. cbv zeta. rewrite F in *. clear F.
  constructor; simpl.
  - split; [apply increasing_app; split; [done|]; simpl; by exists q|].
    apply Forall_app. split; [done|]. constructor; [split; [done|apply clone_idem]|constructor].
  - done.
  - by apply ids_snoc.
  - exists D, (P ++ [clone_message m]). rewrite E, <- app_assoc. split_and!; [done..|].
    rewrite tasks_of_snoc. simpl. rewrite String.eqb_refl. apply Forall2_app; [done|].
    by repeat constructor.
  - rewrite tasks_of_snoc. simpl. rewrite String.eqb_refl. by apply linked_snoc.
  - rewrite tasks_of_snoc. simpl. rewrite String.eqb_refl, last_snoc, mget_mset_eq. done.
  - intros c Hg. simpl in Hce. rewrite Hce in Hg. by injection Hg as <-.
  - intros q' Hq'. rewrite mget_mset_eq in Hq'. by rewrite last_seq_snoc, clone_seq, Eq, <- Hq'.
  - intros _. rewrite mget_mset_eq. eauto.
Qed.

Lemma append_tail_other sid sid' log m q st :
  wf st -> sid' <> sid -> refines sid log st -> refines sid log (append_tail sid' m q st).
Proof.
  intros Hwf Hne H. assert (event_path sid' <> event_path sid) as Hp by (by intros ?%event_path_inj).
  pose proof (mget_getCachedEvents sid sid' st) as Hg.
  pose proof (wf_getCachedEvents sid' st Hwf) as Hwf1.
  pose proof (latest_getCachedEvents sid' st) as Hla.
  pose proof (frames_getCachedEvents sid' st) as (ca & la & F).
  unfold append_tail. cbv zeta. eapply refines_transfer; [exact H|..]; rewrite F in *; simpl in *.
  - done.
  - apply ids_snoc; [|done]. apply H.
  - done.
  - rewrite tasks_of_snoc. simpl. rewrite (proj2 (String.eqb_neq _ _) Hp). apply app_nil_r.
  - by rewrite mget_mset_ne.
  - intros c Hc. rewrite <- Hg.
    exact (mget_cacheEvents_ne sid sid' _ _ _ c Hwf1 Hne Hc).
  - rewrite mget_mset_ne by done. by rewrite Hla.
Qed.

Lemma appendEvent_refines sid log m st :
  wf st -> refines sid log st -> drained sid st = true -> op_tame sid (AppendEvent m) log st = true ->
  refines sid (abs_exec sid (AppendEvent m) log) (appendEvent m st).2.
Proof.
  intros Hwf H Hdr Ht. simpl in *. apply andb_true_iff in Ht as [Hk Hq%Z.ltb_lt].
  destruct (m_sessionId m) as [sid'|] eqn:Em.
  2:{ unfold appendEvent. by rewrite Em. }
  destruct (decide (sid' = "" \/ sid' ∈ deletedSessions st)) as [Hx|Hx].
  { assert (appendEvent m st = (Dropped, st)) as ->.
    { unfold appendEvent. rewrite Em. destruct Hx as [->|Hx]; [done|].
      by rewrite (proj2 (shas_true _ _) Hx), orb_true_r. }
    simpl. destruct (String.eqb_spec sid' sid) as [->|]; [|done].
    destruct (rf_live _ _ _ H), Hx; done. }
  assert (sid' <> "" /\ (sid' ∉ deletedSessions st)) as [Hx1 Hx2] by tauto.
  rewrite (appendEvent_eq sid' m st Em Hx1 Hx2) by done. cbn [snd].
  destruct (latest_seq_refines sid sid' log st Hwf H) as [H1 H2].
  pose proof (wf_latest_seq sid' st Hwf) as Hwf1. simpl.
  destruct (String.eqb_spec sid' sid) as [->|Hne]; [|by apply append_tail_other].
  rewrite (latest_seq_fst sid log st H).
  rewrite chosen_seq_abs by done. unfold abs_append. fold (current_seq log).
  apply append_tail_refines; auto. apply abs_seq_gt.
Qed.

(** *** Settling a write *)

Lemma linked_before a u t b : linked (a ++ u :: t :: b) -> t_after t = Some (t_id u).
Proof.
  induction a as [|x a IH]; simpl; [tauto|]. destruct a; simpl in *; tauto.
Qed.

Lemma linked_tail t l : linked (t :: l) -> linked l.
Proof. destruct l; simpl; tauto. Qed.

(** Only the first pending write of a file can run. *)
Lemma ready_is_head f l i t :
  l !! i = Some t -> t_file t = f -> linked (tasks_of f l) -> ready (take i l) t = true ->
  tasks_of f (take i l) = [] /\ tasks_of f l = t :: tasks_of f (drop (S i) l).
Proof.
  intros Hi Hf Hl Hr.
  assert (tasks_of f l = tasks_of f (take i l) ++ t :: tasks_of f (drop (S i) l)) as E.
  { rewrite <- (take_drop_middle l i t Hi) at 1. unfold tasks_of. rewrite List.filter_app. simpl.
    by rewrite Hf, String.eqb_refl. }
  destruct (last (tasks_of f (take i l))) as [u|] eqn:Hu.
  - exfalso. apply last_Some in Hu as [a Ha]. rewrite E, Ha, <- app_assoc in Hl. simpl in Hl.
    apply linked_before in Hl. unfold ready in Hr. apply negb_true_iff in Hr.
    assert (existsb (blocks t) (take i l) = true) as X; [|congruence].
    apply existsb_exists. exists u. split.
    + assert (List.In u (tasks_of f (take i l))) as Hin by (rewrite Ha; apply List.in_app_iff; simpl; tauto).
      unfold tasks_of in Hin. by apply filter_In in Hin as [Hin _].
    + unfold blocks. by rewrite Hl, Nat.eqb_refl.
  - apply last_None in Hu. by rewrite Hu in E.
Qed.

Lemma tasks_of_other f l i t :
  l !! i = Some t -> t_file t <> f -> tasks_of f (take i l ++ drop (S i) l) = tasks_of f l.
Proof.
  intros Hi Hf. rewrite <- (take_drop_middle l i t Hi) at 3. unfold tasks_of.
  rewrite !List.filter_app. simpl. by rewrite (proj2 (String.eqb_neq _ _) Hf).
Qed.

Lemma ids_remove l i n :
  NoDup (t_id <$> l) /\ Forall (fun t => (t_id t < n)%nat) l ->
  NoDup (t_id <$> take i l ++ drop (S i) l) /\ Forall (fun t => (t_id t < n)%nat) (take i l ++ drop (S i) l).
Proof.
  intros [H1 H2]. assert (take i l ++ drop (S i) l `sublist_of` l) as Hsub.
  { rewrite <- (take_drop i l) at 3. apply sublist_app; [done|].
    replace (S i) with (i + 1)%nat by lia. rewrite <- drop_drop. apply sublist_drop. }
  split.
  - eapply sublist_NoDup; [exact H1|]. by apply fmap_sublist.
  - rewrite Forall_forall in *. intros x Hx. apply H2. by eapply elem_of_sublist.
Qed.

Lemma append_line_disk sid m disk files :
  disk_is sid disk files ->
  disk_is sid (disk ++ [m]) (append_line (event_path sid) (LEntry (Some m)) files).
Proof.
  intros H. left. unfold append_line. rewrite mget_mset_eq.
  destruct H as [->|[-> ->]]; simpl; [|done]. by rewrite List.map_app.
Qed.

Lemma settle_refines sid log i e st :
  refines sid log st -> refines sid log (settle i true e st).
Proof.
  intros H. unfold settle. destruct (tasks st !! i) as [t|] eqn:Hi; [|done].
  destruct (ready _ t) eqn:Hr; [|done].
  destruct (decide (t_file t = event_path sid)) as [Hf|Hf].
  - destruct H as [Hlog Hlive Hids (D & P & E & Hd & Hp) Hl Hch Hc Hla Hk].
    destruct (ready_is_head _ _ _ _ Hi Hf Hl Hr) as [Hn Hh]. rewrite Hh in *.
    apply Forall2_cons_inv_l in Hp as (m & P' & Ht & Hp & ->).
    assert (tasks_of (event_path sid) (take i (tasks st) ++ drop (S i) (tasks st)) =
      tasks_of (event_path sid) (drop (S i) (tasks st))) as Er.
    { unfold tasks_of in *. by rewrite List.filter_app, Hn. }
    assert (last (t :: tasks_of (event_path sid) (drop (S i) (tasks st))) =
      Some (default t (last (tasks_of (event_path sid) (drop (S i) (tasks st)))))) as El
      by (rewrite last_cons; by case_match).
    rewrite El in Hch. simpl in Hch.
    unfold perform. rewrite Ht, Hf. cbv zeta. simpl.
    assert (mget (event_path sid) (if decide (Some (t_id (default t (last (tasks_of (event_path sid)
        (drop (S i) (tasks st)))))) = Some (t_id t)) then mdelete (event_path sid) (eventWriteChains st)
        else eventWriteChains st) = t_id <$> last (tasks_of (event_path sid) (drop (S i) (tasks st)))) as Hch'.
    { destruct (last _) as [u|] eqn:Hu; simpl in *.
      - rewrite decide_False; [done|]. intros [= Heq].
        destruct Hids as [Hnd _]. rewrite <- (take_drop_middle _ _ _ Hi), fmap_app in Hnd. csimpl in Hnd.
        apply NoDup_app in Hnd as (_ & _ & [Hnd _]%NoDup_cons). apply Hnd. rewrite <- Heq.
        apply list_elem_of_fmap_2. apply last_Some_elem_of in Hu.
        apply list_elem_of_In, filter_In in Hu as [Hu _]. by apply list_elem_of_In.
      - rewrite decide_True by done. apply mget_mdelete_eq. }
    rewrite Hch. case_decide; (constructor; simpl; rewrite ?Er; auto using ids_remove;
      [exists (D ++ [m]), P'; rewrite <- app_assoc; split_and!; [done|by apply append_line_disk|done]
      |by eapply linked_tail]).
  - pose proof H as H'. destruct H as [_ _ Hids _ _ _ _ _ _].
    assert (event_path sid <> t_file t) as Hf' by congruence.
    eapply refines_transfer; [exact H'|..]; unfold perform, removeFile, append_line;
      destruct (t_action t); try case_decide; simpl; auto using ids_remove;
      rewrite ?mget_mset_ne, ?mget_mdelete_ne by done; try done; by apply (tasks_of_other _ _ _ t).
Qed.

(** *** Deletion of another session, restart *)

Lemma same_log_forget_create sid st : same_log st (forget_create_requests sid st).
Proof. unfold forget_create_requests. by case_match. Qed.

Lemma same_log_unlink_child sid p st : same_log st (unlink_child sid p st).
Proof. unfold unlink_child. repeat case_match; try done. apply same_log_updateSession. Qed.

(** [forget_session] marks the session deleted and leaves the log alone. *)
Lemma same_log_forget_session sid st :
  same_log (with_deletedSessions (sadd sid (deletedSessions st)) st) (forget_session sid st).
Proof.
  unfold forget_session. cbv zeta. etrans; [|apply same_log_forget_create].
  etrans; [|apply (same_log_unlink_child sid)]. destruct (mhas sid _); done.
Qed.

Lemma remove_events_other sid sid' log st :
  sid' <> sid -> refines sid log st -> refines sid log (remove_events (event_path sid') st).
Proof.
  intros Hne H. assert (event_path sid' <> event_path sid) as Hp by (by intros ?%event_path_inj).
  unfold remove_events, removeFile. case_match; eapply refines_transfer; try exact H; simpl; try done;
    rewrite ?mget_mdelete_ne by done; try done; try apply H.
  - apply ids_snoc; [|done]. apply H.
  - rewrite tasks_of_snoc. simpl. rewrite (proj2 (String.eqb_neq _ _) Hp). apply app_nil_r.
Qed.

Lemma deleteSession_other sid sid' log st :
  sid' <> sid -> refines sid log st -> refines sid log (deleteSession sid' st).2.
Proof.
  intros Hne H.
  assert (refines sid log (with_deletedSessions (sadd sid' (deletedSessions st)) st)) as H1.
  { eapply refines_transfer; [exact H|..]; simpl; try done; [|apply H].
    rewrite elem_of_sadd. naive_solver. }
  apply (refines_same_log _ _ _ _ (same_log_forget_session sid' st)) in H1.
  apply (remove_events_other _ sid') in H1; [|done].
  eapply refines_transfer; [exact H1|..]; simpl; try done; rewrite ?mget_mdelete_ne by done; try done.
  apply H1.
Qed.

Lemma restart_refines sid log now st :
  refines sid log st -> tasks_of (event_path sid) (tasks st) = [] -> refines sid log (restart now st).
Proof.
  intros [Hlog Hlive Hids (D & P & E & Hd & Hp) Hl Hch Hc Hla Hk] Ht.
  rewrite Ht in Hp. inversion Hp. subst P. unfold restart, constructor.
  destruct (readJson _ _ _), (readJson _ _ _), (readJson _ _ _).
  constructor; simpl; try done.
  - split; [apply Hlive|set_solver].
  - split; [constructor|constructor].
  - exists D, []. split_and!; [done|done|constructor].
Qed.

Lemma exec_refines sid log o st :
  wf st -> refines sid log st -> drained sid st = true -> op_tame sid o log st = true ->
  refines sid (abs_exec sid o log) (exec o st).
Proof.
  intros Hwf H Hdr Ht. destruct o;
    try (eapply refines_same_log; [by apply same_log_ledgers|exact H]); cbn [exec abs_exec];
    try (eapply refines_same_log; [|exact H];
         first [apply same_log_saveSession | apply same_log_upsertSessions | apply same_log_updateSession
               | apply same_log_linkSubagent]).
  - by apply appendEvent_refines.
  - destruct (decide (sessionId = sid)) as [->|Hne]; [by apply listEvents_refines|by apply listEvents_other].
  - by apply latestCursors_refines.
  - simpl in Ht. apply negb_true_iff, String.eqb_neq in Ht. by apply deleteSession_other.
  - simpl in Ht. subst. by apply settle_refines.
  - simpl in Ht. apply restart_refines; [done|]. apply Nat.eqb_eq in Ht. by apply nil_length_inv.
Qed.

Lemma run_refines sid os log st :
  wf st -> refines sid log st -> tame sid os log st = true ->
  wf (run os st) /\ refines sid (abs_run sid os log) (run os st) /\ drained sid (run os st) = true.
Proof.
  revert log st. induction os as [|o os IH]; intros log st Hwf H Ht; simpl in Ht; str_cases.
  - done.
  - simpl. apply IH; [by apply wf_exec|by apply exec_refines|done].
Qed.

Lemma fresh_refines sid now a : sid <> "" -> refines sid [] (fresh now a).
Proof.
  intros. constructor; try done; simpl.
  - split; [done|set_solver].
  - split; [apply NoDup_nil_2|constructor].
  - exists [], []. split_and!; [done|by right|constructor].
Qed.

Lemma run_fresh_refines sid os now a :
  sid <> "" -> tame sid os [] (fresh now a) = true ->
  wf (run os (fresh now a)) /\ refines sid (abs_run sid os []) (run os (fresh now a)) /\
  drained sid (run os (fresh now a)) = true.
Proof. intros Hs Ht. apply run_refines; [apply wf_fresh|by apply fresh_refines|done]. Qed.

(** C5: the store implements the append-only log: for every sequence of
    operations from a fresh data directory (appends to any session, reads,
    completed or pending writes, cache evictions, deletions of other sessions,
    restarts) that is [tame] for the session, [listEvents] returns exactly the
    events appended to the session, in order and up to JSON serialization, with
    strictly increasing positive sequence numbers. Tame means: no write of an
    event fails, the session is not deleted, no restart comes over its pending
    writes, numbers stay below 2^53, and at every moment the cache holds the
    events that are not on disk yet. The last condition can fail in the code:
    [eviction_repeats_sequence]. *)
Theorem event_log_refines sid os now a :
  sid <> "" -> tame sid os [] (fresh now a) = true ->
  let events := (listEvents sid (run os (fresh now a))).1 in
  clone_message <$> events = abs_run sid os [] /\ increasing 0 events.
Proof.
  intros Hs Ht. destruct (run_fresh_refines sid os now a Hs Ht) as (Hwf & H & Hd).
  cbv zeta. rewrite listEvents_fst. pose proof (timeline_log _ _ _ H Hd) as E.
  split; [done|]. apply increasing_clone. rewrite E. apply H.
Qed.

(** A message of a session. *)
Definition event (sid text : string) : GatewayMessage :=
  mkMessage "terminal-output" None (Some sid) "2026-01-01T00:00:00.000Z" (VObj [("text", VStr text)]) None.

Lemma event_log_refines_witness :
  let os := [AppendEvent (event "s" "a"); AppendEvent (event "t" "x"); Settle 0 true "";
             AppendEvent (event "s" "b"); ListEvents "s"; Settle 1 true ""; Restart 5;
             AppendEvent (event "s" "c")] in
  tame "s" os [] (fresh 0 fs_good) = true /\
  let events := (listEvents "s" (run os (fresh 0 fs_good))).1 in
  clone_message <$> events = abs_run "s" os [] /\ increasing 0 events.
Proof.
  split; [reflexivity|].
  apply (event_log_refines "s" [AppendEvent (event "s" "a"); AppendEvent (event "t" "x"); Settle 0 true "";
             AppendEvent (event "s" "b"); ListEvents "s"; Settle 1 true ""; Restart 5;
             AppendEvent (event "s" "c")] 0 fs_good); [discriminate|reflexivity].
Defined.

(** ** Replay in pages *)

(** A client that follows [nextCursor] while pages are truncated. *)
Fixpoint replay (fuel : nat) (sid : string) (cursor limit : Z) (st : GatewayStore)
    : option (list GatewayMessage) :=
  match fuel with
  | 0%nat => None
  | S fuel' =>
      let '(p, st') := listEventsAfterLimited sid cursor limit st in
      if truncated p then rest ← replay fuel' sid (nextCursor p) limit st'; Some (page p ++ rest)
      else Some (page p)
  end.

Definition after (cursor : Z) (l : list GatewayMessage) : list GatewayMessage :=
  List.filter (fun m => cursor <? seq_of m) l.

Lemma after_clone cursor l : clone_message <$> after cursor l = after cursor (clone_message <$> l).
Proof.
  unfold after. induction l as [|m l IH]; [done|]. csimpl.
  change (seq_of (clone_message m)) with (seq_of m).
  destruct (cursor <? seq_of m); csimpl; by rewrite IH.
Qed.

Lemma increasing_after q c l : increasing q l -> increasing q (after c l).
Proof.
  revert q. induction l as [|m l IH]; intros q; simpl; [done|]. intros (x & Hx & Hq & H).
  destruct (c <? seq_of m); [exists x; auto|]. eapply increasing_mono; [|by apply IH]. lia.
Qed.

(** Restarting after an element of an increasing log gives what follows it. *)
Lemma after_split q a m b : increasing q (a ++ m :: b) -> after (seq_of m) (a ++ m :: b) = b.
Proof.
  intros H. unfold after. rewrite List.filter_app. simpl. rewrite Z.ltb_irrefl.
  assert (List.filter (fun x => seq_of m <? seq_of x) a = []) as ->.
  { induction a as [|x a IH]; [done|]. simpl.
    destruct H as (y & Hy & Hq & H).
    destruct (increasing_seq_of y (a ++ m :: b) m H) as [_ Hlt]; [set_solver|].
    unfold seq_of at 2. rewrite Hy. simpl. rewrite (proj2 (Z.ltb_ge _ _)) by lia.
    apply IH. eapply increasing_mono; [|exact H]. lia. }
  simpl. apply increasing_app in H as [_ (y & Hy & _ & H)].
  assert (forall x, x ∈ b -> seq_of m < seq_of x) as Hb.
  { intros x Hx. destruct (increasing_seq_of y b x H Hx) as [_ ?]. unfold seq_of at 1. by rewrite Hy. }
  clear H. induction b as [|x b IH]; [done|]. simpl.
  rewrite (proj2 (Z.ltb_lt _ _)) by (apply Hb; set_solver). f_equal. apply IH. set_solver.
Qed.

Lemma after_after c c' l : c <= c' -> after c' (after c l) = after c' l.
Proof.
  intros Hc. unfold after. induction l as [|m l IH]; [done|]. simpl.
  destruct (Z.ltb_spec c (seq_of m)) as [H1|H1]; simpl; [by rewrite IH|].
  rewrite (proj2 (Z.ltb_ge c' (seq_of m))) by lia. done.
Qed.

Lemma safe_limit_pos limit : (1 <= Z.to_nat (safe_limit limit))%nat.
Proof. unfold safe_limit. case_match; lia. Qed.

(** One page: a non-empty prefix whose cursor restarts right after it. *)
Lemma page_of_spec log cursor limit :
  increasing 0 log ->
  let p := page_of (after cursor log) cursor limit in
  if truncated p
  then (0 < length (page p))%nat /\ after cursor log = page p ++ after (nextCursor p) log
  else page p = after cursor log.
Proof.
  intros H p. subst p. unfold page_of. cbn [truncated page nextCursor].
  pose proof (safe_limit_pos limit) as Hk. set (k := Z.to_nat (safe_limit limit)) in *.
  pose proof (increasing_after 0 cursor log H) as Hi.
  destruct (Nat.ltb_spec k (length (after cursor log))) as [Hlt|]; [|done].
  split; [rewrite length_take; lia|].
  destruct (last (take k (after cursor log))) as [m|] eqn:El.
  2:{ apply last_None in El. apply (f_equal length) in El. rewrite length_take in El. simpl in El. lia. }
  unfold last_seq. rewrite El. simpl. apply last_Some in El as [a Ea].
  rewrite <- (take_drop k (after cursor log)) at 1. f_equal.
  pose proof (take_drop k (after cursor log)) as Es. rewrite Ea, <- app_assoc in Es. simpl in Es.
  assert (m ∈ after cursor log) as Hm by (rewrite <- Es; set_solver).
  destruct (increasing_seq_of 0 _ m Hi Hm) as [Eq _]. rewrite Eq. simpl.
  apply list_elem_of_In, filter_In in Hm as [_ Hm]. apply Z.ltb_lt in Hm.
  rewrite <- (after_after cursor (seq_of m)) by lia.
  pose proof (after_split 0 a m (drop k (after cursor log))) as Sp. rewrite Es in Sp.
  by rewrite Sp.
Qed.

Lemma page_of_clone l cursor limit :
  let p := page_of l cursor limit in let p' := page_of (clone_message <$> l) cursor limit in
  truncated p = truncated p' /\ nextCursor p = nextCursor p' /\ clone_message <$> page p = page p'.
Proof.
  unfold page_of. cbn [truncated nextCursor page]. rewrite length_fmap. split; [done|].
  case_match; rewrite <- ?fmap_take, last_seq_clone; done.
Qed.

Lemma replay_log fuel sid cursor limit log st :
  wf st -> refines sid log st -> drained sid st = true -> (length (after cursor log) < fuel)%nat ->
  exists l, replay fuel sid cursor limit st = Some l /\ clone_message <$> l = after cursor log.
Proof.
  revert cursor st. induction fuel as [|fuel IH]; intros cursor st Hwf H Hd Hf; [lia|].
  cbn [replay]. unfold listEventsAfterLimited, listEventsAfter.
  pose proof (listEvents_fst sid st) as E. destruct (listEvents_refines sid log st Hwf H Hd) as [H1 H2].
  pose proof (wf_listEvents sid st Hwf) as Hwf1.
  destruct (listEvents sid st) as [tl st1]. cbn [fst snd] in *. subst tl.
  pose proof (timeline_log sid log st H Hd) as T.
  fold (after cursor (timeline sid st)).
  pose proof (page_of_clone (after cursor (timeline sid st)) cursor limit) as (C1 & C2 & C3).
  rewrite after_clone, T in *.
  pose proof (page_of_spec log cursor limit (proj1 (rf_log _ _ _ H))) as Sp. cbv zeta in Sp.
  rewrite C1. destruct (truncated (page_of (after cursor log) cursor limit)).
  - destruct Sp as [S1 S2]. destruct (IH (nextCursor (page_of (after cursor log) cursor limit)) st1) as (l & El & Ec); try done.
    + rewrite S2, length_app in Hf. lia.
    + rewrite C2, El. cbn [mbind option_bind]. eexists. split; [done|]. rewrite fmap_app, C3, Ec. by rewrite <- S2.
  - eexists. split; [done|]. by rewrite C3.
Qed.

(** C6: paged replay is complete and terminates: after any history that is
    [tame] for the session (no failed event write, the session not deleted, no
    restart over pending writes, numbers below 2^53, pending events covered by
    the cache), from any cursor and with any page limit, a client that follows
    [nextCursor] until a page is not truncated receives exactly the events after
    its cursor, once each and in order, in at most as many requests as there are
    events, plus one. *)
Theorem replay_complete sid os now a cursor limit :
  sid <> "" -> tame sid os [] (fresh now a) = true ->
  let log := abs_run sid os [] in
  exists l, replay (S (length log)) sid cursor limit (run os (fresh now a)) = Some l /\
    clone_message <$> l = after cursor log.
Proof.
  intros Hs Ht log. destruct (run_fresh_refines sid os now a Hs Ht) as (Hwf & H & Hd).
  apply replay_log; [done..|]. apply le_n_S. unfold after. apply List.filter_length_le.
Qed.

Lemma replay_complete_witness :
  let os := map (fun t => AppendEvent (event "s" t)) ["a"; "b"; "c"; "d"; "e"] in
  tame "s" os [] (fresh 0 fs_good) = true /\
  exists l, replay 6 "s" 1 2 (run os (fresh 0 fs_good)) = Some l /\
    clone_message <$> l = after 1 (abs_run "s" os []).
Proof.
  split; [reflexivity|].
  apply (replay_complete "s" (map (fun t => AppendEvent (event "s" t)) ["a"; "b"; "c"; "d"; "e"])
    0 fs_good 1 2); [discriminate|reflexivity].
Defined.

(** ** Deletion of the session itself *)

(** The operations keep the session deleted and do not delete it again. *)
Fixpoint stays_deleted (sid : string) (os : list op) (st : GatewayStore) : bool :=
  shas sid (deletedSessions st) &&
  match os with
  | [] => true
  | o :: os' =>
      match o with DeleteSession s => s !== sid | _ => true end && stays_deleted sid os' (exec o st)
  end.

Definition is_append (t : task) : Prop := exists l, t_action t = Append l.

(** The file is gone, or its removal is queued behind the last write. *)
Definition doomed (sid : string) (st : GatewayStore) : Prop :=
  let T := tasks_of (event_path sid) (tasks st) in
  (T = [] /\ mget (event_path sid) (event_files st) = None) \/
  exists ws r, T = ws ++ [r] /\ Forall is_append ws /\ t_action r = Remove /\ linked T.

Lemma doomed_transfer sid st st' :
  doomed sid st ->
  tasks_of (event_path sid) (tasks st') = tasks_of (event_path sid) (tasks st) ->
  mget (event_path sid) (event_files st') = mget (event_path sid) (event_files st) -> doomed sid st'.
Proof. unfold doomed. intros H E1 E2. cbv zeta in *. by rewrite E1, E2. Qed.

Lemma doomed_same_log sid st st' : same_log st st' -> doomed sid st -> doomed sid st'.
Proof. intros (_ & E1 & _ & E2 & _) H. eapply doomed_transfer; [exact H|by rewrite E1|by rewrite E2]. Qed.

Lemma doomed_frames sid st st' : frames st st' -> doomed sid st -> doomed sid st'.
Proof. intros (c & l & ->) H. by eapply doomed_transfer. Qed.

Lemma doomed_settle sid i ok e st : doomed sid st -> doomed sid (settle i ok e st).
Proof.
  intros H. unfold settle. destruct (tasks st !! i) as [t|] eqn:Hi; [|done].
  destruct (ready _ t) eqn:Hr; [|done].
  destruct (decide (t_file t = event_path sid)) as [Hf|Hf].
  - destruct H as [[E _]|(ws & r & E & Hw & Hrm & Hl)].
    { exfalso. assert (t ∈ tasks_of (event_path sid) (tasks st)) as Hin; [|rewrite E in Hin; set_solver].
      apply list_elem_of_In, filter_In. split; [by eapply list_elem_of_In, list_elem_of_lookup_2|].
      by rewrite Hf, String.eqb_refl. }
    destruct (ready_is_head _ _ _ _ Hi Hf Hl Hr) as [Hn Hh].
    assert (tasks_of (event_path sid) (take i (tasks st) ++ drop (S i) (tasks st)) =
      tasks_of (event_path sid) (drop (S i) (tasks st))) as Er.
    { unfold tasks_of in *. by rewrite List.filter_app, Hn. }
    rewrite Hh in E, Hl. destruct ws as [|w ws].
    + injection E as -> E. left. unfold perform, removeFile. rewrite Hrm. simpl.
      rewrite Er, Hf, mget_mdelete_eq. done.
    + injection E as -> E. apply Forall_cons in Hw as [[l Hwa] Hw].
      right. exists ws, r. unfold perform. rewrite Hwa. cbv zeta. apply linked_tail in Hl.
      destruct ok; case_decide; simpl; rewrite Er; rewrite E in *; done.
  - assert (event_path sid <> t_file t) as Hf' by congruence.
    eapply doomed_transfer; [exact H|..]; unfold perform, removeFile, append_line;
      destruct (t_action t), ok; try case_decide; simpl;
      rewrite ?mget_mset_ne, ?mget_mdelete_ne by done; try done; by apply (tasks_of_other _ _ _ t).
Qed.

Lemma appendEvent_deleted sid m st :
  m_sessionId m = Some sid -> sid ∈ deletedSessions st -> appendEvent m st = (Dropped, st).
Proof.
  intros Em Hd. unfold appendEvent. rewrite Em, (proj2 (shas_true _ _) Hd), orb_true_r. done.
Qed.

Lemma doomed_append sid m st :
  sid ∈ deletedSessions st -> doomed sid st -> doomed sid (appendEvent m st).2.
Proof.
  intros Hd H. destruct (m_sessionId m) as [sid'|] eqn:Em.
  2:{ unfold appendEvent. by rewrite Em. }
  destruct (decide (sid' = sid)) as [->|Hne]; [by rewrite (appendEvent_deleted sid)|].
  assert (event_path sid' <> event_path sid) as Hp by (by intros ?%event_path_inj).
  unfold appendEvent. rewrite Em. case_match; [done|].
  pose proof (doomed_frames sid _ _ (frames_latest_seq sid' st) H) as Ha.
  destruct (latest_seq sid' st) as [q st1]. cbn [snd] in *. case_match; [|done].
  pose proof (doomed_frames sid _ _ (frames_getCachedEvents sid' st1) Ha) as Hb.
  destruct (getCachedEvents sid' st1) as [c st2]. cbn [snd] in *.
  eapply doomed_transfer; [exact Hb| |done]. simpl. rewrite tasks_of_snoc. simpl.
  by rewrite (proj2 (String.eqb_neq _ _) Hp), app_nil_r.
Qed.

Lemma doomed_delete_other sid sid' st :
  sid' <> sid -> doomed sid st -> doomed sid (deleteSession sid' st).2.
Proof.
  intros Hne H. assert (event_path sid' <> event_path sid) as Hp by (by intros ?%event_path_inj).
  assert (doomed sid (with_deletedSessions (sadd sid' (deletedSessions st)) st)) as H1 by done.
  apply (doomed_same_log _ _ _ (same_log_forget_session sid' st)) in H1.
  eapply doomed_transfer; [exact H1|..]; simpl; unfold remove_events, removeFile; case_match; simpl;
    rewrite ?tasks_of_snoc, ?mget_mdelete_ne by done; simpl;
    rewrite ?(proj2 (String.eqb_neq _ _) Hp), ?app_nil_r; done.
Qed.

Lemma doomed_exec sid o st :
  sid ∈ deletedSessions st -> sid ∈ deletedSessions (exec o st) ->
  match o with DeleteSession s => s !== sid | _ => true end = true ->
  doomed sid st -> doomed sid (exec o st).
Proof.
  intros Hd Hd' Ho H. destruct o;
    try (eapply doomed_same_log; [by apply same_log_ledgers|exact H]); cbn [exec] in *;
    try (eapply doomed_same_log; [|exact H];
         first [apply same_log_saveSession | apply same_log_upsertSessions | apply same_log_updateSession
               | apply same_log_linkSubagent]).
  - by apply doomed_append.
  - by eapply doomed_frames; [apply frames_listEvents|].
  - by eapply doomed_frames; [apply frames_latestCursors|].
  - apply negb_true_iff, String.eqb_neq in Ho. by apply doomed_delete_other.
  - by apply doomed_settle.
  - exfalso. revert Hd'. unfold restart, constructor.
    destruct (readJson _ _ _), (readJson _ _ _), (readJson _ _ _). simpl. set_solver.
Qed.

Lemma doomed_run sid os st :
  stays_deleted sid os st = true -> doomed sid st ->
  doomed sid (run os st) /\ sid ∈ deletedSessions (run os st).
Proof.
  revert st. induction os as [|o os IH]; intros st Hs H; simpl in Hs;
    apply andb_true_iff in Hs as [Hd%shas_true Hs]; [done|].
  apply andb_true_iff in Hs as [Ho Hs]. simpl. apply IH; [done|]. apply doomed_exec; try done.
  destruct os; simpl in Hs; apply andb_true_iff in Hs as [Hs%shas_true _]; done.
Qed.

Lemma delete_doomed sid log st : refines sid log st -> doomed sid (deleteSession sid st).2.
Proof.
  intros [_ _ _ (D & P & _ & _ & Hp) Hl Hch _ _ _].
  destruct (same_log_forget_session sid st) as (_ & E1 & E2 & E3 & E4 & _). simpl in E1, E2, E3, E4.
  unfold doomed. simpl. unfold remove_events. rewrite E4, Hch.
  destruct (last (tasks_of _ _)) as [t|] eqn:Et; simpl.
  - right. rewrite E1, tasks_of_snoc. simpl. rewrite String.eqb_refl.
    eexists _, _. split_and!; [done| |done|apply linked_snoc; [done|by rewrite Et]].
    clear -Hp. induction Hp; constructor; [by eexists|done].
  - left. apply last_None in Et. rewrite E1. split; [done|]. apply mget_mdelete_eq.
Qed.

(** deleting a session erases its events even while writes are pending:
    on every continuation that does not save the session again, whatever order
    the pending writes settle in and whether or not they succeed, once none is
    pending the event file does not exist; and an event of the session that
    arrives late is dropped without any effect. *)
Theorem deletion_erases_events sid os now a os' m :
  sid <> "" -> tame sid os [] (fresh now a) = true ->
  let st := (deleteSession sid (run os (fresh now a))).2 in
  stays_deleted sid os' st = true ->
  (tasks_of (event_path sid) (tasks (run os' st)) = [] -> hasEvents sid (run os' st) = false) /\
  (m_sessionId m = Some sid -> appendEvent m (run os' st) = (Dropped, run os' st)).
Proof.
  intros Hs Ht st Hd. destruct (run_fresh_refines sid os now a Hs Ht) as (_ & H & _).
  apply delete_doomed in H. fold st in H. destruct (doomed_run sid os' st Hd H) as [H1 H2]. split.
  - intros E. destruct H1 as [[_ F]|(ws & r & F & _)]; [by apply mhas_false|].
    rewrite E in F. by destruct ws.
  - intros Em. by apply (appendEvent_deleted sid).
Qed.

Lemma deletion_erases_events_witness :
  let os := [SaveSession (sample "s" running); AppendEvent (event "s" "a"); Settle 0 true "";
             AppendEvent (event "s" "b")] in
  let st := (deleteSession "s" (run os (fresh 0 fs_good))).2 in
  let os' := [AppendEvent (event "s" "late"); Settle 0 true ""; Settle 0 true ""] in
  (stays_deleted "s" os' st = true /\ tasks_of (event_path "s") (tasks (run os' st)) = []) /\
  hasEvents "s" (run os' st) = false.
Proof.
  split; [split; reflexivity|].
  apply (deletion_erases_events "s" [SaveSession (sample "s" running); AppendEvent (event "s" "a");
    Settle 0 true ""; AppendEvent (event "s" "b")] 0 fs_good
    [AppendEvent (event "s" "late"); Settle 0 true ""; Settle 0 true ""] (event "s" "later"));
    try discriminate; reflexivity.
Defined.

(** ** An evicted session with pending writes *)

(** The numbers given to the appends of a session, in order. *)
Fixpoint appended_seqs (sid : string) (os : list op) (st : GatewayStore) : list Z :=
  match os with
  | [] => []
  | o :: os' =>
      match o with
      | AppendEvent m =>
          match (appendEvent m st).1 with
          | Appended m' => if opt_str_eqb (m_sessionId m) (Some sid) then [seq_of m'] else []
          | _ => []
          end
      | _ => []
      end ++ appended_seqs sid os' (exec o st)
  end.

Fixpoint xs (n : nat) : string := match n with 0%nat => "" | S n => "x" ^^ xs n end.

(** One event on disk, one still pending, 64 other sessions appended to, then a
    read and a third event. *)
Definition eviction_run : list op :=
  [AppendEvent (event "s" "a"); Settle 0 true ""; AppendEvent (event "s" "b")]
  ++ map (fun n => AppendEvent (event (xs (S n)) "x")) (seq 0 64)
  ++ [ListEvents "s"; AppendEvent (event "s" "c")].

(** When 64 other sessions evict a session whose last write has not
    reached its file, reading it takes the file for the complete timeline and
    resets its counter: the next event gets the number of the pending one, so
    the per-session numbers are not monotonic. *)
Theorem eviction_repeats_sequence :
  appended_seqs "s" eviction_run (fresh 0 fs_good) = [1; 2; 2] /\
  map (m_eventSeq) (listEvents "s" (run eviction_run (fresh 0 fs_good))).1 = [Some 1; Some 2].
Proof. split; vm_compute; reflexivity. Qed.
