(* ===== verification/Auth.v ===== *)
(** * Authentication

    server/src/auth.ts and the authentication part of server/src/index.ts: the
    login rate limiter, login sessions and their file, token extraction, the
    two login handlers, logout and the request guard ([preHandler]).

    HMAC-SHA256 with the session secret is the parameter [hmac]; tokens drawn
    by [nanoid] and the clock are arguments. *)

From Stdlib Require Import Ascii.
From S2P Require Import Prelude JsValue JsDate.

Local Open Scope Z_scope.

(** ** Data *)

(** Session of a logged-in administrator. *)
Record Session := { tokenHash : string; expiresAt : Z; createdAt : Z }.

Record Attempt := { startedAt : Z; failures : Z }.

(** The settings of config.ts the module reads. *)
Record AuthConfig := {
  adminToken : string;
  gatewayAuthToken : string;
  gatewayAuthUsername : string;
  gatewayAuthPassword : string;
  sessionTtlHours : Z;
  production : bool;
  allowQueryTokenEnv : bool
}.

(** [sessions], [loginAttempts], the session file and whether it is writable. *)
Record AuthState := mkAuth {
  sessions : jmap string Session;
  loginAttempts : jmap string Attempt;
  auth_file : option (list val);
  auth_file_writable : bool
}.

Definition with_sessions v (r : AuthState) := mkAuth v (loginAttempts r) (auth_file r) (auth_file_writable r).
Definition with_loginAttempts v (r : AuthState) := mkAuth (sessions r) v (auth_file r) (auth_file_writable r).
Definition with_auth_file v (r : AuthState) := mkAuth (sessions r) (loginAttempts r) v (auth_file_writable r).

Definition loginWindowMs : Z := 60000.
Definition maxLoginFailures : Z := 8.
Definition maxAuthSessions : nat := Z.to_nat 10000.

(** ** The login rate limiter *)

Definition allowLoginAttempt (now : Z) (ip : string) (st : AuthState) : bool * AuthState :=
  match mget ip (loginAttempts st) with
  | Some attempt =>
      if loginWindowMs <=? now - startedAt attempt
      then (true, with_loginAttempts (mset ip {| startedAt := now; failures := 0 |} (loginAttempts st)) st)
      else (failures attempt <? maxLoginFailures, st)
  | None => (true, with_loginAttempts (mset ip {| startedAt := now; failures := 0 |} (loginAttempts st)) st)
  end.

(** The pruning loop over the entries not yet visited, [kept] those before. *)
Fixpoint prune_attempts (now : Z) (kept rest : jmap string Attempt) : jmap string Attempt :=
  match rest with
  | [] => kept
  | (k, a) :: rest' =>
      let kept' := if loginWindowMs <=? now - startedAt a then kept else kept ++ [(k, a)] in
      if (length (kept' ++ rest') <=? Z.to_nat 5000)%nat then kept' ++ rest'
      else prune_attempts now kept' rest'
  end.

Definition recordLoginFailure (now : Z) (ip : string) (st : AuthState) : AuthState :=
  let fresh := {| startedAt := now; failures := 1 |} in
  let m := match mget ip (loginAttempts st) with
           | Some attempt =>
               if loginWindowMs <=? now - startedAt attempt then mset ip fresh (loginAttempts st)
               else mset ip {| startedAt := startedAt attempt; failures := failures attempt + 1 |}
                      (loginAttempts st)
           | None => mset ip fresh (loginAttempts st)
           end in
  with_loginAttempts (if (Z.to_nat 10000 <? length m)%nat then prune_attempts now [] m else m) st.

Definition clearLoginFailures (ip : string) (st : AuthState) : AuthState :=
  with_loginAttempts (mdelete ip (loginAttempts st)) st.

(** ** Login sessions *)

(** Equality of the two buffers, compared in constant time. *)
Definition safeEqual (a b : string) : bool := a === b.

(** [while (sessions.size > maxAuthSessions)] evicts the oldest. *)
Definition pruneSessions (now : Z) (m : jmap string Session) : jmap string Session :=
  mshrink maxAuthSessions (mfilter (fun _ s => now <? expiresAt s) m).

Definition session_json (s : Session) : val :=
  VObj [("tokenHash", VStr (tokenHash s)); ("expiresAt", vint (expiresAt s)); ("createdAt", vint (createdAt s))].

Definition persistSessions (st : AuthState) : AuthState :=
  if auth_file_writable st
  then with_auth_file (Some (map (fun e => session_json e.2) (sessions st))) st else st.

(** One array element of the file; times are integers. *)
Definition load_item (now : Z) (acc : jmap string Session) (item : val) : jmap string Session :=
  match prop "tokenHash" item, prop "createdAt" item, prop "expiresAt" item with
  | VStr h, VNum (NInt c), VNum (NInt e) =>
      if now <? e then mset h {| tokenHash := h; createdAt := c; expiresAt := e |} acc else acc
  | _, _, _ => acc
  end.

(** Start-up: a missing or corrupt file is [None]. *)
Definition loadSessions (now : Z) (file : option (list val)) (writable : bool) : AuthState :=
  match file with
  | Some items => mkAuth (pruneSessions now (foldl (load_item now) [] items)) [] file writable
  | None => mkAuth [] [] file writable
  end.


Section crypto.
Context (hmac : string -> string) (config : AuthConfig).

Definition verifyAdminToken (token : string) : bool := safeEqual (hmac token) (hmac (adminToken config)).

(** [token] is the [nanoid(48)] drawn. *)
Definition createSession (now : Z) (token : string) (st : AuthState) : (string * string) * AuthState :=
  let m := pruneSessions now (sessions st) in
  let m := if (maxAuthSessions <=? length m)%nat
           then match m with [] => [] | (oldest, _) :: _ => mdelete oldest m end else m in
  let hash := hmac token in
  let session := {| tokenHash := hash; createdAt := now;
                    expiresAt := now + sessionTtlHours config * 60 * 60 * 1000 |} in
  ((token, toISOString (expiresAt session)), persistSessions (with_sessions (mset hash session m) st)).

Definition verifySession (now : Z) (token : option string) (st : AuthState) : bool * AuthState :=
  match token with
  | None => (false, st)
  | Some token =>
      if token === "" then (false, st)
      else if token === gatewayAuthToken config then (true, st)
      else match mget (hmac token) (sessions st) with
           | None => (false, st)
           | Some session =>
               if expiresAt session <? now
               then (false, persistSessions (with_sessions (mdelete (hmac token) (sessions st)) st))
               else (true, st)
           end
  end.

Definition revokeSession (token : option string) (st : AuthState) : bool * AuthState :=
  match token with
  | None => (false, st)
  | Some token =>
      if token === "" then (false, st)
      else
        let deleted := mhas (hmac token) (sessions st) in
        let st := with_sessions (mdelete (hmac token) (sessions st)) st in
        (deleted, if deleted then persistSessions st else st)
  end.

Definition validateGatewayLogin (username password : string) : bool :=
  safeEqual username (gatewayAuthUsername config) && safeEqual password (gatewayAuthPassword config).

(** ** Token extraction *)

Definition getBearerToken (header : option string) : option string :=
  match header with
  | None => None
  | Some h =>
      if h === "" then None
      else match split_char " "%char h with
           | scheme :: rest => if to_lower scheme === "bearer" then head rest else None
           | [] => None
           end
  end.

Definition getRequestToken (header : option string) (queryToken : val) : option string :=
  let allowQueryToken := negb (production config) || allowQueryTokenEnv config in
  match getBearerToken header with
  | Some t => Some t
  | None => if allowQueryToken then as_str queryToken else None
  end.

Definition protocol_token (raw : string) : option string :=
  let protocol := trim raw in
  if starts_with "codeharbor-v1." protocol then
    let token := trim (skip (slen "codeharbor-v1.") protocol) in
    if token === "" then None else Some token
  else None.

(** The header is the list of its values. *)
Definition getWebSocketProtocolToken (values : list string) : option string :=
  head (omap protocol_token (concat (map (split_char ","%char) values))).

(** ** Request guard *)

Definition isGatewayProtectedPath (url : string) : bool :=
  existsb (fun prefix => starts_with prefix url)
    ["/sessions"; "/filesystem"; "/files"; "/approval-rules"; "/diagnostics"; "/widget";
     "/importable-threads"; "/documents"].

Definition isLoopbackAddress (value : string) : bool :=
  (value === "127.0.0.1") || (value === "::1") || (value === "::ffff:127.0.0.1").

Record Request := {
  r_method : string; r_url : string; r_ip : string;
  r_authorization : option string; r_queryToken : val
}.

Definition public_request (r : Request) : bool :=
  (r_method r === "OPTIONS") || starts_with "/api/auth/login" (r_url r)
  || starts_with "/download/aCode-latest.apk" (r_url r) || (r_url r === "/healthz")
  || (r_url r === "/protocol") || starts_with "/auth/login" (r_url r)
  || ((r_url r === "/api/health") && isLoopbackAddress (r_ip r)).

(** [true] when the handler of the route runs, [false] for the 401 answer. *)
Definition preHandler (now : Z) (r : Request) (st : AuthState) : bool * AuthState :=
  if public_request r then (true, st)
  else if starts_with "/api/" (r_url r) || isGatewayProtectedPath (r_url r)
  then verifySession now (getRequestToken (r_authorization r) (r_queryToken r)) st
  else (true, st).

(** The guard of the [/ws] route: [queryTokens] are the values of [token]. *)
Definition ws_token (protocols : list string) (queryTokens : list string) : option string :=
  let legacyQueryToken :=
    if production config && negb (allowQueryTokenEnv config) then None
    else match queryTokens with [t] => Some t | _ => None end in
  match getWebSocketProtocolToken protocols with Some t => Some t | None => legacyQueryToken end.

(** ** The login handlers *)

Inductive login_answer :=
| RateLimited
| InvalidRequest
| Unauthorized
| LoggedIn (token : string).

(** [/auth/login]; the body is [None] when it fails the schema. *)
Definition gatewayLogin (now : Z) (ip : string) (body : option (string * string)) (st : AuthState)
    : login_answer * AuthState :=
  let '(ok, st) := allowLoginAttempt now ip st in
  if ok then
    match body with
    | None => (InvalidRequest, recordLoginFailure now ip st)
    | Some (username, password) =>
        if validateGatewayLogin username password
        then (LoggedIn (gatewayAuthToken config), clearLoginFailures ip st)
        else (Unauthorized, recordLoginFailure now ip st)
    end
  else (RateLimited, st).

(** [/api/auth/login]; [body] is the token when it fits the schema. *)
Definition adminLogin (now : Z) (ip : string) (body : option string) (nano : string) (st : AuthState)
    : login_answer * AuthState :=
  let '(ok, st) := allowLoginAttempt now ip st in
  if ok then
    if match body with Some token => verifyAdminToken token | None => false end
    then
      let st := clearLoginFailures ip st in
      let '((token, _), st) := createSession now nano st in
      (LoggedIn token, st)
    else (Unauthorized, recordLoginFailure now ip st)
  else (RateLimited, st).

Definition logout (header : option string) (queryToken : val) (st : AuthState) : AuthState :=
  (revokeSession (getRequestToken header queryToken) st).2.

(** ** Runs *)

Inductive auth_op :=
| GatewayLogin (now : Z) (ip : string) (body : option (string * string))
| AdminLogin (now : Z) (ip : string) (body : option string) (nano : string)
| Logout (token : option string)
| Verify (now : Z) (token : option string)
| AuthRestart (now : Z)
| AuthWritable (b : bool).

Definition auth_exec (o : auth_op) (st : AuthState) : option login_answer * AuthState :=
  match o with
  | GatewayLogin now ip body => let '(a, st) := gatewayLogin now ip body st in (Some a, st)
  | AdminLogin now ip body nano => let '(a, st) := adminLogin now ip body nano st in (Some a, st)
  | Logout token => (None, (revokeSession token st).2)
  | Verify now token => (None, (verifySession now token st).2)
  | AuthRestart now => (None, loadSessions now (auth_file st) (auth_file_writable st))
  | AuthWritable b => (None, mkAuth (sessions st) (loginAttempts st) (auth_file st) b)
  end.

Fixpoint auth_run (os : list auth_op) (st : AuthState) : AuthState :=
  match os with
  | [] => st
  | o :: os' => auth_run os' (auth_exec o st).2
  end.

(** ** Brute force *)

Definition op_ip (o : auth_op) : option (string * Z) :=
  match o with
  | GatewayLogin now ip _ | AdminLogin now ip _ _ => Some (ip, now)
  | _ => None
  end.

(** The credentials checked and refused for an address. *)
Fixpoint refused (ip : string) (os : list auth_op) (st : AuthState) : Z :=
  match os with
  | [] => 0
  | o :: os' =>
      let '(a, st') := auth_exec o st in
      match op_ip o, a with
      | Some (ip', _), Some (Unauthorized | InvalidRequest) => if ip' === ip then 1 else 0
      | _, _ => 0
      end + refused ip os' st'
  end.

(** No login from the address succeeds, logins happen between [t] and [t']. *)
Fixpoint guessing (ip : string) (t t' : Z) (os : list auth_op) (st : AuthState) : bool :=
  match os with
  | [] => true
  | o :: os' =>
      let '(a, st') := auth_exec o st in
      match op_ip o, a with
      | Some (ip', now), Some a =>
          (t <=? now) && (now <? t') &&
          match a with LoggedIn _ => ip' !== ip | _ => true end
      | _, _ => match o with AuthRestart _ => false | _ => true end
      end && guessing ip t t' os' st'
  end.






























(** ** Sessions *)

(** The tokens issued by a run with their expiry. *)
Fixpoint issued (os : list auth_op) (st : AuthState) : list (string * Z) :=
  match os with
  | [] => []
  | o :: os' =>
      let '(a, st') := auth_exec o st in
      match o, a with
      | AdminLogin now _ _ nano, Some (LoggedIn _) => [(nano, now + sessionTtlHours config * 60 * 60 * 1000)]
      | _, _ => []
      end ++ issued os' st'
  end.

(** Every stored session, in memory or on disk, stems from an issued token. *)
Definition stems (l : list (string * Z)) (h : string) (s : Session) : Prop :=
  exists token, (token, expiresAt s) ∈ l /\ h = hmac token.

Definition sound (l : list (string * Z)) (st : AuthState) : Prop :=
  Forall (fun e => stems l e.1 e.2) (sessions st) /\
  forall items, auth_file st = Some items ->
    Forall (fun v => exists s, v = session_json s /\ stems l (tokenHash s) s) items.

Lemma stems_mono l l' h s : l ⊆ l' -> stems l h s -> stems l' h s.
Proof. intros Hl (token & Hin & E). exists token. auto. Qed.

Lemma sound_mono l l' st : l ⊆ l' -> sound l st -> sound l' st.
Proof.
  intros Hl [H1 H2]. split; [eapply Forall_impl; [exact H1|]; intros; by eapply stems_mono|].
  intros items E. eapply Forall_impl; [by apply H2|]. intros v (s & -> & H). eauto using stems_mono.
Qed.

(** The key of a session is its hash. *)
Record wf_auth (st : AuthState) : Prop := {
  wa_nodup : NoDup (sessions st).*1;
  wa_hash : Forall (fun e => tokenHash e.2 = e.1) (sessions st)
}.

Lemma Forall_jmset {V} (P : string * V -> Prop) k v m : P (k, v) -> Forall P m -> Forall P (mset k v m).
Proof. intros Hp. induction 1 as [|[k' v'] m H Hm IH]; simpl; [by constructor|].
  case_decide; by constructor. Qed.

Lemma Forall_jmfilter {V} (P : string * V -> Prop) p m : Forall P m -> Forall P (mfilter p m).
Proof. unfold mfilter. induction 1 as [|[k' v'] m H Hm IH]; simpl; [constructor|].
  destruct (p k' v'); [by constructor|done]. Qed.

Lemma Forall_prune (P : string * Session -> Prop) now m : Forall P m -> Forall P (pruneSessions now m).
Proof. intros. unfold pruneSessions. rewrite mshrink_drop. by apply Forall_lastn, Forall_jmfilter. Qed.

Lemma prune_NoDup now m : NoDup m.*1 -> NoDup (pruneSessions now m).*1.
Proof. intros. unfold pruneSessions. auto with js. Qed.

Lemma sound_persist l st : wf_auth st -> sound l st -> sound l (persistSessions st).
Proof.
  intros [_ Hh] [H1 H2]. unfold persistSessions. case_match; [|done]. split; [done|]. simpl.
  intros items [= <-]. apply Forall_forall. intros v Hv.
  apply list_elem_of_In, List.in_map_iff in Hv as ([h s] & <- & Hin). apply list_elem_of_In in Hin.
  exists s. split; [done|]. rewrite Forall_forall in H1, Hh. specialize (H1 _ Hin). specialize (Hh _ Hin).
  simpl in *. by rewrite Hh.
Qed.

Lemma wf_persist st : wf_auth st -> wf_auth (persistSessions st).
Proof. intros [H1 H2]. unfold persistSessions. by case_match. Qed.

Lemma wf_auth_sessions m st :
  NoDup m.*1 -> Forall (fun e => tokenHash e.2 = e.1) m -> wf_auth (with_sessions m st).
Proof. by constructor. Qed.

Lemma sound_with_sessions l m st :
  Forall (fun e => stems l e.1 e.2) m -> sound l st -> sound l (with_sessions m st).
Proof. by intros H [_ H2]. Qed.

(** The sessions [createSession] keeps. *)
Definition make_room (now : Z) (m : jmap string Session) : jmap string Session :=
  let m := pruneSessions now m in
  if (maxAuthSessions <=? length m)%nat
  then match m with [] => [] | (oldest, _) :: _ => mdelete oldest m end else m.

Lemma make_room_sub (P : string * Session -> Prop) now m : Forall P m -> Forall P (make_room now m).
Proof.
  intros H%(Forall_prune P now). unfold make_room. repeat (case_match; try done).
  rewrite mdelete_mfilter. by apply Forall_jmfilter.
Qed.

Lemma make_room_NoDup now m : NoDup m.*1 -> NoDup (make_room now m).*1.
Proof.
  intros H%(prune_NoDup now). unfold make_room. repeat (case_match; try done).
  rewrite mdelete_mfilter. by apply mfilter_NoDup.
Qed.

Lemma make_room_length now m : (length (make_room now m) < maxAuthSessions)%nat.
Proof.
  unfold make_room. pose proof (mshrink_length maxAuthSessions
    (mfilter (fun (_ : string) s => now <? expiresAt s) m)) as H. fold (pruneSessions now m) in H.
  assert (0 < maxAuthSessions)%nat by (unfold maxAuthSessions; lia).
  destruct (Nat.leb_spec maxAuthSessions (length (pruneSessions now m))); [|done].
  destruct (pruneSessions now m) as [|[k v] m'] eqn:E; [simpl; lia|].
  cbn [mdelete]. rewrite decide_True by done. pose proof (mdelete_length k m'). simpl in *. lia.
Qed.

Lemma createSession_eq now token st :
  (createSession now token st).2 =
  persistSessions (with_sessions (mset (hmac token)
    {| tokenHash := hmac token; createdAt := now;
       expiresAt := now + sessionTtlHours config * 60 * 60 * 1000 |} (make_room now (sessions st))) st).
Proof. done. Qed.

Lemma wf_createSession now token st : wf_auth st -> wf_auth (createSession now token st).2.
Proof.
  intros [H1 H2]. rewrite createSession_eq. apply wf_persist, wf_auth_sessions.
  - by apply mset_NoDup, make_room_NoDup.
  - apply Forall_jmset; [done|]. by apply make_room_sub.
Qed.

Lemma sound_createSession l now token st :
  wf_auth st -> sound l st ->
  sound (l ++ [(token, now + sessionTtlHours config * 60 * 60 * 1000)]) (createSession now token st).2.
Proof.
  intros Hwf H. pose proof (wf_createSession now token st Hwf) as W. rewrite createSession_eq in *.
  apply (sound_mono l (l ++ [(token, now + sessionTtlHours config * 60 * 60 * 1000)])) in H; [|set_solver].
  apply sound_persist; [|apply sound_with_sessions; [|done]].
  - destruct Hwf. constructor; simpl; [by apply mset_NoDup, make_room_NoDup|].
    apply Forall_jmset; [done|]. by apply make_room_sub.
  - apply Forall_jmset; [exists token; simpl; set_solver|]. apply make_room_sub, H.
Qed.

Lemma load_item_json now acc s :
  load_item now acc (session_json s) = if now <? expiresAt s then mset (tokenHash s) s acc else acc.
Proof. by destruct s. Qed.

Lemma load_sound l now items :
  Forall (fun v => exists s, v = session_json s /\ stems l (tokenHash s) s) items ->
  let m := foldl (load_item now) [] items in
  Forall (fun e => stems l e.1 e.2) m /\ NoDup m.*1 /\ Forall (fun e => tokenHash e.2 = e.1) m.
Proof.
  intros H. generalize (@Forall_nil_2 _ (fun e : string * Session => stems l e.1 e.2)).
  generalize (@Forall_nil_2 _ (fun e : string * Session => tokenHash e.2 = e.1)).
  generalize (NoDup_nil_2 (A := string)).
  change (@nil string) with ((@nil (string * Session)).*1).
  generalize (@nil (string * Session)).
  induction H as [|v items (s & -> & Hs) _ IH]; intros acc Ha Hb Hc; simpl; [done|].
  rewrite load_item_json. destruct (now <? expiresAt s); [|by apply IH].
  apply IH; [by apply mset_NoDup|by apply Forall_jmset|]. apply Forall_jmset; [|done].
  done.
Qed.

Lemma sound_step l o st :
  wf_auth st -> sound l st ->
  wf_auth (auth_exec o st).2 /\ sound (l ++ issued [o] st) (auth_exec o st).2.
Proof.
  intros Hwf H. assert (sound (l ++ issued [o] st) st) as H' by (eapply sound_mono; [|exact H]; set_solver).
  assert (forall m a, (sessions m = sessions st /\ auth_file m = auth_file st) ->
    wf_auth m /\ sound (l ++ a) m) as Hsame.
  { intros m a [E1 E2]. destruct Hwf, H. split; [constructor; by rewrite E1|].
    eapply sound_mono; [|split; [rewrite E1|rewrite E2]; done]. set_solver. }
  assert (forall ip now, sessions (allowLoginAttempt now ip st).2 = sessions st /\
    auth_file (allowLoginAttempt now ip st).2 = auth_file st) as Hal.
  { intros ip now. unfold allowLoginAttempt. by repeat case_match. }
  destruct o as [now ip body|now ip body nano|tok|now tok|now|b]; cbn [auth_exec].
  - generalize (issued [GatewayLogin now ip body] st). intros extra. unfold gatewayLogin.
    specialize (Hal ip now). destruct (allowLoginAttempt now ip st) as [[] st1];
      [|by apply Hsame]. destruct body as [[u p]|]; [|by apply Hsame].
    by destruct (validateGatewayLogin u p); apply Hsame.
  - simpl. unfold adminLogin. specialize (Hal ip now).
    destruct (allowLoginAttempt now ip st) as [ok st1]. simpl in Hal.
    destruct ok; [|by apply Hsame].
    destruct (match body with Some token => verifyAdminToken token | None => false end); [|by apply Hsame].
    destruct (Hsame (clearLoginFailures ip st1) [] Hal) as [W S]. rewrite app_nil_r in S.
    split; [by apply wf_createSession|by apply sound_createSession].
  - simpl. rewrite app_nil_r. unfold revokeSession. destruct tok as [tok|]; [|done]. case_match; [done|].
    assert (wf_auth (with_sessions (mdelete (hmac tok) (sessions st)) st)) as W.
    { destruct Hwf. rewrite mdelete_mfilter. apply wf_auth_sessions; [by apply mfilter_NoDup|by apply Forall_jmfilter]. }
    assert (sound l (with_sessions (mdelete (hmac tok) (sessions st)) st)) as S.
    { apply sound_with_sessions; [|done]. rewrite mdelete_mfilter. by apply Forall_jmfilter, H. }
    simpl. case_match; [|done]. split; [by apply wf_persist|by apply sound_persist].
  - simpl. rewrite app_nil_r. unfold verifySession. destruct tok as [tok|]; [|done].
    repeat (case_match; try done). simpl.
    assert (wf_auth (with_sessions (mdelete (hmac tok) (sessions st)) st)) as W.
    { destruct Hwf. rewrite mdelete_mfilter. apply wf_auth_sessions; [by apply mfilter_NoDup|by apply Forall_jmfilter]. }
    split; [by apply wf_persist|]. apply sound_persist; [done|].
    apply sound_with_sessions; [|done]. rewrite mdelete_mfilter. by apply Forall_jmfilter, H.
  - simpl. rewrite app_nil_r. unfold loadSessions. destruct (auth_file st) as [items|] eqn:E.
    + destruct H as [_ H]. destruct (load_sound l now items (H _ E)) as (L1 & L2 & L3).
      split; [constructor; simpl; [by apply prune_NoDup|by apply Forall_prune]|].
      split; simpl; [by apply Forall_prune|]. intros x [= <-]. by apply H.
    + split; [by constructor; [constructor|constructor]|]. by split; [constructor|].
  - simpl. rewrite app_nil_r. destruct (Hsame (mkAuth (sessions st) (loginAttempts st) (auth_file st) b) [])
      as [W S]; [done|]. by rewrite app_nil_r in S.
Qed.

Lemma sound_run os l st :
  wf_auth st -> sound l st -> wf_auth (auth_run os st) /\ sound (l ++ issued os st) (auth_run os st).
Proof.
  revert l st. induction os as [|o os IH]; intros l st Hwf H; simpl; [by rewrite app_nil_r|].
  destruct (sound_step l o st Hwf H) as [W S]. destruct (IH _ _ W S) as [W' S'].
  split; [done|]. eapply sound_mono; [|exact S']. simpl.
  destruct (auth_exec o st) as [a st']. rewrite app_nil_r. simpl. set_solver.
Qed.

(** HMAC collisions do not occur. *)
Definition collision_free : Prop := forall a b, hmac a = hmac b -> a = b.

(** C13: a token opens the gateway only if it is the configured gateway token or
    was issued by a successful admin login and has not expired, after any
    sequence of logins, logouts, checks, restarts and failed writes. *)
Theorem session_soundness now0 w os now token :
  collision_free ->
  let st0 := loadSessions now0 None w in
  (verifySession now (Some token) (auth_run os st0)).1 = true ->
  token = gatewayAuthToken config \/ exists expiry, (token, expiry) ∈ issued os st0 /\ now <= expiry.
Proof.
  intros hmac_inj st0 H. unfold verifySession in H.
  destruct (String.eqb_spec token ""); [done|].
  destruct (String.eqb_spec token (gatewayAuthToken config)); [by left|right].
  destruct (mget (hmac token) _) as [s|] eqn:E; [|done].
  destruct (Z.ltb_spec (expiresAt s) now) as [|Hle]; [done|].
  destruct (sound_run os [] st0) as [_ [S _]].
  { by constructor; constructor. }
  { by split; [constructor|]. }
  apply mget_Some_elem in E. rewrite Forall_forall in S. destruct (S _ E) as (tok & Hin & Eh).
  simpl in *. apply hmac_inj in Eh. subst tok. eauto.
Qed.

(** *** An issued token is accepted, also after a restart *)

Lemma load_map now m acc :
  NoDup (acc ++ m).*1 -> Forall (fun e => tokenHash e.2 = e.1) m ->
  foldl (load_item now) acc (map (fun e => session_json e.2) m) =
  acc ++ mfilter (fun _ s => now <? expiresAt s) m.
Proof.
  revert acc. induction m as [|[h s] m IH]; intros acc Hn Hf; simpl; [by rewrite app_nil_r|].
  apply Forall_cons in Hf as [Hh Hf]. simpl in Hh. rewrite load_item_json, Hh.
  unfold mfilter. simpl. destruct (now <? expiresAt s); simpl.
  - rewrite mset_absent.
    + rewrite IH; [by rewrite <- app_assoc| |done]. by rewrite <- app_assoc.
    + apply mget_None_keys. rewrite fmap_app in Hn. csimpl in Hn.
      apply NoDup_app in Hn as (_ & Hd & _). intros Hin. apply (Hd h Hin). set_solver.
  - apply IH; [|done]. rewrite fmap_app in *. csimpl in *.
    apply NoDup_app in Hn as (N1 & N2 & N3). apply NoDup_cons in N3 as [_ N3].
    apply NoDup_app. split_and!; [done| |done]. intros x Hx. specialize (N2 x Hx). set_solver.
Qed.

Lemma mfilter_idem now (m : jmap string Session) :
  mfilter (fun _ s => now <? expiresAt s) (mfilter (fun _ s => now <? expiresAt s) m) =
  mfilter (fun _ s => now <? expiresAt s) m.
Proof. unfold mfilter. induction m as [|e m IH]; simpl; [done|].
  destruct (now <? expiresAt e.2) eqn:E; simpl; [rewrite E; by f_equal|done]. Qed.

(** the token of an admin login is accepted until it expires, by the
    running process and, when the session file could be written, by a process
    started later; after log-out the running process refuses it. *)
Theorem issued_token_accepted now0 w os now now' token :
  let st := auth_run os (loadSessions now0 None w) in
  token <> "" -> token <> gatewayAuthToken config ->
  now' < now + sessionTtlHours config * 60 * 60 * 1000 ->
  let st' := (createSession now token st).2 in
  (verifySession now' (Some token) st').1 = true /\
  (auth_file_writable st = true ->
   (verifySession now' (Some token) (loadSessions now' (auth_file st') true)).1 = true) /\
  (verifySession now' (Some token) (revokeSession (Some token) st').2).1 = false.
Proof.
  intros st Hne Hng Ht st'.
  destruct (sound_run os [] (loadSessions now0 None w)) as [[W1 W2] _].
  { by constructor; constructor. }
  { by split; [constructor|]. }
  fold st in W1, W2. set (s := {| tokenHash := hmac token; createdAt := now;
       expiresAt := now + sessionTtlHours config * 60 * 60 * 1000 |}).
  assert (forall st0, mget (hmac token) (sessions st0) = Some s ->
    (verifySession now' (Some token) st0).1 = true) as Hv.
  { intros st0 E. unfold verifySession.
    rewrite (proj2 (String.eqb_neq _ _) Hne), (proj2 (String.eqb_neq _ _) Hng), E. simpl.
    by rewrite (proj2 (Z.ltb_ge _ _)) by lia. }
  assert (sessions st' = mset (hmac token) s (make_room now (sessions st))) as Es.
  { subst st'. rewrite createSession_eq. unfold persistSessions. by case_match. }
  split_and!.
  - apply Hv. rewrite Es. apply mget_mset_eq.
  - intros Hw. apply Hv.
    assert (auth_file st' = Some (map (fun e => session_json e.2) (sessions st'))) as ->.
    { rewrite Es. subst st'. rewrite createSession_eq. unfold persistSessions. simpl. by rewrite Hw. }
    simpl. rewrite Es. rewrite load_map; [|simpl; by apply mset_NoDup, make_room_NoDup|
      apply Forall_jmset; [done|by apply make_room_sub]]. simpl.
    unfold pruneSessions. rewrite mfilter_idem, mshrink_drop, lastn_all.
    + rewrite mget_mfilter by (by apply mset_NoDup, make_room_NoDup). rewrite mget_mset_eq.
      by rewrite (proj2 (Z.ltb_lt _ _)) by (simpl; lia).
    + pose proof (make_room_length now (sessions st)) as L. unfold mfilter.
      etrans; [apply List.filter_length_le|]. rewrite mset_length. case_match; lia.
  - assert (mget (hmac token) (sessions (revokeSession (Some token) st').2) = None) as E.
    { unfold revokeSession. rewrite (proj2 (String.eqb_neq _ _) Hne). simpl.
      destruct (mhas _ _); [|apply mget_mdelete_eq]. unfold persistSessions. simpl.
      destruct (auth_file_writable st'); apply mget_mdelete_eq. }
    unfold verifySession. rewrite E.
    by rewrite (proj2 (String.eqb_neq _ _) Hne), (proj2 (String.eqb_neq _ _) Hng).
Qed.

(** ** Routes *)

(** The static prefixes of the routes of index.ts that serve data or act. *)
Definition private_routes : list string :=
  ["/api/relay/status"; "/api/relay/pair-code"; "/api/capabilities"; "/api/app/update";
   "/api/auth/logout"; "/api/threads"; "/sessions"; "/diagnostics"; "/api/widget";
   "/filesystem/list"; "/files/download"; "/importable-threads"; "/api/models"].

(** no handler of a private route runs for a request whose token is not
    accepted, for every continuation of the route's path and query. *)
Theorem private_routes_guarded now r route rest st :
  route ∈ private_routes -> r_url r = route ^^ rest -> r_method r <> "OPTIONS" ->
  (preHandler now r st).1 =
  (verifySession now (getRequestToken (r_authorization r) (r_queryToken r)) st).1.
Proof.
  intros Hr Hu Hm. unfold preHandler.
  assert (public_request r = false /\
    starts_with "/api/" (r_url r) || isGatewayProtectedPath (r_url r) = true) as [-> ->]; [|done].
  unfold public_request, isGatewayProtectedPath. rewrite (proj2 (String.eqb_neq _ _) Hm), Hu.
  unfold private_routes in Hr. repeat (apply elem_of_cons in Hr as [->|Hr]; [by split|]). set_solver.
Qed.
End crypto.

(** *** Concrete configurations *)

Definition demo_config : AuthConfig :=
  {| adminToken := "admin-token-0123456789"; gatewayAuthToken := "gw"; gatewayAuthUsername := "u";
     gatewayAuthPassword := "p"; sessionTtlHours := 720; production := true; allowQueryTokenEnv := false |}.
Definition demo_hmac (s : string) : string := "h" ^^ s.

(** A guess at the gateway password from one address. *)
Definition guess (now : Z) : auth_op := GatewayLogin now "ip" (Some ("u", "wrong")).


(** The window is fixed, not sliding: seven refusals before its end and eight
    after it fall into the same minute. *)
Lemma window_edge :
  let st := auth_run demo_hmac demo_config [guess 0] (loadSessions 0 None true) in
  let os := repeat (guess 59000) 9 ++ repeat (guess 61000) 9 in
  guessing demo_hmac demo_config "ip" 59000 (59000 + loginWindowMs) os st = true /\
  refused demo_hmac demo_config "ip" os st = 15.
Proof. by split; vm_compute. Qed.

Definition demo_ops : list auth_op :=
  [AdminLogin 1000 "ip" (Some "admin-token-0123456789") "tok"; AuthRestart 2000].

Lemma session_soundness_witness :
  (verifySession demo_hmac demo_config 3000 (Some "tok")
     (auth_run demo_hmac demo_config demo_ops (loadSessions 0 None true))).1 = true /\
  ("tok" = gatewayAuthToken demo_config \/
   exists expiry, ("tok", expiry) ∈ issued demo_hmac demo_config demo_ops (loadSessions 0 None true)
     /\ 3000 <= expiry).
Proof.
  split; [reflexivity|].
  apply (session_soundness demo_hmac demo_config 0 true demo_ops 3000 "tok"); [|reflexivity].
  exact (sapp_inj_l "h").
Defined.

Lemma issued_token_accepted_witness :
  let st := auth_run demo_hmac demo_config demo_ops (loadSessions 0 None true) in
  let st' := (createSession demo_hmac demo_config 4000 "tok2" st).2 in
  (verifySession demo_hmac demo_config 5000 (Some "tok2") st').1 = true /\
  (verifySession demo_hmac demo_config 5000 (Some "tok2") (loadSessions 5000 (auth_file st') true)).1 = true.
Proof.
  pose proof (issued_token_accepted demo_hmac demo_config 0 true demo_ops 4000 5000 "tok2") as H.
  destruct H as (H1 & H2 & _); [discriminate|discriminate|reflexivity|].
  split; [exact H1|apply H2; reflexivity].
Defined.

Lemma private_routes_guarded_witness :
  let r := {| r_method := "GET"; r_url := "/sessions/1/events?after=0"; r_ip := "10.0.0.1";
              r_authorization := Some "Bearer wrong"; r_queryToken := VUndef |} in
  (preHandler demo_hmac demo_config 0 r (loadSessions 0 None true)).1 =
  (verifySession demo_hmac demo_config 0
     (getRequestToken demo_config (r_authorization r) (r_queryToken r)) (loadSessions 0 None true)).1.
Proof.
  apply (private_routes_guarded demo_hmac demo_config 0 _ "/sessions" "/1/events?after=0");
    [apply (bool_decide_unpack _); vm_compute; exact I|reflexivity|discriminate].
Defined.
