(* ===== verification/CodexEvents.v ===== *)
(** * Codex events as gateway messages

    server/src/index.ts: the reading of Codex responses ([extractThreadId],
    [extractTurnId], [findActiveTurnId]), the bounding of payloads
    ([compactUnknown]), the translation of app-server notifications into
    gateway messages ([normalizeCodexEvent]) and of thread details into
    events. [now] is the clock of the current tick. *)

From S2P Require Import Prelude JsValue JsDate Json GatewayStore.

Local Open Scope Z_scope.

(** ** Reading dynamic values *)

(** [String(value)] *)
Fixpoint to_string (v : val) : string :=
  match v with
  | VUndef => "undefined"
  | VNull => "null"
  | VBool true => "true"
  | VBool false => "false"
  | VNum n => num_str n
  | VStr s => s
  | VArr l => join "," (map (fun x => match x with VUndef | VNull => "" | _ => to_string x end) l)
  | VObj _ => "[object Object]"
  end.

(** [typeof record.key === "string" ? record.key : undefined] *)
Definition str_prop (key : string) (v : val) : option string := as_str (prop key v).

(** [value && typeof value === "object" ? value : {}] *)
Definition as_record (v : val) : val := if is_object v then v else VObj [].

(** [a ?? b] on the results of such tests. *)
Definition first_str (a b : option string) : option string :=
  match a with Some _ => a | None => b end.

Definition extractThreadId (response : val) : option string :=
  if is_object response then
    let thread := prop "thread" response in
    match (if is_object thread then str_prop "id" thread else None) with
    | Some id => Some id
    | None => first_str (str_prop "threadId" response) (str_prop "id" response)
    end
  else None.

Definition extractTurnId (response : val) : option string :=
  if is_object response then
    let turn := prop "turn" response in
    match (if is_object turn then str_prop "id" turn else None) with
    | Some id => Some id
    | None => str_prop "turnId" response
    end
  else None.

Definition objectTypeField (value : val) : option string :=
  if is_object value then as_str (nullish (prop "type" value) (prop "status" value)) else None.

Definition active_turn_status (status : option string) : bool :=
  match status with
  | Some s => (s === "running") || (s === "inProgress") || (s === "active") || (s === "starting")
  | None => false
  end.

Definition active_turn (turn : val) : option string :=
  if is_object turn then
    match str_prop "id" turn with
    | Some id =>
        let status := match prop "status" turn with VStr s => Some s | v => objectTypeField v end in
        if active_turn_status status then Some id else None
    | None => None
    end
  else None.

(** The last turn of the thread that is active. *)
Definition findActiveTurnId (detail : val) : option string :=
  let thread := if is_object detail then prop "thread" detail else VNull in
  let turns := default [] (as_array (prop "turns" thread)) in
  head (omap active_turn (rev turns)).

Definition mapThreadStatus (status : string) : GatewaySessionStatus :=
  if (status === "running") || (status === "inProgress") || (status === "active") then running
  else if (status === "failed") || (status === "systemError") then failed
  else if (status === "interrupted") || (status === "cancelled") then cancelled
  else completed.

Definition normalizeThreadStatus (status : val) : GatewaySessionStatus :=
  match status with
  | VStr s => mapThreadStatus s
  | _ => match objectTypeField status with
         | Some type => mapThreadStatus type
         | None => running
         end
  end.

Definition status_str (s : GatewaySessionStatus) : string :=
  match s with
  | starting => "starting" | running => "running" | waiting_approval => "waiting-approval"
  | completed => "completed" | failed => "failed" | cancelled => "cancelled"
  end.

(** [status === "completed" || status === "failed" || status === "cancelled"] *)
Definition terminal (s : GatewaySessionStatus) : bool :=
  match s with completed | failed | cancelled => true | _ => false end.

(** ** Bounding payloads *)

Definition compact_string (s : string) : string :=
  if (2000 <? slen s)%nat then slice0 2000 s ^^ "..." else s.

Fixpoint compactUnknown (v : val) : val :=
  match v with
  | VStr s => VStr (compact_string s)
  | VArr l => VArr ((fix go n l := match n, l with
                      | S n', x :: l' => compactUnknown x :: go n' l'
                      | _, _ => []
                      end) 20%nat l)
  | VObj fs => VObj ((fix go n fs := match n, fs with
                      | S n', (k, x) :: fs' => (k, compactUnknown x) :: go n' fs'
                      | _, _ => []
                      end) 40%nat fs)
  | _ => v
  end.

(** On an object, the same bound on entries and values. *)
Definition compactEventParams (v : val) : val :=
  match v with
  | VObj fs => VObj (map (fun e => (e.1, compactUnknown e.2)) (take 40 fs))
  | _ => VObj []
  end.

(** ** Translation of notifications *)

Record CodexEvent := { e_method : string; e_params : val }.

Definition str_val (o : option string) : val := opt_val VStr o.

Definition message (type : string) (requestId : option string) (sessionId : string) (now : Z)
    (payload : list (string * val)) : GatewayMessage :=
  mkMessage type requestId (Some sessionId) (toISOString now) (VObj payload) None.

(** [gateway/codex/serverRequest] *)
Definition auto_approved_message (now : Z) (record : val) : option GatewayMessage :=
  let nested := as_record (prop "params" record) in
  match str_prop "threadId" nested with
  | Some threadId =>
      if threadId === "" then None
      else
        let requestMethod := default "approval" (str_prop "requestMethod" record) in
        let approval := VObj
          [("id", VStr (match prop "backendRequestId" record with
                        | VUndef | VNull => zstr now | v => to_string v end));
           ("sessionId", VStr threadId); ("threadId", VStr threadId);
           ("turnId", str_val (str_prop "turnId" nested));
           ("itemId", str_val (str_prop "itemId" nested));
           ("backendRequestId", prop "backendRequestId" record);
           ("status", VStr "approved"); ("summary", VStr requestMethod);
           ("reason", VStr (match nullish (prop "reason" nested) (prop "message" nested) with
                            | VUndef | VNull => "自动授权" | v => to_string v end));
           ("source", VStr "event"); ("requestMethod", VStr requestMethod);
           ("command", str_val (str_prop "command" nested));
           ("cwd", str_val (str_prop "cwd" nested));
           ("rawEvent", VStr (stringify (compactUnknown nested)));
           ("autoApproved", VBool true);
           ("createdAt", VStr (toISOString now)); ("resolvedAt", VStr (toISOString now));
           ("decisionNote", VStr "auto-approved-by-remote-gateway")] in
        Some (message "approval-resolved" None threadId now
          [("sessionId", VStr threadId); ("approval", approval); ("decision", VStr "approved")])
  | None => None
  end.

(** [gateway/codex/approvalRequested] *)
Definition approval_requested_message (now : Z) (record : val) : option GatewayMessage :=
  match str_prop "threadId" record with
  | Some threadId =>
      if threadId === "" then None
      else
        let nested := as_record (prop "params" record) in
        let turnId := first_str (str_prop "turnId" record) (str_prop "turnId" nested) in
        let either key := nullish (prop key record) (prop key nested) in
        Some (message "approval-requested" (str_prop "requestId" record) threadId now
          [("sessionId", VStr threadId); ("requestId", prop "requestId" record);
           ("requestMethod", either "requestMethod"); ("turnId", str_val turnId);
           ("itemId", either "itemId"); ("summary", either "summary"); ("command", either "command");
           ("cwd", either "cwd");
           ("proposedExecpolicyAmendment", either "proposedExecpolicyAmendment");
           ("expiresAt", either "expiresAt"); ("params", prop "params" record);
           ("status", VStr "pending")])
  | None => None
  end.

(** [gateway/codex/approvalExpired] *)
Definition approval_expired_message (now : Z) (record : val) : option GatewayMessage :=
  match str_prop "threadId" record, str_prop "requestId" record with
  | Some threadId, Some requestId =>
      if (threadId === "") || (requestId === "") then None
      else Some (message "approval-expired" (Some requestId) threadId now
             [("sessionId", VStr threadId); ("requestId", VStr requestId);
              ("requestMethod", prop "requestMethod" record)])
  | _, _ => None
  end.

Definition is_str (s : string) (v : val) : bool :=
  match v with VStr x => x === s | _ => false end.

(** [item/completed] of a sub-agent item: the message and the parents map. *)
Definition subagent_item (now : Z) (threadId : string) (turnId : option string) (item : val)
    (parents : jmap string string) : option (GatewayMessage * jmap string string) :=
  if is_str "subAgentActivity" (prop "type" item) then
    let parents := if is_str "started" (prop "kind" item)
                   then match str_prop "agentThreadId" item with
                        | Some child => mset child threadId parents
                        | None => parents
                        end
                   else parents in
    let kind := if is_str "completed" (prop "kind" item) || is_str "stopped" (prop "kind" item)
                   || is_str "failed" (prop "kind" item)
                then "subagent-finished" else "subagent-started" in
    Some (message kind None threadId now
      [("threadId", VStr threadId); ("turnId", str_val turnId); ("activity", compactUnknown item)], parents)
  else if is_str "collabAgentToolCall" (prop "type" item) then
    Some (message "subagent-tool" None threadId now
      [("threadId", VStr threadId); ("turnId", str_val turnId); ("toolCall", compactUnknown item)], parents)
  else None.

(** [thread/status/changed] *)
Definition status_message (now : Z) (threadId : string) (record : val)
    (stored : string -> option string) (parents : jmap string string)
    : GatewayMessage * jmap string string :=
  let status := normalizeThreadStatus (prop "status" record) in
  let parent := first_str (mget threadId parents) (stored threadId) in
  if str_truthy parent && terminal status then
    let p := default "" parent in
    (message "subagent-finished" None p now
       [("threadId", VStr p); ("childThreadId", VStr threadId); ("status", VStr (status_str status))],
     mdelete threadId parents)
  else
    (message (if terminal status then "session-finished" else "session-status") None threadId now
       [("threadId", VStr threadId); ("status", VStr (status_str status));
        ("turn", VObj [("status", VStr (status_str status))])], parents).

(** Deltas and other output. *)
Definition output_message (now : Z) (method threadId : string) (turnId : option string) (record : val)
    : option GatewayMessage :=
  if (method === "item/agentMessage/delta") || (method === "item/commandExecution/outputDelta") then
    Some (message "session-output" None threadId now
      [("threadId", VStr threadId); ("turnId", str_val turnId);
       ("stream", VStr (if method === "item/agentMessage/delta" then "event" else "stdout"));
       ("eventType", VStr method); ("itemId", str_val (str_prop "itemId" record));
       ("chunk", VStr (default "" (str_prop "delta" record)));
       ("jsonPayload", compactEventParams record)])
  else if (method === "item/completed") || (method === "turn/diff/updated")
          || (method === "thread/tokenUsage/updated") then
    Some (message "session-output" None threadId now
      [("threadId", VStr threadId); ("turnId", str_val turnId); ("stream", VStr "event");
       ("eventType", VStr method); ("chunk", VStr (stringify (compactEventParams record)));
       ("jsonPayload", compactEventParams record)])
  else None.

(** [stored] is [gatewayStore.getSubagentParent]; the result is the message,
    if any, and the map [subagentParents] afterwards. *)
Definition normalizeCodexEvent (now : Z) (stored : string -> option string) (event : CodexEvent)
    (parents : jmap string string) : option GatewayMessage * jmap string string :=
  let record := e_params event in
  let method := e_method event in
  if negb (is_object record) then (None, parents)
  else if method === "gateway/codex/serverRequest" then (auto_approved_message now record, parents)
  else if method === "gateway/codex/approvalRequested" then (approval_requested_message now record, parents)
  else if method === "gateway/codex/approvalExpired" then (approval_expired_message now record, parents)
  else
    match str_prop "threadId" record with
    | None => (None, parents)
    | Some threadId =>
        if threadId === "" then (None, parents)
        else
          let turnId := str_prop "turnId" record in
          let item := prop "item" record in
          match (if (method === "item/completed") && is_object item
                 then subagent_item now threadId turnId item parents else None) with
          | Some (m, parents) => (Some m, parents)
          | None =>
              if method === "thread/status/changed" then
                let '(m, parents) := status_message now threadId record stored parents in (Some m, parents)
              else if method === "turn/completed" then
                (Some (message "session-finished" None threadId now
                   [("threadId", VStr threadId); ("turn", prop "turn" record)]), parents)
              else (output_message now method threadId turnId record, parents)
          end
    end.

(** The event types [/protocol] announces. *)
Definition supportedEvents : list string :=
  ["gateway-ready"; "resume-complete"; "pong"; "session-started"; "session-forked"; "session-policy-changed";
   "subagent-started"; "subagent-tool"; "subagent-finished"; "session-user-input"; "session-status"; "session-output";
   "session-finished"; "approval-requested"; "approval-resolved"; "codex-event"; "error"].

(** ** Thread details as events *)

Definition part_text (part : val) : string :=
  if is_object part && has_prop "text" part
  then match prop "text" part with VUndef | VNull => "" | v => to_string v end else "".

Definition timelineItemText (record : val) : string :=
  match prop "text" record with
  | VStr s => s
  | _ =>
      match prop "content" record with
      | VArr parts => join (String (Ascii.ascii_of_nat 10) "")
                        (List.filter (fun s => s !== "") (map part_text parts))
      | _ => match prop "command" record with
             | VStr s => s
             | _ => match prop "aggregatedOutput" record with VStr s => s | _ => "" end
             end
      end
  end.

Definition thread_items (detail : val) : list val :=
  concat (map (fun turn => default [] (as_array (prop "items" turn)))
              (default [] (as_array (prop "turns" (prop "thread" detail))))).

Definition item_event (now : Z) (sessionId : string) (seq : Z) (record : val) : GatewayMessage :=
  mkMessage "session-output" None (Some sessionId) (toISOString now)
    (VObj [("sessionId", VStr sessionId);
           ("stream", VStr (if is_str "commandExecution" (prop "type" record) then "stdout" else "event"));
           ("chunk", VStr (timelineItemText record)); ("format", VStr "jsonl");
           ("eventType", prop "type" record); ("jsonPayload", compactUnknown record)])
    (Some seq).

(** Events are numbered from 1 in the order of the items. *)
Definition threadDetailToGatewayEvents (now : Z) (detail : val) : list GatewayMessage :=
  let sessionId := default "" (str_prop "id" (prop "thread" detail)) in
  imap (fun i record => item_event now sessionId (Z.of_nat i + 1) record) (thread_items detail).

(** The page of [GET /sessions/:id/events] built from a thread detail. *)
Definition detail_page (events : list GatewayMessage) (after limit : Z) : EventPage :=
  let pending := List.filter (fun m => after <? seq_of m) events in
  let p := take (Z.to_nat limit) pending in
  {| page := p; nextCursor := default after (last_seq p); truncated := (length p <? length pending)%nat |}.

(** A message as the object the store holds. *)
Definition message_val (m : GatewayMessage) : val :=
  VObj ([("type", VStr (m_type m))]
    ++ match m_requestId m with Some r => [("requestId", VStr r)] | None => [] end
    ++ match m_sessionId m with Some s => [("sessionId", VStr s)] | None => [] end
    ++ [("timestamp", VStr (m_timestamp m)); ("payload", m_payload m)]
    ++ match m_eventSeq m with Some q => [("eventSeq", vint q)] | None => [] end).

Definition gatewayEventToTimelineItem (m : GatewayMessage) : val :=
  let eventType := match prop "eventType" (m_payload m) with VStr s => s | _ => m_type m end in
  let text := match prop "chunk" (m_payload m) with
              | VStr s => s
              | _ => match prop "prompt" (m_payload m) with
                     | VStr s => s
                     | _ => stringify (m_payload m)
                     end
              end in
  VObj [("id", VStr (m_timestamp m ^^ ":" ^^ eventType)); ("type", VStr eventType); ("text", VStr text);
        ("raw", message_val m)].

(** ** Properties *)

(** Every string of the value has at most [n] code units, every array at most
    20 and every object at most 40 entries. *)
Fixpoint within (n : nat) (v : val) : Prop :=
  match v with
  | VStr s => (slen s <= n)%nat
  | VArr l => (length l <= 20)%nat /\
              (fix go l := match l with [] => True | x :: l' => within n x /\ go l' end) l
  | VObj fs => (length fs <= 40)%nat /\
               (fix go fs := match fs with [] => True | (_, x) :: fs' => within n x /\ go fs' end) fs
  | _ => True
  end.

(** The limit of 2000 code units and the three dots of a cut string. *)
Definition small : val -> Prop := within 2003.

Lemma compact_string_small s : (slen (compact_string s) <= 2003)%nat.
Proof.
  unfold compact_string. destruct (Nat.ltb_spec 2000 (slen s)); [|lia].
  rewrite slen_sapp, slice0_le. change (slen "...") with 3%nat. lia.
Qed.

Lemma compact_string_idem s : compact_string (compact_string s) = compact_string s.
Proof.
  unfold compact_string. destruct (Nat.ltb_spec 2000 (slen s)) as [H|H].
  - rewrite slen_sapp, slice0_le, Nat.min_l by lia. change (slen "...") with 3%nat.
    rewrite (proj2 (Nat.ltb_lt 2000 (2000 + 3))) by lia.
    by rewrite slice0_sapp by (rewrite slice0_le; lia).
  - by rewrite (proj2 (Nat.ltb_ge 2000 (slen s))).
Qed.

(** The bounded traversals of arrays and objects. *)
Definition compact_list (n : nat) (l : list val) : list val := map compactUnknown (take n l).
Definition compact_fields (n : nat) (fs : list (string * val)) : list (string * val) :=
  map (fun e => (e.1, compactUnknown e.2)) (take n fs).

Lemma compact_list_fix n l :
  (fix go n l := match n, l with
    | S n', x :: l' => compactUnknown x :: go n' l' | _, _ => [] end) n l = compact_list n l.
Proof. unfold compact_list. revert n. induction l as [|x l IH]; intros [|n]; try done. simpl. by rewrite IH. Qed.

Lemma compact_fields_fix n fs :
  (fix go n fs := match n, fs with
    | S n', (k, x) :: fs' => (k, compactUnknown x) :: go n' fs' | _, _ => [] end) n fs = compact_fields n fs.
Proof.
  unfold compact_fields. revert n. induction fs as [|[k x] fs IH]; intros [|n]; try done.
  simpl. by rewrite IH.
Qed.

Lemma compact_arr l : compactUnknown (VArr l) = VArr (compact_list 20 l).
Proof. exact (f_equal VArr (compact_list_fix 20 l)). Qed.

Lemma compact_obj fs : compactUnknown (VObj fs) = VObj (compact_fields 40 fs).
Proof. exact (f_equal VObj (compact_fields_fix 40 fs)). Qed.

Lemma within_arr n l : within n (VArr l) <-> (length l <= 20)%nat /\ Forall (within n) l.
Proof.
  cbn [within]. split; intros [Hl H]; (split; [done|]); clear Hl.
  - induction l as [|x l IH]; [done|]. destruct H as [H1 H2]. by constructor; [|apply IH].
  - induction H as [|x l Hx H IH]; [done|]. by split.
Qed.

Lemma within_obj n fs :
  within n (VObj fs) <-> (length fs <= 40)%nat /\ Forall (fun e => within n e.2) fs.
Proof.
  cbn [within]. split; intros [Hl H]; (split; [done|]); clear Hl.
  - induction fs as [|[k x] fs IH]; [done|]. destruct H as [H1 H2]. by constructor; [|apply IH].
  - induction H as [|[k x] fs Hx H IH]; [done|]. by split.
Qed.

Lemma compact_small v : small (compactUnknown v).
Proof.
  unfold small. induction v as [| | | |s|l IH|fs IH] using val_ind; try done.
  - simpl. apply compact_string_small.
  - rewrite compact_arr. apply within_arr. unfold compact_list.
    split; [rewrite length_map, length_take; lia|]. by apply Forall_fmap, Forall_take.
  - rewrite compact_obj. apply within_obj. unfold compact_fields.
    split; [rewrite length_map, length_take; lia|]. by apply Forall_fmap, Forall_take.
Qed.

(** What is within the limits is copied as it is. *)
Lemma compact_within v : within 2000 v -> compactUnknown v = v.
Proof.
  induction v as [| | | |s|l IH|fs IH] using val_ind; try done; intros H.
  - simpl. unfold compact_string. cbn [within] in H. by rewrite (proj2 (Nat.ltb_ge 2000 (slen s))).
  - apply within_arr in H as [Hl H]. rewrite compact_arr. unfold compact_list. f_equal.
    rewrite take_ge by done. rewrite <- (map_id l) at 2. apply List.map_ext_in. intros x Hx.
    apply list_elem_of_In in Hx. rewrite Forall_forall in IH, H. auto.
  - apply within_obj in H as [Hl H]. rewrite compact_obj. unfold compact_fields. f_equal.
    rewrite take_ge by done. rewrite <- (map_id fs) at 2. apply List.map_ext_in. intros [k x] Hx.
    apply list_elem_of_In in Hx. rewrite Forall_forall in IH, H. simpl. f_equal.
    by apply (IH (k, x)), (H (k, x)).
Qed.

(** Bounding a bounded payload again changes nothing. *)
Lemma compact_idem v : compactUnknown (compactUnknown v) = compactUnknown v.
Proof.
  induction v as [| | | |s|l IH|fs IH] using val_ind; try done.
  - simpl. by rewrite compact_string_idem.
  - apply (Forall_take _ 20) in IH. rewrite !compact_arr. f_equal. unfold compact_list.
    rewrite (take_ge (map _ _)) by (rewrite length_map, length_take; lia).
    rewrite List.map_map. apply List.map_ext_in. intros x Hx.
    rewrite Forall_forall in IH. by apply IH, list_elem_of_In.
  - apply (Forall_take _ 40) in IH. rewrite !compact_obj. f_equal. unfold compact_fields.
    rewrite (take_ge (map _ _)) by (rewrite length_map, length_take; lia).
    rewrite List.map_map. apply List.map_ext_in. intros x Hx. simpl. f_equal.
    rewrite Forall_forall in IH. by apply (IH x), list_elem_of_In.
Qed.

(** A copy the gateway has bounded. *)
Definition bounded_copy (v : val) : Prop := small v /\ compactUnknown v = v.

Lemma bounded_compact v : bounded_copy (compactUnknown v).
Proof. split; [apply compact_small|apply compact_idem]. Qed.

Lemma params_compact v : compactEventParams v = compactUnknown (match v with VObj _ => v | _ => VObj [] end).
Proof. destruct v; try done. by rewrite compact_obj. Qed.

Lemma bounded_params v : bounded_copy (compactEventParams v).
Proof. rewrite params_compact. apply bounded_compact. Qed.

Lemma bounded_undef : bounded_copy VUndef.
Proof. done. Qed.

(** The copies of parameters and items in a message. *)
Definition copies (m : GatewayMessage) : list val :=
  map (fun key => prop key (m_payload m)) ["jsonPayload"; "activity"; "toolCall"].

Lemma copies_of m a b c :
  prop "jsonPayload" (m_payload m) = a -> prop "activity" (m_payload m) = b ->
  prop "toolCall" (m_payload m) = c -> bounded_copy a -> bounded_copy b -> bounded_copy c ->
  Forall bounded_copy (copies m).
Proof. intros <- <- <- ???. by repeat (apply Forall_cons_2; [done|]). Qed.

Ltac bounded :=
  eapply copies_of; [reflexivity..| | |];
  first [exact (bounded_params _) | exact (bounded_compact _) | exact bounded_undef].

(** The ways to obtain a message from a notification. *)
Inductive translated (now : Z) (stored : string -> option string) (event : CodexEvent) : GatewayMessage -> Prop :=
| TAuto m : e_method event = "gateway/codex/serverRequest" ->
    auto_approved_message now (e_params event) = Some m -> translated now stored event m
| TRequested m : e_method event = "gateway/codex/approvalRequested" ->
    approval_requested_message now (e_params event) = Some m -> translated now stored event m
| TExpired m : e_method event = "gateway/codex/approvalExpired" ->
    approval_expired_message now (e_params event) = Some m -> translated now stored event m
| TSubagent t item parents parents' m : e_method event = "item/completed" -> t <> "" ->
    subagent_item now t (str_prop "turnId" (e_params event)) item parents = Some (m, parents') ->
    translated now stored event m
| TStatus t parents parents' m : e_method event = "thread/status/changed" -> t <> "" ->
    status_message now t (e_params event) stored parents = (m, parents') -> translated now stored event m
| TTurn t : e_method event = "turn/completed" -> t <> "" ->
    translated now stored event
      (message "session-finished" None t now [("threadId", VStr t); ("turn", prop "turn" (e_params event))])
| TOutput t m :
    e_method event ∉ ["gateway/codex/approvalExpired"; "thread/status/changed"] -> t <> "" ->
    output_message now (e_method event) t (str_prop "turnId" (e_params event)) (e_params event) = Some m ->
    translated now stored event m.

Lemma normalize_cases now stored event parents m parents' :
  normalizeCodexEvent now stored event parents = (Some m, parents') -> translated now stored event m.
Proof.
  unfold normalizeCodexEvent. destruct (is_object (e_params event)); [|done]. cbn [negb].
  destruct (String.eqb_spec (e_method event) "gateway/codex/serverRequest");
    [intros [= ? _]; by apply TAuto|].
  destruct (String.eqb_spec (e_method event) "gateway/codex/approvalRequested");
    [intros [= ? _]; by apply TRequested|].
  destruct (String.eqb_spec (e_method event) "gateway/codex/approvalExpired");
    [intros [= ? _]; by apply TExpired|].
  destruct (str_prop "threadId" (e_params event)) as [t|]; [|done].
  destruct (String.eqb_spec t "") as [|Ht]; [done|].
  case_match eqn:F.
  { destruct p as [m' p']. intros [= <- <-]. destruct ((e_method event === "item/completed") && _) eqn:G; [|done].
    apply andb_true_iff in G as [G%String.eqb_eq _]. by eapply TSubagent. }
  destruct (String.eqb_spec (e_method event) "thread/status/changed") as [E|Es].
  { destruct (status_message _ _ _ _ _) eqn:G. intros [= <- <-]. by eapply TStatus. }
  destruct (String.eqb_spec (e_method event) "turn/completed") as [E|_].
  { intros [= <- _]. by apply TTurn. }
  intros [= G _]. eapply TOutput; [set_solver|done|done].
Qed.

(** The messages of [session-output]. *)
Definition is_delta (method : string) : bool :=
  (method === "item/agentMessage/delta") || (method === "item/commandExecution/outputDelta").

Lemma output_copies now method t turnId record m :
  output_message now method t turnId record = Some m ->
  Forall bounded_copy (copies m) /\ prop "jsonPayload" (m_payload m) = compactEventParams record /\
  (is_delta method = false ->
   prop "chunk" (m_payload m) = VStr (stringify (prop "jsonPayload" (m_payload m)))).
Proof.
  unfold output_message, is_delta. intros H.
  destruct ((method === "item/agentMessage/delta") || (method === "item/commandExecution/outputDelta"));
    [injection H as <-; split_and!; [bounded|done|done]|].
  case_match; [|done]. injection H as <-. split_and!; [bounded|done|done].
Qed.

(** C14: the copies of notification parameters and items that translated
    notifications carry ([jsonPayload], [activity], [toolCall]) are bounded at
    every level: strings of at most 2003 code units, arrays of at most 20 and
    objects of at most 40 entries, and bounding them again changes nothing.
    The raw event of an automatic approval and the text of outputs other than
    deltas are the JSON of a bounded value, a [session-output] whose parameters
    are within the limits carries them unaltered, and the copies in the events
    built from a thread detail are bounded too. Not bounded, and not claimed to
    be, are the chunk of a delta, the parameters and the command of an approval
    request, the turn of [turn/completed], the raw [codex] broadcast, the
    nesting depth and the length of keys. *)
Theorem relayed_copies_bounded now stored event parents m parents' :
  normalizeCodexEvent now stored event parents = (Some m, parents') ->
  Forall bounded_copy (copies m) /\
  (m_type m = "approval-resolved" ->
   exists v, small v /\ prop "rawEvent" (prop "approval" (m_payload m)) = VStr (stringify v)) /\
  (m_type m = "session-output" ->
   (is_delta (e_method event) = false ->
    prop "chunk" (m_payload m) = VStr (stringify (prop "jsonPayload" (m_payload m)))) /\
   (forall fs, e_params event = VObj fs -> within 2000 (VObj fs) ->
    prop "jsonPayload" (m_payload m) = VObj fs)) /\
  (forall detail,
    Forall (fun e => bounded_copy (prop "jsonPayload" (m_payload e))) (threadDetailToGatewayEvents now detail)).
Proof.
  intros H. assert (forall detail,
    Forall (fun e => bounded_copy (prop "jsonPayload" (m_payload e)))
      (threadDetailToGatewayEvents now detail)) as HD.
  { intros detail. unfold threadDetailToGatewayEvents. apply Forall_forall. intros e He.
    apply list_elem_of_lookup in He as [i He]. rewrite list_lookup_imap in He.
    destruct (_ !! i); [|done]. injection He as <-. exact (bounded_compact _). }
  destruct (normalize_cases _ _ _ _ _ _ H) as
    [m E F|m E F|m E F|t item p p' m E Ht F|t p p' m E Ht F|t E Ht|t m En Ht F]; clear H.
  - unfold auto_approved_message in F. do 2 (case_match; try done). injection F as <-.
    split_and!; [bounded| |done|done]. intros _. eexists. split; [apply compact_small|reflexivity].
  - unfold approval_requested_message in F. do 2 (case_match; try done). injection F as <-.
    split_and!; [bounded|done|done|done].
  - unfold approval_expired_message in F. do 3 (case_match; try done). injection F as <-.
    split_and!; [bounded|done|done|done].
  - unfold subagent_item in F. repeat (case_match; try done); simplify_eq; split_and!; try done; bounded.
  - unfold status_message in F. case_match; [|case_match]; simplify_eq; split_and!; try done; bounded.
  - split_and!; [bounded|done|done|done].
  - destruct (output_copies _ _ _ _ _ _ F) as (H1 & H2 & H3). split_and!; [done| | |done].
    + intros E. exfalso. unfold output_message in F. repeat (case_match; try done); by simplify_eq.
    + intros _. split; [done|]. intros fs E Hf. rewrite H2, E, params_compact. by apply compact_within.
Qed.

Lemma relayed_copies_bounded_witness :
  let ev := {| e_method := "turn/diff/updated";
               e_params := VObj [("threadId", VStr "t"); ("diff", VStr "+a")] |} in
  exists m, normalizeCodexEvent 0 (fun _ => None) ev [] = (Some m, []) /\
    prop "jsonPayload" (m_payload m) = e_params ev /\ Forall bounded_copy (copies m).
Proof.
  eexists. split; [reflexivity|].
  destruct (relayed_copies_bounded 0 (fun _ => None)
    {| e_method := "turn/diff/updated";
       e_params := VObj [("threadId", VStr "t"); ("diff", VStr "+a")] |} [] _ []
    eq_refl) as (H1 & _ & H3 & _).
  split; [|exact H1].
  destruct (H3 eq_refl) as [_ H4]. apply (H4 _ eq_refl). simpl. lia.
Defined.

Ltac announced := unfold supportedEvents; set_solver.

(** C15: every translated notification can be logged: it carries a non-empty
    session id, no sequence number of its own, and a type that [/protocol]
    announces, except for an expired approval, whose [approval-expired] is not
    on that list. A message produced by a status change carries that status. *)
Theorem normalized_event_loggable now stored event parents m parents' :
  normalizeCodexEvent now stored event parents = (Some m, parents') ->
  (exists sid, m_sessionId m = Some sid /\ sid <> "") /\ m_eventSeq m = None /\
  (if e_method event === "gateway/codex/approvalExpired"
   then m_type m = "approval-expired" /\ ("approval-expired" ∉ supportedEvents)
   else m_type m ∈ supportedEvents) /\
  (e_method event = "thread/status/changed" ->
   prop "status" (m_payload m) = VStr (status_str (normalizeThreadStatus (prop "status" (e_params event))))).
Proof.
  intros H. destruct (normalize_cases _ _ _ _ _ _ H) as
    [m E F|m E F|m E F|t item p p' m E Ht F|t p p' m E Ht F|t E Ht|t m En Ht F]; clear H;
    try rewrite E; cbn [String.eqb Ascii.eqb Bool.eqb].
  - unfold auto_approved_message in F. do 2 (case_match; try done). str_cases. injection F as <-.
    split_and!; [eauto|done|announced|done].
  - unfold approval_requested_message in F. do 2 (case_match; try done). str_cases. injection F as <-.
    split_and!; [eauto|done|announced|done].
  - unfold approval_expired_message in F. do 3 (case_match; try done). str_cases. injection F as <-.
    split_and!; [eauto|done|done|announced|done].
  - unfold subagent_item in F. repeat (case_match; try done); simplify_eq;
      (split_and!; [eauto|done|announced|done]).
  - unfold status_message in F. destruct (str_truthy _ && terminal _) eqn:G; injection F as <- _.
    + apply andb_true_iff in G as [G _]. destruct (first_str _ _) as [q|]; [|done]. simpl in G.
      apply negb_true_iff, String.eqb_neq in G. split_and!; [eauto|done|announced|done].
    + split_and!; [eauto|done|simpl; case_match; announced|done].
  - split_and!; [eauto|done|announced|done].
  - apply not_elem_of_cons in En as [E1 En]. apply not_elem_of_cons in En as [E2 _].
    rewrite (proj2 (String.eqb_neq _ _) E1). unfold output_message in F.
    repeat (case_match; try done); simplify_eq; (split_and!; [eauto|done|announced|done]).
Qed.

Lemma normalized_event_loggable_witness :
  let ev := {| e_method := "thread/status/changed";
               e_params := VObj [("threadId", VStr "t"); ("status", VObj [("type", VStr "active")])] |} in
  exists m, normalizeCodexEvent 0 (fun _ => None) ev [] = (Some m, []) /\
    ((exists sid, m_sessionId m = Some sid /\ sid <> "") /\ prop "status" (m_payload m) = VStr "running").
Proof.
  eexists. split; [reflexivity|].
  destruct (normalized_event_loggable 0 (fun _ => None)
    {| e_method := "thread/status/changed";
       e_params := VObj [("threadId", VStr "t"); ("status", VObj [("type", VStr "active")])] |} [] _ []
    eq_refl) as (H1 & _ & _ & H4).
  split; [exact H1|exact (H4 eq_refl)].
Defined.
