(* ===== verification/CodexBridge.v ===== *)
(** * CodexBridge: the stdio JSON-RPC client of the Codex app-server

    server/src/codexBridge.ts. The state holds the pending requests, the
    pending approvals and their timers, the policies and the output buffer;
    what the bridge does to its surroundings (messages written to the child,
    events emitted, promises settled) is appended to lists of the state.
    Server requests that await an audit record are the field [serving].
    [JSON.parse] is the parameter [JSON_parse]; nothing is assumed of it. *)

From Stdlib Require Import Ascii.
From S2P Require Import Prelude JsValue JsDate Json GatewayStore CodexEvents.

Local Open Scope Z_scope.

(** ** Data *)

(** JSON-RPC ids of the bridge's own requests: a [Map] key distinguishes the
    number 1 from the string "1". The ids of server requests are any values. *)
Inductive rpc_id := IdNum (n : Z) | IdStr (s : string).

#[global] Instance rpc_id_eq_dec : EqDecision rpc_id.
Proof. solve_decision. Defined.


(** The error of a rejected promise. *)
Record bridge_error := { err_message : string; err_code : option string }.
Definition Error (m : string) : bridge_error := {| err_message := m; err_code := None |}.

Inductive rpc_result := Resolved (v : val) | Rejected (e : bridge_error).

Inductive Decision := approve | deny.
Record ApprovalDecision := { d_decision : Decision; d_amendment : option (list string) }.

(** A pending approval; [pa_request] is the JSON-RPC id its promise answers. *)
Record PendingApproval := {
  pa_threadId : string; pa_turnId : option string; pa_method : string;
  pa_request : val; pa_timer : nat
}.

(** The closure of an approval timer. *)
Record approval_timer := {
  tm_requestId : string; tm_threadId : string; tm_method : string;
  tm_request : val; tm_expiresAt : string
}.

(** A server request between two awaits: before its first audit record, or
    before the audit record of an approval it will ask for. *)
Inductive serving_stage :=
| Received (request : val) (method : string) (params : val)
| Asking (request : val) (method : string) (params : val) (threadId : string).

(** [this.child]: the process, whether it was killed, whether stdin is open. *)
Record child_process := { killed : bool; writable : bool }.

Definition maxPendingApprovals : nat := 256.
Definition maxPendingRequests : nat := Z.to_nat 1024.
Definition maxStdoutBufferBytes : Z := 32 * 1024 * 1024.
Definition maxPolicyEntries : nat := Z.to_nat 10000.

(** The fields of the class; [pending] maps an id to its method, which names the
    request in its time-out error. *)
Record CodexBridge := mkBridge {
  child : option child_process;
  nextId : Z;
  pending : jmap rpc_id string;
  pendingApprovals : jmap string PendingApproval;
  timers : jmap nat approval_timer;
  next_timer : nat;
  policyByThread : jmap string SessionPolicyMode;
  modelCache : option (Z * list string);
  ready : bool;
  stdoutBuffer : string;
  serving : list serving_stage;
  written : list val;
  emitted : list CodexEvent;
  settled : list (rpc_id * rpc_result)
}.

Definition with_child (v : option child_process) (r : CodexBridge) : CodexBridge :=
  mkBridge v (nextId r) (pending r) (pendingApprovals r) (timers r) (next_timer r) (policyByThread
    r) (modelCache r) (ready r) (stdoutBuffer r) (serving r) (written r) (emitted r)
    (settled r).
Definition with_nextId (v : Z) (r : CodexBridge) : CodexBridge :=
  mkBridge (child r) v (pending r) (pendingApprovals r) (timers r) (next_timer r) (policyByThread
    r) (modelCache r) (ready r) (stdoutBuffer r) (serving r) (written r) (emitted r)
    (settled r).
Definition with_pending (v : jmap rpc_id string) (r : CodexBridge) : CodexBridge :=
  mkBridge (child r) (nextId r) v (pendingApprovals r) (timers r) (next_timer r) (policyByThread r)
    (modelCache r) (ready r) (stdoutBuffer r) (serving r) (written r) (emitted r) (settled
    r).
Definition with_pendingApprovals (v : jmap string PendingApproval) (r : CodexBridge) : CodexBridge :=
  mkBridge (child r) (nextId r) (pending r) v (timers r) (next_timer r) (policyByThread r)
    (modelCache r) (ready r) (stdoutBuffer r) (serving r) (written r) (emitted r) (settled
    r).
Definition with_timers (v : jmap nat approval_timer) (r : CodexBridge) : CodexBridge :=
  mkBridge (child r) (nextId r) (pending r) (pendingApprovals r) v (next_timer r) (policyByThread
    r) (modelCache r) (ready r) (stdoutBuffer r) (serving r) (written r) (emitted r)
    (settled r).
Definition with_next_timer (v : nat) (r : CodexBridge) : CodexBridge :=
  mkBridge (child r) (nextId r) (pending r) (pendingApprovals r) (timers r) v (policyByThread r)
    (modelCache r) (ready r) (stdoutBuffer r) (serving r) (written r) (emitted r) (settled
    r).
Definition with_policyByThread (v : jmap string SessionPolicyMode) (r : CodexBridge) : CodexBridge :=
  mkBridge (child r) (nextId r) (pending r) (pendingApprovals r) (timers r) (next_timer r) v
    (modelCache r) (ready r) (stdoutBuffer r) (serving r) (written r) (emitted r) (settled
    r).
Definition with_modelCache (v : option (Z * list string)) (r : CodexBridge) : CodexBridge :=
  mkBridge (child r) (nextId r) (pending r) (pendingApprovals r) (timers r) (next_timer r)
    (policyByThread r) v (ready r) (stdoutBuffer r) (serving r) (written r) (emitted r)
    (settled r).
Definition with_ready (v : bool) (r : CodexBridge) : CodexBridge :=
  mkBridge (child r) (nextId r) (pending r) (pendingApprovals r) (timers r) (next_timer r)
    (policyByThread r) (modelCache r) v (stdoutBuffer r) (serving r) (written r) (emitted r)
    (settled r).
Definition with_stdoutBuffer (v : string) (r : CodexBridge) : CodexBridge :=
  mkBridge (child r) (nextId r) (pending r) (pendingApprovals r) (timers r) (next_timer r)
    (policyByThread r) (modelCache r) (ready r) v (serving r) (written r) (emitted r)
    (settled r).
Definition with_serving (v : list serving_stage) (r : CodexBridge) : CodexBridge :=
  mkBridge (child r) (nextId r) (pending r) (pendingApprovals r) (timers r) (next_timer r)
    (policyByThread r) (modelCache r) (ready r) (stdoutBuffer r) v (written r) (emitted r)
    (settled r).
Definition with_written (v : list val) (r : CodexBridge) : CodexBridge :=
  mkBridge (child r) (nextId r) (pending r) (pendingApprovals r) (timers r) (next_timer r)
    (policyByThread r) (modelCache r) (ready r) (stdoutBuffer r) (serving r) v (emitted r)
    (settled r).
Definition with_emitted (v : list CodexEvent) (r : CodexBridge) : CodexBridge :=
  mkBridge (child r) (nextId r) (pending r) (pendingApprovals r) (timers r) (next_timer r)
    (policyByThread r) (modelCache r) (ready r) (stdoutBuffer r) (serving r) (written r) v
    (settled r).
Definition with_settled (v : list (rpc_id * rpc_result)) (r : CodexBridge) : CodexBridge :=
  mkBridge (child r) (nextId r) (pending r) (pendingApprovals r) (timers r) (next_timer r)
    (policyByThread r) (modelCache r) (ready r) (stdoutBuffer r) (serving r) (written r)
    (emitted r) v.

Definition emit (e : CodexEvent) (b : CodexBridge) : CodexBridge := with_emitted (emitted b ++ [e]) b.
Definition event (method : string) (params : list (string * val)) : CodexEvent :=
  {| e_method := method; e_params := VObj params |}.

Definition child_open (b : CodexBridge) : bool :=
  match child b with Some c => negb (killed c) && writable c | None => false end.

(** ** Errors *)

Definition errorMessageParts (error : val) : bridge_error :=
  if is_object error then
    {| err_code := first_str (str_prop "code" error) (str_prop "type" error);
       err_message := match first_str (str_prop "message" error) (str_prop "error" error) with
                      | Some m => m | None => stringify error end |}
  else {| err_code := None; err_message := stringify error |}.

(** An empty code is not attached. *)
Definition messageError (message : val) : option bridge_error :=
  if has_prop "error" message then
    let parsed := match prop "error" message with
                  | VStr s => Error s
                  | error => errorMessageParts error
                  end in
    Some {| err_message := err_message parsed;
            err_code := if str_truthy (err_code parsed) then err_code parsed else None |}
  else None.

(** ** Environment of the child *)

Definition secret_suffixes : list string :=
  ["API_KEY"; "TOKEN"; "SECRET"; "PASSWORD"; "PRIVATE_KEY"; "ACCESS_KEY"].

(** [/(?:^|_)(?:API_KEY|...|ACCESS_KEY)$/.test(key)] *)
Definition secret_suffix (key : string) : bool :=
  existsb (fun w => (key === w) || ends_with ("_" ^^ w) key) secret_suffixes.

Definition scrubbed_key (key : string) : bool :=
  starts_with "CODEHARBOR_" key || starts_with "RELAY_" key || starts_with "GATEWAY_AUTH_" key
  || (key === "ADMIN_TOKEN") || (key === "SESSION_SECRET") || (key === "DATABASE_URL")
  || (key === "REDIS_URL") || starts_with "POSTGRES_" key || starts_with "PG" key
  || secret_suffix key.

Definition extraPath : list string :=
  ["/opt/homebrew/bin"; "/usr/local/bin"; "/usr/bin"; "/bin"; "/usr/sbin"; "/sbin"].

Definition processEnvWithToolPath (delimiter : string) (env : jmap string string) : jmap string string :=
  let existingPath := default "" (mget "PATH" env) in
  let childEnv := mfilter (fun key _ => negb (scrubbed_key key)) env in
  mset "PATH" (join delimiter (List.filter (fun s => s !== "") (extraPath ++ [existingPath]))) childEnv.

(** [/\.(cmd|bat)$/i.test(command)] *)
Definition is_batch (command : string) : bool :=
  ends_with ".cmd" (to_lower command) || ends_with ".bat" (to_lower command).

Definition shouldUseShell (win32 : bool) (command : string) : bool :=
  win32 && (negb (includes (String BACKSLASH "") command) && negb (includes "/" command) || is_batch command).

(** ** Requests *)

Definition writeMessage (payload : val) (b : CodexBridge) : option CodexBridge :=
  if child_open b then Some (with_written (written b ++ [payload]) b) else None.

Inductive send_result := Sent (request : Z) | SendThrew (e : bridge_error).

Definition sendRequest (method : string) (params : val) (b : CodexBridge) : send_result * CodexBridge :=
  if negb (child_open b) then (SendThrew (Error "Codex app-server stdio is not open"), b)
  else if (maxPendingRequests <=? length (pending b))%nat
  then (SendThrew (Error "too_many_pending_requests"), b)
  else
    let request := nextId b in
    let b := with_nextId (request + 1) b in
    let b := with_pending (mset (IdNum request) method (pending b)) b in
    match writeMessage (VObj [("id", vint request); ("method", VStr method); ("params", params)]) b with
    | Some b => (Sent request, b)
    | None => (SendThrew (Error "Codex app-server stdio is not open"), b)
    end.

Definition settle (i : rpc_id) (r : rpc_result) (b : CodexBridge) : CodexBridge :=
  with_settled (settled b ++ [(i, r)]) b.

(** The timer of a request; it is cleared when the request is answered. *)
Definition requestTimeout (i : rpc_id) (timeoutMs : Z) (b : CodexBridge) : CodexBridge :=
  match mget i (pending b) with
  | Some method =>
      settle i (Rejected (Error (method ^^ " timed out after " ^^ zstr timeoutMs ^^ "ms")))
        (with_pending (mdelete i (pending b)) b)
  | None => b
  end.

Definition rememberPolicy (threadId : string) (mode : SessionPolicyMode) (b : CodexBridge) : CodexBridge :=
  with_policyByThread
    (mshrink maxPolicyEntries (mset threadId mode (mdelete threadId (policyByThread b)))) b.

Definition setPolicyMode (threadId : string) (mode : SessionPolicyMode) (b : CodexBridge) : CodexBridge :=
  rememberPolicy threadId mode b.

Definition policy_of (threadId : string) (b : CodexBridge) : SessionPolicyMode :=
  default confirm (mget threadId (policyByThread b)).

Definition approvalPolicy (mode : SessionPolicyMode) : val :=
  VStr (match mode with full_access => "never" | confirm => "on-request" end).
Definition sandboxPolicy (mode : SessionPolicyMode) : val :=
  VObj [("type", VStr (match mode with full_access => "dangerFullAccess" | confirm => "readOnly" end))].

Record CodexRunOptions := {
  o_model : option string; o_effort : option string;
  o_threadSource : option string; o_multiAgentMode : option string
}.

(** [...(value ? { key: value } : {})] *)
Definition when_set (key : string) (o : option string) : list (string * val) :=
  match o with Some s => if s === "" then [] else [(key, VStr s)] | None => [] end.

Definition resumeThread (threadId : string) (mode : option SessionPolicyMode) (b : CodexBridge)
    : send_result * CodexBridge :=
  let mode := default (policy_of threadId b) mode in
  sendRequest "thread/resume"
    (VObj [("threadId", VStr threadId); ("approvalPolicy", approvalPolicy mode);
           ("sandbox", VStr (match mode with full_access => "danger-full-access" | confirm => "read-only" end));
           ("excludeTurns", VBool false)])
    (rememberPolicy threadId mode b).

Definition forkThread (threadId : string) (mode : option SessionPolicyMode) (threadSource : string)
    (b : CodexBridge) : send_result * CodexBridge :=
  let mode := default (policy_of threadId b) mode in
  sendRequest "thread/fork" (VObj [("threadId", VStr threadId); ("threadSource", VStr threadSource)])
    (rememberPolicy threadId mode b).

Definition startThread (cwd : string) (mode : SessionPolicyMode) (o : CodexRunOptions) (b : CodexBridge)
    : send_result * CodexBridge :=
  sendRequest "thread/start"
    (VObj ([("cwd", VStr cwd)] ++ when_set "model" (o_model o) ++ when_set "effort" (o_effort o)
           ++ when_set "threadSource" (o_threadSource o) ++ when_set "multiAgentMode" (o_multiAgentMode o)
           ++ [("approvalPolicy", approvalPolicy mode); ("sandboxPolicy", sandboxPolicy mode);
               ("ephemeral", VBool false)])) b.

(** [input] is what [buildCodexInput] makes of the text and attachments. *)
Definition startTurn (threadId : string) (input : val) (mode : option SessionPolicyMode)
    (o : CodexRunOptions) (b : CodexBridge) : send_result * CodexBridge :=
  let policyMode := default (policy_of threadId b) mode in
  sendRequest "turn/start"
    (VObj ([("threadId", VStr threadId)] ++ when_set "model" (o_model o) ++ when_set "effort" (o_effort o)
           ++ when_set "multiAgentMode" (o_multiAgentMode o)
           ++ [("input", input); ("approvalPolicy", approvalPolicy policyMode);
               ("sandboxPolicy", sandboxPolicy policyMode)]))
    (rememberPolicy threadId policyMode b).

Definition steerTurn (threadId expectedTurnId : string) (input : val) (b : CodexBridge) :=
  sendRequest "turn/steer"
    (VObj [("threadId", VStr threadId); ("expectedTurnId", VStr expectedTurnId); ("input", input);
           ("responsesapiClientMetadata", VNull)]) b.

Definition interruptTurn (threadId turnId : string) (b : CodexBridge) :=
  sendRequest "turn/interrupt" (VObj [("threadId", VStr threadId); ("turnId", VStr turnId)]) b.

(** *** The model list *)

Definition model_entries (body : val) : list val :=
  match as_array (prop "data" body), as_array (prop "models" body), as_array body with
  | Some l, _, _ => l
  | None, Some l, _ => l
  | None, None, Some l => l
  | None, None, None => []
  end.

Definition model_id (entry : val) : option string :=
  let id := match entry with
            | VStr s => VStr s
            | _ => v_or (v_or (prop "id" entry) (prop "model" entry)) (prop "slug" entry)
            end in
  match id with
  | VStr s => if (s === "") || match prop "hidden" entry with VBool true => true | _ => false end
              then None else Some s
  | _ => None
  end.

Definition model_ids (body : val) : list string :=
  foldl (fun s x => sadd x s) [] (omap model_id (model_entries body)).

(** [None] when the model may be used; [response] answers [model/list]. *)
Definition ensureModelAvailable (now : Z) (model : option string) (response : val) (b : CodexBridge)
    : option bridge_error * CodexBridge :=
  if negb (str_truthy model) then (None, b)
  else
    let m := default "" model in
    let cache := match modelCache b with
                 | Some (expiresAt, ids) =>
                     if expiresAt <=? now then (now + 60000, model_ids response) else (expiresAt, ids)
                 | None => (now + 60000, model_ids response)
                 end in
    let b := with_modelCache (Some cache) b in
    if shas m cache.2 then (None, b)
    else (Some {| err_message := "model_not_available: " ^^ m; err_code := Some "model_not_available" |}, b).

(** ** Approvals *)

Definition isApprovalRequest (method : string) : bool :=
  existsb (fun m => method === m)
    ["item/commandExecution/requestApproval"; "item/fileChange/requestApproval"; "execCommandApproval";
     "applyPatchApproval"; "item/tool/requestUserInput"].

Definition approvalResult (method : string) (d : ApprovalDecision) : val :=
  let yes := match d_decision d with approve => true | deny => false end in
  if method === "item/tool/requestUserInput" then VObj [("answers", if yes then VObj [] else VNull)]
  else
    match (if yes then d_amendment d else None) with
    | Some ((_ :: _) as rules) =>
        VObj [("decision", VObj [("acceptWithExecpolicyAmendment",
          VObj [("execpolicy_amendment", VArr (map VStr rules))])])]
    | _ =>
        if (method === "execCommandApproval") || (method === "applyPatchApproval")
        then VObj [("decision", VStr (if yes then "approved_for_session" else "cancel"))]
        else VObj [("decision", VStr (if yes then "accept" else "cancel"))]
    end.

Definition summarizeParams (params : val) : val :=
  match params with
  | VUndef => VUndef
  | _ => let text := stringify params in
         if (2000 <? slen text)%nat then VStr (slice0 2000 text ^^ "...") else params
  end.

(** The last line of [handleServerRequest], and its [catch]. *)
Definition request_failed (request : val) (method message : string) (b : CodexBridge) : CodexBridge :=
  let b := emit (event "codex/app-server/request-error"
    [("requestId", request); ("method", VStr method); ("message", VStr message)]) b in
  default b (writeMessage (VObj [("id", request);
    ("error", VObj [("code", VStr "internal_error"); ("message", VStr "request handling failed")])]) b).

Definition reply (request : val) (method : string) (result : val) (b : CodexBridge) : CodexBridge :=
  match writeMessage (VObj [("id", request); ("result", result)]) b with
  | Some b => b
  | None => request_failed request method "Codex app-server stdio is not open" b
  end.

(** The promise of an approval resolves: the request is answered. *)
Definition decide_approval (request : val) (method : string) (d : ApprovalDecision) (b : CodexBridge) :=
  reply request method (approvalResult method d) b.

Definition DENY : ApprovalDecision := {| d_decision := deny; d_amendment := None |}.

Definition resolveApproval (requestId : string) (decision : Decision) (threadId turnId : option string)
    (amendment : option (list string)) (b : CodexBridge) : bool * CodexBridge :=
  match mget requestId (pendingApprovals b) with
  | None => (false, b)
  | Some p =>
      if str_truthy threadId && negb (opt_str_eqb (Some (pa_threadId p)) threadId) then (false, b)
      else if negb (str_truthy (pa_turnId p)) || negb (str_truthy turnId)
              || negb (opt_str_eqb (pa_turnId p) turnId) then (false, b)
      else
        let b := with_timers (mdelete (pa_timer p) (timers b)) b in
        let b := with_pendingApprovals (mdelete requestId (pendingApprovals b)) b in
        (true, decide_approval (pa_request p) (pa_method p)
                 {| d_decision := decision; d_amendment := amendment |} b)
  end.

(** The ten-minute timer of an approval. *)
Definition approvalTimeout (n : nat) (b : CodexBridge) : CodexBridge :=
  match mget n (timers b) with
  | None => b
  | Some t =>
      let b := with_timers (mdelete n (timers b)) b in
      let b := with_pendingApprovals (mdelete (tm_requestId t) (pendingApprovals b)) b in
      let b := emit (event "gateway/codex/approvalExpired"
        [("requestId", VStr (tm_requestId t)); ("threadId", VStr (tm_threadId t));
         ("requestMethod", VStr (tm_method t)); ("expiresAt", VStr (tm_expiresAt t))]) b in
      decide_approval (tm_request t) (tm_method t) DENY b
  end.

(** [typeof record.key === "string" ? record.key.slice(0, n) : undefined] *)
Definition sliced (n : nat) (key : string) (record : val) : option string :=
  slice0 n <$> str_prop key record.

Definition proposed_amendment (record : val) : val :=
  match prop "proposedExecpolicyAmendment" record with
  | VArr l => VArr (map (fun s => VStr (slice0 300 s)) (take 50 (omap as_str l)))
  | _ => VUndef
  end.

Definition approval_event (request : val) (method : string) (params : val) (threadId expiresAt : string)
    : CodexEvent :=
  let record := as_record params in
  event "gateway/codex/approvalRequested"
    [("requestId", VStr (to_string request)); ("threadId", VStr threadId);
     ("turnId", str_val (str_prop "turnId" record)); ("requestMethod", VStr method);
     ("expiresAt", VStr expiresAt); ("itemId", str_val (str_prop "itemId" record));
     ("summary", str_val (match str_prop "reason" record with
                          | Some s => Some (slice0 2000 s)
                          | None => sliced 2000 "message" record end));
     ("command", str_val (sliced (Z.to_nat 12000) "command" record));
     ("cwd", str_val (sliced 2000 "cwd" record));
     ("proposedExecpolicyAmendment", proposed_amendment record);
     ("params", summarizeParams params)].

(** After the second audit record: announce the request, then deny it when too
    many are pending or wait for a decision. *)
Definition ask (now : Z) (request : val) (method : string) (params : val) (threadId : string)
    (b : CodexBridge) : CodexBridge :=
  let expiresAt := toISOString (now + 10 * 60 * 1000) in
  let b := emit (approval_event request method params threadId expiresAt) b in
  if (maxPendingApprovals <=? length (pendingApprovals b))%nat
  then decide_approval request method DENY b
  else
    let n := next_timer b in
    let requestId := to_string request in
    let b := with_next_timer (S n) b in
    let b := with_timers (mset n {| tm_requestId := requestId; tm_threadId := threadId; tm_method := method;
                                    tm_request := request; tm_expiresAt := expiresAt |} (timers b)) b in
    with_pendingApprovals (mset requestId
      {| pa_threadId := threadId; pa_turnId := str_prop "turnId" (as_record params); pa_method := method;
         pa_request := request; pa_timer := n |} (pendingApprovals b)) b.

(** The answer given without asking. *)
Definition automatic_result (method : string) : val :=
  if (method === "item/commandExecution/requestApproval") || (method === "item/fileChange/requestApproval")
  then VObj [("decision", VStr "accept")]
  else if (method === "execCommandApproval") || (method === "applyPatchApproval")
  then VObj [("decision", VStr "approved_for_session")]
  else if method === "item/tool/requestUserInput" then VObj [("answers", VObj [])]
  else VNull.

(** After the first audit record. *)
Definition serve (request : val) (method : string) (params : val) (b : CodexBridge) : CodexBridge :=
  let threadId := str_prop "threadId" (as_record params) in
  let mode := if str_truthy threadId then policy_of (default "" threadId) b else confirm in
  match mode with
  | confirm =>
      if isApprovalRequest method then
        if str_truthy threadId
        then with_serving (serving b ++ [Asking request method params (default "" threadId)]) b
        else reply request method (approvalResult method DENY) b
      else reply request method (automatic_result method) b
  | full_access =>
      let b := if method === "item/commandExecution/requestApproval"
               then emit (event "gateway/codex/serverRequest"
                      [("backendRequestId", request); ("requestMethod", VStr method);
                       ("params", summarizeParams params)]) b
               else b in
      reply request method (automatic_result method) b
  end.

(** The audit record the [i]-th server request awaits is written, or fails. *)
Definition audited (i : nat) (ok : bool) (error : string) (now : Z) (b : CodexBridge) : CodexBridge :=
  match serving b !! i with
  | None => b
  | Some stage =>
      let b := with_serving (take i (serving b) ++ drop (S i) (serving b)) b in
      match stage with
      | Received request method params =>
          if ok then serve request method params b else request_failed request method error b
      | Asking request method params threadId =>
          if ok then ask now request method params threadId b else request_failed request method error b
      end
  end.

(** ** Input from the child *)

(** Pending requests are rejected, pending approvals denied. A denied request is
    answered when its promise continues, which is after [rest], what the caller
    of [rejectAll] does before it returns. *)
Definition rejectAll (e : bridge_error) (rest : CodexBridge -> CodexBridge) (b : CodexBridge) : CodexBridge :=
  let b := with_settled (settled b ++ map (fun x => (x.1, Rejected e)) (pending b)) (with_pending [] b) in
  let approvals := pendingApprovals b in
  let b := with_timers (foldl (fun ts x => mdelete (pa_timer x.2) ts) (timers b) approvals) b in
  let b := rest (with_pendingApprovals [] b) in
  foldl (fun b x => decide_approval (pa_request x.2) (pa_method x.2) DENY b) b approvals.

Definition id_of (v : val) : option rpc_id :=
  match v with
  | VNum (NInt n) => Some (IdNum n)
  | VStr s => Some (IdStr s)
  | _ => None
  end.

Section parser.
Context (JSON_parse : string -> option val).

(** A pending id is a number; any value of [id] but [undefined] makes a
    message with a method a server request. *)
Definition handleMessage (raw : string) (b : CodexBridge) : CodexBridge :=
  match JSON_parse raw with
  | None => emit (event "codex/unparseable" [("raw", VStr raw)]) b
  | Some message =>
      if negb (is_object message) then b
      else
        let id := id_of (prop "id" message) in
        match (i ← id; m ← mget i (pending b); Some (i, m)) with
        | Some (i, _) =>
            let b := with_pending (mdelete i (pending b)) b in
            settle i (match messageError message with
                      | Some e => Rejected e
                      | None => Resolved (nullish (prop "result" message) message)
                      end) b
        | None =>
            match prop "method" message, prop "id" message with
            | VStr method, VUndef => emit {| e_method := method; e_params := prop "params" message |} b
            | VStr method, i => with_serving (serving b ++ [Received i method (prop "params" message)]) b
            | _, _ => b
            end
        end
  end.

Definition NEWLINE : ascii := ascii_of_nat 10.

(** The complete lines of a buffer and the rest after the last newline. *)
Fixpoint split_lines (s : string) : list string * string :=
  match s with
  | "" => ([], "")
  | String c s' =>
      let '(ls, rest) := split_lines s' in
      if Ascii.eqb c NEWLINE then ("" :: ls, rest)
      else match ls with
           | [] => ([], String c rest)
           | l :: ls' => (String c l :: ls', rest)
           end
  end.

Definition handle_line (b : CodexBridge) (raw : string) : CodexBridge :=
  let line := trim raw in if line === "" then b else handleMessage line b.

Definition kill_child (b : CodexBridge) : CodexBridge :=
  match child b with
  | Some c => with_child (Some {| killed := true; writable := writable c |}) b
  | None => b
  end.

Definition output_limit (b : CodexBridge) : CodexBridge :=
  rejectAll (Error "Codex app-server output exceeded the safety limit")
    (fun b => emit (event "codex/app-server/output-limit" [("maxBytes", vint maxStdoutBufferBytes)]) (kill_child b))
    (with_stdoutBuffer "" b).

(** The loop takes one line at a time; [handleMessage] does not read the
    buffer, so the lines are split up front. *)
Definition handleStdoutChunk (chunk : string) (b : CodexBridge) : CodexBridge :=
  let buffer := stdoutBuffer b ^^ chunk in
  if maxStdoutBufferBytes <? Z.of_nat (byte_length buffer) then output_limit b
  else
    let '(lines, rest) := split_lines buffer in
    with_stdoutBuffer rest (foldl handle_line b lines).

(** [child.on("exit")] *)
Definition childExit (message : string) (params : list (string * val)) (b : CodexBridge) : CodexBridge :=
  let b := with_child None (with_ready false b) in
  rejectAll (Error message) (emit (event "codex/app-server/exited" params)) b.

(** [child.on("error")]: the process could not be started or signalled. *)
Definition childError (message command : string) (b : CodexBridge) : CodexBridge :=
  let b := with_child None (with_ready false b) in
  rejectAll (Error message) (emit (event "codex/app-server/error" [("message", VStr message); ("command", VStr command)])) b.

(** [child.stdin.on("error")]: the handler. That Node destroys the stream is not
    modelled: a later write to it is recorded and gets no answer, so that its
    request ends by its time-out instead of at once. *)
Definition stdinError (message : string) (b : CodexBridge) : CodexBridge :=
  rejectAll (Error message) (fun b => b) (with_ready false b).

Definition shutdown (b : CodexBridge) : CodexBridge :=
  rejectAll (Error "Codex app-server shutting down") (with_child None) (with_ready false b).

(** [ensureServerProcess] spawning a new child. *)
Definition spawned (b : CodexBridge) : CodexBridge :=
  match child b with
  | Some c => if killed c then with_stdoutBuffer "" (with_child (Some {| killed := false; writable := true |}) b) else b
  | None => with_stdoutBuffer "" (with_child (Some {| killed := false; writable := true |}) b)
  end.

(** ** Steps of the event loop *)

Inductive bridge_op :=
| Request (method : string) (params : val)
| ResumeThread (threadId : string) (mode : option SessionPolicyMode)
| ForkThread (threadId : string) (mode : option SessionPolicyMode) (threadSource : string)
| StartThread (cwd : string) (mode : SessionPolicyMode) (o : CodexRunOptions)
| StartTurn (threadId : string) (input : val) (mode : option SessionPolicyMode) (o : CodexRunOptions)
| SetPolicy (threadId : string) (mode : SessionPolicyMode)
| RequestTimeout (i : rpc_id) (timeoutMs : Z)
| ModelCheck (now : Z) (model : option string) (response : val)
| Resolve (requestId : string) (decision : Decision) (threadId turnId : option string)
    (amendment : option (list string))
| ApprovalTimeout (n : nat)
| Audited (i : nat) (ok : bool) (error : string) (now : Z)
| Stdout (chunk : string)
| StdinError (message : string)
| ChildExit (message : string) (params : list (string * val))
| ChildError (message command : string)
| Shutdown
| Spawn.

Definition bridge_exec (o : bridge_op) (b : CodexBridge) : CodexBridge :=
  match o with
  | Request m p => (sendRequest m p b).2
  | ResumeThread t m => (resumeThread t m b).2
  | ForkThread t m s => (forkThread t m s b).2
  | StartThread c m o => (startThread c m o b).2
  | StartTurn t i m o => (startTurn t i m o b).2
  | SetPolicy t m => setPolicyMode t m b
  | RequestTimeout i ms => requestTimeout i ms b
  | ModelCheck now m r => (ensureModelAvailable now m r b).2
  | Resolve r d t u a => (resolveApproval r d t u a b).2
  | ApprovalTimeout n => approvalTimeout n b
  | Audited i ok e now => audited i ok e now b
  | Stdout c => handleStdoutChunk c b
  | StdinError m => stdinError m b
  | ChildExit m p => childExit m p b
  | ChildError m c => childError m c b
  | Shutdown => shutdown b
  | Spawn => spawned b
  end.

Definition bridge_run (os : list bridge_op) (b : CodexBridge) : CodexBridge :=
  foldl (fun b o => bridge_exec o b) b os.
End parser.

(** [new CodexBridge()] *)
Definition initial : CodexBridge :=
  mkBridge None 1 [] [] [] 0 [] None false "" [] [] [] [].

(** ** Framing of the output *)


Section framing.
Context (JSON_parse : string -> option val).






End framing.


(** ** Approvals fail closed *)

(** A message that grants what Codex asked for. *)
Definition grants (m : val) : bool :=
  let result := prop "result" m in
  match prop "decision" result with
  | VStr s => (s === "accept") || (s === "approved_for_session")
  | VObj _ => true
  | _ => match prop "answers" result with VObj _ => true | _ => false end
  end.

(** Only refusals and requests were written. *)
Definition quiet (b b' : CodexBridge) : Prop :=
  exists ms, written b' = written b ++ ms /\ Forall (fun m => grants m = false) ms.

#[global] Instance quiet_preorder : PreOrder quiet.
Proof.
  split.
  - intros b. exists []. split; [by rewrite app_nil_r|constructor].
  - intros b1 b2 b3 (m1 & E1 & H1) (m2 & E2 & H2). exists (m1 ++ m2).
    rewrite E2, E1, app_assoc. split; [done|]. by apply Forall_app.
Qed.

Lemma quiet_same b b' : written b' = written b -> quiet b b'.
Proof. intros E. exists []. rewrite E, app_nil_r. split; [done|constructor]. Qed.

Lemma quiet_write m b : grants m = false -> quiet b (default b (writeMessage m b)).
Proof.
  intros H. unfold writeMessage. case_match; [|reflexivity]. simpl. exists [m].
  split; [done|by repeat constructor].
Qed.

#[export] Hint Resolve quiet_same : js.

Lemma quiet_failed req m msg b : quiet b (request_failed req m msg b).
Proof. unfold request_failed. etrans; [|by apply quiet_write]. by apply quiet_same. Qed.

Lemma quiet_reply req m r b : grants (VObj [("id", req); ("result", r)]) = false -> quiet b (reply req m r b).
Proof.
  intros H. unfold reply. pose proof (quiet_write _ b H) as Hq.
  destruct (writeMessage _ b); [exact Hq|apply quiet_failed].
Qed.

Lemma deny_refuses method a :
  grants (VObj [("id", VNull); ("result", approvalResult method {| d_decision := deny; d_amendment := a |})])
  = false.
Proof. unfold approvalResult. simpl. by repeat case_match. Qed.

Lemma grants_id i r : grants (VObj [("id", i); ("result", r)]) = grants (VObj [("id", VNull); ("result", r)]).
Proof. done. Qed.

Lemma quiet_deny req method b : quiet b (decide_approval req method DENY b).
Proof. apply quiet_reply. rewrite grants_id. apply deny_refuses. Qed.

Lemma quiet_deny_all (l : jmap string PendingApproval) b :
  quiet b (foldl (fun b x => decide_approval (pa_request x.2) (pa_method x.2) DENY b) b l).
Proof.
  revert b. induction l as [|x l IH]; intros b; [reflexivity|]. simpl.
  etrans; [apply quiet_deny|apply IH].
Qed.

Lemma written_kill b : written (kill_child b) = written b.
Proof. unfold kill_child. by destruct (child b). Qed.

Lemma quiet_rejectAll e rest b :
  (forall x, written (rest x) = written x) -> quiet b (rejectAll e rest b).
Proof. intros H. unfold rejectAll. cbv zeta. etrans; [|apply quiet_deny_all]. apply quiet_same. by rewrite H. Qed.

Lemma quiet_sendRequest m p b : quiet b (sendRequest m p b).2.
Proof.
  unfold sendRequest. destruct (child_open b); [|reflexivity]. cbn [negb].
  destruct (_ <=? _)%nat; [reflexivity|]. cbv zeta.
  set (b1 := with_pending _ _). assert (quiet b b1) as H1 by (by apply quiet_same).
  set (msg := VObj _). pose proof (quiet_write msg b1 eq_refl) as H2.
  destruct (writeMessage msg b1); simpl in *; by etrans.
Qed.

Lemma quiet_policy t m b : quiet b (rememberPolicy t m b).
Proof. by apply quiet_same. Qed.

Lemma quiet_message parse raw b : quiet b (handleMessage parse raw b).
Proof.
  apply quiet_same. unfold handleMessage. destruct (parse raw) as [v|]; [|done].
  destruct (is_object v); [|done]. simpl. destruct (id_of (prop "id" v)) as [i|]; simpl.
  - destruct (mget i (pending b)); simpl; [done|].
    destruct (prop "method" v); try done. by destruct (prop "id" v).
  - destruct (prop "method" v); try done. by destruct (prop "id" v).
Qed.

Lemma quiet_stdout parse c b : quiet b (handleStdoutChunk parse c b).
Proof.
  unfold handleStdoutChunk. case_match.
  - unfold output_limit. etrans; [|apply quiet_rejectAll; intros x; apply written_kill]. by apply quiet_same.
  - destruct (split_lines _) as [ls rest].
    transitivity (foldl (handle_line parse) b ls); [|by apply quiet_same].
    clear. revert b. induction ls as [|l ls IH]; intros b; [reflexivity|]. simpl.
    etrans; [|apply IH]. unfold handle_line. case_match; [reflexivity|apply quiet_message].
Qed.

(** What a grant may come from. *)
Definition authorized (o : bridge_op) (b : CodexBridge) : Prop :=
  match o with
  | Resolve requestId approve threadId turnId _ =>
      exists p, mget requestId (pendingApprovals b) = Some p /\
        (str_truthy threadId = true -> threadId = Some (pa_threadId p)) /\
        str_truthy turnId = true /\ pa_turnId p = turnId
  | Audited i true _ _ =>
      exists request method params threadId, serving b !! i = Some (Received request method params) /\
        str_prop "threadId" (as_record params) = Some threadId /\ policy_of threadId b = full_access
  | _ => False
  end.

Lemma opt_str_eqb_eq a c : opt_str_eqb a c = true -> a = c.
Proof. destruct a, c; simpl; try done. by intros ->%String.eqb_eq. Qed.

Lemma resolve_authorized r d t u a b :
  quiet b (resolveApproval r d t u a b).2 \/ authorized (Resolve r d t u a) b.
Proof.
  unfold resolveApproval, authorized. destruct (mget r (pendingApprovals b)) as [p|]; [|left; reflexivity].
  destruct (str_truthy t && _) eqn:E1; [left; reflexivity|].
  destruct (negb (str_truthy (pa_turnId p)) || _ || _) eqn:E2; [left; reflexivity|].
  apply orb_false_iff in E2 as [E2 E3]. apply orb_false_iff in E2 as [E2 E4].
  apply negb_false_iff in E2, E3, E4. apply opt_str_eqb_eq in E3.
  destruct d; [right|left].
  - exists p. split_and!; try done. intros Ht. rewrite Ht in E1. cbn [andb] in E1.
    apply negb_false_iff in E1. by apply opt_str_eqb_eq in E1.
  - cbn [snd]. etrans; [|apply quiet_reply; rewrite grants_id; apply deny_refuses].
    by apply quiet_same.
Qed.

Lemma automatic_quiet method : isApprovalRequest method = false -> automatic_result method = VNull.
Proof. unfold isApprovalRequest, automatic_result. simpl. intros H.
  repeat (apply orb_false_iff in H as [? H]). by rewrite H0, H1, H2, H3, H4. Qed.

Lemma serve_authorized req m ps b :
  quiet b (serve req m ps b) \/
  exists t, str_prop "threadId" (as_record ps) = Some t /\ policy_of t b = full_access.
Proof.
  unfold serve. destruct (str_prop _ _) as [t|] eqn:Et; simpl.
  - destruct (String.eqb_spec t ""); simpl.
    + left. destruct (isApprovalRequest m) eqn:Ea; [apply quiet_deny|].
      apply quiet_reply. by rewrite automatic_quiet.
    + destruct (policy_of t b) eqn:Ep; [left|right; eauto].
      destruct (isApprovalRequest m) eqn:Ea; [by apply quiet_same|].
      apply quiet_reply. by rewrite automatic_quiet.
  - left. destruct (isApprovalRequest m) eqn:Ea; [apply quiet_deny|].
    apply quiet_reply. by rewrite automatic_quiet.
Qed.

Lemma quiet_ask now req m ps t b : quiet b (ask now req m ps t b).
Proof.
  unfold ask. cbv zeta. case_match; [|by apply quiet_same].
  etrans; [|apply quiet_deny]. by apply quiet_same.
Qed.

Lemma step_authorized parse o b : quiet b (bridge_exec parse o b) \/ authorized o b.
Proof.
  destruct o; cbn [bridge_exec];
    try (left; first [apply quiet_sendRequest | apply quiet_stdout | by apply quiet_same]).
  - left. unfold resumeThread. etrans; [apply quiet_policy|apply quiet_sendRequest].
  - left. unfold forkThread. etrans; [apply quiet_policy|apply quiet_sendRequest].
  - left. unfold startTurn. etrans; [apply quiet_policy|apply quiet_sendRequest].
  - left. unfold requestTimeout. case_match; [by apply quiet_same|reflexivity].
  - left. unfold ensureModelAvailable. case_match; [reflexivity|]. case_match; by apply quiet_same.
  - apply resolve_authorized.
  - left. unfold approvalTimeout. case_match; [|reflexivity].
    etrans; [|apply quiet_deny]. by apply quiet_same.
  - unfold audited. destruct (serving b !! i) as [stage|] eqn:E; [|left; reflexivity].
    set (b1 := with_serving _ b). assert (quiet b b1) as Hb by (by apply quiet_same).
    destruct stage as [req m ps|req m ps t], ok;
      try (left; etrans; [exact Hb|]; first [apply quiet_failed | apply quiet_ask]).
    destruct (serve_authorized req m ps b1) as [H|(t & Ht & Hp)].
    + left. by etrans.
    + right. simpl. eauto 8.
  - left. unfold stdinError. etrans; [|by apply quiet_rejectAll]. by apply quiet_same.
  - left. unfold childExit. etrans; [|by apply quiet_rejectAll]. by apply quiet_same.
  - left. unfold childError. etrans; [|by apply quiet_rejectAll]. by apply quiet_same.
  - left. unfold shutdown. etrans; [|by apply quiet_rejectAll]. by apply quiet_same.
  - left. apply quiet_same. unfold spawned. by repeat case_match.
Qed.

(** C17: approvals fail closed: whatever the bridge does in a step, if it writes
    a message that grants a command, a file change or an answer, then the step
    is an explicit approval that names the pending request and its turn (and,
    when given, its thread), or the request belongs to a thread running with
    full access. Time-outs, crashes, shutdown, overload and unattributable
    requests only ever refuse. *)
Theorem approvals_fail_closed parse o b m :
  m ∈ drop (length (written b)) (written (bridge_exec parse o b)) -> grants m = true ->
  authorized o b.
Proof.
  intros Hm Hg. destruct (step_authorized parse o b) as [(ms & E & H)|H]; [|done].
  rewrite E, drop_app_length in Hm. rewrite Forall_forall in H. specialize (H m Hm). congruence.
Qed.

(** A thread in confirm mode asks, a user approves. *)
Definition asking_bridge : CodexBridge :=
  ask 0 (vint 7) "execCommandApproval" (VObj [("threadId", VStr "t"); ("turnId", VStr "u")]) "t"
    (spawned initial).

Lemma approvals_fail_closed_witness :
  let o := Resolve "7" approve (Some "t") (Some "u") None in
  let m := VObj [("id", vint 7); ("result", VObj [("decision", VStr "approved_for_session")])] in
  let parse := fun _ => None in
  ((m ∈ drop (length (written asking_bridge)) (written (bridge_exec parse o asking_bridge))) /\ grants m = true) /\
  authorized o asking_bridge.
Proof.
  assert (VObj [("id", vint 7); ("result", VObj [("decision", VStr "approved_for_session")])]
    ∈ drop (length (written asking_bridge))
        (written (bridge_exec (fun _ => None) (Resolve "7" approve (Some "t") (Some "u") None) asking_bridge)))
    as Hin by (vm_compute; left).
  split; [split; [exact Hin|reflexivity]|].
  apply (approvals_fail_closed (fun _ => None) (Resolve "7" approve (Some "t") (Some "u") None) asking_bridge
    (VObj [("id", vint 7); ("result", VObj [("decision", VStr "approved_for_session")])]) Hin).
  reflexivity.
Defined.

(** ** Bounds *)

Record wf_bridge (b : CodexBridge) : Prop := {
  wb_pending : NoDup (pending b).*1 /\ (length (pending b) <= maxPendingRequests)%nat;
  wb_ids : Forall (fun e => exists n, e.1 = IdNum n /\ n < nextId b) (pending b);
  wb_approvals : NoDup (pendingApprovals b).*1 /\ (length (pendingApprovals b) <= maxPendingApprovals)%nat;
  wb_policy : NoDup (policyByThread b).*1 /\ (length (policyByThread b) <= maxPolicyEntries)%nat
}.

(** The tables an operation leaves alone. *)
Definition same_tables (b b' : CodexBridge) : Prop :=
  pending b' = pending b /\ nextId b' = nextId b /\ pendingApprovals b' = pendingApprovals b /\
  policyByThread b' = policyByThread b.

#[global] Instance same_tables_preorder : PreOrder same_tables.
Proof. split; [done|]. intros ??? (?&?&?&?) (?&?&?&?). repeat split; congruence. Qed.

Lemma wf_same_tables b b' : same_tables b b' -> wf_bridge b -> wf_bridge b'.
Proof. intros (E1 & E2 & E3 & E4) []. constructor; rewrite ?E1, ?E2, ?E3, ?E4; done. Qed.

Lemma same_tables_reply req m r b : same_tables b (reply req m r b).
Proof.
  unfold reply, request_failed, writeMessage. destruct (child_open b) eqn:E; [done|].
  simpl. by case_match.
Qed.

Lemma same_tables_failed req m msg b : same_tables b (request_failed req m msg b).
Proof. unfold request_failed, writeMessage. by case_match. Qed.

Lemma wf_sendRequest m p b : wf_bridge b -> wf_bridge (sendRequest m p b).2.
Proof.
  intros H. unfold sendRequest. destruct (child_open b) eqn:Ec; [|done]. cbn [negb].
  destruct (Nat.leb_spec maxPendingRequests (length (pending b))) as [|Hl]; [done|].
  unfold writeMessage. cbv zeta.
  match goal with |- context [if child_open ?b1 then _ else _] =>
    change (child_open b1) with (child_open b); rewrite Ec end.
  assert (mget (IdNum (nextId b)) (pending b) = None) as Hnew.
  { apply mget_None_keys. intros Hin. apply list_elem_of_fmap in Hin as (e & E & Hin).
    destruct H as [_ H _ _]. rewrite Forall_forall in H. destruct (H _ Hin) as (n & En & Hn).
    rewrite <- E in En. injection En as En. lia. }
  destruct H as [[H1 H2] H3 H4 H5]. simpl. constructor; simpl; try done.
  - split; [auto with js|]. rewrite mset_absent, length_app by done. simpl. lia.
  - rewrite mset_absent by done. apply Forall_app. split.
    + eapply Forall_impl; [exact H3|]. intros e (n & E & Hn). exists n. split; [done|lia].
    + constructor; [exists (nextId b); simpl; split; [done|lia]|constructor].
Qed.

Lemma wf_policy t m b : wf_bridge b -> wf_bridge (rememberPolicy t m b).
Proof.
  intros [? ? ? [H1 _]]. constructor; simpl; try done.
  split; [auto with js|apply mshrink_length].
Qed.

Lemma wf_drop_approval r b :
  wf_bridge b -> wf_bridge (with_pendingApprovals (mdelete r (pendingApprovals b)) b).
Proof.
  intros [? ? [H1 H2] ?]. constructor; simpl; try done.
  split; [auto with js|]. etrans; [apply mdelete_length|done].
Qed.

Lemma wf_deny_all (l : jmap string PendingApproval) b :
  wf_bridge b ->
  wf_bridge (foldl (fun b x => decide_approval (pa_request x.2) (pa_method x.2) DENY b) b l).
Proof.
  revert b. induction l as [|x l IH]; intros b H; [done|]. simpl. apply IH.
  eapply wf_same_tables; [apply same_tables_reply|done].
Qed.

Lemma tables_kill b : same_tables b (kill_child b).
Proof. unfold kill_child. by destruct (child b). Qed.

Lemma wf_rejectAll e rest b :
  (forall x, same_tables x (rest x)) -> wf_bridge b -> wf_bridge (rejectAll e rest b).
Proof.
  intros Hr H. unfold rejectAll. cbv zeta. apply wf_deny_all. eapply wf_same_tables; [apply Hr|].
  destruct H. constructor; simpl; auto using NoDup_nil_2; (split; [apply NoDup_nil_2|lia]).
Qed.

Lemma wf_message parse raw b : wf_bridge b -> wf_bridge (handleMessage parse raw b).
Proof.
  intros H. unfold handleMessage. destruct (parse raw) as [v|]; [|by destruct H].
  destruct (is_object v); [|done]. cbn [negb].
  assert (wf_bridge match prop "method" v with
    | VStr method => match prop "id" v with
                     | VUndef => emit {| e_method := method; e_params := prop "params" v |} b
                     | i => with_serving (serving b ++ [Received i method (prop "params" v)]) b
                     end
    | _ => b end) as Hrest.
  { destruct (prop "method" v); try done. destruct (prop "id" v); by destruct H. }
  destruct (id_of (prop "id" v)) as [i|]; simpl; [|by destruct (prop "method" v)].
  destruct (mget i (pending b)); simpl; [|by destruct (prop "method" v)].
  destruct H as [[H1 H2] H3 H4 H5]. constructor; simpl; try done.
  - split; [auto with js|]. etrans; [apply mdelete_length|done].
  - rewrite mdelete_mfilter. unfold mfilter. apply Forall_forall. intros e He.
    apply list_elem_of_In, filter_In in He as [He _]. rewrite Forall_forall in H3.
    by apply H3, list_elem_of_In.
Qed.

Lemma wf_stdout parse c b : wf_bridge b -> wf_bridge (handleStdoutChunk parse c b).
Proof.
  intros H. unfold handleStdoutChunk. case_match.
  - unfold output_limit. apply wf_rejectAll; [intros x; apply tables_kill|]. by eapply wf_same_tables; [|exact H].
  - destruct (split_lines _) as [ls rest].
    assert (wf_bridge (foldl (handle_line parse) b ls)) as H1.
    { clear -H. revert b H. induction ls as [|l ls IH]; intros b H; [done|]. simpl. apply IH.
      unfold handle_line. case_match; [done|by apply wf_message]. }
    by eapply wf_same_tables; [|exact H1].
Qed.

Lemma wf_ask now req m ps t b : wf_bridge b -> wf_bridge (ask now req m ps t b).
Proof.
  intros H. unfold ask. cbv zeta. cbn [pendingApprovals emit with_emitted].
  destruct (Nat.leb_spec maxPendingApprovals (length (pendingApprovals b))) as [|Hl].
  - eapply wf_same_tables; [apply same_tables_reply|]. by eapply wf_same_tables; [|exact H].
  - destruct H as [? ? [H1 H2] ?]. constructor; simpl; try done.
    split; [auto with js|]. rewrite mset_length. case_match; lia.
Qed.

Lemma wf_audited i ok e now b : wf_bridge b -> wf_bridge (audited i ok e now b).
Proof.
  intros H. unfold audited. destruct (serving b !! i) as [stage|]; [|done].
  set (b1 := with_serving _ b). assert (wf_bridge b1) as H1 by (by eapply wf_same_tables; [|exact H]).
  destruct stage as [req m ps|req m ps t], ok;
    try (eapply wf_same_tables; [apply same_tables_failed|done]); [|by apply wf_ask].
  unfold serve. repeat case_match; try (eapply wf_same_tables; [apply same_tables_reply|]);
    by eapply wf_same_tables; [|exact H1].
Qed.

Lemma wf_bridge_exec parse o b : wf_bridge b -> wf_bridge (bridge_exec parse o b).
Proof.
  intros H. destruct o; cbn [bridge_exec];
    try (first [by apply wf_sendRequest | by apply wf_stdout | by apply wf_policy | by apply wf_audited]).
  - by apply wf_sendRequest, wf_policy.
  - by apply wf_sendRequest, wf_policy.
  - by apply wf_sendRequest, wf_policy.
  - unfold requestTimeout. case_match; [|done]. destruct H as [[H1 H2] H3 H4 H5].
    constructor; simpl; try done.
    + split; [auto with js|]. etrans; [apply mdelete_length|done].
    + rewrite mdelete_mfilter. unfold mfilter. apply Forall_forall. intros x Hx.
      apply list_elem_of_In, filter_In in Hx as [Hx _]. rewrite Forall_forall in H3.
      by apply H3, list_elem_of_In.
  - unfold ensureModelAvailable. repeat case_match; by destruct H.
  - unfold resolveApproval. repeat (case_match; try done). cbn [snd].
    eapply wf_same_tables; [apply same_tables_reply|].
    apply (wf_drop_approval requestId (with_timers _ b)). by eapply wf_same_tables; [|exact H].
  - unfold approvalTimeout. case_match; [|done].
    eapply wf_same_tables; [apply same_tables_reply|].
    eapply wf_same_tables; [|apply (wf_drop_approval (tm_requestId a) b H)]. done.
  - apply wf_rejectAll; [done|]. by eapply wf_same_tables; [|exact H].
  - apply wf_rejectAll; [done|]. by eapply wf_same_tables; [|exact H].
  - apply wf_rejectAll; [done|]. by eapply wf_same_tables; [|exact H].
  - apply wf_rejectAll; [done|]. by eapply wf_same_tables; [|exact H].
  - eapply wf_same_tables; [|exact H]. unfold spawned. by repeat case_match.
Qed.

(** C21: the bridge's tables stay bounded and consistent over every run: at
    most 1024 pending requests with distinct ids below the next one (so a
    response settles the request it answers), at most 256 pending approvals
    and 10000 remembered policies. *)
Theorem bridge_invariant parse os : wf_bridge (bridge_run parse os initial).
Proof.
  assert (wf_bridge initial) as H.
  { constructor; simpl; [split; [constructor|lia]|constructor|split; [constructor|lia]|split; [constructor|lia]]. }
  revert H. generalize initial. induction os as [|o os IH]; intros b H; [done|]. by apply IH, wf_bridge_exec.
Qed.

(** the child process inherits no credential: every variable it receives is
    [PATH] or an unchanged variable of the gateway's environment that is not one
    of the scrubbed names (gateway, relay, database and any API key, token,
    secret, password or private key). *)
Theorem child_env_scrubbed delimiter env key value :
  NoDup env.*1 ->
  mget key (processEnvWithToolPath delimiter env) = Some value ->
  key = "PATH" \/ (scrubbed_key key = false /\ mget key env = Some value).
Proof.
  intros Hn. unfold processEnvWithToolPath. rewrite mget_mset. case_decide as E; [by left|].
  rewrite mget_mfilter by done. intros H. right. destruct (mget key env); [|done].
  destruct (scrubbed_key key); simplify_eq/=; done.
Qed.

Lemma child_env_scrubbed_witness :
  let env := [("HOME", "/root"); ("OPENAI_API_KEY", "k"); ("PATH", "/bin")] in
  (NoDup env.*1 /\ mget "HOME" (processEnvWithToolPath ":" env) = Some "/root") /\
  ("HOME" = "PATH" \/ (scrubbed_key "HOME" = false /\ mget "HOME" env = Some "/root")).
Proof.
  assert (NoDup [("HOME", "/root"); ("OPENAI_API_KEY", "k"); ("PATH", "/bin")].*1) as Hn
    by (apply (bool_decide_unpack _); vm_compute; exact I).
  split; [split; [exact Hn|reflexivity]|].
  apply (child_env_scrubbed ":" [("HOME", "/root"); ("OPENAI_API_KEY", "k"); ("PATH", "/bin")] "HOME" "/root");
    [exact Hn|reflexivity].
Defined.

(** Two server requests with the ids 1 and "1". *)
Definition ask_params : val := VObj [("threadId", VStr "t"); ("turnId", VStr "u")].
Definition colliding : CodexBridge :=
  ask 0 (VStr "1") "execCommandApproval" ask_params "t"
    (ask 0 (vint 1) "execCommandApproval" ask_params "t" (spawned initial)).

(** Pending approvals are filed under [String(id)], so a request with the
    string id "1" replaces the pending request with the number id 1; when the
    timer of the replaced request fires it removes the entry of the other one,
    which then can no longer be approved although its own timer still runs. *)
Theorem approval_ids_collide :
  length (pendingApprovals colliding) = 1%nat /\ length (timers colliding) = 2%nat /\
  let b := approvalTimeout 0 colliding in
  pendingApprovals b = [] /\ length (timers b) = 1%nat /\
  (resolveApproval "1" approve (Some "t") (Some "u") None b).1 = false.
Proof. vm_compute. by repeat split. Qed.
