(* ===== verification/Sessions.v ===== *)
(** * Sessions as objects

    server/src/index.ts passes sessions around inside message payloads. The
    translation of a [GatewaySession] to the object it is, its reading back
    (the cast of [extractSessionFromGatewayMessage]), and the conversions
    between thread summaries and sessions. *)

From S2P Require Import Prelude JsValue JsDate GatewayStore CodexEvents.

Local Open Scope Z_scope.

(** [{ ...session, args }] *)
Definition with_s_args (v : list string) (r : GatewaySession) : GatewaySession :=
  mkSession (s_id r) (s_provider r) (s_providerSessionId r) (s_title r) (s_workspacePath r) (s_status
    r) (s_sessionPolicyMode r) (s_activeTurnId r) (s_canResume r) (s_resumeStatus r) (s_command r) v
    (s_prompt r) (s_modelLabel r) (s_modelProvider r) (s_createdAt r) (s_lastUpdatedAt r) (s_startedAt
    r) (s_finishedAt r) (s_lastTurnStartedAt r) (s_lastTurnFinishedAt r) (s_lastClientRequestId r)
    (s_recentClientRequestIds r) (s_exitCode r) (s_parentSessionId r) (s_childSessionIds r)
    (s_threadSource r) (s_agentNickname r) (s_agentRole r) (s_agentPath r).

(** ** A session as an object *)

Definition mode_str (m : SessionPolicyMode) : string :=
  match m with confirm => "confirm" | full_access => "full-access" end.
Definition resume_str (r : ResumeStatus) : string :=
  match r with resumable => "resumable" | history_only => "history-only" | missing_thread => "missing-thread" end.

Definition status_of (s : string) : option GatewaySessionStatus :=
  List.find (fun x => status_str x === s) [starting; running; waiting_approval; completed; failed; cancelled].
Definition mode_of (s : string) : option SessionPolicyMode :=
  List.find (fun x => mode_str x === s) [confirm; full_access].
Definition resume_of (s : string) : option ResumeStatus :=
  List.find (fun x => resume_str x === s) [resumable; history_only; missing_thread].

(** An own property: absent, [undefined] or a value. *)
Definition enc_field {A} (e : A -> val) (f : field A) : option val :=
  match f with Absent => None | Undef => Some VUndef | Val a => Some (e a) end.
Definition dec_field {A} (d : val -> option A) (o : option val) : option (field A) :=
  match o with
  | None => Some Absent
  | Some VUndef => Some Undef
  | Some v => Val <$> d v
  end.

Definition strs_val (l : list string) : val := VArr (map VStr l).
Definition val_strs (v : val) : option (list string) :=
  match v with VArr l => mapM as_str l | _ => None end.
Definition exit_val (o : option Z) : val := match o with Some z => vint z | None => VNull end.
Definition val_exit (v : val) : option (option Z) :=
  match v with VNull => Some None | VNum (NInt z) => Some (Some z) | _ => None end.

Definition session_entries (s : GatewaySession) : list (string * option val) :=
  [("id", Some (VStr (s_id s)));
   ("provider", Some (VStr "codex"));
   ("providerSessionId", Some (VStr (s_providerSessionId s)));
   ("title", Some (VStr (s_title s)));
   ("workspacePath", Some (VStr (s_workspacePath s)));
   ("status", Some (VStr (status_str (s_status s))));
   ("sessionPolicyMode", Some (VStr (mode_str (s_sessionPolicyMode s))));
   ("activeTurnId", enc_field VStr (s_activeTurnId s));
   ("canResume", Some (VBool (s_canResume s)));
   ("resumeStatus", Some (VStr (resume_str (s_resumeStatus s))));
   ("command", Some (VStr (s_command s)));
   ("args", Some (strs_val (s_args s)));
   ("prompt", Some (VStr (s_prompt s)));
   ("modelLabel", enc_field VStr (s_modelLabel s));
   ("modelProvider", enc_field VStr (s_modelProvider s));
   ("createdAt", Some (VStr (s_createdAt s)));
   ("lastUpdatedAt", Some (VStr (s_lastUpdatedAt s)));
   ("startedAt", enc_field VStr (s_startedAt s));
   ("finishedAt", enc_field VStr (s_finishedAt s));
   ("lastTurnStartedAt", enc_field VStr (s_lastTurnStartedAt s));
   ("lastTurnFinishedAt", enc_field VStr (s_lastTurnFinishedAt s));
   ("lastClientRequestId", enc_field VStr (s_lastClientRequestId s));
   ("recentClientRequestIds", enc_field strs_val (s_recentClientRequestIds s));
   ("exitCode", enc_field exit_val (s_exitCode s));
   ("parentSessionId", enc_field VStr (s_parentSessionId s));
   ("childSessionIds", enc_field strs_val (s_childSessionIds s));
   ("threadSource", enc_field VStr (s_threadSource s));
   ("agentNickname", enc_field VStr (s_agentNickname s));
   ("agentRole", enc_field VStr (s_agentRole s));
   ("agentPath", enc_field VStr (s_agentPath s))].

Definition present (l : list (string * option val)) : list (string * val) :=
  omap (fun e => v ← e.2; Some (e.1, v)) l.

Definition session_val (s : GatewaySession) : val := VObj (present (session_entries s)).

(** The cast [payload.session as RemoteSession]. *)
Definition session_of (v : val) : option GatewaySession :=
  match v with
  | VObj fs =>
      let g key := mget key fs in
      x0 ← (x ← g "id"; as_str x);
      x1 ← Some codex;
      x2 ← (x ← g "providerSessionId"; as_str x);
      x3 ← (x ← g "title"; as_str x);
      x4 ← (x ← g "workspacePath"; as_str x);
      x5 ← (x ← g "status"; y ← as_str x; status_of y);
      x6 ← (x ← g "sessionPolicyMode"; y ← as_str x; mode_of y);
      x7 ← dec_field as_str (g "activeTurnId");
      x8 ← (x ← g "canResume"; match x with VBool b => Some b | _ => None end);
      x9 ← (x ← g "resumeStatus"; y ← as_str x; resume_of y);
      x10 ← (x ← g "command"; as_str x);
      x11 ← (x ← g "args"; val_strs x);
      x12 ← (x ← g "prompt"; as_str x);
      x13 ← dec_field as_str (g "modelLabel");
      x14 ← dec_field as_str (g "modelProvider");
      x15 ← (x ← g "createdAt"; as_str x);
      x16 ← (x ← g "lastUpdatedAt"; as_str x);
      x17 ← dec_field as_str (g "startedAt");
      x18 ← dec_field as_str (g "finishedAt");
      x19 ← dec_field as_str (g "lastTurnStartedAt");
      x20 ← dec_field as_str (g "lastTurnFinishedAt");
      x21 ← dec_field as_str (g "lastClientRequestId");
      x22 ← dec_field val_strs (g "recentClientRequestIds");
      x23 ← dec_field val_exit (g "exitCode");
      x24 ← dec_field as_str (g "parentSessionId");
      x25 ← dec_field val_strs (g "childSessionIds");
      x26 ← dec_field as_str (g "threadSource");
      x27 ← dec_field as_str (g "agentNickname");
      x28 ← dec_field as_str (g "agentRole");
      x29 ← dec_field as_str (g "agentPath");
      Some (mkSession x0 x1 x2 x3 x4 x5 x6 x7 x8 x9 x10 x11 x12 x13 x14 x15 x16 x17 x18 x19 x20 x21 x22 x23 x24 x25 x26 x27 x28 x29)
  | _ => None
  end.

Lemma mget_present k l :
  NoDup l.*1 -> mget k (present l) = (o ← mget k l; o).
Proof.
  induction l as [|[k' [v|]] l IH]; simpl; [done| |]; intros [Hk Hn]%NoDup_cons.
  - case_decide; [done|]. by apply IH.
  - rewrite IH by done. case_decide; [|done]. subst. simpl.
    destruct (mget k l) as [o|] eqn:E; [|done]. exfalso. apply Hk.
    apply mget_Some_elem in E. apply list_elem_of_fmap. by exists (k, o).
Qed.

Lemma val_strs_val l : val_strs (strs_val l) = Some l.
Proof. unfold val_strs, strs_val. induction l as [|x l IH]; simpl in *; [done|]. by rewrite IH. Qed.

Lemma dec_enc {A} (e : A -> val) (d : val -> option A) (f : field A) :
  (forall a, d (e a) = Some a) -> (forall a, e a <> VUndef) -> dec_field d (enc_field e f) = Some f.
Proof.
  intros Hd He. destruct f as [| |a]; simpl; try done. rewrite Hd.
  specialize (He a). by destruct (e a).
Qed.

Lemma dec_str f : dec_field as_str (enc_field VStr f) = Some f.
Proof. by apply dec_enc. Qed.
Lemma dec_strs f : dec_field val_strs (enc_field strs_val f) = Some f.
Proof. by apply dec_enc; [apply val_strs_val|]. Qed.
Lemma dec_exit f : dec_field val_exit (enc_field exit_val f) = Some f.
Proof. apply dec_enc; by intros []. Qed.

Lemma session_keys_NoDup s : NoDup (session_entries s).*1.
Proof. apply (bool_decide_unpack _). vm_compute. exact I. Qed.

Lemma session_lookup k s o :
  mget k (session_entries s) = Some o -> mget k (present (session_entries s)) = o.
Proof. intros E. by rewrite mget_present, E by apply session_keys_NoDup. Qed.

(** Reading back the object of a session gives the session. *)
Lemma session_roundtrip s : session_of (session_val s) = Some s.
Proof.
  unfold session_of, session_val. cbv zeta.
  repeat match goal with |- context [mget ?k (present (session_entries s))] =>
    erewrite (session_lookup k s) by reflexivity end.
  cbn [mbind option_bind as_str].
  rewrite ?dec_str, ?dec_strs, ?dec_exit, ?val_strs_val. cbn [mbind option_bind].
  repeat match goal with |- context [status_of (status_str ?x)] => replace (status_of (status_str x)) with (Some x) by (by destruct x)
   | |- context [mode_of (mode_str ?x)] => replace (mode_of (mode_str x)) with (Some x) by (by destruct x)
   | |- context [resume_of (resume_str ?x)] => replace (resume_of (resume_str x)) with (Some x) by (by destruct x) end.
  cbn [mbind option_bind]. rewrite ?dec_str, ?dec_strs, ?dec_exit, ?val_strs_val. cbn [mbind option_bind].
  rewrite ?dec_str, ?dec_strs, ?dec_exit, ?val_strs_val. destruct s as [? []]. done.
Qed.

(** ** Threads and sessions *)

(** [ThreadSummary] of threads.ts. *)
Record ThreadSummary := mkThread {
  th_id : string; th_title : string; th_cwd : string; th_preview : string;
  th_model : option string; th_modelProvider : string; th_source : string; th_status : string;
  th_createdAtMs : Z; th_updatedAtMs : Z; th_tokensUsed : Z; th_archived : bool; th_gitBranch : option string
}.

Definition with_th_status (v : string) (t : ThreadSummary) : ThreadSummary :=
  mkThread (th_id t) (th_title t) (th_cwd t) (th_preview t) (th_model t) (th_modelProvider t)
    (th_source t) v (th_createdAtMs t) (th_updatedAtMs t) (th_tokensUsed t) (th_archived t) (th_gitBranch t).
Definition with_th_updatedAtMs (v : Z) (t : ThreadSummary) : ThreadSummary :=
  mkThread (th_id t) (th_title t) (th_cwd t) (th_preview t) (th_model t) (th_modelProvider t)
    (th_source t) (th_status t) (th_createdAtMs t) v (th_tokensUsed t) (th_archived t) (th_gitBranch t).
Definition with_th_place (cwd title : string) (t : ThreadSummary) : ThreadSummary :=
  mkThread (th_id t) title cwd (th_preview t) (th_model t) (th_modelProvider t)
    (th_source t) (th_status t) (th_createdAtMs t) (th_updatedAtMs t) (th_tokensUsed t) (th_archived t) (th_gitBranch t).

(** The settings index.ts reads: [config.codexBin] and [process.cwd()]. *)
Record GatewayConfig := { codexBin : string; processCwd : string }.

Section config.
Context (config : GatewayConfig).

Definition session_command : string := codexBin config ^^ " app-server".

Definition threadToSession (thread : ThreadSummary) (overrideStatus : option GatewaySessionStatus)
    : GatewaySession :=
  let status := default (mapThreadStatus (th_status thread)) overrideStatus in
  let createdAt := toISOString (th_createdAtMs thread) in
  let updatedAt := toISOString (th_updatedAtMs thread) in
  let finished := match status with completed => Val updatedAt | _ => Undef end in
  mkSession (th_id thread) codex (th_id thread) (th_title thread) (th_cwd thread) status confirm Absent
    true resumable session_command ["thread/import"; "history/replay"] (th_preview thread)
    (of_opt (th_model thread)) (Val (th_modelProvider thread)) createdAt updatedAt (Val createdAt)
    finished Absent finished Absent Absent Absent Absent Absent Absent Absent Absent Absent.

(** [a || b] on strings. *)
Definition str_or (a b : string) : string := if a === "" then b else a.

Definition minimalSession (now : Z) (id prompt : string) (status : GatewaySessionStatus) : GatewaySession :=
  let now := toISOString now in
  mkSession id codex id (str_or (slice0 32 prompt) "Codex 会话") (processCwd config) status confirm Absent
    true resumable session_command ["thread/start"; "turn/start"] prompt Absent Absent now now (Val now)
    Absent Absent Absent Absent Absent Absent Absent Absent Absent Absent Absent Absent.

(** [Date.parse(s) || fallback] *)
Definition parse_or (s : string) (fallback : Z) : Z :=
  match date_parse s with
  | Some ms => if ms =? 0 then fallback else ms
  | None => fallback
  end.

Definition sessionToThreadSummary (now : Z) (session : GatewaySession) : ThreadSummary :=
  mkThread (s_id session) (s_title session) (s_workspacePath session) (s_prompt session)
    (fget (s_modelLabel session)) (default "codex" (fget (s_modelProvider session))) "gateway"
    (status_str (s_status session)) (parse_or (s_createdAt session) now)
    (parse_or (s_lastUpdatedAt session) now) 0 false None.

Definition latestIso (left : option string) (right : string) : string :=
  match left with
  | Some l => if l === "" then right else if str_ltb right l then l else right
  | None => right
  end.

(** ** Request guards *)

(** An unparseable expiry counts as expired. *)
Definition isRequestExpired (now : Z) (expiresAt : option string) : bool :=
  match expiresAt with
  | None => false
  | Some s => if s === "" then false
              else match date_parse s with Some parsed => parsed <=? now | None => true end
  end.

Definition mode_eqb (a b : option SessionPolicyMode) : bool := bool_decide (a = b).

Definition fullAccessConfirmationRequired (requestedMode : option SessionPolicyMode)
    (confirmed : option bool) (currentMode : option SessionPolicyMode) : bool :=
  mode_eqb requestedMode (Some full_access) && negb (mode_eqb currentMode (Some full_access))
  && negb (match confirmed with Some true => true | _ => false end).
End config.
