(* ===== verification/Gateway.v ===== *)
(** * Gateway: sessions, turns and broadcasts

    server/src/index.ts. The state joins the store, the turn gate, the run
    generations, the bridge and the process-wide sets of index.ts. A handler
    is cut where it awaits: the part up to the first await is one transition;
    what is left is a [task] of [inflight], which a later transition resumes
    with the result of the awaited call, in any order. Calls to Codex, the
    file system and the audit log are those results. Answers, broadcasts and
    interrupts sent to Codex are appended to lists of the state. *)

From S2P Require Import Prelude JsValue JsDate TurnControl GatewayStore StoreInv EventLog CodexEvents CodexBridge Sessions.

Local Open Scope Z_scope.

(** ** State *)

(** The fields of request bodies the handlers read, already validated. *)
Record Body := {
  b_text : string;
  b_clientRequestId : option string;
  b_expiresAt : option string;
  b_mode : option SessionPolicyMode;
  b_confirmFullAccess : option bool;
  b_title : option string;
  b_turnId : option string;
  b_attachments : list val
}.

(** What a handler does once [authorizedThreadContext] has answered. *)
Inductive authorized_next :=
| ToInterrupt (turnId : option string) (notify : bool)
| ToSetPolicy (body : Body) (mode : SessionPolicyMode)
| ToInterject (body : Body)
| ToResolve (requestId : string) (decision : Decision) (turnId : option string)
    (amendment : option (list string)).

(** What [authorizedThreadContext] answers. *)
Record ThreadContext := {
  x_session : option GatewaySession; x_thread : option ThreadSummary; x_workspacePath : option string
}.

(** Where a turn waits: for [resumeThread], [storeAttachments], the model list
    of [startTurn], or the answer to [turn/start]. *)
Inductive turn_phase := Resuming | Storing | Checking | Starting.

(** Where an interjection waits. *)
Inductive steer_phase := Auditing | SteerStoring | Steering.

(** A handler suspended at an await, with the variables it still uses. *)
Inductive gw_task :=
| Authorizing (id : string) (session : option GatewaySession) (next : authorized_next)
| CreateSession (body : Body) (mode : SessionPolicyMode)
| CreateThread (body : Body) (mode : SessionPolicyMode) (workspacePath : string)
| FirstTurnCheck (threadId : string) (mode : SessionPolicyMode)
| FirstTurn (threadId : string)
| ApiCreate (mode : SessionPolicyMode)
| ApiCreateThread (mode : SessionPolicyMode)
| ApiFirstCheck (threadId : string) (mode : SessionPolicyMode) (response : val)
| ApiFirstTurn (threadId : string) (response : val)
| TurnLookup (id : string) (body : Body) (receivedAt : Z)
| TurnRun (id : string) (generation : Z) (policy : SessionPolicyMode) (phase : turn_phase)
| ApiTurnLookup (id : string) (body : Body) (persisted : option GatewaySession)
| ApiTurn (id : string) (body : Body) (persisted : option GatewaySession)
    (thread : option ThreadSummary) (phase : turn_phase)
| InterjectTurn (id : string) (body : Body) (thread : option ThreadSummary) (stored : option string)
| Interject (id : string) (body : Body) (thread : option ThreadSummary) (turnId : string) (phase : steer_phase)
| Interrupt (id : string) (base : GatewaySession) (turnId : option string) (notify : bool)
| PolicyAudit (id : string) (mode : SessionPolicyMode) (session : GatewaySession) (timestamp : Z)
| ResumeLookup (id : string) (mode : SessionPolicyMode) (stored : option GatewaySession)
| Resume (id : string) (mode : SessionPolicyMode)
| ForkLookup (id : string) (body : Body) (parent : option GatewaySession)
| ForkAudit (id : string) (mode : SessionPolicyMode)
| Fork (id : string) (mode : SessionPolicyMode)
| ApprovalAudit (id requestId : string) (decision : Decision) (turnId : option string)
    (amendment : option (list string))
| ImportList
| ImportThread (title : option string).

(** The result of an awaited call: its value, the threads and the workspace
    found, or an error. *)
Inductive outcome :=
| Ok (value : val) (threads : list ThreadSummary) (workspacePath : option string)
| Err (e : bridge_error).

Inductive answer :=
| Refused (code : Z) (error : string)
| AlreadyAccepted (pending : bool) (session : option GatewaySession)
| Accepted (code : Z) (session : option GatewaySession)
| Listed (sessions : list GatewaySession)
| ListedThreads (threads : list ThreadSummary)
| Threw (e : bridge_error).

(** What is broadcast to the clients: gateway messages and remote notices. *)
Inductive outbound :=
| OGateway (m : GatewayMessage)
| ORemote (method : string) (params : list (string * val)).

(** The module-level state of index.ts and of the modules it owns. *)
Record Gateway := mkGateway {
  store : GatewayStore;
  turnGate : TurnGate.TurnGate;
  sessionRunState : SessionRunState.SessionRunState;
  codexBridge : CodexBridge;
  cancelledSessions : list string;
  processLiveSessionIds : list string;
  subagentParents : jmap string string;
  inflight : list gw_task;
  outbox : list outbound;
  interrupts : list (string * string);
  replies : list answer
}.

Definition with_store (v : GatewayStore) (r : Gateway) : Gateway :=
  mkGateway v (turnGate r) (sessionRunState r) (codexBridge r) (cancelledSessions r)
    (processLiveSessionIds r) (subagentParents r) (inflight r) (outbox r) (interrupts r)
    (replies r).
Definition with_turnGate (v : TurnGate.TurnGate) (r : Gateway) : Gateway :=
  mkGateway (store r) v (sessionRunState r) (codexBridge r) (cancelledSessions r)
    (processLiveSessionIds r) (subagentParents r) (inflight r) (outbox r) (interrupts r)
    (replies r).
Definition with_sessionRunState (v : SessionRunState.SessionRunState) (r : Gateway) : Gateway :=
  mkGateway (store r) (turnGate r) v (codexBridge r) (cancelledSessions r) (processLiveSessionIds r)
    (subagentParents r) (inflight r) (outbox r) (interrupts r) (replies r).
Definition with_codexBridge (v : CodexBridge) (r : Gateway) : Gateway :=
  mkGateway (store r) (turnGate r) (sessionRunState r) v (cancelledSessions r)
    (processLiveSessionIds r) (subagentParents r) (inflight r) (outbox r) (interrupts r)
    (replies r).
Definition with_cancelledSessions (v : list string) (r : Gateway) : Gateway :=
  mkGateway (store r) (turnGate r) (sessionRunState r) (codexBridge r) v (processLiveSessionIds r)
    (subagentParents r) (inflight r) (outbox r) (interrupts r) (replies r).
Definition with_processLiveSessionIds (v : list string) (r : Gateway) : Gateway :=
  mkGateway (store r) (turnGate r) (sessionRunState r) (codexBridge r) (cancelledSessions r) v
    (subagentParents r) (inflight r) (outbox r) (interrupts r) (replies r).
Definition with_subagentParents (v : jmap string string) (r : Gateway) : Gateway :=
  mkGateway (store r) (turnGate r) (sessionRunState r) (codexBridge r) (cancelledSessions r)
    (processLiveSessionIds r) v (inflight r) (outbox r) (interrupts r) (replies r).
Definition with_inflight (v : list gw_task) (r : Gateway) : Gateway :=
  mkGateway (store r) (turnGate r) (sessionRunState r) (codexBridge r) (cancelledSessions r)
    (processLiveSessionIds r) (subagentParents r) v (outbox r) (interrupts r) (replies r).
Definition with_outbox (v : list outbound) (r : Gateway) : Gateway :=
  mkGateway (store r) (turnGate r) (sessionRunState r) (codexBridge r) (cancelledSessions r)
    (processLiveSessionIds r) (subagentParents r) (inflight r) v (interrupts r) (replies r).
Definition with_interrupts (v : list (string * string)) (r : Gateway) : Gateway :=
  mkGateway (store r) (turnGate r) (sessionRunState r) (codexBridge r) (cancelledSessions r)
    (processLiveSessionIds r) (subagentParents r) (inflight r) (outbox r) v (replies r).
Definition with_replies (v : list answer) (r : Gateway) : Gateway :=
  mkGateway (store r) (turnGate r) (sessionRunState r) (codexBridge r) (cancelledSessions r)
    (processLiveSessionIds r) (subagentParents r) (inflight r) (outbox r) (interrupts r) v.

Definition on_store (f : GatewayStore -> GatewayStore) (g : Gateway) : Gateway := with_store (f (store g)) g.

Definition broadcast (o : outbound) (g : Gateway) : Gateway := with_outbox (outbox g ++ [o]) g.
Definition reply_with (a : answer) (g : Gateway) : Gateway := with_replies (replies g ++ [a]) g.
Definition await (t : gw_task) (g : Gateway) : Gateway := with_inflight (inflight g ++ [t]) g.

Definition release_gate (id : string) (g : Gateway) : Gateway :=
  with_turnGate (TurnGate.release id (turnGate g)) g.
Definition live (id : string) (g : Gateway) : Gateway :=
  with_processLiveSessionIds (sadd id (processLiveSessionIds g)) g.
Definition not_live (id : string) (g : Gateway) : Gateway :=
  with_processLiveSessionIds (sdelete id (processLiveSessionIds g)) g.

(** ** Broadcasting *)

Definition busy_status (s : GatewaySessionStatus) : bool :=
  match s with running | starting | waiting_approval => true | _ => false end.

Definition extractSessionFromGatewayMessage (m : GatewayMessage) : option GatewaySession :=
  let session := prop "session" (m_payload m) in
  match prop "id" session with VStr _ => session_of session | _ => None end.

Definition inferFinishedStatus (m : GatewayMessage) : GatewaySessionStatus :=
  let status := default "" (str_prop "status" (prop "turn" (m_payload m))) in
  if (status === "failed") || (status === "error") then failed
  else if (status === "cancelled") || (status === "interrupted") then cancelled
  else completed.

Definition persistSubagentRelation (m : GatewayMessage) (st : GatewayStore) : GatewayStore :=
  let type := m_type m in
  let body := m_payload m in
  if (type === "subagent-started") || (type === "subagent-finished") || (type === "session-forked") then
    let parentId := match str_prop "parentSessionId" body with
                    | Some p => Some p
                    | None => if type === "subagent-started" then str_prop "threadId" body else None
                    end in
    let childId := match str_prop "childThreadId" body with
                   | Some c => Some c
                   | None => match str_prop "agentThreadId" (prop "activity" body) with
                             | Some c => Some c
                             | None => if type === "session-forked" then str_prop "sessionId" body else None
                             end
                   end in
    match parentId, childId with
    | Some p, Some c => if (p === "") || (c === "") || (p === c) then st else linkSubagent p c st
    | _, _ => st
    end
  else st.

(** [None] when the message is not broadcast: a stale status of a session that
    was cancelled locally. The statuses of [session-status] messages are those
    of [GatewaySessionStatus], all the gateway itself sends; another text, which
    the source would store as it is, does not occur. *)
Definition apply_message (m : GatewayMessage) (g : Gateway) : option Gateway :=
  let sid := m_sessionId m in
  match extractSessionFromGatewayMessage m with
  | Some session =>
      if shas (s_id session) (cancelledSessions g) && busy_status (s_status session) then None
      else
        let g := if busy_status (s_status session) then live (s_id session) g
                 else release_gate (s_id session) (not_live (s_id session) g) in
        Some (on_store (fun st => (upsertSession session st).2) g)
  | None =>
      match sid with
      | None => Some g
      | Some sid =>
          if sid === "" then Some g
          else if m_type m === "session-finished" then
            let g := release_gate sid (not_live sid g) in
            Some (on_store (fun st => (updateSession sid (fun existing =>
              with_s_status (inferFinishedStatus m) (with_s_activeTurnId Undef
                (with_s_finishedAt (Val (m_timestamp m)) (with_s_lastTurnFinishedAt (Val (m_timestamp m))
                  (with_s_lastUpdatedAt (m_timestamp m) existing))))) st).2) g)
          else if m_type m === "session-status" then
            match str_prop "status" (m_payload m) with
            | None => Some g
            | Some "" => Some g
            | Some text =>
                match status_of text with
                | None => Some g
                | Some status =>
                    if shas sid (cancelledSessions g) && busy_status status then None
                    else
                      let g := if busy_status status then live sid g
                               else release_gate sid (not_live sid g) in
                      Some (on_store (fun st => (updateSession sid (fun existing =>
                        with_s_status status (with_s_lastUpdatedAt (m_timestamp m) existing)) st).2) g)
                end
            end
          else if m_type m === "approval-requested" then
            Some (on_store (fun st => (updateSession sid (fun existing =>
              with_s_status waiting_approval (with_s_lastUpdatedAt (m_timestamp m) existing)) st).2) g)
          else Some g
      end
  end.

(** The event is logged first; a failure of the log does not stop the
    broadcast. *)
Definition broadcastGateway (payload : GatewayMessage) (g : Gateway) : Gateway :=
  let '(result, st) := appendEvent payload (store g) in
  let m := match result with Appended m => m | _ => payload end in
  let st := match result with MkdirThrew => st | _ => (takeEventWriteErrors st).2 end in
  let g := on_store (persistSubagentRelation m) (with_store st g) in
  match apply_message m g with
  | Some g => broadcast (OGateway m) g
  | None => g
  end.

Definition gw_message (type sessionId : string) (now : Z) (payload : list (string * val)) : GatewayMessage :=
  message type None sessionId now payload.

(** ** Codex notifications *)

Definition codexEvent (now : Z) (event : CodexEvent) (g : Gateway) : Gateway :=
  let g := broadcast (ORemote (e_method event) [("params", e_params event)]) g in
  let '(m, parents) := normalizeCodexEvent now (fun id => getSubagentParent id (store g)) event
                         (subagentParents g) in
  let g := with_subagentParents parents g in
  match m with
  | Some m => broadcastGateway m g
  | None => g
  end.

(** ** Cancellation *)

Definition maxCancelled : nat := Z.to_nat 10000.

Definition requestCodexInterrupt (threadId : string) (turnId : option string) (g : Gateway) : Gateway :=
  match turnId with
  | Some t => if t === "" then g else with_interrupts (interrupts g ++ [(threadId, t)]) g
  | None => g
  end.

Definition settleInterruptedSession (now : Z) (id : string) (base : GatewaySession)
    (turnId : option string) (g : Gateway) : GatewaySession * Gateway :=
  let g := with_sessionRunState (SessionRunState.cancel id (sessionRunState g)).2 g in
  let tombstones := sadd id (cancelledSessions g) in
  let tombstones := if (maxCancelled <? length tombstones)%nat then tail tombstones else tombstones in
  let g := with_cancelledSessions tombstones g in
  let g := release_gate id (not_live id g) in
  let timestamp := toISOString now in
  let '(session, st) := upsertSession
    (with_s_status cancelled (with_s_activeTurnId Undef (with_s_finishedAt (Val timestamp)
      (with_s_lastTurnFinishedAt (Val timestamp) (with_s_lastUpdatedAt timestamp base))))) (store g) in
  let g := with_store st g in
  (session,
   broadcastGateway (gw_message "session-finished" id now
     ([("sessionId", VStr id); ("status", VStr "cancelled")] ++ when_set "turnId" turnId)) g).


Definition remember_policy (id : string) (mode : SessionPolicyMode) (g : Gateway) : Gateway :=
  with_codexBridge (setPolicyMode id mode (codexBridge g)) g.

(** [if (requestId) gatewayStore.rememberClientRequest(id, requestId)], and
    likewise for the release of a reservation. *)
Definition remember_request (id : string) (rid : option string) (g : Gateway) : Gateway :=
  if str_truthy rid then on_store (rememberClientRequest id (default "" rid)) g else g.
Definition release_client (id : string) (rid : option string) (g : Gateway) : Gateway :=
  if str_truthy rid then on_store (releaseClientRequest id (default "" rid)) g else g.

Definition reserve_client (now : Z) (id : string) (rid : option string) (g : Gateway) : bool * Gateway :=
  if str_truthy rid
  then let '(ok, st) := reserveClientRequest now id (default "" rid) (store g) in (ok, with_store st g)
  else (true, g).

(** A run that failed before Codex accepted its turn. *)
Definition fail_session (now : Z) (id : string) (e : bridge_error) (g : Gateway) : Gateway :=
  let timestamp := toISOString now in
  let g := on_store (fun st => (updateSession id (fun s =>
    with_s_status failed (with_s_activeTurnId Undef (with_s_finishedAt (Val timestamp)
      (with_s_lastUpdatedAt timestamp s)))) st).2) g in
  broadcastGateway (gw_message "session-finished" id now
    [("sessionId", VStr id); ("status", VStr "failed"); ("error", VStr (err_message e))]) g.

Section handlers.
Context (config : GatewayConfig).

(** *** Authorization *)

(** [authorizedThreadContext] up to its await. *)
Definition authorize (id : string) (next : authorized_next) (g : Gateway) : Gateway :=
  await (Authorizing id (getSession id (store g)) next) g.

(** Its answer; an indexed thread is looked up only for an unstored session. *)
Definition authorizedThreadContext (session : option GatewaySession) (threads : list ThreadSummary)
    (workspacePath : option string) : option ThreadContext :=
  match session with
  | Some s =>
      Some {| x_session := Some s; x_thread := None;
              x_workspacePath := if s_workspacePath s === "" then None else workspacePath |}
  | None =>
      match head threads with
      | None => None
      | Some t =>
          Some {| x_session := None; x_thread := Some t;
                  x_workspacePath := if th_cwd t === "" then None else workspacePath |}
      end
  end.

(** *** Interrupting: [POST /sessions/:id/interrupt], [/api/threads/:id/interrupt]
    and [/api/threads/:id/stop]; the latter two also [notify] the clients. *)

Definition postInterrupt (now : Z) (id : string) (body : Body) (notify : bool) (g : Gateway) : Gateway :=
  if isRequestExpired now (b_expiresAt body) then reply_with (Refused 400 "request_expired") g
  else authorize id (ToInterrupt (b_turnId body) notify) g.

Definition interruptAuthorized (id : string) (c : ThreadContext) (turnId : option string) (notify : bool)
    (g : Gateway) : Gateway :=
  let turnId := first_str turnId (s ← x_session c; fget (s_activeTurnId s)) in
  match x_session c, x_thread c with
  | Some s, _ => await (Interrupt id s turnId notify) g
  | None, Some t => await (Interrupt id (threadToSession config t (Some cancelled)) turnId notify) g
  | None, None => g
  end.

(** After the audit record. *)
Definition interruptAudited (now : Z) (id : string) (base : GatewaySession) (turnId : option string)
    (notify : bool) (r : outcome) (g : Gateway) : Gateway :=
  match r with
  | Err e => reply_with (Threw e) g
  | Ok _ _ _ =>
      let '(session, g) := settleInterruptedSession now id base turnId g in
      let g := requestCodexInterrupt id turnId g in
      let g := if notify then broadcast (ORemote "remote/turn/interrupted"
                 ([("threadId", VStr id)] ++ when_set "turnId" turnId)) g else g in
      reply_with (Accepted 200 (Some session)) g
  end.

(** *** [POST /sessions/:id/turns] *)

Definition turn_session (receivedAt : Z) (body : Body) (policy : SessionPolicyMode)
    (persisted : option GatewaySession) (thread : ThreadSummary) : GatewaySession :=
  match persisted with
  | Some p => with_s_status running (with_s_sessionPolicyMode policy
      (with_s_lastTurnStartedAt (Val (toISOString receivedAt)) (with_s_lastUpdatedAt (toISOString receivedAt) p)))
  | None => with_s_prompt (b_text body) (with_s_sessionPolicyMode policy
      (threadToSession config thread (Some running)))
  end.

(** The part of the handler between the workspace check and its answer. *)
Definition admitTurn (now receivedAt : Z) (id : string) (body : Body) (persisted : option GatewaySession)
    (thread : ThreadSummary) (allowedWorkspace : option string) (g : Gateway) : Gateway :=
  let rid := b_clientRequestId body in
  let policy := default confirm (match b_mode body with
                                 | Some m => Some m | None => s_sessionPolicyMode <$> persisted end) in
  let session := turn_session receivedAt body policy persisted thread in
  if negb (str_truthy allowedWorkspace) then reply_with (Refused 403 "forbidden") g
  else if str_truthy rid && hasClientRequest id (default "" rid) (store g)
  then reply_with (AlreadyAccepted false persisted) g
  else
    let '(reserved, g) := reserve_client now id rid g in
    if negb reserved then reply_with (AlreadyAccepted true persisted) g
    else
      let '(admission, gate) := TurnGate.acquire id rid
        (p ← persisted; fget (s_lastClientRequestId p)) (turnGate g) in
      let g := with_turnGate gate g in
      match admission with
      | TurnGate.duplicate => reply_with (AlreadyAccepted false persisted) (release_client id rid g)
      | TurnGate.busy => reply_with (Refused 409 "turn_already_running") (release_client id rid g)
      | TurnGate.accepted =>
          let g := with_cancelledSessions (sdelete id (cancelledSessions g)) g in
          let '(generation, runs) := SessionRunState.begin id (sessionRunState g) in
          let g := live id (with_sessionRunState runs g) in
          let upserted := with_s_status running (with_s_sessionPolicyMode policy (with_s_activeTurnId Undef
            (with_s_lastClientRequestId (of_opt (first_str rid (p ← persisted; fget (s_lastClientRequestId p))))
              (with_s_lastTurnStartedAt (Val (toISOString receivedAt))
                (with_s_lastUpdatedAt (toISOString receivedAt) session))))) in
          let g := on_store (fun st => (upsertSession upserted st).2) g in
          let g := remember_request id rid g in
          let g := broadcastGateway (gw_message "session-user-input" id now
            [("sessionId", VStr id); ("prompt", VStr (b_text body));
             ("attachments", VArr (b_attachments body)); ("clientRequestId", str_val rid)]) g in
          let g := broadcastGateway (gw_message "session-status" id now
            [("sessionId", VStr id); ("status", VStr "running"); ("session", session_val session)]) g in
          (* the background run starts with [codexBridge.resumeThread(id, policy)] *)
          let g := remember_policy id policy g in
          reply_with (Accepted 202 (Some session)) (await (TurnRun id generation policy Resuming) g)
      end.

(** [Date.parse(expiresAt) <= Date.now()]; the schema checked the format. *)
Definition turn_expired (now : Z) (expiresAt : option string) : bool :=
  match expiresAt with
  | Some s => (s !== "") && match date_parse s with Some ms => ms <=? now | None => false end
  | None => false
  end.

Definition postTurn (now : Z) (id : string) (body : Body) (g : Gateway) : Gateway :=
  if turn_expired now (b_expiresAt body) then reply_with (Refused 400 "request_expired") g
  else match getSession id (store g) with
  | None => await (TurnLookup id body now) g
  | Some p =>
      if fullAccessConfirmationRequired (b_mode body) (b_confirmFullAccess body) (Some (s_sessionPolicyMode p))
      then reply_with (Refused 400 "full_access_confirmation_required") g
      else admitTurn now now id body (Some p)
             (sessionToThreadSummary now p) (Some (s_workspacePath p)) g
  end.

(** An unstored session: after the thread lookup and the workspace check. *)
Definition turnLookedUp (now : Z) (id : string) (body : Body) (receivedAt : Z) (r : outcome) (g : Gateway)
    : Gateway :=
  match r with
  | Err e => reply_with (Threw e) g
  | Ok _ threads workspace =>
      match head threads with
      | None => reply_with (Refused 404 "session_not_found") g
      | Some thread =>
          if fullAccessConfirmationRequired (b_mode body) (b_confirmFullAccess body) None
          then reply_with (Refused 400 "full_access_confirmation_required") g
          else admitTurn now receivedAt id body None thread workspace g
      end
  end.

(** One step of the background run: [storeAttachments] follows [resumeThread],
    the model check of [startTurn] follows it, and [turn/start] the check. *)
Definition runStep (now : Z) (id : string) (generation : Z) (policy : SessionPolicyMode) (phase : turn_phase)
    (r : outcome) (g : Gateway) : Gateway :=
  let current := SessionRunState.isCurrent id generation (sessionRunState g) in
  match r, phase with
  | Ok _ _ _, Resuming => if current then await (TurnRun id generation policy Storing) g else g
  | Ok _ _ _, Storing => if current then await (TurnRun id generation policy Checking) g else g
  | Ok _ _ _, Checking => await (TurnRun id generation policy Starting) (remember_policy id policy g)
  | Ok response _ _, Starting =>
      let turnId := extractTurnId response in
      if current then
        if str_truthy turnId
        then on_store (fun st => (updateSession id (fun s =>
               with_s_activeTurnId (of_opt turnId) (with_s_lastUpdatedAt (toISOString now) s)) st).2) g
        else g
      else requestCodexInterrupt id turnId g
  | Err e, _ => if current then fail_session now id e (release_gate id (not_live id g)) else g
  end.

(** *** [POST /sessions] *)

Definition release_create (rid : option string) (g : Gateway) : Gateway :=
  if str_truthy rid then on_store (releaseCreateRequest (default "" rid)) g else g.

Definition postSession (now : Z) (body : Body) (g : Gateway) : Gateway :=
  let mode := default confirm (b_mode body) in
  let rid := b_clientRequestId body in
  if isRequestExpired now (b_expiresAt body) then reply_with (Refused 400 "request_expired") g
  else if fullAccessConfirmationRequired (Some mode) (b_confirmFullAccess body) None
  then reply_with (Refused 400 "full_access_confirmation_required") g
  else
    let '(reservation, st) := if str_truthy rid then reserveCreateRequest now (default "" rid) (store g)
                              else (Reserved, store g) in
    let g := with_store st g in
    match reservation with
    | AlreadyCreated sid => reply_with (AlreadyAccepted false (getSession sid (store g))) g
    | CreatePending => reply_with (AlreadyAccepted true None) g
    | Reserved => await (CreateSession body mode) g
    end.

(** After [resolveAllowedWorkspace]. *)
Definition workspaceResolved (body : Body) (mode : SessionPolicyMode) (r : outcome) (g : Gateway) : Gateway :=
  match r with
  | Err e => reply_with (Threw e) (release_create (b_clientRequestId body) g)
  | Ok _ _ workspacePath =>
      if str_truthy workspacePath then await (CreateThread body mode (default "" workspacePath)) g
      else reply_with (Refused 403 "forbidden") (release_create (b_clientRequestId body) g)
  end.

Definition new_thread (now : Z) (threadId workspacePath : string) (body : Body) : ThreadSummary :=
  mkThread threadId (str_or (default "" (b_title body)) (str_or (slice0 32 (b_text body)) "Codex 会话"))
    workspacePath (b_text body) None "codex" "web" "starting" now now 0 false None.

(** The new session is stored, announced, and its first turn begun. *)
Definition openSession (now : Z) (body : Body) (mode : SessionPolicyMode) (workspacePath threadId : string)
    (g : Gateway) : Gateway :=
  let rid := b_clientRequestId body in
  let session := with_s_sessionPolicyMode mode
    (threadToSession config (new_thread now threadId workspacePath body) None) in
  let saved := with_s_status starting (with_s_activeTurnId Undef
    (with_s_args ["thread/start"; "turn/start"] (with_s_lastClientRequestId (of_opt rid)
      (with_s_lastTurnStartedAt (Val (toISOString now)) session)))) in
  let g := on_store (saveSession saved) g in
  let g := if str_truthy rid then on_store (rememberCreateRequest now (default "" rid) threadId) g else g in
  let g := remember_request threadId rid g in
  let g := live threadId g in
  let g := broadcastGateway (gw_message "session-started" threadId now
    [("session", session_val session)]) g in
  reply_with (Accepted 201 (Some session)) (await (FirstTurnCheck threadId mode) g).

(** After the audit record and [codexBridge.startThread]. *)
Definition threadStarted (now : Z) (body : Body) (mode : SessionPolicyMode) (workspacePath : string)
    (r : outcome) (g : Gateway) : Gateway :=
  let rid := b_clientRequestId body in
  match r with
  | Err e => reply_with (Threw e) (release_create rid g)
  | Ok response _ _ =>
      if negb (str_truthy (extractThreadId response))
      then reply_with (Threw (Error "Codex app-server did not return a thread id")) (release_create rid g)
      else
        let threadId := default "" (extractThreadId response) in
        let '(admission, gate) := TurnGate.acquire threadId rid None (turnGate g) in
        let g := with_turnGate gate g in
        match admission with
        | TurnGate.busy => reply_with (Refused 409 "turn_already_running") (release_create rid g)
        | _ => openSession now body mode workspacePath threadId g
        end
  end.

(** The first turn of a new session: the model check, then [turn/start]. *)
Definition firstTurnFailed (now : Z) (threadId : string) (e : bridge_error) (g : Gateway) : Gateway :=
  fail_session now threadId e (not_live threadId (release_gate threadId g)).

Definition firstTurnChecked (now : Z) (threadId : string) (mode : SessionPolicyMode) (r : outcome)
    (g : Gateway) : Gateway :=
  match r with
  | Ok _ _ _ => await (FirstTurn threadId) (remember_policy threadId mode g)
  | Err e => firstTurnFailed now threadId e g
  end.

Definition firstTurnStarted (now : Z) (threadId : string) (r : outcome) (g : Gateway) : Gateway :=
  match r with
  | Ok turn _ _ =>
      let turnId := extractTurnId turn in
      let g := on_store (fun st => (updateSession threadId (fun s =>
        with_s_status running (with_s_activeTurnId (of_opt turnId)
          (with_s_lastUpdatedAt (toISOString now) s))) st).2) g in
      let g := broadcastGateway (gw_message "session-status" threadId now
        [("sessionId", VStr threadId); ("threadId", VStr threadId); ("status", VStr "running");
         ("activeTurnId", str_val turnId)]) g in
      broadcast (ORemote "remote/thread/started" [("threadId", VStr threadId); ("turn", turn)]) g
  | Err e => firstTurnFailed now threadId e g
  end.

(** *** [POST /api/threads] *)

Definition postThread (now : Z) (body : Body) (g : Gateway) : Gateway :=
  let mode := default confirm (b_mode body) in
  if isRequestExpired now (b_expiresAt body) then reply_with (Refused 400 "request_expired") g
  else if fullAccessConfirmationRequired (Some mode) (b_confirmFullAccess body) None
  then reply_with (Refused 400 "full_access_confirmation_required") g
  else await (ApiCreate mode) g.

Definition apiWorkspaceResolved (mode : SessionPolicyMode) (r : outcome) (g : Gateway) : Gateway :=
  match r with
  | Err e => reply_with (Threw e) g
  | Ok _ _ workspacePath =>
      if str_truthy workspacePath then await (ApiCreateThread mode) g
      else reply_with (Refused 403 "forbidden") g
  end.

Definition apiThreadStarted (mode : SessionPolicyMode) (r : outcome) (g : Gateway) : Gateway :=
  match r with
  | Err e => reply_with (Threw e) g
  | Ok response _ _ =>
      if negb (str_truthy (extractThreadId response))
      then reply_with (Threw (Error "Codex app-server did not return a thread id")) g
      else await (ApiFirstCheck (default "" (extractThreadId response)) mode response) g
  end.

Definition apiFirstChecked (threadId : string) (mode : SessionPolicyMode) (response : val) (r : outcome)
    (g : Gateway) : Gateway :=
  match r with
  | Err e => reply_with (Threw e) g
  | Ok _ _ _ => await (ApiFirstTurn threadId response) (remember_policy threadId mode g)
  end.

Definition apiFirstStarted (threadId : string) (response : val) (r : outcome) (g : Gateway) : Gateway :=
  match r with
  | Err e => reply_with (Threw e) g
  | Ok turn _ _ =>
      reply_with (Accepted 200 None)
        (broadcast (ORemote "remote/thread/started"
           [("threadId", VStr threadId); ("response", response); ("turn", turn)]) g)
  end.

(** *** [PATCH /sessions/:id/policy] *)

Definition patchPolicy (now : Z) (id : string) (body : Body) (mode : SessionPolicyMode) (g : Gateway)
    : Gateway :=
  if isRequestExpired now (b_expiresAt body) then reply_with (Refused 400 "request_expired") g
  else authorize id (ToSetPolicy body mode) g.

Definition policyAuthorized (now : Z) (id : string) (body : Body) (mode : SessionPolicyMode)
    (context : option ThreadContext) (g : Gateway) : Gateway :=
  match context with
  | Some {| x_session := Some existing; x_workspacePath := workspace |} =>
      if negb (str_truthy workspace) then reply_with (Refused 403 "forbidden") g
      else if fullAccessConfirmationRequired (Some mode) (b_confirmFullAccess body)
                (Some (s_sessionPolicyMode existing))
      then reply_with (Refused 400 "full_access_confirmation_required") g
      else
        let g := remember_policy id mode g in
        let set_policy s := with_s_sessionPolicyMode mode (with_s_lastUpdatedAt (toISOString now) s) in
        let '(updated, st) := updateSession id set_policy (store g) in
        await (PolicyAudit id mode (default (set_policy existing) updated) now) (with_store st g)
  | _ => reply_with (Refused 404 "session_not_found") g
  end.

Definition policyAudited (id : string) (mode : SessionPolicyMode) (session : GatewaySession) (timestamp : Z)
    (r : outcome) (g : Gateway) : Gateway :=
  match r with
  | Err e => reply_with (Threw e) g
  | Ok _ _ _ =>
      reply_with (Accepted 200 (Some session))
        (broadcastGateway (gw_message "session-policy-changed" id timestamp
           [("sessionId", VStr id); ("sessionPolicyMode", VStr (mode_str mode));
            ("session", session_val session)]) g)
  end.

(** *** [POST /api/threads/:id/resume] *)

Definition postResume (now : Z) (id : string) (body : Body) (g : Gateway) : Gateway :=
  let existing := getSession id (store g) in
  let mode := default confirm (match b_mode body with
                               | Some m => Some m | None => s_sessionPolicyMode <$> existing end) in
  if isRequestExpired now (b_expiresAt body) then reply_with (Refused 400 "request_expired") g
  else if fullAccessConfirmationRequired (Some mode) (b_confirmFullAccess body) (s_sessionPolicyMode <$> existing)
  then reply_with (Refused 400 "full_access_confirmation_required") g
  else await (ResumeLookup id mode existing) g.

(** After the lookup, the workspace check and the audit record. *)
Definition resumeLookedUp (id : string) (mode : SessionPolicyMode) (stored : option GatewaySession)
    (r : outcome) (g : Gateway) : Gateway :=
  match r with
  | Err e => reply_with (Threw e) g
  | Ok _ threads workspace =>
      let resumeWorkspace := match stored with
                             | Some s => Some (s_workspacePath s)
                             | None => th_cwd <$> head threads
                             end in
      if negb (str_truthy resumeWorkspace) then reply_with (Refused 404 "session_not_found") g
      else if negb (str_truthy workspace) then reply_with (Refused 403 "forbidden") g
      else await (Resume id mode) (remember_policy id mode g)
  end.

Definition resumed (now : Z) (id : string) (mode : SessionPolicyMode) (r : outcome) (g : Gateway) : Gateway :=
  match r with
  | Err e => reply_with (Threw e) g
  | Ok response _ _ =>
      let g := remember_policy id mode g in
      let '(updated, st) := updateSession id (fun s =>
        with_s_sessionPolicyMode mode (with_s_lastUpdatedAt (toISOString now) s)) (store g) in
      let g := with_store st g in
      let g := match updated with
               | Some s => broadcastGateway (gw_message "session-policy-changed" id now
                   [("sessionId", VStr id); ("sessionPolicyMode", VStr (mode_str mode));
                    ("session", session_val s)]) g
               | None => g
               end in
      reply_with (Accepted 200 updated)
        (broadcast (ORemote "remote/thread/resumed" [("threadId", VStr id); ("response", response)]) g)
  end.

(** *** [POST /api/threads/:id/turns] *)

Definition apiTurn (now : Z) (id : string) (body : Body) (g : Gateway) : Gateway :=
  if isRequestExpired now (b_expiresAt body) then reply_with (Refused 400 "request_expired") g
  else
    let persisted := getSession id (store g) in
    let '(reserved, g) := reserve_client now id (b_clientRequestId body) g in
    if reserved then await (ApiTurnLookup id body persisted) g
    else reply_with (AlreadyAccepted true persisted) g.

(** After the audit record, the lookup and the workspace check. *)
Definition apiTurnLookedUp (id : string) (body : Body) (persisted : option GatewaySession) (r : outcome)
    (g : Gateway) : Gateway :=
  let rid := b_clientRequestId body in
  match r with
  | Err e => reply_with (Threw e) (release_client id rid g)
  | Ok _ threads workspace =>
      if negb (str_truthy workspace) then reply_with (Refused 403 "forbidden") (release_client id rid g)
      else
        let '(admission, gate) := TurnGate.acquire id rid
          (p ← persisted; fget (s_lastClientRequestId p)) (turnGate g) in
        let g := with_turnGate gate g in
        match admission with
        | TurnGate.duplicate => reply_with (AlreadyAccepted false persisted) (release_client id rid g)
        | TurnGate.busy => reply_with (Refused 409 "turn_already_running") (release_client id rid g)
        | TurnGate.accepted =>
            (* [codexBridge.resumeThread(id)] keeps the policy it remembers *)
            await (ApiTurn id body persisted (head threads) Resuming)
              (remember_policy id (policy_of id (codexBridge g)) g)
        end
  end.

Definition apiTurnStep (now : Z) (id : string) (body : Body) (persisted : option GatewaySession)
    (thread : option ThreadSummary) (phase : turn_phase) (r : outcome) (g : Gateway) : Gateway :=
  let rid := b_clientRequestId body in
  match r, phase with
  | Err e, _ => reply_with (Threw e) (release_client id rid (release_gate id g))
  | Ok _ _ _, Resuming => await (ApiTurn id body persisted thread Storing) g
  | Ok _ _ _, Storing => await (ApiTurn id body persisted thread Checking) g
  | Ok _ _ _, Checking =>
      await (ApiTurn id body persisted thread Starting)
        (remember_policy id (policy_of id (codexBridge g)) g)
  | Ok response _ _, Starting =>
      let session := match thread with
                     | Some t => threadToSession config t (Some running)
                     | None => minimalSession config now id (b_text body) running
                     end in
      let upserted := with_s_status running (with_s_activeTurnId (of_opt (extractTurnId response))
        (with_s_lastClientRequestId (of_opt (first_str rid (p ← persisted; fget (s_lastClientRequestId p))))
          (with_s_lastTurnStartedAt (Val (toISOString now)) (with_s_lastUpdatedAt (toISOString now) session)))) in
      let g := on_store (fun st => (upsertSession upserted st).2) g in
      let g := live id (remember_request id rid g) in
      let g := broadcastGateway (gw_message "session-status" id now
        [("sessionId", VStr id); ("threadId", VStr id); ("status", VStr "running");
         ("session", session_val session)]) g in
      reply_with (Accepted 200 (Some session))
        (broadcast (ORemote "remote/turn/started" [("threadId", VStr id); ("response", response)]) g)
  end.

(** *** [POST /api/threads/:id/interjections] *)

Definition isActiveTurnNotSteerableError (e : bridge_error) : bool :=
  opt_str_eqb (err_code e) (Some "activeTurnNotSteerable")
  || includes "activeturnnotsteerable" (to_lower (err_message e))
  || includes "not steerable" (to_lower (err_message e)).

Definition interjectOn (now : Z) (id : string) (body : Body) (thread : option ThreadSummary)
    (expectedTurnId : option string) (g : Gateway) : Gateway :=
  let rid := b_clientRequestId body in
  if negb (str_truthy expectedTurnId) then reply_with (Refused 409 "no_active_turn") g
  else if str_truthy rid && hasClientRequest id (default "" rid) (store g)
  then reply_with (AlreadyAccepted false None) g
  else
    let '(reserved, g) := reserve_client now id rid g in
    if reserved then await (Interject id body thread (default "" expectedTurnId) Auditing) g
    else reply_with (AlreadyAccepted true None) g.

Definition interjectAuthorized (now : Z) (id : string) (body : Body) (c : ThreadContext) (g : Gateway)
    : Gateway :=
  match b_turnId body with
  | Some turnId => interjectOn now id body (x_thread c) (Some turnId) g
  | None =>
      await (InterjectTurn id body (x_thread c)
        (s ← getSession id (store g); fget (s_activeTurnId s))) g
  end.

(** [resolveActiveTurnId]: the stored turn, or the running one of the detail. *)
Definition interjectResolved (now : Z) (id : string) (body : Body) (thread : option ThreadSummary)
    (stored : option string) (r : outcome) (g : Gateway) : Gateway :=
  let turnId := if str_truthy stored then stored
                else findActiveTurnId (match r with Ok detail _ _ => detail | Err _ => VNull end) in
  interjectOn now id body thread turnId g.

Definition interjectStep (now : Z) (id : string) (body : Body) (thread : option ThreadSummary)
    (turnId : string) (phase : steer_phase) (r : outcome) (g : Gateway) : Gateway :=
  let rid := b_clientRequestId body in
  match phase, r with
  | Auditing, Err e => reply_with (Threw e) g
  | Auditing, Ok _ _ _ => await (Interject id body thread turnId SteerStoring) g
  | SteerStoring, Err e => reply_with (Threw e) (release_client id rid g)
  | SteerStoring, Ok _ _ _ => await (Interject id body thread turnId Steering) g
  | Steering, Err e =>
      reply_with (if isActiveTurnNotSteerableError e then Refused 409 "active_turn_not_steerable" else Threw e)
        (release_client id rid g)
  | Steering, Ok response _ _ =>
      let session := match getSession id (store g), thread with
                     | Some s, _ => s
                     | None, Some t => threadToSession config t (Some running)
                     | None, None => minimalSession config now id (b_text body) running
                     end in
      let g := live id g in
      let g := on_store (fun st => (upsertSession (with_s_status running (with_s_activeTurnId (Val turnId)
        (with_s_lastUpdatedAt (toISOString now) session))) st).2) g in
      let g := remember_request id rid g in
      let g := broadcastGateway (gw_message "session-user-input" id now
        [("sessionId", VStr id); ("threadId", VStr id); ("prompt", VStr (b_text body));
         ("kind", VStr "interjection"); ("attachments", VArr (b_attachments body))]) g in
      reply_with (Accepted 200 None) (broadcast (ORemote "remote/turn/steered"
        [("threadId", VStr id); ("turnId", VStr turnId); ("response", response)]) g)
  end.

(** *** [POST /sessions/:id/fork] *)

Definition postFork (now : Z) (id : string) (body : Body) (g : Gateway) : Gateway :=
  if isRequestExpired now (b_expiresAt body) then reply_with (Refused 400 "request_expired") g
  else await (ForkLookup id body (getSession id (store g))) g.

Definition forkLookedUp (id : string) (body : Body) (parent : option GatewaySession) (r : outcome)
    (g : Gateway) : Gateway :=
  match r with
  | Err e => reply_with (Threw e) g
  | Ok _ threads workspace =>
      if match parent, head threads with None, None => true | _, _ => false end
      then reply_with (Refused 404 "session_not_found") g
      else if negb (str_truthy workspace) then reply_with (Refused 403 "forbidden") g
      else
        let mode := default confirm (match b_mode body with
                                     | Some m => Some m
                                     | None => s_sessionPolicyMode <$> getSession id (store g) end) in
        if fullAccessConfirmationRequired (Some mode) (b_confirmFullAccess body) None
        then reply_with (Refused 400 "full_access_confirmation_required") g
        else await (ForkAudit id mode) g
  end.

(** [codexBridge.forkThread(id, mode, ...)] remembers the mode for the thread
    that is forked. *)
Definition forkAudited (id : string) (mode : SessionPolicyMode) (r : outcome) (g : Gateway) : Gateway :=
  match r with
  | Err e => reply_with (Threw e) g
  | Ok _ _ _ => await (Fork id mode) (remember_policy id mode g)
  end.

(** [response.thread] as a summary; the declared type gives its strings. *)
Definition child_time (now : Z) (msKey secondsKey : string) (child : val) : Z :=
  match prop msKey child with
  | VNum (NInt ms) => ms
  | _ => match prop secondsKey child with
         | VNum (NInt s) => if s =? 0 then now else s * 1000
         | _ => now
         end
  end.

Definition child_summary (now : Z) (child : val) : ThreadSummary :=
  let text key := default "" (str_prop key child) in
  mkThread (text "id") (text "title") (text "cwd") (text "preview") (str_prop "model" child)
    (text "modelProvider") (text "source") (text "status")
    (child_time now "createdAtMs" "createdAt" child) (child_time now "updatedAtMs" "updatedAt" child)
    0 false None.

Definition forked (now : Z) (id : string) (mode : SessionPolicyMode) (r : outcome) (g : Gateway) : Gateway :=
  match r with
  | Err e => reply_with (Threw e) g
  | Ok response _ _ =>
      let child := prop "thread" response in
      let g :=
        if str_truthy (str_prop "id" child) then
          let childId := default "" (str_prop "id" child) in
          let session := threadToSession config (child_summary now child) (Some starting) in
          let g := on_store (fun st => (upsertSession (with_s_sessionPolicyMode mode
                     (with_s_lastUpdatedAt (toISOString now) session)) st).2) g in
          broadcastGateway (gw_message "session-forked" childId now
            [("sessionId", VStr childId); ("parentSessionId", VStr id);
             ("forkedFromId", match prop "forkedFromId" child with VUndef | VNull => VStr id | v => v end);
             ("session", session_val session)]) g
        else g in
      reply_with (Accepted 201 (if str_truthy (str_prop "id" child)
                                then getSession (default "" (str_prop "id" child)) (store g) else None)) g
  end.

(** *** [POST /sessions/:id/approvals/:requestId] *)

Definition postApproval (now : Z) (id requestId : string) (bodyRequestId expiresAt : option string)
    (decision : Decision) (turnId : option string) (amendment : option (list string)) (g : Gateway) : Gateway :=
  if isRequestExpired now expiresAt then reply_with (Refused 400 "request_expired") g
  else if str_truthy bodyRequestId && negb (opt_str_eqb bodyRequestId (Some requestId))
  then reply_with (Refused 400 "request_id_mismatch") g
  else authorize id (ToResolve requestId decision turnId amendment) g.

Definition approvalAudited (now : Z) (id requestId : string) (decision : Decision) (turnId : option string)
    (amendment : option (list string)) (r : outcome) (g : Gateway) : Gateway :=
  match r with
  | Err e => reply_with (Threw e) g
  | Ok _ _ _ =>
      let '(resolved, b) := resolveApproval requestId decision (Some id) turnId amendment (codexBridge g) in
      let g := with_codexBridge b g in
      if resolved then
        reply_with (Accepted 200 None)
          (broadcastGateway (gw_message "approval-resolved" id now
             [("sessionId", VStr id); ("requestId", VStr requestId);
              ("decision", VStr (match decision with approve => "approve" | deny => "deny" end))]) g)
      else reply_with (Refused 404 "approval_not_found") g
  end.

(** *** Dispatch of an authorized request *)

Definition authorized (now : Z) (id : string) (session : option GatewaySession) (next : authorized_next)
    (r : outcome) (g : Gateway) : Gateway :=
  match r with
  | Err e => reply_with (Threw e) g
  | Ok _ threads workspace =>
      let context := authorizedThreadContext session threads workspace in
      match next with
      | ToSetPolicy body mode => policyAuthorized now id body mode context g
      | _ =>
          match context with
          | None => reply_with (Refused 404 "session_not_found") g
          | Some c =>
              if negb (str_truthy (x_workspacePath c)) then reply_with (Refused 403 "forbidden") g
              else match next with
                   | ToInterrupt turnId notify => interruptAuthorized id c turnId notify g
                   | ToInterject body => interjectAuthorized now id body c g
                   | ToResolve rid d turnId amendment => await (ApprovalAudit id rid d turnId amendment) g
                   | ToSetPolicy _ _ => g
                   end
          end
      end
  end.

(** *** Lists and imports *)

(** [GET /sessions]: the stored sessions, or a first import of the index; the
    answer then goes through [filterAllowedSessions]. *)
Definition getSessions (g : Gateway) : Gateway :=
  match listSessions (store g) with
  | [] => await ImportList g
  | l => reply_with (Listed l) g
  end.

Definition imported (thread : ThreadSummary) (g : Gateway) : GatewaySession :=
  let existing := getSession (th_id thread) (store g) in
  let session := threadToSession config thread (s_status <$> existing) in
  with_s_status (default (s_status session) (s_status <$> existing))
    (with_s_activeTurnId (of_opt (e ← existing; fget (s_activeTurnId e)))
      (with_s_lastUpdatedAt (latestIso (s_lastUpdatedAt <$> existing) (s_lastUpdatedAt session)) session)).

Definition importList (r : outcome) (g : Gateway) : Gateway :=
  let threads := match r with Ok _ threads _ => threads | Err _ => [] end in
  let '(l, st) := upsertSessions (map (fun t => imported t g) threads) (store g) in
  reply_with (Listed l) (with_store st g).

(** [POST /sessions/import] *)
Definition importThread (title : option string) (r : outcome) (g : Gateway) : Gateway :=
  match r with
  | Err e => reply_with (Threw e) g
  | Ok _ threads workspace =>
      match head threads with
      | None => reply_with (Refused 404 "session_not_found") g
      | Some thread =>
          if negb (str_truthy workspace) then reply_with (Refused 403 "forbidden") g
          else
            let '(session, st) := upsertSession (threadToSession config
              (with_th_place (default "" workspace) (str_or (default "" title) (th_title thread)) thread) None)
              (store g) in
            reply_with (Accepted 200 (Some session)) (with_store st g)
      end
  end.

(** A stored status outlives the process only while the session is live here,
    and for ten minutes after its last update. *)
Definition withGatewayThreadStatus (now : Z) (thread : ThreadSummary) (g : Gateway) : ThreadSummary * Gateway :=
  match getSession (th_id thread) (store g) with
  | None => (thread, g)
  | Some existing =>
      let active := match s_status existing with running | starting => true | _ => false end in
      if active && negb (shas (th_id thread) (processLiveSessionIds g)) then (thread, g)
      else if active && (10 * 60 * 1000 <? now - parse_or (s_lastUpdatedAt existing) 0) then
        (thread, release_gate (th_id thread) (not_live (th_id thread) g))
      else
        (with_th_status (status_str (s_status existing))
           (with_th_updatedAtMs (Z.max (th_updatedAtMs thread)
              (parse_or (s_lastUpdatedAt existing) (th_updatedAtMs thread))) thread), g)
  end.

(** [GET /api/threads] after the index was read and filtered. *)
Definition listThreads (now : Z) (threads : list ThreadSummary) (g : Gateway) : Gateway :=
  let '(l, g) := foldl (fun '(l, g) t =>
    let '(t, g) := withGatewayThreadStatus now t g in (l ++ [t], g)) ([], g) threads in
  reply_with (ListedThreads l) g.

(** ** Steps of the event loop *)

Definition resume_task (now : Z) (t : gw_task) (r : outcome) (g : Gateway) : Gateway :=
  match t with
  | Authorizing id session next => authorized now id session next r g
  | CreateSession body mode => workspaceResolved body mode r g
  | CreateThread body mode ws => threadStarted now body mode ws r g
  | FirstTurnCheck threadId mode => firstTurnChecked now threadId mode r g
  | FirstTurn threadId => firstTurnStarted now threadId r g
  | ApiCreate mode => apiWorkspaceResolved mode r g
  | ApiCreateThread mode => apiThreadStarted mode r g
  | ApiFirstCheck threadId mode response => apiFirstChecked threadId mode response r g
  | ApiFirstTurn threadId response => apiFirstStarted threadId response r g
  | TurnLookup id body receivedAt => turnLookedUp now id body receivedAt r g
  | TurnRun id generation policy phase => runStep now id generation policy phase r g
  | ApiTurnLookup id body persisted => apiTurnLookedUp id body persisted r g
  | ApiTurn id body persisted thread phase => apiTurnStep now id body persisted thread phase r g
  | InterjectTurn id body thread stored => interjectResolved now id body thread stored r g
  | Interject id body thread turnId phase => interjectStep now id body thread turnId phase r g
  | Interrupt id base turnId notify => interruptAudited now id base turnId notify r g
  | PolicyAudit id mode session timestamp => policyAudited id mode session timestamp r g
  | ResumeLookup id mode stored => resumeLookedUp id mode stored r g
  | Resume id mode => resumed now id mode r g
  | ForkLookup id body parent => forkLookedUp id body parent r g
  | ForkAudit id mode => forkAudited id mode r g
  | Fork id mode => forked now id mode r g
  | ApprovalAudit id rid d turnId amendment => approvalAudited now id rid d turnId amendment r g
  | ImportList => importList r g
  | ImportThread title => importThread title r g
  end.

(** Requests, notifications of Codex, and the settling of what is awaited, in
    whatever order they reach the event loop. *)
Inductive gw_op :=
| PostSession (body : Body)
| PostThread (body : Body)
| PostTurn (id : string) (body : Body)
| ApiTurnRequest (id : string) (body : Body)
| PostInterjection (id : string) (body : Body)
| PostInterrupt (id : string) (body : Body) (notify : bool)
| PatchPolicy (id : string) (body : Body) (mode : SessionPolicyMode)
| PostResume (id : string) (body : Body)
| PostFork (id : string) (body : Body)
| PostApproval (id requestId : string) (bodyRequestId expiresAt : option string) (decision : Decision)
    (turnId : option string) (amendment : option (list string))
| GetSessions
| PostImport (title : option string)
| GetThreads (threads : list ThreadSummary)
| Notification (event : CodexEvent)
| Settle (i : nat) (r : outcome).

Definition gw_exec (now : Z) (o : gw_op) (g : Gateway) : Gateway :=
  match o with
  | PostSession body => postSession now body g
  | PostThread body => postThread now body g
  | PostTurn id body => postTurn now id body g
  | ApiTurnRequest id body => apiTurn now id body g
  | PostInterjection id body =>
      if isRequestExpired now (b_expiresAt body) then reply_with (Refused 400 "request_expired") g
      else authorize id (ToInterject body) g
  | PostInterrupt id body notify => postInterrupt now id body notify g
  | PatchPolicy id body mode => patchPolicy now id body mode g
  | PostResume id body => postResume now id body g
  | PostFork id body => postFork now id body g
  | PostApproval id rid brid e d turnId a => postApproval now id rid brid e d turnId a g
  | GetSessions => getSessions g
  | PostImport title => await (ImportThread title) g
  | GetThreads threads => listThreads now threads g
  | Notification event => codexEvent now event g
  | Settle i r =>
      match inflight g !! i with
      | Some t => resume_task now t r (with_inflight (delete i (inflight g)) g)
      | None => g
      end
  end.

Definition gw_run (os : list (Z * gw_op)) (g : Gateway) : Gateway :=
  foldl (fun g '(now, o) => gw_exec now o g) g os.
End handlers.

(** The gateway when the process starts on a store. *)
Definition booted (st : GatewayStore) : Gateway :=
  mkGateway st TurnGate.empty SessionRunState.empty initial [] [] [] [] [] [] [].
