(* ===== verification/GatewayInv.v ===== *)
(** * Invariants of the gateway

    What every step of the event loop of index.ts preserves: the store changes
    only by the operations of its class, session policies are escalated only
    by a confirmed request, and the background runs in flight are told apart
    by their generations. *)

From S2P Require Import Prelude JsValue JsDate TurnControl GatewayStore StoreInv EventLog CodexEvents CodexBridge Sessions Gateway.

Local Open Scope Z_scope.

Create HintDb gw discriminated.

#[local] Arguments upsertSession : simpl never.
#[local] Arguments updateSession : simpl never.

(** Destructs the scrutinee of a match of the goal; a pair that holds the new
    state is named by its projection. *)
Ltac gw_split1 :=
  match goal with
  | |- context [let '(_, _) := ?x in _] =>
      let a := fresh "a" in let b := fresh "b" in let E := fresh "E" in
      let Eb := fresh "Eb" in
      destruct x as [a b] eqn:E; assert (b = x.2) as Eb by (by rewrite E); subst b
  | |- context [match ?x with _ => _ end] => let E := fresh "E" in destruct x eqn:E
  end.
Ltac gw_split := repeat (gw_split1; cbv beta iota zeta).

(** ** The store moves by its own operations *)

Definition evolves (g g' : Gateway) : Prop := exists os, store g' = run os (store g).

#[global] Instance evolves_preorder : PreOrder evolves.
Proof.
  split; [by exists []|]. intros g1 g2 g3 [os1 E1] [os2 E2]. exists (os1 ++ os2).
  rewrite E2, E1. unfold run. by rewrite foldl_app.
Qed.

Lemma evolves_store_eq g g1 g2 : evolves g g1 -> store g2 = store g1 -> evolves g g2.
Proof. intros [os E] E2. exists os. congruence. Qed.

Lemma evolves_op g g1 g2 o : evolves g g1 -> store g2 = exec o (store g1) -> evolves g g2.
Proof. intros H E. etrans; [done|]. by exists [o]. Qed.

Lemma evolves_exec g g1 o : evolves g g1 -> evolves g (with_store (exec o (store g1)) g1).
Proof. intros H. by eapply evolves_op. Qed.

Section evolves_steps.
Context (g : Gateway).

Lemma ev_reply a g1 : evolves g g1 -> evolves g (reply_with a g1).
Proof. intros H. by eapply evolves_store_eq. Qed.
Lemma ev_await t g1 : evolves g g1 -> evolves g (await t g1).
Proof. intros H. by eapply evolves_store_eq. Qed.
Lemma ev_broadcast o g1 : evolves g g1 -> evolves g (broadcast o g1).
Proof. intros H. by eapply evolves_store_eq. Qed.
Lemma ev_release id g1 : evolves g g1 -> evolves g (release_gate id g1).
Proof. intros H. by eapply evolves_store_eq. Qed.
Lemma ev_live id g1 : evolves g g1 -> evolves g (live id g1).
Proof. intros H. by eapply evolves_store_eq. Qed.
Lemma ev_not_live id g1 : evolves g g1 -> evolves g (not_live id g1).
Proof. intros H. by eapply evolves_store_eq. Qed.
Lemma ev_gate v g1 : evolves g g1 -> evolves g (with_turnGate v g1).
Proof. intros H. by eapply evolves_store_eq. Qed.
Lemma ev_runs v g1 : evolves g g1 -> evolves g (with_sessionRunState v g1).
Proof. intros H. by eapply evolves_store_eq. Qed.
Lemma ev_bridge v g1 : evolves g g1 -> evolves g (with_codexBridge v g1).
Proof. intros H. by eapply evolves_store_eq. Qed.
Lemma ev_cancelled v g1 : evolves g g1 -> evolves g (with_cancelledSessions v g1).
Proof. intros H. by eapply evolves_store_eq. Qed.
Lemma ev_parents v g1 : evolves g g1 -> evolves g (with_subagentParents v g1).
Proof. intros H. by eapply evolves_store_eq. Qed.
Lemma ev_inflight v g1 : evolves g g1 -> evolves g (with_inflight v g1).
Proof. intros H. by eapply evolves_store_eq. Qed.
Lemma ev_policy id m g1 : evolves g g1 -> evolves g (remember_policy id m g1).
Proof. intros H. by eapply evolves_store_eq. Qed.
Lemma ev_interrupt id t g1 : evolves g g1 -> evolves g (requestCodexInterrupt id t g1).
Proof. intros H. eapply evolves_store_eq; [done|]. unfold requestCodexInterrupt. by gw_split. Qed.

Lemma ev_upsert s g1 : evolves g g1 -> evolves g (with_store (upsertSession s (store g1)).2 g1).
Proof. intros H. by apply (evolves_exec _ _ (UpsertSession s)). Qed.
Lemma ev_upserts l g1 : evolves g g1 -> evolves g (with_store (upsertSessions l (store g1)).2 g1).
Proof. intros H. by apply (evolves_exec _ _ (UpsertSessions l)). Qed.
Lemma ev_update id f g1 : evolves g g1 -> evolves g (with_store (updateSession id f (store g1)).2 g1).
Proof. intros H. by apply (evolves_exec _ _ (UpdateSession id f)). Qed.
Lemma ev_on_upsert s g1 : evolves g g1 -> evolves g (on_store (fun st => (upsertSession s st).2) g1).
Proof. apply ev_upsert. Qed.
Lemma ev_on_update id f g1 : evolves g g1 -> evolves g (on_store (fun st => (updateSession id f st).2) g1).
Proof. apply ev_update. Qed.
Lemma ev_save s g1 : evolves g g1 -> evolves g (on_store (saveSession s) g1).
Proof. intros H. by apply (evolves_exec _ _ (SaveSession s)). Qed.
Lemma ev_reserve_create now r g1 :
  evolves g g1 -> evolves g (with_store (reserveCreateRequest now r (store g1)).2 g1).
Proof. intros H. by apply (evolves_exec _ _ (ReserveCreate now r)). Qed.
Lemma ev_remember_create now r id g1 :
  evolves g g1 -> evolves g (on_store (rememberCreateRequest now r id) g1).
Proof. intros H. by apply (evolves_exec _ _ (RememberCreate now r id)). Qed.
Lemma ev_release_create r g1 : evolves g g1 -> evolves g (release_create r g1).
Proof.
  intros H. unfold release_create. gw_split; [|done].
  by apply (evolves_exec _ _ (ReleaseCreate (default "" r))).
Qed.
Lemma ev_remember_request id r g1 : evolves g g1 -> evolves g (remember_request id r g1).
Proof.
  intros H. unfold remember_request. gw_split; [|done].
  by apply (evolves_exec _ _ (RememberClient id (default "" r))).
Qed.
Lemma ev_release_client id r g1 : evolves g g1 -> evolves g (release_client id r g1).
Proof.
  intros H. unfold release_client. gw_split; [|done].
  by apply (evolves_exec _ _ (ReleaseClient id (default "" r))).
Qed.
Lemma ev_reserve_client now id r g1 : evolves g g1 -> evolves g (reserve_client now id r g1).2.
Proof.
  intros H. unfold reserve_client. gw_split; [|done].
  by apply (evolves_exec _ _ (ReserveClient now id (default "" r))).
Qed.
End evolves_steps.

#[export] Hint Resolve ev_reply ev_await ev_broadcast ev_release ev_live ev_not_live ev_gate ev_runs ev_bridge
  ev_cancelled ev_parents ev_inflight ev_policy ev_interrupt ev_upsert ev_upserts ev_update ev_on_upsert
  ev_on_update ev_save ev_reserve_create ev_remember_create ev_release_create ev_remember_request
  ev_release_client ev_reserve_client : gw.
#[export] Hint Extern 0 (evolves ?g ?g) => reflexivity : gw.

Lemma persist_relation_exec m st : exists os, persistSubagentRelation m st = run os st.
Proof.
  unfold persistSubagentRelation. cbv zeta. gw_split; try (by exists []).
  eexists [LinkSubagent _ _]. reflexivity.
Qed.

Lemma ev_on_run g g1 f os : evolves g g1 -> f (store g1) = run os (store g1) -> evolves g (on_store f g1).
Proof. intros H E. etrans; [done|]. by exists os. Qed.

Lemma ev_apply m g g1 g2 : evolves g g1 -> apply_message m g1 = Some g2 -> evolves g g2.
Proof.
  intros H. unfold apply_message. gw_split; intros E'; try done; apply Some_inj in E'; subst g2; eauto 20 with gw.
Qed.

Lemma ev_bg m g g1 : evolves g g1 -> evolves g (broadcastGateway m g1).
Proof.
  intros H. unfold broadcastGateway.
  set (r := (appendEvent m (store g1)).1). set (st := (appendEvent m (store g1)).2).
  rewrite (surjective_pairing (appendEvent m (store g1))). fold r st. cbv beta iota zeta.
  set (m' := match r with Appended m => m | _ => m end).
  set (g2 := on_store _ _).
  assert (evolves g g2) as H2.
  { destruct (persist_relation_exec m' (match r with MkdirThrew => st | _ => (takeEventWriteErrors st).2 end))
      as [os E].
    eapply (ev_on_run _ _ _ os); [|exact E].
    assert (evolves g (with_store st g1)) as H1 by (by apply (evolves_exec _ _ (AppendEvent m))).
    destruct r; [|done|]; by apply (evolves_exec _ _ TakeErrors) in H1. }
  destruct (apply_message m' g2) as [g3|] eqn:E; [|done].
  apply ev_broadcast. by eapply ev_apply.
Qed.
#[export] Hint Resolve ev_bg : gw.

Lemma ev_fail now id e g g1 : evolves g g1 -> evolves g (fail_session now id e g1).
Proof. intros H. unfold fail_session. eauto with gw. Qed.

Lemma ev_settle now id base t g g1 :
  evolves g g1 -> evolves g (settleInterruptedSession now id base t g1).2.
Proof. intros H. unfold settleInterruptedSession. gw_split; cbn [snd]; eauto 20 with gw. Qed.

Lemma ev_codex now e g g1 : evolves g g1 -> evolves g (codexEvent now e g1).
Proof. intros H. unfold codexEvent. gw_split; eauto 20 with gw. Qed.
#[export] Hint Resolve ev_fail ev_settle ev_codex : gw.

Section handlers_evolve.
Context (config : GatewayConfig) (now : Z) (g : Gateway).

Ltac walk := intros; gw_split; cbn [fst snd]; eauto 30 with gw.

Lemma ev_admit receivedAt id body p t w g1 :
  evolves g g1 -> evolves g (admitTurn config now receivedAt id body p t w g1).
Proof. unfold admitTurn. walk. Qed.
#[local] Hint Resolve ev_admit : gw.

Lemma ev_interjectOn id body t e g1 : evolves g g1 -> evolves g (interjectOn now id body t e g1).
Proof. unfold interjectOn. walk. Qed.
#[local] Hint Resolve ev_interjectOn : gw.

Lemma ev_policyAuthorized id body m c g1 : evolves g g1 -> evolves g (policyAuthorized now id body m c g1).
Proof. unfold policyAuthorized. walk. Qed.

Lemma ev_threadStarted body m w r g1 :
  evolves g g1 -> evolves g (threadStarted config now body m w r g1).
Proof. unfold threadStarted, openSession. walk. Qed.
#[local] Hint Resolve ev_policyAuthorized ev_threadStarted : gw.

Lemma ev_resume_task t r g1 : evolves g g1 -> evolves g (resume_task config now t r g1).
Proof.
  intros H. destruct t; cbn [resume_task]; auto with gw;
    unfold authorized, workspaceResolved, firstTurnChecked, firstTurnStarted, firstTurnFailed, apiWorkspaceResolved,
      apiThreadStarted, apiFirstChecked, apiFirstStarted, turnLookedUp, runStep, apiTurnLookedUp, apiTurnStep,
      interjectResolved, interjectStep, interruptAudited, policyAudited, resumeLookedUp, resumed, forkLookedUp,
      forkAudited, forked, approvalAudited, importList, importThread, interruptAuthorized, interjectAuthorized;
    walk.
Qed.

Lemma ev_listThreads l g1 : evolves g g1 -> evolves g (listThreads now l g1).
Proof.
  unfold listThreads. intros H.
  assert (forall acc g1, evolves g g1 -> evolves g (foldl (fun '(l, g) t =>
    let '(t, g) := withGatewayThreadStatus now t g in (l ++ [t], g)) (acc, g1) l).2) as Hl.
  { clear g1 H. induction l as [|t l IH]; intros acc g1 H; [done|]. simpl.
    unfold withGatewayThreadStatus. gw_split; apply IH; eauto with gw. }
  walk.
Qed.

Lemma ev_exec o : evolves g (gw_exec config now o g).
Proof.
  destruct o; cbn [gw_exec];
    unfold postSession, postThread, postTurn, apiTurn, postInterrupt, authorize, patchPolicy, postResume, postFork,
      postApproval, getSessions; try (by walk).
  - by apply ev_listThreads.
  - destruct (inflight g !! i); [|done]. apply ev_resume_task. auto with gw.
Qed.
End handlers_evolve.

(** The whole gateway moves the store through the operations of its class only,
    in whatever order requests, notifications and answers arrive. *)
Lemma gateway_store_trace config os g : evolves g (gw_run config os g).
Proof.
  revert g. induction os as [|[now o] os IH]; intros g; [done|].
  cbn [gw_run foldl]. etrans; [|apply IH]. apply ev_exec.
Qed.

(** ** Session policies *)

(** Session policies are escalated only on a confirmed request: for a set of
    modes that contains [confirm], and [full_access] if some request of the
    trace is confirmed, no other mode ever gets into the gateway. *)
Section modes.
Context (ok : SessionPolicyMode -> Prop) (ok_confirm : ok confirm).

Definition session_ok (s : GatewaySession) : Prop := ok (s_sessionPolicyMode s).
Definition stored_ok (o : option GatewaySession) : Prop := forall s, o = Some s -> session_ok s.
Definition body_ok (b : Body) : Prop := b_confirmFullAccess b = Some true -> ok full_access.
Definition store_ok (st : GatewayStore) : Prop := forall id s, getSession id st = Some s -> session_ok s.
Definition bridge_ok (b : CodexBridge) : Prop := Forall (fun e => ok e.2) (policyByThread b).

Definition next_ok (n : authorized_next) : Prop :=
  match n with ToSetPolicy b _ => body_ok b | _ => True end.

Definition task_ok (t : gw_task) : Prop :=
  match t with
  | Authorizing _ s next => stored_ok s /\ next_ok next
  | CreateSession _ m | CreateThread _ m _ | FirstTurnCheck _ m | ApiCreate m | ApiCreateThread m
  | ApiFirstCheck _ m _ | TurnRun _ _ m _ | Resume _ m | ForkAudit _ m | Fork _ m => ok m
  | TurnLookup _ b _ => body_ok b
  | Interrupt _ s _ _ => session_ok s
  | PolicyAudit _ m s _ => ok m /\ session_ok s
  | ResumeLookup _ m _ => ok m
  | ForkLookup _ b _ => body_ok b
  | _ => True
  end.

Definition op_ok (o : gw_op) : Prop :=
  match o with
  | PostSession b | PostThread b | PostTurn _ b | PatchPolicy _ b _ | PostResume _ b | PostFork _ b => body_ok b
  | _ => True
  end.

Record modes_ok (g : Gateway) : Prop := {
  mo_store : store_ok (store g);
  mo_bridge : bridge_ok (codexBridge g);
  mo_tasks : Forall task_ok (inflight g)
}.

(** The guard of index.ts. *)
Lemma guard_ok m b cur :
  fullAccessConfirmationRequired (Some m) (b_confirmFullAccess b) cur = false ->
  body_ok b -> (cur = Some full_access -> ok full_access) -> ok m.
Proof.
  unfold fullAccessConfirmationRequired, mode_eqb, body_ok. intros H Hb Hc.
  destruct m; [done|]. rewrite bool_decide_true in H by done. simpl in H.
  apply andb_false_iff in H as [H|H].
  - apply negb_false_iff, bool_decide_eq_true in H. auto.
  - destruct (b_confirmFullAccess b) as [[]|]; try done. auto.
Qed.

Lemma guard_ok_opt m b cur :
  fullAccessConfirmationRequired m (b_confirmFullAccess b) cur = false ->
  body_ok b -> (forall c, cur = Some c -> ok c) ->
  ok (default confirm (match m with Some m => Some m | None => cur end)).
Proof.
  intros H Hb Hc. destruct m as [m|]; simpl.
  - apply (guard_ok m b cur); [done|done|auto].
  - destruct cur; simpl; auto.
Qed.

(** *** The store *)

Lemma store_ok_same st st' : sessions st' = sessions st -> store_ok st -> store_ok st'.
Proof. intros E H id s. unfold getSession. rewrite E. apply H. Qed.

Lemma store_ok_save s st : session_ok s -> store_ok st -> store_ok (saveSession s st).
Proof.
  intros Hs H id s' E. unfold getSession, saveSession in E. simpl in E.
  destruct (decide (s_id s = id)) as [<-|Hn].
  - rewrite mget_mset_eq in E. by simplify_eq.
  - rewrite mget_mset_ne in E by done. by apply (H id).
Qed.

Lemma mode_merge st s : s_sessionPolicyMode (merge_session st s) = s_sessionPolicyMode s.
Proof. unfold merge_session. by destruct (mget _ _). Qed.

Lemma store_ok_upsert s st : session_ok s -> store_ok st -> store_ok (upsertSession s st).2.
Proof. intros Hs. apply store_ok_save. unfold session_ok. by rewrite mode_merge. Qed.

Lemma store_ok_update id f st :
  (forall s, session_ok s -> session_ok (f s)) -> store_ok st -> store_ok (updateSession id f st).2.
Proof.
  intros Hf H. unfold updateSession. destruct (mget id (sessions st)) as [s|] eqn:E; [|done].
  apply store_ok_save; [|done]. apply Hf. by apply (H id).
Qed.

Lemma store_ok_upserts l st : Forall session_ok l -> store_ok st -> store_ok (upsertSessions l st).2.
Proof.
  unfold upsertSessions. cbn [snd]. revert st. induction l as [|s l IH]; intros st Hl H; [done|].
  inv Hl. cbn [foldl]. apply IH; [done|]. intros id s' E. unfold getSession in E. simpl in E.
  destruct (decide (s_id s = id)) as [<-|Hn].
  - rewrite mget_mset_eq in E. simplify_eq. unfold session_ok. by rewrite mode_merge.
  - rewrite mget_mset_ne in E by done. by apply (H id).
Qed.

Lemma store_ok_link p c st : store_ok st -> store_ok (linkSubagent p c st).
Proof.
  intros H. unfold linkSubagent. destruct (_ || _ || _); [done|].
  set (st1 := write_relations _). assert (store_ok st1) as H1 by (by apply (store_ok_same st)).
  clearbody st1. destruct (mhas p (sessions st1)).
  - set (st2 := (updateSession p _ st1).2). assert (store_ok st2) as H2 by (by apply store_ok_update).
    clearbody st2. destruct (mhas c (sessions st2)); [by apply store_ok_update|done].
  - destruct (mhas c (sessions st1)); [by apply store_ok_update|done].
Qed.

Lemma store_ok_relation m st : store_ok st -> store_ok (persistSubagentRelation m st).
Proof. intros H. unfold persistSubagentRelation. cbv zeta. gw_split; try done. by apply store_ok_link. Qed.

Lemma store_ok_snapshot st st' : same_snapshot st st' -> store_ok st -> store_ok st'.
Proof. intros [E _]. by apply store_ok_same. Qed.

Lemma store_ok_remember id r st : store_ok st -> store_ok (rememberClientRequest id r st).
Proof.
  intros H. unfold rememberClientRequest. destruct (r === ""); [done|].
  assert (store_ok (releaseClientRequest id r st)) as H1 by exact (store_ok_snapshot _ _ (same_releaseClient id r st) H).
  destruct (mget id _) as [s|] eqn:E; [|done]. apply store_ok_save; [|done]. exact (H1 id s E).
Qed.

(** *** Primitive steps *)

Lemma mo_frame g g' :
  store g' = store g -> codexBridge g' = codexBridge g -> inflight g' = inflight g ->
  modes_ok g -> modes_ok g'.
Proof. intros E1 E2 E3 [H1 H2 H3]. split; by rewrite ?E1, ?E2, ?E3. Qed.

Lemma mo_reply a g : modes_ok g -> modes_ok (reply_with a g).
Proof. by apply mo_frame. Qed.
Lemma mo_broadcast o g : modes_ok g -> modes_ok (broadcast o g).
Proof. by apply mo_frame. Qed.
Lemma mo_release id g : modes_ok g -> modes_ok (release_gate id g).
Proof. by apply mo_frame. Qed.
Lemma mo_live id g : modes_ok g -> modes_ok (live id g).
Proof. by apply mo_frame. Qed.
Lemma mo_not_live id g : modes_ok g -> modes_ok (not_live id g).
Proof. by apply mo_frame. Qed.
Lemma mo_gate v g : modes_ok g -> modes_ok (with_turnGate v g).
Proof. by apply mo_frame. Qed.
Lemma mo_runs v g : modes_ok g -> modes_ok (with_sessionRunState v g).
Proof. by apply mo_frame. Qed.
Lemma mo_cancelled v g : modes_ok g -> modes_ok (with_cancelledSessions v g).
Proof. by apply mo_frame. Qed.
Lemma mo_parents v g : modes_ok g -> modes_ok (with_subagentParents v g).
Proof. by apply mo_frame. Qed.
Lemma mo_interrupt id t g : modes_ok g -> modes_ok (requestCodexInterrupt id t g).
Proof. apply mo_frame; unfold requestCodexInterrupt; by gw_split. Qed.
Lemma mo_await t g : task_ok t -> modes_ok g -> modes_ok (await t g).
Proof. intros Ht [H1 H2 H3]. split; [done..|]. apply Forall_app. by auto. Qed.
Lemma mo_with_store st g : store_ok st -> modes_ok g -> modes_ok (with_store st g).
Proof. intros Hs [H1 H2 H3]. by split. Qed.

Lemma policy_ok id b : bridge_ok b -> ok (policy_of id b).
Proof.
  intros H. unfold policy_of. destruct (mget id (policyByThread b)) as [m|] eqn:E; [|done].
  apply mget_Some_elem in E. by apply (proj1 (Forall_forall _ _) H) in E.
Qed.

Lemma mo_policy id m g : ok m -> modes_ok g -> modes_ok (remember_policy id m g).
Proof.
  intros Hm [H1 H2 H3]. split; [done| |done].
  by apply Forall_mshrink, Forall_mset, Forall_mdelete.
Qed.

Lemma mo_upsert s g : session_ok s -> modes_ok g -> modes_ok (with_store (upsertSession s (store g)).2 g).
Proof. intros Hs H. apply mo_with_store; [|done]. apply store_ok_upsert; [done|apply H]. Qed.
Lemma mo_upserts l g :
  Forall session_ok l -> modes_ok g -> modes_ok (with_store (upsertSessions l (store g)).2 g).
Proof. intros Hs H. apply mo_with_store; [|done]. apply store_ok_upserts; [done|apply H]. Qed.
Lemma mo_update id f g :
  (forall s, session_ok s -> session_ok (f s)) -> modes_ok g ->
  modes_ok (with_store (updateSession id f (store g)).2 g).
Proof. intros Hf H. apply mo_with_store; [|done]. apply store_ok_update; [done|apply H]. Qed.
Lemma mo_save s g : session_ok s -> modes_ok g -> modes_ok (on_store (saveSession s) g).
Proof. intros Hs H. apply mo_with_store; [|done]. apply store_ok_save; [done|apply H]. Qed.
Lemma mo_on_upsert s g : session_ok s -> modes_ok g -> modes_ok (on_store (fun st => (upsertSession s st).2) g).
Proof. apply mo_upsert. Qed.
Lemma mo_on_update id f g :
  (forall s, session_ok s -> session_ok (f s)) -> modes_ok g ->
  modes_ok (on_store (fun st => (updateSession id f st).2) g).
Proof. apply mo_update. Qed.
Lemma mo_reserve_create now r g :
  modes_ok g -> modes_ok (with_store (reserveCreateRequest now r (store g)).2 g).
Proof.
  intros H. apply mo_with_store; [|done].
  eapply store_ok_snapshot; [apply same_reserveCreate|apply H].
Qed.
Lemma mo_remember_create now r id g : modes_ok g -> modes_ok (on_store (rememberCreateRequest now r id) g).
Proof.
  intros H. apply mo_with_store; [|done]. eapply store_ok_same; [|apply H].
  unfold rememberCreateRequest. by destruct (_ || _).
Qed.
Lemma mo_release_create r g : modes_ok g -> modes_ok (release_create r g).
Proof.
  intros H. unfold release_create. gw_split; [|done]. apply mo_with_store; [|done].
  eapply store_ok_same; [|apply H]. unfold releaseCreateRequest. by destruct (_ === _).
Qed.
Lemma mo_remember_request id r g : modes_ok g -> modes_ok (remember_request id r g).
Proof.
  intros H. unfold remember_request. gw_split; [|done]. apply mo_with_store; [|done].
  apply store_ok_remember, H.
Qed.
Lemma mo_release_client id r g : modes_ok g -> modes_ok (release_client id r g).
Proof.
  intros H. unfold release_client. gw_split; [|done]. apply mo_with_store; [|done].
  eapply store_ok_snapshot; [apply same_releaseClient|apply H].
Qed.
Lemma mo_reserve_client now id r g : modes_ok g -> modes_ok (reserve_client now id r g).2.
Proof.
  intros H. unfold reserve_client. gw_split; [|done]. apply mo_with_store; [|done].
  eapply store_ok_snapshot; [apply same_reserveClient|apply H].
Qed.

(** *** Broadcasts *)

Definition msg_ok (m : GatewayMessage) : Prop := stored_ok (extractSessionFromGatewayMessage m).

Lemma appended_payload m st m' : (appendEvent m st).1 = Appended m' -> m_payload m' = m_payload m.
Proof.
  unfold appendEvent. destruct (m_sessionId m); [|done]. destruct (_ || _); [done|].
  gw_split; cbn [fst]; intros E'; try done; by simplify_eq/=.
Qed.

Lemma mo_apply m g g' : msg_ok m -> modes_ok g -> apply_message m g = Some g' -> modes_ok g'.
Proof.
  intros Hm H. unfold apply_message.
  destruct (extractSessionFromGatewayMessage m) as [s|] eqn:Es.
  - destruct (_ && _); [done|]. intros E. apply Some_inj in E. subst g'.
    apply mo_on_upsert; [by apply Hm|].
    destruct (busy_status _); auto using mo_live, mo_release, mo_not_live.
  - gw_split; intros E'; try done; apply Some_inj in E'; subst g'; try done;
      apply mo_on_update; try done; auto using mo_live, mo_release, mo_not_live.
Qed.

Lemma mo_bg m g : msg_ok m -> modes_ok g -> modes_ok (broadcastGateway m g).
Proof.
  intros Hm H. unfold broadcastGateway.
  pose proof (appended_payload m (store g)) as Hp.
  destruct (appendEvent m (store g)) as [r st] eqn:E. simpl in Hp.
  assert (store_ok st) as Hst.
  { eapply store_ok_snapshot; [|apply H]. pose proof (same_appendEvent m (store g)) as Hs. by rewrite E in Hs. }
  set (m' := match r with Appended m => m | _ => m end).
  assert (msg_ok m') as Hm'.
  { unfold msg_ok, extractSessionFromGatewayMessage, m'.
    destruct r as [| |m1]; try exact Hm. rewrite (Hp m1 eq_refl). exact Hm. }
  set (g2 := on_store _ _).
  assert (modes_ok g2) as H2.
  { apply mo_with_store; [|apply mo_with_store; [|done]].
    - apply store_ok_relation. simpl. by destruct r.
    - by destruct r. }
  destruct (apply_message m' g2) as [g3|] eqn:E3; [|done].
  apply mo_broadcast. by apply (mo_apply m' g2).
Qed.

Lemma prop_id_session s : prop "id" (session_val s) = VStr (s_id s).
Proof. reflexivity. Qed.

Lemma prop_field k ps v : mget k ps = Some v -> prop k (VObj ps) = v.
Proof. intros E. simpl. by rewrite E. Qed.

(** A message with a session among its fields carries that session. *)
Lemma msg_ok_session type id now ps s :
  mget "session" ps = Some (session_val s) -> session_ok s -> msg_ok (gw_message type id now ps).
Proof.
  intros E Hs s'. unfold extractSessionFromGatewayMessage. cbn [m_payload gw_message message].
  rewrite (prop_field _ _ _ E). rewrite (prop_id_session s), session_roundtrip.
  intros E'. apply Some_inj in E'. by subst s'.
Qed.

Lemma msg_ok_plain m : prop "session" (m_payload m) = VUndef -> msg_ok m.
Proof. intros E s. unfold extractSessionFromGatewayMessage. by rewrite E. Qed.

Lemma subagent_plain now t u item parents m parents' :
  subagent_item now t u item parents = Some (m, parents') -> prop "session" (m_payload m) = VUndef.
Proof.
  unfold subagent_item. cbv zeta. destruct (is_str "subAgentActivity" _); [by intros [= <- _]|].
  destruct (is_str "collabAgentToolCall" _); [by intros [= <- _]|done].
Qed.

Lemma status_plain now t record stored parents :
  prop "session" (m_payload (status_message now t record stored parents).1) = VUndef.
Proof. unfold status_message. cbv zeta. by destruct (_ && _). Qed.

Lemma output_plain now method t u record m :
  output_message now method t u record = Some m -> prop "session" (m_payload m) = VUndef.
Proof. unfold output_message. destruct (_ || _); [by intros [= <-]|]. destruct (_ || _); by intros [= <-]. Qed.

Lemma approval_plain now record m :
  auto_approved_message now record = Some m \/ approval_requested_message now record = Some m \/
  approval_expired_message now record = Some m -> prop "session" (m_payload m) = VUndef.
Proof.
  unfold auto_approved_message, approval_requested_message, approval_expired_message. cbv zeta.
  destruct (str_prop "threadId" record); destruct (str_prop "threadId" (as_record _));
    destruct (str_prop "requestId" record); repeat destruct (_ === ""); naive_solver.
Qed.

Lemma normalized_plain now stored e parents m :
  (normalizeCodexEvent now stored e parents).1 = Some m -> prop "session" (m_payload m) = VUndef.
Proof.
  unfold normalizeCodexEvent. cbv zeta. destruct (negb _); [done|].
  do 3 (destruct (_ === _); [cbn [fst]; eauto using approval_plain|]).
  destruct (str_prop "threadId" (e_params e)) as [t|]; [|done]. destruct (t === ""); [done|].
  match goal with |- context [match ?x with _ => _ end] => destruct x as [[m1 p1]|] eqn:E end.
  - intros [= <-]. destruct (_ && _); [|done]. by eapply subagent_plain.
  - clear E. destruct (_ === _).
    { pose proof (status_plain now t (e_params e) stored parents) as Hs.
      destruct (status_message _ _ _ _ _). cbn [fst] in *. intros E'. apply Some_inj in E'. by subst. }
    destruct (_ === _); [by intros [= <-]|]. cbn [fst]. apply output_plain.
Qed.

Lemma mo_codex now e g : modes_ok g -> modes_ok (codexEvent now e g).
Proof.
  intros H. unfold codexEvent. set (g1 := broadcast _ g).
  assert (modes_ok g1) as H1 by (by apply mo_broadcast). clearbody g1.
  pose proof (normalized_plain now (fun id => getSubagentParent id (store g1)) e (subagentParents g1)) as Hn.
  destruct (normalizeCodexEvent _ _ _ _) as [[m|] parents]; [|by apply mo_parents].
  apply mo_bg; [|by apply mo_parents]. by apply msg_ok_plain, Hn.
Qed.

Ltac mo_side :=
  first [ done | exact ok_confirm | by apply msg_ok_plain
        | by (apply msg_ok_plain; unfold when_set; gw_split)
        | eapply msg_ok_session; [reflexivity|mo_side]
        | by (intros ? ?) | by apply policy_ok, mo_bridge | by eauto ].
Ltac mo_step :=
  first [ apply mo_reply | apply mo_broadcast | apply mo_release | apply mo_live | apply mo_not_live
        | apply mo_gate | apply mo_runs | apply mo_cancelled | apply mo_parents | apply mo_interrupt
        | apply mo_remember_create | apply mo_release_create | apply mo_remember_request
        | apply mo_release_client | apply mo_reserve_client | apply mo_reserve_create
        | apply mo_await; [mo_side|] | apply mo_policy; [mo_side|] | apply mo_bg; [mo_side|]
        | apply mo_on_upsert; [mo_side|] | apply mo_on_update; [mo_side|] | apply mo_upsert; [mo_side|]
        | apply mo_update; [mo_side|] | apply mo_save; [mo_side|] ].
Ltac mo_walk := gw_split; cbn [fst snd]; repeat mo_step; try done.

Lemma mo_fail now id e g : modes_ok g -> modes_ok (fail_session now id e g).
Proof. intros H. unfold fail_session. mo_walk. Qed.

Lemma mo_settle now id base t g :
  session_ok base -> modes_ok g -> modes_ok (settleInterruptedSession now id base t g).2.
Proof. intros Hb H. unfold settleInterruptedSession. mo_walk. Qed.

Section handlers_modes.
Context (config : GatewayConfig) (now : Z).

Lemma threadToSession_ok t st : session_ok (threadToSession config t st).
Proof. exact ok_confirm. Qed.

Lemma stored_getSession id st : store_ok st -> stored_ok (getSession id st).
Proof. intros H s. apply H. Qed.

Lemma stored_mode o c : stored_ok o -> s_sessionPolicyMode <$> o = Some c -> ok c.
Proof. intros H E. destruct o as [s|]; [|done]. simpl in E. simplify_eq. by apply H. Qed.

Lemma mo_admit receivedAt id body p t w g :
  ok (default confirm (match b_mode body with Some m => Some m | None => s_sessionPolicyMode <$> p end)) ->
  modes_ok g -> modes_ok (admitTurn config now receivedAt id body p t w g).
Proof.
  intros Hm H. unfold admitTurn. set (policy := default confirm _) in *.
  assert (session_ok (turn_session config receivedAt body policy p t)) as Hs by (by destruct p).
  set (session := turn_session _ _ _ _ _ _) in *. clearbody session policy. mo_walk.
Qed.

Lemma mo_interjectOn id body t e g : modes_ok g -> modes_ok (interjectOn now id body t e g).
Proof. intros H. unfold interjectOn. mo_walk. Qed.

Lemma mo_policyAuthorized id body m c g :
  body_ok body -> (forall x, c = Some x -> stored_ok (x_session x)) -> modes_ok g ->
  modes_ok (policyAuthorized now id body m c g).
Proof.
  intros Hb Hc H. unfold policyAuthorized.
  destruct c as [[[s|] t w]|]; [|by apply mo_reply..]. specialize (Hc _ eq_refl s eq_refl).
  destruct (negb _); [by apply mo_reply|].
  destruct (fullAccessConfirmationRequired _ _ _) eqn:E; [by apply mo_reply|].
  assert (ok m) as Hm by (eapply guard_ok; [done..|]; intros [= <-]; done).
  set (f := fun s => _). assert (forall s, session_ok s -> session_ok (f s)) as Hf by done.
  set (g1 := remember_policy id m g). assert (modes_ok g1) as H1 by (by apply mo_policy).
  destruct (updateSession id f (store g1)) as [u st] eqn:Eu.
  assert (st = (updateSession id f (store g1)).2) as -> by (by rewrite Eu).
  apply mo_await; [|by apply mo_update]. split; [done|].
  unfold updateSession in Eu. destruct (mget _ _); simplify_eq; done.
Qed.

Lemma mo_openSession body m w id g : ok m -> modes_ok g -> modes_ok (openSession config now body m w id g).
Proof.
  intros Hm H. unfold openSession. cbv zeta.
  set (session := with_s_sessionPolicyMode m _). assert (session_ok session) as Hs by done. clearbody session.
  mo_walk.
Qed.

Lemma mo_threadStarted body m w r g :
  ok m -> modes_ok g -> modes_ok (threadStarted config now body m w r g).
Proof.
  intros Hm H. unfold threadStarted. destruct r as [response ths ws|e]; [|mo_walk].
  destruct (negb _); [mo_walk|]. cbv zeta.
  destruct (TurnGate.acquire _ _ _ _) as [[] gate];
    first [by apply mo_openSession; [done|apply mo_gate]|mo_walk].
Qed.

Lemma context_ok s ths w x :
  stored_ok s -> authorizedThreadContext s ths w = Some x -> stored_ok (x_session x).
Proof.
  intros Hs. unfold authorizedThreadContext. destruct s; [|destruct (head ths)]; intros E; simplify_eq/=; done.
Qed.

Lemma mo_authorized id session next r g :
  stored_ok session -> next_ok next -> modes_ok g -> modes_ok (authorized config now id session next r g).
Proof.
  intros Hs Hn H. unfold authorized. destruct r as [v ths w|e]; [|mo_walk].
  pose proof (context_ok session ths w) as Hc.
  destruct next as [turnId notify|body m|body|rid d turnId am].
  2: { apply mo_policyAuthorized; eauto. }
  all: destruct (authorizedThreadContext session ths w) as [c|]; [|mo_walk];
    destruct (negb _); [mo_walk|]; specialize (Hc c Hs eq_refl).
  - unfold interruptAuthorized. cbv zeta. destruct (x_session c) as [s|] eqn:Ex.
    + apply mo_await; [by apply Hc|done].
    + destruct (x_thread c); [|done]. by apply mo_await.
  - unfold interjectAuthorized. destruct (b_turnId body); [by apply mo_interjectOn|]. by apply mo_await.
  - by apply mo_await.
Qed.

Lemma mo_turnLookedUp id body receivedAt r g :
  body_ok body -> modes_ok g -> modes_ok (turnLookedUp config now id body receivedAt r g).
Proof.
  intros Hb H. unfold turnLookedUp. destruct r as [v ths w|e]; [|mo_walk].
  destruct (head ths) as [t|]; [|mo_walk].
  destruct (fullAccessConfirmationRequired _ _ _) eqn:E; [mo_walk|].
  apply mo_admit; [|done]. simpl. by eapply guard_ok_opt.
Qed.

Lemma mo_apiTurnStep id body p t phase r g :
  modes_ok g -> modes_ok (apiTurnStep config now id body p t phase r g).
Proof.
  intros H. unfold apiTurnStep. destruct r as [v ths w|e]; [|mo_walk]. destruct phase; [mo_walk..|].
  set (session := match t with Some t => _ | None => _ end).
  assert (session_ok session) as Hs by (by destruct t). clearbody session. mo_walk.
Qed.

Lemma mo_interjectStep id body t turnId phase r g :
  modes_ok g -> modes_ok (interjectStep config now id body t turnId phase r g).
Proof.
  intros H. unfold interjectStep. destruct phase; [mo_walk..|]. destruct r as [v ths w|e]; [|mo_walk].
  set (session := match getSession id (store g) with Some s => _ | None => _ end).
  assert (session_ok session) as Hs.
  { unfold session. destruct (getSession id (store g)) as [s|] eqn:E; [|by destruct t].
    by apply (mo_store _ H id). }
  clearbody session. mo_walk.
Qed.

Lemma mo_resumed id m r g : ok m -> modes_ok g -> modes_ok (resumed now id m r g).
Proof.
  intros Hm H. unfold resumed. destruct r as [v ths w|e]; [|mo_walk]. cbv zeta.
  set (g1 := remember_policy id m g). assert (modes_ok g1) as H1 by (by apply mo_policy). clearbody g1.
  set (f := fun s => _). assert (forall s, session_ok s -> session_ok (f s)) as Hf by done.
  destruct (updateSession id f (store g1)) as [u st] eqn:Eu.
  assert (st = (updateSession id f (store g1)).2) as -> by (by rewrite Eu).
  apply mo_reply, mo_broadcast. destruct u as [s|]; [|by apply mo_update].
  apply mo_bg; [|by apply mo_update]. eapply msg_ok_session; [reflexivity|].
  unfold updateSession in Eu. destruct (mget _ _); by simplify_eq.
Qed.

Lemma mo_forked id m r g : ok m -> modes_ok g -> modes_ok (forked config now id m r g).
Proof.
  intros Hm H. unfold forked. destruct r as [v ths w|e]; [|mo_walk]. cbv zeta.
  apply mo_reply. destruct (str_truthy _); [|done].
  set (session := threadToSession _ _ _). assert (session_ok session) as Hs by apply threadToSession_ok.
  clearbody session. repeat mo_step. done.
Qed.

Lemma bridge_ok_resolve rid d t u am b :
  bridge_ok b -> bridge_ok (resolveApproval rid d t u am b).2.
Proof.
  assert (forall b', policyByThread b' = policyByThread b -> bridge_ok b -> bridge_ok b') as Hp.
  { unfold bridge_ok. by intros b' ->. }
  apply Hp. unfold resolveApproval, decide_approval, reply, request_failed, writeMessage.
  destruct (mget rid _); [|done]. destruct (_ && _); [done|]. destruct (_ || _ || _); [done|].
  cbv zeta. cbn [snd]. set (b1 := with_pendingApprovals _ _).
  change (policyByThread b) with (policyByThread b1). clearbody b1.
  destruct (child_open b1) eqn:E; [done|].
  replace (child_open (emit _ b1)) with (child_open b1) by done. by rewrite E.
Qed.

Lemma mo_approvalAudited id rid d t am r g :
  modes_ok g -> modes_ok (approvalAudited now id rid d t am r g).
Proof.
  intros H. unfold approvalAudited. destruct r as [v ths w|e]; [|mo_walk].
  pose proof (bridge_ok_resolve rid d (Some id) t am (codexBridge g) (mo_bridge _ H)) as Hb.
  destruct (resolveApproval _ _ _ _ _ _) as [res b]. cbn [snd] in Hb.
  assert (modes_ok (with_codexBridge b g)) as H1 by (destruct H; by split).
  destruct res; mo_walk.
Qed.

Lemma imported_ok t g : session_ok (imported config t g).
Proof. exact ok_confirm. Qed.

Lemma mo_importList r g : modes_ok g -> modes_ok (importList config r g).
Proof.
  intros H. unfold importList. gw_split; apply mo_reply, mo_upserts; try done;
    apply Forall_forall; intros s (t & -> & _)%list_elem_of_fmap; apply imported_ok.
Qed.

Lemma mo_forkLookedUp id body parent r g :
  body_ok body -> modes_ok g -> modes_ok (forkLookedUp id body parent r g).
Proof.
  intros Hb H. unfold forkLookedUp. destruct r as [v ths w|e]; [|mo_walk].
  set (unknown := match parent with Some _ => _ | None => _ end). destruct unknown; [mo_walk|].
  destruct (negb (str_truthy w)); [mo_walk|]. cbv zeta. set (m := default confirm _).
  destruct (fullAccessConfirmationRequired _ _ _) eqn:Eg; [mo_walk|]. apply mo_await; [|done].
  by apply (guard_ok m body None).
Qed.

Lemma mo_resume_task t r g : task_ok t -> modes_ok g -> modes_ok (resume_task config now t r g).
Proof.
  intros Ht H. destruct t; cbn [resume_task]; cbn [task_ok] in Ht;
    try match type of Ht with _ /\ _ => destruct Ht end;
    auto using mo_authorized, mo_threadStarted, mo_turnLookedUp, mo_apiTurnStep, mo_interjectStep, mo_resumed,
      mo_forked, mo_approvalAudited, mo_importList, mo_forkLookedUp.
  - unfold workspaceResolved. mo_walk.
  - unfold firstTurnChecked, firstTurnFailed. destruct r; mo_walk.
  - unfold firstTurnStarted, firstTurnFailed. destruct r; mo_walk.
  - unfold apiWorkspaceResolved. mo_walk.
  - unfold apiThreadStarted. mo_walk.
  - unfold apiFirstChecked. mo_walk.
  - unfold apiFirstStarted. mo_walk.
  - unfold runStep. cbv zeta. destruct r; [destruct phase|]; mo_walk.
  - unfold apiTurnLookedUp. mo_walk. apply mo_policy; [by apply policy_ok, H|]. mo_walk.
  - unfold interjectResolved. by apply mo_interjectOn.
  - unfold interruptAudited. destruct r; [|mo_walk]. gw_split; repeat mo_step; by try apply mo_settle.
  - unfold policyAudited. mo_walk.
  - unfold resumeLookedUp. mo_walk.
  - unfold forkAudited. mo_walk.
  - unfold importThread. mo_walk.
Qed.

Lemma mo_listThreads l g : modes_ok g -> modes_ok (listThreads now l g).
Proof.
  unfold listThreads. intros H.
  assert (forall acc g1, modes_ok g1 -> modes_ok (foldl (fun '(l, g) t =>
    let '(t, g) := withGatewayThreadStatus now t g in (l ++ [t], g)) (acc, g1) l).2) as Hl.
  { clear g H. induction l as [|t l IH]; intros acc g1 H; [done|]. simpl.
    unfold withGatewayThreadStatus. gw_split; apply IH; repeat mo_step; done. }
  specialize (Hl [] g H). destruct (foldl _ _ _). by apply mo_reply.
Qed.

Lemma mo_exec o g : op_ok o -> modes_ok g -> modes_ok (gw_exec config now o g).
Proof.
  intros Ho H. destruct o; cbn [gw_exec]; cbn [op_ok] in Ho;
    unfold postInterrupt, patchPolicy, postApproval, getSessions, postFork;
    try (by (mo_walk; auto using stored_getSession, mo_store)).
  - unfold postSession. destruct (isRequestExpired _ _); [mo_walk|].
    destruct (fullAccessConfirmationRequired _ _ _) eqn:E; [mo_walk|].
    assert (ok (default confirm (b_mode body))) by (by eapply guard_ok). mo_walk.
  - unfold postThread. destruct (isRequestExpired _ _); [mo_walk|].
    destruct (fullAccessConfirmationRequired _ _ _) eqn:E; [mo_walk|].
    apply mo_await; [|done]. by eapply guard_ok.
  - unfold postTurn. destruct (turn_expired _ _); [mo_walk|].
    destruct (getSession id (store g)) as [s|] eqn:Es; [|by apply mo_await].
    destruct (fullAccessConfirmationRequired _ _ _) eqn:E; [mo_walk|].
    apply mo_admit; [|done]. apply (guard_ok_opt _ body (Some (s_sessionPolicyMode s))); [done..|].
    intros c [= <-]. by apply (mo_store _ H id).
  - unfold apiTurn. mo_walk.
  - destruct (isRequestExpired _ _); [mo_walk|]. apply mo_await; [|done]. split; [|done].
    apply stored_getSession, H.
  - destruct (isRequestExpired _ _); [mo_walk|]. apply mo_await; [|done]. split; [|done].
    apply stored_getSession, H.
  - destruct (isRequestExpired _ _); [mo_walk|]. apply mo_await; [|done]. split; [|done].
    apply stored_getSession, H.
  - unfold postResume. destruct (isRequestExpired _ _); [mo_walk|].
    destruct (fullAccessConfirmationRequired _ _ _) eqn:E; [mo_walk|].
    apply mo_await; [|done]. eapply guard_ok; [done..|]. apply stored_mode, stored_getSession, H.
  - destruct (isRequestExpired _ _); [mo_walk|]. destruct (_ && _); [mo_walk|]. apply mo_await; [|done].
    split; [|done]. apply stored_getSession, H.
  - by apply mo_listThreads.
  - by apply mo_codex.
  - destruct (inflight g !! i) as [t|] eqn:Et; [|done].
    assert (task_ok t) by (eapply Forall_lookup_1; [apply H|done]).
    apply mo_resume_task; [done|]. destruct H as [H1 H2 H3]. split; [done..|]. by apply Forall_delete.
Qed.
End handlers_modes.

Lemma mo_run config os g :
  Forall (fun o => op_ok o.2) os -> modes_ok g -> modes_ok (gw_run config os g).
Proof.
  revert g. induction os as [|[now o] os IH]; intros g Ho H; [done|]. inv Ho.
  cbn [gw_run foldl]. apply IH; [done|]. by apply mo_exec.
Qed.
End modes.

(** ** Background runs *)

Definition run_key (t : gw_task) : option (string * Z) :=
  match t with TurnRun id generation _ _ => Some (id, generation) | _ => None end.

Definition runs (g : Gateway) : list (string * Z) := omap run_key (inflight g).

(** No two runs in flight share a generation, and none is ahead of it. *)
Record runs_ok (g : Gateway) : Prop := {
  ro_unique : NoDup (runs g);
  ro_bound : Forall (fun r => r.2 <= SessionRunState.generation_of r.1 (sessionRunState g)) (runs g)
}.

(** [g'] has the runs of [g], and its generations or later ones. *)
Definition keeps_runs (g g' : Gateway) : Prop :=
  runs g' = runs g /\
  forall id, SessionRunState.generation_of id (sessionRunState g)
             <= SessionRunState.generation_of id (sessionRunState g').

#[global] Instance keeps_runs_preorder : PreOrder keeps_runs.
Proof.
  split; [split; [done|lia]|]. intros g1 g2 g3 [E1 L1] [E2 L2]. split; [congruence|].
  intros id. etrans; [apply L1|apply L2].
Qed.

Lemma keeps_runs_ok g g' : keeps_runs g g' -> runs_ok g -> runs_ok g'.
Proof.
  intros [E L] [H1 H2]. split; rewrite E; [done|]. eapply Forall_impl; [done|]. intros [id n]. simpl.
  specialize (L id). lia.
Qed.

Lemma keeps_eq g g1 g2 :
  inflight g2 = inflight g1 -> sessionRunState g2 = sessionRunState g1 -> keeps_runs g g1 -> keeps_runs g g2.
Proof. intros E1 E2 [E L]. unfold keeps_runs, runs in *. rewrite E1, E2. done. Qed.

Section keeps_steps.
Context (g : Gateway).

Lemma kr_reply a g1 : keeps_runs g g1 -> keeps_runs g (reply_with a g1).
Proof. by apply keeps_eq. Qed.
Lemma kr_broadcast o g1 : keeps_runs g g1 -> keeps_runs g (broadcast o g1).
Proof. by apply keeps_eq. Qed.
Lemma kr_release id g1 : keeps_runs g g1 -> keeps_runs g (release_gate id g1).
Proof. by apply keeps_eq. Qed.
Lemma kr_live id g1 : keeps_runs g g1 -> keeps_runs g (live id g1).
Proof. by apply keeps_eq. Qed.
Lemma kr_not_live id g1 : keeps_runs g g1 -> keeps_runs g (not_live id g1).
Proof. by apply keeps_eq. Qed.
Lemma kr_gate v g1 : keeps_runs g g1 -> keeps_runs g (with_turnGate v g1).
Proof. by apply keeps_eq. Qed.
Lemma kr_store v g1 : keeps_runs g g1 -> keeps_runs g (with_store v g1).
Proof. by apply keeps_eq. Qed.
Lemma kr_on_store f g1 : keeps_runs g g1 -> keeps_runs g (on_store f g1).
Proof. by apply keeps_eq. Qed.
Lemma kr_bridge v g1 : keeps_runs g g1 -> keeps_runs g (with_codexBridge v g1).
Proof. by apply keeps_eq. Qed.
Lemma kr_cancelled v g1 : keeps_runs g g1 -> keeps_runs g (with_cancelledSessions v g1).
Proof. by apply keeps_eq. Qed.
Lemma kr_parents v g1 : keeps_runs g g1 -> keeps_runs g (with_subagentParents v g1).
Proof. by apply keeps_eq. Qed.
Lemma kr_policy id m g1 : keeps_runs g g1 -> keeps_runs g (remember_policy id m g1).
Proof. by apply keeps_eq. Qed.
Lemma kr_interrupt id t g1 : keeps_runs g g1 -> keeps_runs g (requestCodexInterrupt id t g1).
Proof. apply keeps_eq; unfold requestCodexInterrupt; by gw_split. Qed.
Lemma kr_release_create r g1 : keeps_runs g g1 -> keeps_runs g (release_create r g1).
Proof. apply keeps_eq; unfold release_create; by gw_split. Qed.
Lemma kr_remember_request id r g1 : keeps_runs g g1 -> keeps_runs g (remember_request id r g1).
Proof. apply keeps_eq; unfold remember_request; by gw_split. Qed.
Lemma kr_release_client id r g1 : keeps_runs g g1 -> keeps_runs g (release_client id r g1).
Proof. apply keeps_eq; unfold release_client; by gw_split. Qed.
Lemma kr_reserve_client now id r g1 : keeps_runs g g1 -> keeps_runs g (reserve_client now id r g1).2.
Proof. apply keeps_eq; unfold reserve_client; by gw_split. Qed.
Lemma kr_await t g1 : run_key t = None -> keeps_runs g g1 -> keeps_runs g (await t g1).
Proof.
  intros Ht [E L]. split; [|done]. unfold runs in *. cbn [await with_inflight inflight].
  rewrite omap_app. simpl. by rewrite Ht, app_nil_r.
Qed.

Lemma kr_cancel id g1 :
  keeps_runs g g1 -> keeps_runs g (with_sessionRunState (SessionRunState.cancel id (sessionRunState g1)).2 g1).
Proof.
  intros [E L]. split; [done|]. intros id'. etrans; [apply L|].
  pose proof (SessionRunState.generation_exec (SessionRunState.Cancel id) (sessionRunState g1) id') as Hg.
  cbn [SessionRunState.exec] in Hg. cbn [with_sessionRunState sessionRunState]. rewrite Hg. case_decide; lia.
Qed.

Lemma kr_apply m g1 g2 : keeps_runs g g1 -> apply_message m g1 = Some g2 -> keeps_runs g g2.
Proof.
  intros H. unfold apply_message.
  gw_split; intros E'; try done; apply Some_inj in E'; subst g2;
    auto using kr_on_store, kr_live, kr_release, kr_not_live.
Qed.

Lemma kr_bg m g1 : keeps_runs g g1 -> keeps_runs g (broadcastGateway m g1).
Proof.
  intros H. unfold broadcastGateway. destruct (appendEvent m (store g1)) as [r st]. cbv zeta.
  set (m' := match r with Appended m => m | _ => m end). set (g2 := on_store _ _).
  assert (keeps_runs g g2) as H2 by (by apply kr_on_store, kr_store). clearbody m' g2.
  destruct (apply_message m' g2) as [g3|] eqn:E; [|done].
  apply kr_broadcast. by eapply kr_apply.
Qed.
End keeps_steps.
#[export] Hint Resolve kr_reply kr_broadcast kr_release kr_live kr_not_live kr_gate kr_store kr_on_store kr_bridge
  kr_cancelled kr_parents kr_policy kr_interrupt kr_release_create kr_remember_request kr_release_client
  kr_reserve_client kr_cancel kr_bg : gw.
#[export] Hint Extern 2 (keeps_runs _ (await _ _)) => apply kr_await; [reflexivity|] : gw.
#[export] Hint Extern 0 (keeps_runs ?g ?g) => reflexivity : gw.

Lemma kr_fail now id e g g1 : keeps_runs g g1 -> keeps_runs g (fail_session now id e g1).
Proof. intros H. unfold fail_session. eauto with gw. Qed.
Lemma kr_settle now id base t g g1 :
  keeps_runs g g1 -> keeps_runs g (settleInterruptedSession now id base t g1).2.
Proof. intros H. unfold settleInterruptedSession. gw_split; cbn [snd]; eauto 20 with gw. Qed.
Lemma kr_codex now e g g1 : keeps_runs g g1 -> keeps_runs g (codexEvent now e g1).
Proof. intros H. unfold codexEvent. gw_split; eauto 20 with gw. Qed.
#[export] Hint Resolve kr_fail kr_settle kr_codex : gw.

Section handlers_runs.
Context (config : GatewayConfig) (now : Z).

Ltac walk := intros; gw_split; cbn [fst snd]; eauto 30 with gw.
Ltac kr_from H := eapply keeps_runs_ok; [|exact H]; eauto 30 with gw.

(** A new run has a generation of its own. *)
Lemma begin_runs id policy g g1 :
  let '(n, rs) := SessionRunState.begin id (sessionRunState g) in
  runs_ok g -> keeps_runs (with_sessionRunState rs g) g1 ->
  runs_ok (await (TurnRun id n policy Resuming) g1).
Proof.
  simpl. set (n := _ + 1). set (rs := {| SessionRunState.generations := _ |}). intros [H1 H2] [E L].
  assert (Hn : forall id', SessionRunState.generation_of id' rs
      = SessionRunState.generation_of id' (sessionRunState g) + (if decide (id = id') then 1 else 0))
    by exact (SessionRunState.generation_exec (SessionRunState.Begin id) (sessionRunState g)).
  unfold runs in *. simpl in E, L.
  assert (runs (await (TurnRun id n policy Resuming) g1) = runs g ++ [(id, n)]) as Er.
  { unfold runs. cbn [await with_inflight inflight]. by rewrite omap_app, E. }
  split; rewrite Er.
  - apply NoDup_app. split; [done|]. split; [|apply NoDup_singleton].
    intros r Hr ->%list_elem_of_singleton. eapply Forall_forall in H2; [|done]. simpl in H2. lia.
  - apply Forall_app. split.
    + eapply Forall_impl; [done|]. intros [id' n']. simpl. specialize (L id'). rewrite Hn in L.
      case_decide; lia.
    + constructor; [|done]. simpl. specialize (L id). rewrite Hn, decide_True in L by done. lia.
Qed.

Lemma ro_admit receivedAt id body p t w g :
  runs_ok g -> runs_ok (admitTurn config now receivedAt id body p t w g).
Proof.
  intros H. unfold admitTurn. cbv zeta. set (policy := default confirm _).
  set (session := turn_session _ _ _ _ _ _). clearbody session policy.
  destruct (negb _); [kr_from H|].
  destruct (_ && _); [kr_from H|].
  pose proof (kr_reserve_client g now id (b_clientRequestId body) g ltac:(done)) as Hr.
  destruct (reserve_client _ _ _ _) as [reserved g1]. cbn [snd] in Hr.
  assert (runs_ok g1) as H1 by (by eapply keeps_runs_ok). clear Hr H.
  destruct (negb _); [kr_from H1|].
  destruct (TurnGate.acquire _ _ _ _) as [[] gate]; [|kr_from H1..].
  set (g2 := with_cancelledSessions _ _).
  assert (runs_ok g2) as H2 by (by eapply keeps_runs_ok; [|exact H1]; unfold g2; eauto with gw).
  clearbody g2. pose proof (begin_runs id policy g2) as Hb.
  destruct (SessionRunState.begin _ _) as [n rs].
  eapply keeps_runs_ok; [apply kr_reply; reflexivity|]. apply Hb; [done|]. eauto 20 with gw.
Qed.

(** A step of a run continues it or ends it. *)
Lemma ro_run id n policy phase r g :
  (id, n) ∉ runs g -> n <= SessionRunState.generation_of id (sessionRunState g) -> runs_ok g ->
  runs_ok (runStep now id n policy phase r g).
Proof.
  intros Hi Hn H.
  assert (forall phase' g1, keeps_runs g g1 -> runs_ok (await (TurnRun id n policy phase') g1)) as Ha.
  { intros phase' g1 [E L]. destruct H as [H1 H2].
    assert (runs (await (TurnRun id n policy phase') g1) = runs g ++ [(id, n)]) as Er.
    { unfold runs in *. cbn [await with_inflight inflight]. by rewrite omap_app, E. }
    split; rewrite Er.
    - apply NoDup_app. split; [done|]. split; [|apply NoDup_singleton].
      by intros r' Hr ->%list_elem_of_singleton.
    - apply Forall_app. split.
      + eapply Forall_impl; [done|]. intros [id' n']. simpl. specialize (L id'). lia.
      + constructor; [|done]. simpl. specialize (L id). lia. }
  unfold runStep. cbv zeta.
  destruct r; [destruct phase|]; gw_split; try (by apply Ha; eauto with gw); kr_from H.
Qed.

Lemma kr_task t r g :
  run_key t = None -> (forall id body at', t <> TurnLookup id body at') ->
  keeps_runs g (resume_task config now t r g).
Proof.
  intros Ht Hl. destruct t; try done; cbn [resume_task];
    unfold authorized, workspaceResolved, threadStarted, openSession, firstTurnChecked, firstTurnStarted, firstTurnFailed,
      apiWorkspaceResolved, apiThreadStarted, apiFirstChecked, apiFirstStarted, apiTurnLookedUp, apiTurnStep,
      interjectResolved, interjectStep, interruptAudited, policyAudited, resumeLookedUp, resumed, forkLookedUp,
      forkAudited, forked, approvalAudited, importList, importThread, interruptAuthorized, interjectAuthorized,
      interjectOn, policyAuthorized; try (by walk).
  exfalso. by eapply Hl.
Qed.

Lemma runs_delete i t g :
  inflight g !! i = Some t -> runs_ok g ->
  let g1 := with_inflight (delete i (inflight g)) g in
  runs_ok g1 /\ forall k, run_key t = Some k ->
    (k ∉ runs g1) /\ k.2 <= SessionRunState.generation_of k.1 (sessionRunState g).
Proof.
  intros Hi [H1 H2]. cbv zeta. unfold runs in *. cbn [with_inflight inflight].
  pose proof (delete_Permutation _ _ _ Hi) as Hp. apply (omap_Permutation run_key) in Hp.
  rewrite Hp in H1, H2. simpl in H1, H2.
  destruct (run_key t) as [k|] eqn:Ek.
  - apply NoDup_cons in H1 as [Hk H1]. apply Forall_cons in H2 as [Hb H2].
    split; [by split|]. by intros k' [= <-].
  - split; [by split|done].
Qed.

Lemma ro_task t r g i :
  inflight g !! i = Some t -> runs_ok g ->
  runs_ok (resume_task config now t r (with_inflight (delete i (inflight g)) g)).
Proof.
  intros Hi H. pose proof (runs_delete _ _ _ Hi H) as [H1 Hk]. set (g1 := with_inflight _ g) in *.
  destruct (run_key t) as [k|] eqn:Ek.
  - destruct t; try done. simpl in Ek. simplify_eq. destruct (Hk _ eq_refl) as [Hn Hb]. by apply ro_run.
  - destruct t; try (eapply keeps_runs_ok; [by apply kr_task|done]).
    cbn [resume_task]. unfold turnLookedUp. destruct r; [|kr_from H1].
    destruct (head threads); [|kr_from H1]. destruct (fullAccessConfirmationRequired _ _ _); [kr_from H1|].
    by apply ro_admit.
Qed.

Lemma kr_listThreads l g : keeps_runs g (listThreads now l g).
Proof.
  unfold listThreads.
  assert (forall acc g1, keeps_runs g g1 -> keeps_runs g (foldl (fun '(l, g) t =>
    let '(t, g) := withGatewayThreadStatus now t g in (l ++ [t], g)) (acc, g1) l).2) as Hl.
  { induction l as [|t l IH]; intros acc g1 H; [done|]. simpl.
    unfold withGatewayThreadStatus. gw_split; apply IH; eauto with gw. }
  specialize (Hl [] g (reflexivity g)). destruct (foldl _ _ _). by apply kr_reply.
Qed.

Lemma ro_exec o g : runs_ok g -> runs_ok (gw_exec config now o g).
Proof.
  intros H. destruct o; cbn [gw_exec]; unfold postSession, postThread, apiTurn, postInterrupt, patchPolicy,
    postResume, postFork, postApproval, getSessions, authorize;
    try (eapply keeps_runs_ok; [|exact H]; by walk).
  - unfold postTurn. destruct (turn_expired _ _); [kr_from H|].
    destruct (getSession _ _); [|kr_from H].
    destruct (fullAccessConfirmationRequired _ _ _); [kr_from H|by apply ro_admit].
  - eapply keeps_runs_ok; [apply kr_listThreads|done].
  - destruct (inflight g !! i) eqn:E; [|done]. by apply ro_task.
Qed.
End handlers_runs.

Lemma ro_run_all config os g : runs_ok g -> runs_ok (gw_run config os g).
Proof.
  revert g. induction os as [|[now o] os IH]; intros g H; [done|]. cbn [gw_run foldl].
  apply IH. by apply ro_exec.
Qed.

(** *** Generations only grow *)

Definition later_runs (g g' : Gateway) : Prop :=
  forall id, SessionRunState.generation_of id (sessionRunState g)
             <= SessionRunState.generation_of id (sessionRunState g').

#[global] Instance later_runs_preorder : PreOrder later_runs.
Proof. split; [intros g id; lia|]. intros g1 g2 g3 H1 H2 id. etrans; [apply H1|apply H2]. Qed.

Lemma keeps_later g g' : keeps_runs g g' -> later_runs g g'.
Proof. by intros [_ H]. Qed.

Lemma await_later t g : later_runs g (await t g).
Proof. intros id. reflexivity. Qed.

Section later.
Context (config : GatewayConfig) (now : Z).

Ltac walk := intros; gw_split; cbn [fst snd]; eauto 30 with gw.
Ltac keeps := solve [apply keeps_later; eauto 30 with gw].

Lemma later_admit receivedAt id body p t w g : later_runs g (admitTurn config now receivedAt id body p t w g).
Proof.
  unfold admitTurn. cbv zeta. set (policy := default confirm _).
  set (session := turn_session _ _ _ _ _ _). clearbody session policy.
  destruct (negb _); [keeps|]. destruct (_ && _); [keeps|].
  pose proof (kr_reserve_client g now id (b_clientRequestId body) g ltac:(done)) as Hr.
  destruct (reserve_client _ _ _ _) as [reserved g1]. cbn [snd] in Hr.
  destruct (negb _); [keeps|].
  destruct (TurnGate.acquire _ _ _ _) as [[] gate]; [|keeps..].
  set (g2 := with_cancelledSessions _ _).
  assert (keeps_runs g g2) as H2 by (unfold g2; eauto with gw). clearbody g2. clear Hr.
  pose proof (kr_cancel g id g2 H2) as H3. unfold SessionRunState.cancel in H3.
  destruct (SessionRunState.begin _ _) as [n rs]. cbn [snd] in H3.
  etrans; [|apply keeps_later, kr_reply; reflexivity]. etrans; [|apply await_later]. keeps.
Qed.

Lemma later_run id n policy phase r g : later_runs g (runStep now id n policy phase r g).
Proof.
  unfold runStep. cbv zeta. destruct r as [response ths w|e]; [destruct phase|]; gw_split; try keeps;
    (etrans; [|apply await_later]; keeps).
Qed.

Lemma later_exec o g : later_runs g (gw_exec config now o g).
Proof.
  destruct o; cbn [gw_exec]; unfold postSession, postThread, apiTurn, postInterrupt, patchPolicy,
    postResume, postFork, postApproval, getSessions, authorize;
    try (apply keeps_later; by walk).
  - unfold postTurn. destruct (turn_expired _ _); [keeps|]. destruct (getSession _ _); [|keeps].
    destruct (fullAccessConfirmationRequired _ _ _); [keeps|apply later_admit].
  - apply keeps_later, kr_listThreads.
  - destruct (inflight g !! i) as [t|] eqn:E; [|reflexivity]. set (g1 := with_inflight _ g).
    assert (later_runs g g1) as H1 by (intros id; reflexivity). etrans; [exact H1|]. clearbody g1.
    destruct t; try (by apply keeps_later, kr_task); cbn [resume_task]; [|apply later_run].
    unfold turnLookedUp. destruct r; [|keeps]. destruct (head threads); [|keeps].
    destruct (fullAccessConfirmationRequired _ _ _); [keeps|apply later_admit].
Qed.
End later.

Lemma later_run_all config os g : later_runs g (gw_run config os g).
Proof.
  revert g. induction os as [|[now o] os IH]; intros g; [reflexivity|]. cbn [gw_run foldl].
  etrans; [apply (later_exec config now o)|apply IH].
Qed.

Lemma booted_runs st : runs_ok (booted st).
Proof. split; constructor. Qed.

(** ** Claims *)

(** whatever requests, Codex notifications and answers reach the event
    loop of the gateway, and in whatever order, the session store ends where a
    sequence of its own operations leads from the fresh one; so the store's
    invariant holds throughout. *)
Theorem gateway_refines_store config os now a :
  let g := gw_run config os (booted (fresh now a)) in
  (exists ops, store g = run ops (fresh now a)) /\ wf (store g).
Proof.
  cbv zeta. destruct (gateway_store_trace config os (booted (fresh now a))) as [ops E].
  split; [by exists ops|]. rewrite E. apply wf_run, wf_fresh.
Qed.

(** A request that does not confirm full access. *)
Definition unconfirmed (o : gw_op) : Prop :=
  match o with
  | PostSession b | PostThread b | PostTurn _ b | PatchPolicy _ b _ | PostResume _ b | PostFork _ b =>
      b_confirmFullAccess b <> Some true
  | _ => True
  end.

(** C22: no sequence of requests without [confirmFullAccess: true], and no
    Codex notification, gives full access: starting from sessions in confirm
    mode, every stored session stays in confirm mode, and so does the policy
    the bridge applies to every thread when Codex asks for approval. *)
Theorem full_access_needs_confirmation config os st :
  (forall id s, getSession id st = Some s -> s_sessionPolicyMode s = confirm) ->
  Forall (fun o => unconfirmed o.2) os ->
  let g := gw_run config os (booted st) in
  (forall id s, getSession id (store g) = Some s -> s_sessionPolicyMode s = confirm) /\
  (forall id, policy_of id (codexBridge g) = confirm).
Proof.
  intros Hst Hos. cbv zeta.
  assert (modes_ok (eq confirm) (gw_run config os (booted st))) as [H1 H2 _].
  { apply mo_run; [done| |].
    - eapply Forall_impl; [done|]. intros [n o]. destruct o; simpl; try done; unfold body_ok; by intros Hn ?.
    - split; [|constructor..]. intros id s E. symmetry. by apply (Hst id). }
  split.
  - intros id s E. symmetry. by apply (H1 id).
  - intros id. symmetry. by apply (policy_ok (eq confirm)).
Qed.

(** of the background turn runs of a session that are in flight at any
    moment of any execution, at most one is current; every other one sees that
    it was superseded. *)
Theorem one_current_run config os st i j id n1 n2 p1 p2 f1 f2 :
  let g := gw_run config os (booted st) in
  inflight g !! i = Some (TurnRun id n1 p1 f1) -> inflight g !! j = Some (TurnRun id n2 p2 f2) ->
  SessionRunState.isCurrent id n1 (sessionRunState g) = true ->
  SessionRunState.isCurrent id n2 (sessionRunState g) = true -> i = j.
Proof.
  cbv zeta. pose proof (ro_run_all config os (booted st) (booted_runs st)) as [Hn _].
  set (g := gw_run config os (booted st)) in *. clearbody g. intros Hi Hj.
  rewrite !SessionRunState.isCurrent_spec. intros -> [= ->]. unfold runs in Hn.
  revert i j Hi Hj Hn. induction (inflight g) as [|t l IH]; intros i j Hi Hj Hn; [done|].
  assert (forall k p f, l !! k = Some (TurnRun id n2 p f) -> (id, n2) ∈ omap run_key l) as Hin.
  { intros k p f Hk%list_elem_of_lookup_2. apply list_elem_of_omap. by exists (TurnRun id n2 p f). }
  destruct i as [|i], j as [|j]; simpl in Hi, Hj; simplify_eq/=; [done| | |].
  - apply NoDup_cons in Hn as [Hn _]. exfalso. apply Hn. by eapply Hin.
  - apply NoDup_cons in Hn as [Hn _]. exfalso. apply Hn. by eapply Hin.
  - f_equal. apply IH; [done..|]. destruct (run_key t); [by apply NoDup_cons in Hn as [_ ?]|done].
Qed.

(** *** Witnesses *)

(** A request body with its text, request id and policy only. *)
Definition request_body (text : string) (rid : option string) (mode : option SessionPolicyMode) : Body :=
  {| b_text := text; b_clientRequestId := rid; b_expiresAt := None; b_mode := mode;
     b_confirmFullAccess := None; b_title := None; b_turnId := None; b_attachments := [] |}.

Definition demo_config : GatewayConfig := {| codexBin := "codex"; processCwd := "/work" |}.

(** A store with one completed session. *)
Definition demo_store : GatewayStore := run [SaveSession (sample "s" completed)] (fresh 0 fs_good).

Lemma full_access_needs_confirmation_witness :
  let os := [(5, PatchPolicy "s" (request_body "" None None) full_access);
             (6, Settle 0 (Ok VUndef [] (Some "/work")));
             (7, PostTurn "s" (request_body "hi" None (Some full_access)))] in
  let g := gw_run demo_config os (booted demo_store) in
  (s_sessionPolicyMode <$> getSession "s" (store g)) = Some confirm /\
  replies g = [Refused 400 "full_access_confirmation_required"; Refused 400 "full_access_confirmation_required"] /\
  policy_of "s" (codexBridge g) = confirm.
Proof.
  split; [reflexivity|]. split; [reflexivity|].
  apply (full_access_needs_confirmation demo_config
    [(5, PatchPolicy "s" (request_body "" None None) full_access);
     (6, Settle 0 (Ok VUndef [] (Some "/work")));
     (7, PostTurn "s" (request_body "hi" None (Some full_access)))] demo_store).
  - intros id s. unfold getSession, demo_store. simpl. case_decide; [|done]. by intros [= <-].
  - repeat constructor; done.
Defined.

Lemma one_current_run_witness :
  let os := [(5, PostTurn "s" (request_body "hi" None None))] in
  let g := gw_run demo_config os (booted demo_store) in
  inflight g = [TurnRun "s" 1 confirm Resuming] /\ 0%nat = 0%nat.
Proof.
  split; [reflexivity|].
  apply (one_current_run demo_config [(5, PostTurn "s" (request_body "hi" None None))] demo_store
    0 0 "s" 1 1 confirm confirm Resuming Resuming); reflexivity.
Defined.
