(* ===== verification/GatewayCancel.v ===== *)
(** * Runs, cancellation and admission

    How the background runs of index.ts end: what a superseded run can still do,
    that a failed one gives its session back, and that a cancelled session stays
    idle whatever Codex still reports about it, approval requests apart. *)

From S2P Require Import Prelude JsValue JsDate TurnControl GatewayStore StoreInv EventLog CodexEvents CodexBridge Sessions Gateway GatewayInv.

Local Open Scope Z_scope.

#[local] Arguments upsertSession : simpl never.
#[local] Arguments updateSession : simpl never.

(** ** Sessions under store operations *)

Lemma stored_id id s st : wf st -> getSession id st = Some s -> s_id s = id.
Proof.
  intros H E. apply mget_Some_elem in E. exact (proj1 (Forall_forall _ _) (wf_ids _ H) _ E).
Qed.

Lemma get_save id s st :
  getSession id (saveSession s st) = if decide (id = s_id s) then Some s else getSession id st.
Proof.
  unfold getSession, saveSession. simpl. case_decide as E; [subst; apply mget_mset_eq|by apply mget_mset_ne].
Qed.

Lemma get_upsert id s st :
  getSession id (upsertSession s st).2 =
  if decide (id = s_id s) then Some (merge_session st s) else getSession id st.
Proof. unfold upsertSession. cbv zeta. cbn [snd]. by rewrite get_save, s_id_merge. Qed.

Lemma status_merge st s : s_status (merge_session st s) = s_status s.
Proof. unfold merge_session. by destruct (mget _ _). Qed.

Lemma get_update id sid f st :
  wf st -> (forall s, s_id (f s) = s_id s) ->
  getSession id (updateSession sid f st).2 =
  if decide (id = sid) then f <$> getSession id st else getSession id st.
Proof.
  intros H Hf. unfold updateSession. destruct (mget sid (sessions st)) as [s|] eqn:E.
  - cbn [snd]. rewrite get_save, Hf. rewrite (stored_id sid s st) by done.
    case_decide as Ei; [|done]. subst. unfold getSession. by rewrite E.
  - cbn [snd]. case_decide as Ei; [|done]. subst. unfold getSession. by rewrite E.
Qed.

(** ** Idle sessions *)

Definition idle (id : string) (st : GatewayStore) : Prop :=
  forall s, getSession id st = Some s -> busy_status (s_status s) = false.

Lemma idle_same id st st' : sessions st' = sessions st -> idle id st -> idle id st'.
Proof. unfold idle, getSession. by intros ->. Qed.

Lemma idle_update id sid f st :
  wf st -> (forall s, s_id (f s) = s_id s) ->
  (id = sid -> forall s, busy_status (s_status s) = false -> busy_status (s_status (f s)) = false) ->
  idle id st -> idle id (updateSession sid f st).2.
Proof.
  intros Hw Hid Hf H s. rewrite get_update by done. case_decide; [|apply H].
  destruct (getSession id st) as [s0|] eqn:E; [|done]. intros [= <-]. by apply Hf, H.
Qed.

Lemma idle_link id p c st : wf st -> idle id st -> idle id (linkSubagent p c st).
Proof.
  intros Hw H. unfold linkSubagent. destruct (_ || _ || _); [done|].
  set (st1 := write_relations _).
  assert (wf st1) as H1 by (apply wf_write_relations; by wf_copy Hw).
  assert (idle id st1) as I1 by done. clearbody st1. clear Hw H.
  destruct (mhas p (sessions st1)).
  - set (st2 := (updateSession p _ st1).2).
    assert (wf st2) by (by apply wf_updateSession). assert (idle id st2) by (by apply idle_update).
    clearbody st2. destruct (mhas c (sessions st2)); [by apply idle_update|done].
  - destruct (mhas c (sessions st1)); [by apply idle_update|done].
Qed.

Lemma idle_relation id m st : wf st -> idle id st -> idle id (persistSubagentRelation m st).
Proof.
  intros Hw H. unfold persistSubagentRelation. cbv zeta. gw_split; try done. by apply idle_link.
Qed.

Lemma wf_relation m st : wf st -> wf (persistSubagentRelation m st).
Proof. intros H. destruct (persist_relation_exec m st) as [os ->]. by apply wf_run. Qed.

(** *** A broadcast, in two halves: the log and the relations first *)

Definition logged (m : GatewayMessage) (st : GatewayStore) : GatewayMessage * GatewayStore :=
  let '(r, st) := appendEvent m st in
  let m := match r with Appended m => m | _ => m end in
  (m, persistSubagentRelation m (match r with MkdirThrew => st | _ => (takeEventWriteErrors st).2 end)).

Lemma broadcast_logged m g :
  broadcastGateway m g =
  match apply_message (logged m (store g)).1 (with_store (logged m (store g)).2 g) with
  | Some g' => broadcast (OGateway (logged m (store g)).1) g'
  | None => with_store (logged m (store g)).2 g
  end.
Proof. unfold broadcastGateway, logged. by destruct (appendEvent m (store g)) as [[] st]. Qed.

Lemma appended_message m st m' :
  (appendEvent m st).1 = Appended m' -> exists q, m' = with_m_eventSeq q m.
Proof.
  unfold appendEvent. destruct (m_sessionId m); [|done]. destruct (_ || _); [done|].
  gw_split; cbn [fst]; intros E'; try done; simplify_eq/=; eauto.
Qed.

Lemma logged_message m st :
  let m' := (logged m st).1 in
  m_type m' = m_type m /\ m_sessionId m' = m_sessionId m /\ m_timestamp m' = m_timestamp m /\
  m_payload m' = m_payload m.
Proof.
  cbv zeta. unfold logged. pose proof (appended_message m st) as Ha.
  destruct (appendEvent m st) as [[| |m'] st']; cbn [fst] in *; [done..|].
  by destruct (Ha m' eq_refl) as [q ->].
Qed.

Lemma logged_keeps m st :
  exists st1, sessions st1 = sessions st /\ (wf st -> wf st1) /\
    (logged m st).2 = persistSubagentRelation (logged m st).1 st1.
Proof.
  unfold logged. pose proof (same_appendEvent m st) as [Es _]. pose proof (wf_appendEvent m st) as Hw.
  destruct (appendEvent m st) as [r st1]. cbn [fst snd] in *.
  exists (match r with MkdirThrew => st1 | _ => (takeEventWriteErrors st1).2 end).
  split; [by destruct r|]. split; [|done]. intros H. specialize (Hw H).
  destruct r; [|done|]; exact (wf_exec TakeErrors _ Hw).
Qed.

Lemma logged_wf m st : wf st -> wf (logged m st).2.
Proof. destruct (logged_keeps m st) as (st1 & _ & Hw & ->). intros H. by apply wf_relation, Hw. Qed.

Lemma logged_idle id m st : wf st -> idle id st -> idle id (logged m st).2.
Proof.
  destruct (logged_keeps m st) as (st1 & E & Hw & ->). intros H Hi. apply idle_relation; [by apply Hw|].
  by apply (idle_same id st).
Qed.

(** ** A cancelled session *)

(** Neither the store nor the gate nor the live set takes the session for
    busy, it has its tombstone, and no run of it in flight is current. *)
Record quiet (id : string) (g : Gateway) : Prop := {
  q_wf : wf (store g);
  q_idle : idle id (store g);
  q_gate : TurnGate.isActive id (turnGate g) = false;
  q_live : shas id (processLiveSessionIds g) = false;
  q_tomb : shas id (cancelledSessions g) = true;
  q_runs : Forall (fun r => r.1 = id -> SessionRunState.isCurrent id r.2 (sessionRunState g) = false) (runs g)
}.

Lemma quiet_store id st g : wf st -> idle id st -> quiet id g -> quiet id (with_store st g).
Proof. intros ?? [???]. by split. Qed.
Lemma quiet_answer id a g : quiet id g -> quiet id (reply_with a g).
Proof. intros [???]. by split. Qed.
Lemma quiet_broadcast id o g : quiet id g -> quiet id (broadcast o g).
Proof. intros [???]. by split. Qed.
Lemma quiet_parents id v g : quiet id g -> quiet id (with_subagentParents v g).
Proof. intros [???]. by split. Qed.
Lemma quiet_set_policy id id' m g : quiet id g -> quiet id (remember_policy id' m g).
Proof. intros [???]. by split. Qed.
Lemma quiet_interrupt id id' t g : quiet id g -> quiet id (requestCodexInterrupt id' t g).
Proof. intros [???]. unfold requestCodexInterrupt. gw_split; by split. Qed.
Lemma quiet_ended id sid g : quiet id g -> quiet id (release_gate sid (not_live sid g)).
Proof.
  intros [H1 H2 H3 H4 H5 H6]. split; try done.
  - cbn [release_gate with_turnGate turnGate not_live with_processLiveSessionIds].
    by rewrite TurnGate.isActive_release, H3, andb_false_r.
  - cbn [release_gate with_turnGate not_live with_processLiveSessionIds processLiveSessionIds].
    by rewrite shas_sdelete, H4, andb_false_r.
Qed.
Lemma quiet_live id sid g : sid <> id -> quiet id g -> quiet id (live sid g).
Proof.
  intros Hn [H1 H2 H3 H4 H5 H6]. split; try done.
  cbn [live with_processLiveSessionIds processLiveSessionIds]. rewrite shas_sadd, H4.
  by rewrite bool_decide_false.
Qed.
Lemma quiet_update id sid f g :
  (forall s, s_id (f s) = s_id s) ->
  (id = sid -> forall s, busy_status (s_status s) = false -> busy_status (s_status (f s)) = false) ->
  quiet id g -> quiet id (on_store (fun st => (updateSession sid f st).2) g).
Proof.
  intros Hid Hf H. apply quiet_store; [|apply idle_update|]; try done; try apply H.
  apply wf_updateSession, H.
Qed.

Lemma finished_idle m : busy_status (inferFinishedStatus m) = false.
Proof. unfold inferFinishedStatus. cbv zeta. by repeat destruct (_ || _). Qed.

(** A message without a session, other than an approval request of its own,
    does not make it busy: a late active status stops at the tombstone. *)
Lemma quiet_apply id m g g' :
  extractSessionFromGatewayMessage m = None ->
  (m_type m = "approval-requested" -> m_sessionId m <> Some id) ->
  quiet id g -> apply_message m g = Some g' -> quiet id g'.
Proof.
  intros Hs Ht H. unfold apply_message. rewrite Hs.
  destruct (m_sessionId m) as [sid|] eqn:Em; [|by intros [= <-]]. destruct (sid === ""); [by intros [= <-]|].
  destruct (m_type m === "session-finished").
  { intros E. apply Some_inj in E. subst g'. apply quiet_update; [done| |by apply quiet_ended].
    intros _ s _. apply finished_idle. }
  destruct (m_type m === "session-status").
  { destruct (str_prop "status" (m_payload m)) as [text|]; [|by intros [= <-]].
    destruct text as [|c text]; [by intros [= <-]|].
    destruct (status_of _) as [status|]; [|by intros [= <-]].
    destruct (shas sid (cancelledSessions g) && busy_status status) eqn:Eb; [done|].
    intros E. apply Some_inj in E. subst g'. destruct (busy_status status) eqn:Ebs.
    - assert (sid <> id) as Hn. { intros ->. by rewrite (q_tomb _ _ H) in Eb. }
      apply quiet_update; [done|by intros <-|by apply quiet_live].
    - apply quiet_update; [done|by intros _ s _|by apply quiet_ended]. }
  destruct (m_type m === "approval-requested") eqn:Ea; [|by intros [= <-]].
  apply String.eqb_eq in Ea. specialize (Ht Ea). intros E. apply Some_inj in E. subst g'.
  apply quiet_update; [done| |done]. by intros ->.
Qed.

Lemma quiet_bg id m g :
  extractSessionFromGatewayMessage m = None ->
  (m_type m = "approval-requested" -> m_sessionId m <> Some id) ->
  quiet id g -> quiet id (broadcastGateway m g).
Proof.
  intros Hs Ht H. rewrite broadcast_logged.
  destruct (logged_message m (store g)) as (Et & Ei & _ & Ep).
  set (m' := (logged m (store g)).1) in *. set (g1 := with_store _ g).
  assert (quiet id g1) as H1.
  { apply quiet_store; [apply logged_wf, H|apply logged_idle; apply H|done]. }
  destruct (apply_message m' g1) as [g2|] eqn:E; [|done]. apply quiet_broadcast.
  apply (quiet_apply id m' g1); [|by rewrite Et, Ei|done..].
  unfold extractSessionFromGatewayMessage in *. by rewrite Ep.
Qed.

(** Only the notification of an approval request asks for an approval, and
    for the thread it names. *)
Lemma normalized_type now stored e parents m :
  (normalizeCodexEvent now stored e parents).1 = Some m -> m_type m = "approval-requested" ->
  e_method e = "gateway/codex/approvalRequested" /\ m_sessionId m = str_prop "threadId" (e_params e).
Proof.
  intros E Ht. destruct (normalizeCodexEvent now stored e parents) as [o parents'] eqn:H.
  cbn [fst] in E. subst o. destruct (normalize_cases _ _ _ _ _ _ H) as
    [m E F|m E F|m E F|t item p p' m E _ F|t p p' m E _ F|t E _|t m En _ F]; clear H.
  - exfalso. unfold auto_approved_message in F. repeat (case_match; try done); by simplify_eq.
  - unfold approval_requested_message in F. repeat (case_match; try done); by simplify_eq.
  - exfalso. unfold approval_expired_message in F. repeat (case_match; try done); by simplify_eq.
  - exfalso. unfold subagent_item in F. repeat (case_match; try done); by simplify_eq.
  - exfalso. unfold status_message in F. destruct (_ && _); injection F as <- _; [done|].
    simpl in Ht. by destruct (terminal _).
  - done.
  - exfalso. unfold output_message in F. repeat (case_match; try done); by simplify_eq.
Qed.

(** A Codex notification, unless it asks for an approval of the session. *)
Definition asks_approval (id : string) (e : CodexEvent) : Prop :=
  e_method e = "gateway/codex/approvalRequested" /\ str_prop "threadId" (e_params e) = Some id.

Lemma quiet_codex id now e g : ~ asks_approval id e -> quiet id g -> quiet id (codexEvent now e g).
Proof.
  intros He H. unfold codexEvent. set (g1 := broadcast _ g).
  assert (quiet id g1) as H1 by (by apply quiet_broadcast). clearbody g1. clear H.
  pose proof (normalized_plain now (fun id => getSubagentParent id (store g1)) e (subagentParents g1)) as Hn.
  pose proof (normalized_type now (fun id => getSubagentParent id (store g1)) e (subagentParents g1)) as Ht.
  destruct (normalizeCodexEvent _ _ _ _) as [[m|] parents]; [|by apply quiet_parents].
  apply quiet_bg; [| |by apply quiet_parents].
  - unfold extractSessionFromGatewayMessage. by rewrite (Hn m eq_refl).
  - intros Et Ei. destruct (Ht m eq_refl Et) as [E1 E2]. apply He. split; [done|congruence].
Qed.

Lemma quiet_await_run id sid n p f g :
  (sid = id -> SessionRunState.isCurrent id n (sessionRunState g) = false) ->
  quiet id g -> quiet id (await (TurnRun sid n p f) g).
Proof.
  intros Hr [H1 H2 H3 H4 H5 H6]. split; try done. unfold runs.
  cbn [await with_inflight inflight sessionRunState]. rewrite omap_app. apply Forall_app. split; [done|].
  by constructor.
Qed.

(** Settling a background run: its own runs are superseded, others do not
    concern it. *)
Lemma quiet_run id now sid n p f r g :
  (sid = id -> SessionRunState.isCurrent id n (sessionRunState g) = false) ->
  quiet id g -> quiet id (runStep now sid n p f r g).
Proof.
  intros Hr H. unfold runStep. cbv zeta.
  assert (forall e, SessionRunState.isCurrent sid n (sessionRunState g) = true ->
    quiet id (fail_session now sid e (release_gate sid (not_live sid g)))) as Hfail.
  { intros e Hc. unfold fail_session. apply quiet_bg; [done..|]. apply quiet_update; [done| |by apply quiet_ended].
    intros <- s _. done. }
  destruct r as [v ths w|e]; [destruct f|].
  - destruct (SessionRunState.isCurrent sid n (sessionRunState g)) eqn:Ec; [|done]. by apply quiet_await_run.
  - destruct (SessionRunState.isCurrent sid n (sessionRunState g)) eqn:Ec; [|done]. by apply quiet_await_run.
  - apply quiet_await_run; [done|by apply quiet_set_policy].
  - destruct (SessionRunState.isCurrent sid n (sessionRunState g)) eqn:Ec; [|by apply quiet_interrupt].
    destruct (str_truthy _); [|done]. by apply quiet_update.
  - destruct (SessionRunState.isCurrent sid n (sessionRunState g)) eqn:Ec; [by apply Hfail|done].
Qed.

(** What may still arrive after a stop: every Codex notification except a
    request for an approval of the stopped session, and the steps of background
    runs ([TurnRun]), of this session or of others. *)
Inductive late (config : GatewayConfig) (id : string) : Gateway -> Gateway -> Prop :=
| late_event now e g :
    ~ asks_approval id e ->
    late config id g (gw_exec config now (Notification e) g)
| late_run now i sid n p f r g :
    inflight g !! i = Some (TurnRun sid n p f) ->
    late config id g (gw_exec config now (Settle i r) g).

Lemma quiet_late config id g g' : late config id g g' -> quiet id g -> quiet id g'.
Proof.
  intros [now e g1 He|now i sid n p f r g1 Hi] H; cbn [gw_exec]; [by apply quiet_codex|].
  rewrite Hi. cbn [resume_task].
  assert (runs g1 ≡ₚ (sid, n) :: runs (with_inflight (delete i (inflight g1)) g1)) as Hp.
  { unfold runs. cbn [with_inflight inflight]. by rewrite (delete_Permutation _ _ _ Hi) at 1. }
  destruct H as [H1 H2 H3 H4 H5 H6]. rewrite Hp in H6. apply Forall_cons in H6 as [Hr H6].
  by apply quiet_run.
Qed.

(** The tombstone just added survives the bound on their number. *)
Lemma tomb_kept (id : string) (l : list string) :
  (length l <= maxCancelled)%nat ->
  shas id (if (maxCancelled <? length (sadd id l))%nat then tail (sadd id l) else sadd id l) = true.
Proof.
  intros Hl. destruct (Nat.ltb_spec maxCancelled (length (sadd id l))) as [H|H].
  - unfold sadd in *. destruct (shas id l); [lia|]. destruct l as [|x l]; simpl in *.
    + exfalso. unfold maxCancelled in H. lia.
    + unfold shas. apply bool_decide_eq_true, elem_of_app. right. by constructor.
  - rewrite shas_sadd. by rewrite bool_decide_true.
Qed.

(** Interrupting establishes it. *)
Lemma quiet_settle now id base turnId g :
  wf (store g) -> runs_ok g -> s_id base = id -> (length (cancelledSessions g) <= maxCancelled)%nat ->
  id <> "" -> quiet id (settleInterruptedSession now id base turnId g).2.
Proof.
  intros Hw [Hu Hb] Hid Hl Hne. unfold settleInterruptedSession. cbv zeta.
  set (g1 := with_sessionRunState _ g). set (tomb := sadd id (cancelledSessions g1)).
  set (tomb' := if (maxCancelled <? length tomb)%nat then tail tomb else tomb). set (g2 := with_cancelledSessions tomb' g1).
  set (g3 := release_gate id (not_live id g2)). set (s := with_s_status cancelled _).
  rewrite (surjective_pairing (upsertSession s (store g3))). cbn [snd].
  apply quiet_bg; [|done|].
  { unfold extractSessionFromGatewayMessage, when_set. simpl. by destruct turnId as [t|]; [destruct (t === "")|]. }
  assert (wf (upsertSession s (store g3)).2) as Hw3 by exact (wf_exec (UpsertSession s) _ Hw).
  split.
  - done.
  - intros s'. cbn [with_store store]. rewrite get_upsert. rewrite decide_True by done. intros [= <-].
    by rewrite status_merge.
  - cbn [with_store turnGate]. unfold g3. cbn [release_gate with_turnGate turnGate].
    rewrite TurnGate.isActive_release. by rewrite bool_decide_true.
  - cbn [with_store processLiveSessionIds]. unfold g3.
    cbn [release_gate with_turnGate not_live with_processLiveSessionIds processLiveSessionIds].
    rewrite shas_sdelete. by rewrite bool_decide_true.
  - change (shas id tomb' = true). by apply tomb_kept.
  - change (Forall (fun r => r.1 = id -> SessionRunState.isCurrent id r.2
      (SessionRunState.cancel id (sessionRunState g)).2 = false) (runs g)).
    eapply Forall_impl; [done|]. intros [id' n] Hn E. simpl in Hn, E. subst id'. simpl.
    unfold SessionRunState.isCurrent. simpl. rewrite mget_mset_eq. apply Z.eqb_neq. lia.
Qed.

(** C24: a background run that was superseded, by a stop or by a later turn,
    stays superseded: whatever requests, notifications and answers follow, each
    answer to it has exactly this effect. A failure, or an answer in the first
    two phases, ends it and changes nothing at all. A late turn id is sent back
    as an interrupt of exactly that turn, nothing else changes. Only the answer
    to the model check does not look at the generation: the bridge remembers
    the mode of the run again and [turn/start] goes out, so that the run ends
    with the phase after; [superseded_mode_restored] shows what that does. *)
Theorem superseded_run_inert config g0 os now i id n policy phase r :
  n < SessionRunState.generation_of id (sessionRunState g0) ->
  let g := gw_run config os g0 in
  inflight g !! i = Some (TurnRun id n policy phase) ->
  let rest := with_inflight (delete i (inflight g)) g in
  gw_exec config now (Settle i r) g =
  match r, phase with
  | Ok response _ _, Starting =>
      match extractTurnId response with
      | Some t => if t === "" then rest else with_interrupts (interrupts rest ++ [(id, t)]) rest
      | None => rest
      end
  | Ok _ _ _, Checking => await (TurnRun id n policy Starting) (remember_policy id policy rest)
  | _, _ => rest
  end.
Proof.
  intros Hn g Hi rest. cbn [gw_exec]. rewrite Hi. cbn [resume_task]. fold rest.
  assert (SessionRunState.isCurrent id n (sessionRunState rest) = false) as Hc.
  { apply not_true_is_false. rewrite SessionRunState.isCurrent_spec. intros E.
    pose proof (later_run_all config os g0 id) as Hl. fold g in Hl.
    change (sessionRunState rest) with (sessionRunState g) in E.
    unfold SessionRunState.generation_of at 2 in Hl. rewrite E in Hl. lia. }
  unfold runStep. rewrite Hc. cbv zeta. unfold requestCodexInterrupt.
  by destruct r as [response ths w|e], phase.
Qed.

(** A turn in full access that waits for the model check when it is stopped,
    and the switch to the confirming mode after the stop. *)
Definition stopped_in_check : list (Z * gw_op) :=
  let ok := Ok VUndef [] (Some "/work") in
  let full := {| b_text := "hi"; b_clientRequestId := None; b_expiresAt := None; b_mode := Some full_access;
                 b_confirmFullAccess := Some true; b_title := None; b_turnId := None; b_attachments := [] |} in
  [(5, PostTurn "s" full); (6, Settle 0 ok); (7, Settle 0 ok);
   (8, PostInterrupt "s" (request_body "" None None) true); (9, Settle 1 ok); (10, Settle 1 ok);
   (11, PatchPolicy "s" (request_body "" None None) confirm); (12, Settle 1 ok); (13, Settle 1 ok)].

Definition stopped_gateway : Gateway := gw_run demo_config stopped_in_check (booted demo_store).

(** The model check answers, the next turn is admitted, the late turn starts. *)
Definition next_turn : list (Z * gw_op) :=
  [(14, Settle 0 (Ok VUndef [] None)); (15, PostTurn "s" (request_body "next" None None))].
Definition late_turn : outcome := Ok (VObj [("turn", VObj [("id", VStr "u1")])]) [] None.

Lemma superseded_run_inert_witness :
  let g := gw_run demo_config next_turn stopped_gateway in
  let rest := with_inflight (delete 0%nat (inflight g)) g in
  inflight g !! 0%nat = Some (TurnRun "s" 1 full_access Starting) /\
  gw_exec demo_config 16 (Settle 0 late_turn) g = with_interrupts (interrupts rest ++ [("s", "u1")]) rest.
Proof.
  cbv zeta. split; [vm_compute; reflexivity|].
  refine (superseded_run_inert demo_config stopped_gateway next_turn 16 0 "s" 1 full_access Starting
    late_turn _ _); vm_compute; reflexivity.
Defined.

(** [startTurn] awaits the model check and does not look at the generation
    afterwards: the stopped run gives the thread full access again, although
    the session was switched to confirming after the stop, and its turn is
    started in that mode. *)
Lemma superseded_mode_restored :
  let g := stopped_gateway in
  let g' := gw_exec demo_config 14 (Settle 0 (Ok VUndef [] None)) g in
  SessionRunState.isCurrent "s" 1 (sessionRunState g) = false /\
  policy_of "s" (codexBridge g) = confirm /\
  policy_of "s" (codexBridge g') = full_access /\
  (s_sessionPolicyMode <$> getSession "s" (store g')) = Some confirm /\
  inflight g' = [TurnRun "s" 1 full_access Starting].
Proof. vm_compute. auto. Qed.

(** C25: once a stop was settled, no late Codex notification, except a request
    for an approval of the stopped session, and no step of any background turn
    run, in any number and order, makes the session busy again: its stored
    status stays terminal, its turn gate open and it is not counted live, until
    a new turn is admitted. The exception is real
    ([Admission.approval_revives_cancelled]); the awaited steps of a first turn,
    of [/api/threads/:id/turns] and of interjections are not background runs
    and are not covered. *)
Theorem cancellation_sticks config now id base turnId g g' :
  wf (store g) -> runs_ok g -> (length (cancelledSessions g) <= maxCancelled)%nat ->
  s_id base = id -> id <> "" ->
  rtc (late config id) (settleInterruptedSession now id base turnId g).2 g' ->
  TurnGate.isActive id (turnGate g') = false /\ shas id (processLiveSessionIds g') = false /\
  forall s, getSession id (store g') = Some s -> busy_status (s_status s) = false.
Proof.
  intros Hw Hr Hl Hid Hne Hs.
  assert (quiet id g') as [_ H1 H2 H3 _ _]; [|by auto].
  pose proof (quiet_settle now id base turnId g Hw Hr Hid Hl Hne) as H.
  induction Hs as [|g1 g2 g3 H12 _ IH]; [done|]. apply IH. by eapply quiet_late.
Qed.

Lemma demo_wf os : wf (store (gw_run demo_config os (booted demo_store))).
Proof.
  destruct (gateway_store_trace demo_config os (booted demo_store)) as [ops E]. rewrite E.
  apply wf_run, wf_run, wf_fresh.
Qed.

(** A [thread/status/changed] notification. *)
Definition status_changed (id status : string) : CodexEvent :=
  {| e_method := "thread/status/changed"; e_params := VObj [("threadId", VStr id); ("status", VStr status)] |}.

Lemma cancellation_sticks_witness :
  let g0 := gw_run demo_config [(5, PostTurn "s" (request_body "hi" None None))] (booted demo_store) in
  let g1 := (settleInterruptedSession 6 "s" (sample "s" running) None g0).2 in
  let g2 := gw_exec demo_config 7 (Notification (status_changed "s" "active")) g1 in
  TurnGate.isActive "s" (turnGate g0) = true /\ TurnGate.isActive "s" (turnGate g2) = false /\
  (s_status <$> getSession "s" (store g2)) = Some completed.
Proof.
  cbv zeta. set (g0 := gw_run _ _ _). set (g1 := (settleInterruptedSession _ _ _ _ g0).2).
  split; [reflexivity|]. split; [|reflexivity].
  apply (cancellation_sticks demo_config 6 "s" (sample "s" running) None g0).
  - apply demo_wf.
  - apply ro_run_all, booted_runs.
  - apply Nat.leb_le. reflexivity.
  - reflexivity.
  - done.
  - apply rtc_once. apply late_event. by intros [E _].
Defined.

(** ** What a finish records *)

Definition relation_type (type : string) : bool :=
  (type === "subagent-started") || (type === "subagent-finished") || (type === "session-forked").

Lemma logged_sessions m st : relation_type (m_type m) = false -> sessions (logged m st).2 = sessions st.
Proof.
  intros Ht. destruct (logged_keeps m st) as (st1 & E & _ & ->).
  destruct (logged_message m st) as (Et & _). cbv zeta in Et.
  unfold persistSubagentRelation. rewrite Et. unfold relation_type in Ht. by rewrite Ht.
Qed.

Definition finished_session (m : GatewayMessage) (s : GatewaySession) : GatewaySession :=
  with_s_status (inferFinishedStatus m) (with_s_activeTurnId Undef
    (with_s_finishedAt (Val (m_timestamp m)) (with_s_lastTurnFinishedAt (Val (m_timestamp m))
      (with_s_lastUpdatedAt (m_timestamp m) s)))).

(** Broadcasting [session-finished] closes the turn of its session. *)
Lemma broadcast_finished id now ps g :
  wf (store g) -> id <> "" -> mget "session" ps = None ->
  let m := gw_message "session-finished" id now ps in
  let g' := broadcastGateway m g in
  getSession id (store g') = finished_session m <$> getSession id (store g) /\
  TurnGate.isActive id (turnGate g') = false /\ shas id (processLiveSessionIds g') = false.
Proof.
  intros Hw Hne Hs. cbv zeta. set (m := gw_message _ _ _ _). rewrite broadcast_logged.
  destruct (logged_message m (store g)) as (Et & Ei & Em & Ep). cbv zeta in *.
  assert (sessions (logged m (store g)).2 = sessions (store g)) as Ess by (by apply logged_sessions).
  pose proof (logged_wf m (store g) Hw) as Hw1.
  destruct (logged m (store g)) as [m' st']. cbn [fst snd] in *.
  assert (extractSessionFromGatewayMessage m' = None) as Ex.
  { unfold extractSessionFromGatewayMessage. rewrite Ep. simpl. by rewrite Hs. }
  assert (finished_session m' = finished_session m) as Ef.
  { unfold finished_session, inferFinishedStatus. by rewrite Em, Ep. }
  assert (apply_message m' (with_store st' g) = Some (on_store (fun st => (updateSession id (finished_session m') st).2)
    (release_gate id (not_live id (with_store st' g))))) as ->.
  { unfold apply_message. rewrite Ex, Ei, Et. cbn [m m_sessionId gw_message message m_type].
    destruct (String.eqb_spec id ""); done. }
  rewrite Ef. split; [|split].
  - change (getSession id (updateSession id (finished_session m) st').2 = finished_session m <$> getSession id (store g)).
    rewrite get_update by done. rewrite decide_True by done. unfold getSession. by rewrite Ess.
  - change (TurnGate.isActive id (TurnGate.release id (turnGate g)) = false).
    rewrite TurnGate.isActive_release. by rewrite bool_decide_true.
  - change (shas id (sdelete id (processLiveSessionIds g)) = false). rewrite shas_sdelete.
    by rewrite bool_decide_true.
Qed.

(** when the current run of a session fails before Codex accepted its
    turn, its gate is released and it is no longer live, so that the next turn
    can be admitted, and the stored session has no active turn. *)
Theorem failed_run_released now id n policy phase e g s :
  wf (store g) -> id <> "" -> getSession id (store g) = Some s ->
  SessionRunState.isCurrent id n (sessionRunState g) = true ->
  let g' := runStep now id n policy phase (Err e) g in
  TurnGate.isActive id (turnGate g') = false /\ shas id (processLiveSessionIds g') = false /\
  exists s', getSession id (store g') = Some s' /\ busy_status (s_status s') = false /\
    s_activeTurnId s' = Undef /\ s_finishedAt s' = Val (toISOString now).
Proof.
  intros Hw Hne Hs Hc. cbv zeta. unfold runStep. rewrite Hc. cbv zeta. unfold fail_session. cbv zeta.
  set (g1 := on_store _ _).
  assert (wf (store g1)) as Hw1 by (by apply wf_updateSession).
  destruct (broadcast_finished id now
    [("sessionId", VStr id); ("status", VStr "failed"); ("error", VStr (err_message e))] g1 Hw1 Hne eq_refl)
    as (E1 & E2 & E3).
  split; [done|]. split; [done|]. rewrite E1. unfold g1. cbn [on_store with_store store].
  rewrite get_update by done. rewrite decide_True by done.
  change (store (release_gate id (not_live id g))) with (store g). rewrite Hs. simpl. eauto.
Qed.

Lemma failed_run_released_witness :
  let g := gw_run demo_config [(5, PostTurn "s" (request_body "hi" None None))] (booted demo_store) in
  let g' := runStep 6 "s" 1 confirm Resuming (Err (Error "offline")) g in
  TurnGate.isActive "s" (turnGate g) = true /\ TurnGate.isActive "s" (turnGate g') = false.
Proof.
  cbv zeta. split; [vm_compute; reflexivity|]. set (g := gw_run _ _ _).
  assert (is_Some (getSession "s" (store g))) as [s Hs].
  { apply (bool_decide_unpack _). vm_compute. exact I. }
  assert (SessionRunState.isCurrent "s" 1 (sessionRunState g) = true) as Hc by (vm_compute; reflexivity).
  pose proof (failed_run_released 6 "s" 1 confirm Resuming (Error "offline") g s) as H. cbv zeta in H.
  apply H; [apply demo_wf|done|exact Hs|exact Hc].
Defined.

(** what is then recorded is not what happened: the [session-finished]
    message of a stop, or of a failure, carries its status at the top of the
    payload, while the store reads [payload.turn.status]; so a session that
    was stopped, or whose run failed, is stored as completed. *)
Theorem outcome_recorded_completed now id base turnId e g :
  wf (store g) -> id <> "" -> s_id base = id ->
  (s_status <$> getSession id (store (settleInterruptedSession now id base turnId g).2)) = Some completed /\
  (forall s, getSession id (store g) = Some s ->
   (s_status <$> getSession id (store (fail_session now id e g))) = Some completed).
Proof.
  intros Hw Hne Hid. split.
  - unfold settleInterruptedSession. cbv zeta. set (s := with_s_status cancelled _).
    set (g3 := release_gate id _). rewrite (surjective_pairing (upsertSession s (store g3))). cbn [snd].
    assert (wf (upsertSession s (store g3)).2) as Hw3 by exact (wf_exec (UpsertSession s) _ Hw).
    set (ps := _ ++ when_set _ _).
    assert (mget "session" ps = None /\ prop "turn" (VObj ps) = VUndef) as [Ep Et].
    { unfold ps, when_set. destruct turnId as [t|]; [destruct (t === "")|]; done. }
    destruct (broadcast_finished id now ps (with_store (upsertSession s (store g3)).2 g3) Hw3 Hne Ep) as (E1 & _).
    rewrite E1. cbn [with_store store]. rewrite get_upsert. rewrite decide_True by done.
    change (Some (inferFinishedStatus (gw_message "session-finished" id now ps)) = Some completed). f_equal.
    unfold inferFinishedStatus. cbn [m_payload gw_message message]. by rewrite Et.
  - intros s Hs. unfold fail_session. cbv zeta. set (g1 := on_store _ _).
    assert (wf (store g1)) as Hw1 by (by apply wf_updateSession).
    destruct (broadcast_finished id now
      [("sessionId", VStr id); ("status", VStr "failed"); ("error", VStr (err_message e))] g1 Hw1 Hne eq_refl)
      as (E1 & _).
    rewrite E1. unfold g1. cbn [on_store with_store store].
    rewrite get_update by done. rewrite decide_True by done. by rewrite Hs.
Qed.

Lemma outcome_recorded_completed_witness :
  (s_status <$> getSession "s" (store (settleInterruptedSession 6 "s" (sample "s" running) None (booted demo_store)).2))
  = Some completed.
Proof.
  destruct (outcome_recorded_completed 6 "s" (sample "s" running) None (Error "offline") (booted demo_store))
    as [H _]; [apply wf_run, wf_fresh|done|reflexivity|exact H].
Defined.
