(* ===== verification/Admission.v ===== *)
(** * Admission and broadcasts: the corner cases of index.ts

    Four behaviours of the handlers of index.ts that the invariants of
    [GatewayInv] and [GatewayCancel] leave open, stated for every state they
    occur in: an approval request after a stop, the gate of a new session, the
    idempotency ledger of a turn, and the policy of a forked thread. *)

From S2P Require Import Prelude JsValue JsDate TurnControl GatewayStore StoreInv EventLog CodexEvents CodexBridge Sessions Gateway GatewayInv GatewayCancel.

Local Open Scope Z_scope.

#[local] Arguments upsertSession : simpl never.
#[local] Arguments updateSession : simpl never.

(** ** Broadcasts that carry a session *)

Lemma broadcast_session m s g :
  relation_type (m_type m) = false -> prop "session" (m_payload m) = session_val s ->
  shas (s_id s) (cancelledSessions g) && busy_status (s_status s) = false ->
  exists st m', sessions st = sessions (store g) /\ (wf (store g) -> wf st) /\
  broadcastGateway m g =
    broadcast (OGateway m') (on_store (fun st => (upsertSession s st).2)
      (if busy_status (s_status s) then live (s_id s) (with_store st g)
       else release_gate (s_id s) (not_live (s_id s) (with_store st g)))).
Proof.
  intros Ht Hs Hc. destruct (logged_message m (store g)) as (_ & _ & _ & Ep). cbv zeta in Ep.
  exists (logged m (store g)).2, (logged m (store g)).1.
  split; [by apply logged_sessions|]. split; [apply logged_wf|]. rewrite broadcast_logged.
  unfold apply_message, extractSessionFromGatewayMessage. rewrite Ep, Hs, prop_id_session, session_roundtrip.
  cbn [with_store cancelledSessions]. by rewrite Hc.
Qed.

(** A message without a session that names no state change. *)
Lemma broadcast_plain m g :
  relation_type (m_type m) = false -> prop "session" (m_payload m) = VUndef ->
  m_type m <> "session-finished" -> m_type m <> "session-status" -> m_type m <> "approval-requested" ->
  exists st m', sessions st = sessions (store g) /\ (wf (store g) -> wf st) /\
  broadcastGateway m g = broadcast (OGateway m') (with_store st g).
Proof.
  intros Ht Hs H1 H2 H3. destruct (logged_message m (store g)) as (Et & _ & _ & Ep). cbv zeta in Et, Ep.
  exists (logged m (store g)).2, (logged m (store g)).1.
  split; [by apply logged_sessions|]. split; [apply logged_wf|]. rewrite broadcast_logged.
  unfold apply_message, extractSessionFromGatewayMessage. rewrite Ep, Hs, Et. simpl.
  destruct (m_sessionId _) as [sid|]; [|done]. destruct (sid === ""); [done|].
  by rewrite (proj2 (String.eqb_neq _ _) H1), (proj2 (String.eqb_neq _ _) H2), (proj2 (String.eqb_neq _ _) H3).
Qed.

(** ** An approval request after a stop *)

Definition approval_requested (id requestId : string) : CodexEvent :=
  {| e_method := "gateway/codex/approvalRequested";
     e_params := VObj [("threadId", VStr id); ("requestId", VStr requestId)] |}.

(** The tombstone of a stopped session does not hold back an approval
    request: the stored status becomes waiting-approval although the session
    was cancelled and its turn gate is open. *)
Theorem approval_revives_cancelled now id requestId g s :
  quiet id g -> id <> "" -> getSession id (store g) = Some s ->
  let g' := codexEvent now (approval_requested id requestId) g in
  (s_status <$> getSession id (store g')) = Some waiting_approval /\
  shas id (cancelledSessions g') = true /\ TurnGate.isActive id (turnGate g') = false.
Proof.
  intros H Hne Hs. cbv zeta. unfold codexEvent. set (g1 := broadcast _ g).
  assert (quiet id g1) as H1 by (by apply quiet_broadcast).
  assert (getSession id (store g1) = Some s) as Hs1 by exact Hs. clearbody g1.
  unfold normalizeCodexEvent, approval_requested_message. cbn [e_params e_method approval_requested]. simpl.
  destruct (String.eqb_spec id "") as [|_]; [done|].
  set (m := message _ _ _ _ _). set (g2 := with_subagentParents _ g1).
  rewrite broadcast_logged. destruct (logged_message m (store g2)) as (Et & Ei & _ & Ep). cbv zeta in *.
  assert (sessions (logged m (store g2)).2 = sessions (store g2)) as Ess by (by apply logged_sessions).
  pose proof (logged_wf m (store g2) (q_wf _ _ H1)) as Hw.
  destruct (logged m (store g2)) as [m' st']. cbn [fst snd] in *.
  assert (apply_message m' (with_store st' g2) = Some (on_store (fun st => (updateSession id (fun existing =>
    with_s_status waiting_approval (with_s_lastUpdatedAt (m_timestamp m') existing)) st).2) (with_store st' g2))) as ->.
  { unfold apply_message, extractSessionFromGatewayMessage. rewrite Ep, Ei, Et. simpl.
    destruct (String.eqb_spec id ""); done. }
  split; [|split; [exact (q_tomb _ _ H1)|exact (q_gate _ _ H1)]].
  cbn [broadcast with_outbox store on_store with_store]. rewrite get_update by done.
  rewrite decide_True by done. unfold getSession. rewrite Ess. unfold getSession in Hs1.
  change (sessions (store g2)) with (sessions (store g1)). by rewrite Hs1.
Qed.

Lemma approval_revives_cancelled_witness :
  let g0 := (settleInterruptedSession 6 "s" (sample "s" running) None (booted demo_store)).2 in
  let g := codexEvent 7 (approval_requested "s" "r") g0 in
  (s_status <$> getSession "s" (store g)) = Some waiting_approval.
Proof.
  cbv zeta. set (g0 := (settleInterruptedSession _ _ _ _ _).2).
  assert (is_Some (getSession "s" (store g0))) as [s Hs] by (apply (bool_decide_unpack _); vm_compute; exact I).
  destruct (approval_revives_cancelled 7 "s" "r" g0 s) as [H _]; [|done|exact Hs|exact H].
  apply quiet_settle; [apply wf_run, wf_fresh|apply booted_runs|done|apply Nat.leb_le; reflexivity|done].
Defined.

(** ** The gate of a new session *)

(** The announcement of a new session undoes its admission. *)
Definition opened (id : string) (mode : SessionPolicyMode) (g : Gateway) : Prop :=
  (exists session, last (replies g) = Some (Accepted 201 (Some session))) /\
  last (inflight g) = Some (FirstTurnCheck id mode) /\
  TurnGate.isActive id (turnGate g) = false /\ shas id (processLiveSessionIds g) = false /\
  (s_status <$> getSession id (store g)) = Some completed.

Lemma open_session config now body mode ws id g : opened id mode (openSession config now body mode ws id g).
Proof.
  unfold openSession. cbv zeta. set (session := with_s_sessionPolicyMode mode _).
  assert (s_id session = id /\ s_status session = completed) as [Hid Hst] by done. clearbody session.
  set (g2 := live id _). clearbody g2.
  destruct (broadcast_session (gw_message "session-started" id now [("session", session_val session)]) session g2)
    as (st & m' & _ & _ & E); [done|done|by rewrite Hst, andb_false_r|].
  rewrite E, Hst, Hid. cbn [busy_status]. split; [|split; [|split; [|split]]].
  - eexists. cbn [reply_with with_replies replies]. apply last_snoc.
  - cbn [reply_with with_replies await with_inflight inflight]. apply last_snoc.
  - change (TurnGate.isActive id (TurnGate.release id (turnGate g2)) = false).
    rewrite TurnGate.isActive_release. by rewrite bool_decide_true.
  - change (shas id (sdelete id (processLiveSessionIds g2)) = false).
    rewrite shas_sdelete. by rewrite bool_decide_true.
  - change ((s_status <$> getSession id (upsertSession session st).2) = Some completed).
    rewrite get_upsert, Hid, decide_True by done. cbn [fmap option_fmap option_map]. by rewrite status_merge, Hst.
Qed.

(** [POST /sessions] acquires the turn gate of the new thread for its
    first turn and then broadcasts the session with the status that
    [threadToSession] computed, completed; the broadcast releases the gate,
    drops the live mark and stores that status, so a second turn is admitted
    while the first one is being started. *)
Theorem new_session_gate_open config now body mode ws v ths w id g :
  extractThreadId v = Some id -> id <> "" -> TurnGate.isActive id (turnGate g) = false ->
  opened id mode (threadStarted config now body mode ws (Ok v ths w) g).
Proof.
  intros Ev Hne Hg. unfold threadStarted. rewrite Ev. cbn [str_truthy].
  rewrite (proj2 (String.eqb_neq id "") Hne). cbn [negb]. cbv zeta. change (default "" (Some id)) with id.
  assert (exists gate, TurnGate.acquire id (b_clientRequestId body) None (turnGate g) = (TurnGate.accepted, gate)
    \/ TurnGate.acquire id (b_clientRequestId body) None (turnGate g) = (TurnGate.duplicate, gate)) as [gate Ha].
  { unfold TurnGate.acquire. unfold TurnGate.isActive in Hg. rewrite Hg. destruct (_ && _); eauto. }
  destruct Ha as [-> | ->]; apply open_session.
Qed.

Lemma new_session_gate_open_witness :
  let body := request_body "hi" (Some "r1") None in
  let v := VObj [("thread", VObj [("id", VStr "t")])] in
  let g := threadStarted demo_config 5 body confirm "/work" (Ok v [] None) (booted (fresh 0 fs_good)) in
  opened "t" confirm g /\ (postTurn demo_config 6 "t" (request_body "again" (Some "r2") None) g).(turnGate) =
    {| TurnGate.activeSessions := ["t"] |}.
Proof.
  cbv zeta. split; [|vm_compute; reflexivity].
  apply (new_session_gate_open demo_config 5 (request_body "hi" (Some "r1") None) confirm "/work"
    (VObj [("thread", VObj [("id", VStr "t")])]) [] None "t"); [reflexivity|done|reflexivity].
Defined.

(** ** The ledger of a turn *)

Lemma reserve_client_sessions now id rid g : sessions (store (reserve_client now id rid g).2) = sessions (store g).
Proof.
  unfold reserve_client. destruct (str_truthy rid); [|done].
  pose proof (same_reserveClient now id (default "" rid) (store g)) as [E _].
  by destruct (reserveClientRequest _ _ _ _).
Qed.

(** The broadcast of a session replaces the fields it has. *)
Lemma merge_ledger st s l r :
  s_recentClientRequestIds s = Val l -> s_lastClientRequestId s = Val r ->
  s_recentClientRequestIds (merge_session st s) = Val l /\ s_lastClientRequestId (merge_session st s) = Val r.
Proof. intros H1 H2. unfold merge_session. destruct (mget _ _); simpl; by rewrite ?H1, ?H2. Qed.

Lemma ledger_lookup id rid st s l r :
  getSession id st = Some s -> s_recentClientRequestIds s = Val l -> s_lastClientRequestId s = Val r ->
  rid ∉ l -> r <> rid -> hasClientRequest id rid st = false.
Proof.
  intros Hs Hl Hr Hn Hne. unfold hasClientRequest, getSession in *. destruct (rid === ""); [done|].
  rewrite Hs, Hl, Hr. cbn [fget default]. rewrite bool_decide_false by done. simpl.
  by apply String.eqb_neq.
Qed.

(** an accepted turn of a session that already served a request ends with
    its own request id out of the ledger: the broadcast that follows
    [rememberClientRequest] stores the session as it was read before, with the
    previous ledger. A retry of the request is then not recognized. *)
Theorem turn_request_forgotten config now id body rid g s l r :
  getSession id (store g) = Some s -> s_id s = id -> id <> "" -> s_workspacePath s <> "" ->
  s_recentClientRequestIds s = Val l -> s_lastClientRequestId s = Val r ->
  b_clientRequestId body = Some rid -> rid <> "" -> rid ∉ l -> r <> rid ->
  b_expiresAt body = None -> b_mode body = None ->
  (reserveClientRequest now id rid (store g)).1 = true -> TurnGate.isActive id (turnGate g) = false ->
  let g' := postTurn config now id body g in
  (exists session, last (replies g') = Some (Accepted 202 (Some session))) /\
  hasClientRequest id rid (store g') = false.
Proof.
  intros Hs Hid Hne Hws Hl Hr Hrid Hrne Hn Hrr He Hm Hres Hg. cbv zeta.
  unfold postTurn. rewrite He, Hs, Hm. cbn [turn_expired].
  change (fullAccessConfirmationRequired None _ _) with false. cbn [andb]. unfold admitTurn.
  rewrite Hm, Hrid. cbn [str_truthy]. rewrite (proj2 (String.eqb_neq _ _) Hws), (proj2 (String.eqb_neq _ _) Hrne).
  cbn [negb andb]. change (default "" (Some rid)) with rid.
  rewrite (ledger_lookup id rid (store g) s l r Hs Hl Hr Hn Hrr). cbv zeta.
  set (session := turn_session _ _ _ _ _ _).
  assert (s_id session = id /\ s_recentClientRequestIds session = Val l /\ s_lastClientRequestId session = Val r /\
    s_status session = running) as (Hi & Hsl & Hsr & Hst) by done. clearbody session.
  unfold reserve_client. cbn [str_truthy]. rewrite (proj2 (String.eqb_neq _ _) Hrne). cbn [negb].
  change (default "" (Some rid)) with rid.
  destruct (reserveClientRequest now id rid (store g)) as [ok st]. cbn [fst] in Hres. subst ok. cbn [negb].
  unfold TurnGate.acquire. cbn [with_store turnGate store].
  assert (opt_str_eqb (Some rid) (s ← Some s; fget (s_lastClientRequestId s)) = false) as ->.
  { simpl. rewrite Hr. simpl. apply String.eqb_neq. congruence. }
  rewrite andb_false_r. unfold TurnGate.isActive in Hg. cbn [with_store turnGate] in *. rewrite Hg.
  destruct (SessionRunState.begin _ _) as [n rs].
  set (g1 := remember_request _ _ _).
  assert (shas id (cancelledSessions g1) = false) as Hc.
  { unfold g1, remember_request. destruct (str_truthy _);
      change (shas id (sdelete id (cancelledSessions g)) = false); rewrite shas_sdelete; by rewrite bool_decide_true. }
  clearbody g1.
  match goal with |- context [broadcastGateway (gw_message "session-user-input" ?i ?t ?ps) g1] =>
    destruct (broadcast_plain (gw_message "session-user-input" i t ps) g1) as (st2 & m2 & _ & _ & E2); [done..|] end.
  rewrite E2. set (g2 := broadcast _ _).
  assert (shas (s_id session) (cancelledSessions g2) && busy_status (s_status session) = false) as Hc2
    by (rewrite Hi; cbn [g2 broadcast with_outbox with_store cancelledSessions]; by rewrite Hc).
  destruct (broadcast_session (gw_message "session-status" id now
    [("sessionId", VStr id); ("status", VStr "running"); ("session", session_val session)]) session g2)
    as (st3 & m3 & _ & _ & E3); [done|done|exact Hc2|].
  rewrite E3, Hst, Hi. cbn [busy_status].
  split; [eexists; cbn [reply_with with_replies replies]; apply last_snoc|].
  destruct (merge_ledger st3 session l r Hsl Hsr) as [M1 M2].
  eapply (ledger_lookup id rid _ (merge_session st3 session) l r); [|done..].
  change (getSession id (upsertSession session st3).2 = Some (merge_session st3 session)).
  by rewrite get_upsert, Hi, decide_True.
Qed.

(** A session that served the request [r1], and the request [r2] made twice,
    before and after the turn it started was completed. *)
Definition served : GatewayStore := run [RememberClient "s" "r1"] demo_store.
Definition turn_completed (id : string) : CodexEvent :=
  {| e_method := "turn/completed";
     e_params := VObj [("threadId", VStr id); ("turn", VObj [("status", VStr "completed")])] |}.

Lemma turn_request_forgotten_witness :
  let body := request_body "hi" (Some "r2") None in
  let g := postTurn demo_config 5 "s" body (booted served) in
  hasClientRequest "s" "r2" (store g) = false /\
  length (inflight (postTurn demo_config 7 "s" body (codexEvent 6 (turn_completed "s") g))) = 2%nat.
Proof.
  cbv zeta. split; [|vm_compute; reflexivity].
  assert (exists s, getSession "s" (store (booted served)) = Some s /\ s_id s = "s" /\ s_workspacePath s = "/work" /\
    s_recentClientRequestIds s = Val ["r1"] /\ s_lastClientRequestId s = Val "r1") as (s & H1 & H2 & H3 & H4 & H5).
  { eexists. vm_compute. done. }
  destruct (turn_request_forgotten demo_config 5 "s" (request_body "hi" (Some "r2") None) "r2" (booted served)
    s ["r1"] "r1") as [_ H]; try done; try (by rewrite H3); try (by vm_compute). set_solver.
Defined.

(** ** Forking *)

Lemma mget_shrink_new {V} n k (v : V) (m : jmap string V) :
  mget k m = None -> (0 < n)%nat -> mget k (mshrink n (mset k v m)) = Some v.
Proof.
  intros Hk Hn. rewrite mset_absent, mshrink_drop by done. unfold lastn. rewrite length_app. simpl.
  rewrite drop_app_le by lia. apply mget_None_keys in Hk.
  rewrite <- mset_absent; [apply mget_mset_eq|]. apply mget_None_keys. intros Hin. apply Hk.
  rewrite fmap_drop in Hin. by eapply elem_of_submseteq, sublist_submseteq, sublist_drop.
Qed.

(** Forking in full-access mode remembers that mode for the thread that is
    forked, not for the fork: from then on the bridge applies full access to
    the parent, while its stored session still says what it said. *)
Theorem fork_escalates_parent now config id v ths w g :
  let g' := resume_task config now (ForkAudit id full_access) (Ok v ths w) g in
  policy_of id (codexBridge g') = full_access /\ store g' = store g /\
  inflight g' = inflight g ++ [Fork id full_access].
Proof.
  cbn [resume_task]. unfold forkAudited. split; [|done].
  change (policy_of id (rememberPolicy id full_access (codexBridge g)) = full_access).
  unfold policy_of, rememberPolicy. cbn [with_policyByThread policyByThread].
  rewrite mget_shrink_new; [done|apply mget_mdelete_eq|unfold maxPolicyEntries; lia].
Qed.
