(* ===== verification/Paths.v ===== *)
(** * Paths and the file-system boundary

    The POSIX functions of node:path that server/src/index.ts and
    attachments.ts use, the containment test [isPathWithin], and the handlers
    behind the allowed roots: the resolution of a workspace, the directory
    listing and the file download. [realpath], [stat] and [readdir] are the
    file system and are arguments. *)

From Stdlib Require Import Ascii.
From S2P Require Import Prelude JsValue GatewayStore Sessions.

Local Open Scope Z_scope.

(** ** node:path (POSIX) *)

Definition isAbsolute (p : string) : bool := starts_with "/" p.

(** Normalization of the segments: empty ones and [.] go, [..] drops the
    segment before it. *)
Fixpoint normalize (acc parts : list string) : list string :=
  match parts with
  | [] => rev acc
  | p :: ps =>
      if (p === "") || (p === ".") then normalize acc ps
      else if p === ".." then normalize (tail acc) ps
      else normalize (p :: acc) ps
  end.

Definition segments (p : string) : list string := normalize [] (split_char "/"%char p).

(** The segments of [path.resolve(base, p)] for an absolute [base]. *)
Definition segs (base p : string) : list string :=
  segments (if isAbsolute p then p else base ^^ "/" ^^ p).

Definition to_path (l : list string) : string := "/" ^^ join "/" l.

Definition resolve (base p : string) : string := to_path (segs base p).

Fixpoint strip_common (a b : list string) : list string * list string :=
  match a, b with
  | x :: a', y :: b' => if x === y then strip_common a' b' else (a, b)
  | _, _ => (a, b)
  end.

(** [path.relative(from, to)] *)
Definition relative (base from to : string) : string :=
  let '(up, down) := strip_common (segs base from) (segs base to) in
  join "/" (map (fun _ => "..") up ++ down).

Definition basename (p : string) : string :=
  default "" (last (List.filter (fun s => s !== "") (split_char "/"%char p))).

(** [path.extname(p)]: from the last dot of the base name, unless it is its
    first character. *)
Definition extname (p : string) : string :=
  if basename p === ".." then ""
  else match rev (split_char "."%char (basename p)) with
  | [] | [_] => ""
  | last :: before => if forallb (fun s => s === "") before then
                        (if (length before =? 1)%nat then "" else "." ^^ last)
                      else "." ^^ last
  end.

(** ** Containment *)

Definition isPathWithin (cwd rootPath targetPath : string) : bool :=
  let resolvedRoot := resolve cwd rootPath in
  let resolvedTarget := resolve cwd targetPath in
  let rel := relative cwd resolvedRoot resolvedTarget in
  (rel === "") || (negb (starts_with ".." rel) && negb (isAbsolute rel)).

(** *** Segments *)

Definition plain (s : string) : Prop :=
  s <> "" /\ s <> "." /\ s <> ".." /\ sforall (fun c => negb (Ascii.eqb c "/"%char)) s = true.

Lemma split_no_sep c s :
  Forall (fun x => sforall (fun d => negb (Ascii.eqb d c)) x = true) (split_char c s).
Proof.
  induction s as [|a s IH]; simpl; [by repeat constructor|].
  destruct (Ascii.eqb a c) eqn:E; [by constructor|].
  destruct (split_char c s) as [|x xs]; [constructor; [simpl; by rewrite E|done]|].
  inv IH. constructor; [simpl; by rewrite E|done].
Qed.

Lemma normalize_plain acc parts :
  Forall plain acc -> Forall (fun x => sforall (fun c => negb (Ascii.eqb c "/"%char)) x = true) parts ->
  Forall plain (normalize acc parts).
Proof.
  revert acc. induction parts as [|p ps IH]; intros acc Ha Hp; simpl; [by apply Forall_rev|].
  inv Hp. destruct ((p === "") || (p === ".")) eqn:E1; [by apply IH|].
  destruct (p === "..") eqn:E2; [apply IH; [|done]; by destruct Ha|].
  apply IH; [|done]. constructor; [|done]. str_cases. by split.
Qed.

Lemma segs_plain base p : Forall plain (segs base p).
Proof. apply normalize_plain; [constructor|apply split_no_sep]. Qed.

Lemma normalize_id acc l : Forall plain l -> normalize acc l = rev acc ++ l.
Proof.
  revert acc. induction l as [|x l IH]; intros acc Hl; simpl; [by rewrite app_nil_r|].
  inv Hl. destruct H1 as (H1 & H3 & H4 & _).
  rewrite (proj2 (String.eqb_neq _ _) H1), (proj2 (String.eqb_neq _ _) H3), (proj2 (String.eqb_neq _ _) H4).
  simpl. rewrite IH by done. simpl. by rewrite <- app_assoc.
Qed.

Lemma split_sapp c x s :
  sforall (fun d => negb (Ascii.eqb d c)) x = true -> split_char c (x ^^ String c s) = x :: split_char c s.
Proof.
  induction x as [|a x IH]; simpl; [by rewrite Ascii.eqb_refl|].
  intros [Ha Hx]%andb_true_iff. apply negb_true_iff in Ha. by rewrite Ha, IH.
Qed.

Lemma split_single c x : sforall (fun d => negb (Ascii.eqb d c)) x = true -> split_char c x = [x].
Proof.
  induction x as [|a x IH]; simpl; [done|].
  intros [Ha Hx]%andb_true_iff. apply negb_true_iff in Ha. by rewrite Ha, IH.
Qed.

Lemma split_nonempty c s : split_char c s <> [].
Proof. destruct s as [|a s]; simpl; [done|]. destruct (Ascii.eqb a c); [done|]. by destruct (split_char c s). Qed.

(** A last segment without separators. *)
Lemma split_tail c s x :
  sforall (fun d => negb (Ascii.eqb d c)) x = true ->
  split_char c (s ^^ String c x) = split_char c s ++ [x].
Proof.
  intros Hx. induction s as [|a s IH]; simpl.
  - by rewrite Ascii.eqb_refl, split_single.
  - destruct (Ascii.eqb a c); [by rewrite IH|]. rewrite IH.
    destruct (split_char c s) as [|y l] eqn:E; [by apply split_nonempty in E|done].
Qed.

Lemma normalize_snoc acc parts x :
  x <> "" -> x <> "." -> x <> ".." -> normalize acc (parts ++ [x]) = normalize acc parts ++ [x].
Proof.
  intros H1 H2 H3. revert acc. induction parts as [|p ps IH]; intros acc; simpl.
  - rewrite (proj2 (String.eqb_neq _ _) H1), (proj2 (String.eqb_neq _ _) H2), (proj2 (String.eqb_neq _ _) H3).
    done.
  - destruct (_ || _); [apply IH|]. destruct (_ === _); apply IH.
Qed.

Lemma split_join l : l <> [] -> Forall plain l -> split_char "/"%char (join "/" l) = l.
Proof.
  intros Hn Hl. induction Hl as [|x l (_ & _ & _ & Hx) Hl IH]; [done|].
  destruct l as [|y l]; [by apply split_single|].
  change (join "/" (x :: y :: l)) with (x ^^ String "/"%char (join "/" (y :: l))).
  rewrite split_sapp by done. by rewrite IH.
Qed.

(** Resolving is idempotent. *)
Lemma segs_to_path base l : Forall plain l -> segs base (to_path l) = l.
Proof.
  intros Hl. unfold segs, to_path, segments. cbn [isAbsolute starts_with sapp]. rewrite Ascii.eqb_refl. cbn [andb].
  change (split_char "/"%char (String "/"%char (join "/" l))) with ("" :: split_char "/"%char (join "/" l)).
  cbn [normalize]. change ("" === "") with true. cbn [orb].
  destruct l as [|x l]; [done|]. rewrite split_join by done. by apply normalize_id.
Qed.

Lemma segs_resolve base p : segs base (resolve base p) = segs base p.
Proof. apply segs_to_path, segs_plain. Qed.

(** *** What the test decides *)

Lemma strip_prefix a b : strip_common a (a ++ b) = ([], b).
Proof. induction a as [|x a IH]; simpl; [by destruct b|]. by rewrite String.eqb_refl. Qed.

Lemma strip_spec a b : let '(a', b') := strip_common a b in exists c, a = c ++ a' /\ b = c ++ b'.
Proof.
  revert b. induction a as [|x a IH]; intros b; simpl; [by exists []|].
  destruct b as [|y b]; [by exists []|]. destruct (String.eqb_spec x y) as [<-|]; [|by exists []].
  specialize (IH b). destruct (strip_common a b) as [a' b']. destruct IH as (c & -> & ->). by exists (x :: c).
Qed.

Lemma dots_sapp x y : x <> "" -> x <> "." -> starts_with ".." (x ^^ y) = starts_with ".." x.
Proof.
  intros H1 H2. destruct x as [|c [|d x]]; [done| |done].
  assert (Ascii.eqb "."%char c = false) as E by (apply Ascii.eqb_neq; by intros <-).
  cbn [sapp starts_with]. by rewrite E.
Qed.

Lemma join_first x l : exists y, join "/" (x :: l) = x ^^ y.
Proof. destruct l as [|z l]; [exists ""; by rewrite sapp_nil_r|]. by eexists. Qed.

(** The target lies below the root, and the first segment below it does not
    begin with two dots. *)
Lemma isPathWithin_spec cwd root target :
  isPathWithin cwd root target = true <->
  exists rest, segs cwd target = segs cwd root ++ rest /\
    match rest with x :: _ => starts_with ".." x = false | [] => True end.
Proof.
  unfold isPathWithin, relative. cbv zeta. rewrite !segs_resolve.
  pose proof (segs_plain cwd target) as Ht. set (a := segs cwd root). set (b := segs cwd target) in *.
  split.
  - pose proof (strip_spec a b) as Hs. destruct (strip_common a b) as [a' b'].
    destruct Hs as (c & -> & E). intros H. destruct a' as [|u a'].
    + exists b'. rewrite app_nil_r. split; [done|]. destruct b' as [|x b']; [done|].
      rewrite E in Ht. apply Forall_app in Ht as [_ Ht]. inv Ht. destruct H2 as (H1 & H2 & _ & _).
      cbn [map app] in H. destruct (join_first x b') as [y Ey]. rewrite Ey in H.
      rewrite dots_sapp in H by done. destruct (starts_with ".." x); [|done].
      by destruct x.
    + exfalso. cbn [map app] in H. destruct (join_first ".." (map (fun _ => "..") a' ++ b')) as [y Ey].
      by rewrite Ey in H.
  - intros (rest & E & Hr). rewrite E, strip_prefix. cbn [map app]. destruct rest as [|x rest]; [done|].
    rewrite E in Ht. apply Forall_app in Ht as [_ Ht]. inv Ht. destruct H1 as (H1 & H2' & _ & Hx).
    destruct (join_first x rest) as [y Ey]. rewrite Ey. rewrite dots_sapp, Hr by done.
    destruct x as [|d x]; [done|]. simpl in Hx |- *. apply andb_true_iff in Hx as [Hd _].
    rewrite (Ascii.eqb_sym d "/"%char) in Hd. apply negb_true_iff in Hd.
    unfold isAbsolute. cbn [starts_with]. by rewrite Hd.
Qed.

(** ** Behind the allowed roots *)

Record file_stat := { f_isFile : bool; f_isDirectory : bool; f_size : Z; f_mtime : string }.
Record dirent := { d_name : string; d_isDirectory : bool }.

Record ListedEntry := {
  l_name : string; l_path : string; l_type : string; l_size : option Z; l_modifiedAt : option string
}.
Inductive listing :=
| ListForbidden
| ListThrew
| ListOk (path : string) (parentPath : option string) (entries : list ListedEntry) (truncated : bool).

Inductive download :=
| DownloadError (code : Z) (error : string)
| DownloadOk (path : string) (size : Z) (filename : string).

Definition maxFilesystemEntries : nat := Z.to_nat 2000.
Definition maxFileDownloadBytes : Z := 8 * 1024 * 1024.

(** [path.join(dir, name)] and [path.dirname(p)] for absolute paths. *)
Definition path_join (dir name : string) : string := to_path (segments (dir ^^ "/" ^^ name)).
Definition dirname (p : string) : string := to_path (removelast (segments p)).

(** [process.cwd()], the configured roots, and the answers of the file system;
    [slow] says for which paths the five-second timer fires first. *)
Record world := {
  w_cwd : string;
  w_roots : list string;
  w_realpath : string -> option string;
  w_stat : string -> option file_stat;
  w_readdir : string -> option (list dirent);
  w_slow : string -> bool;
  w_before : string -> string -> bool
}.

Section boundary.
Context (w : world).

Definition isPathWithinAllowedRoots (targetPath : string) : bool :=
  let resolvedTarget := resolve (w_cwd w) targetPath in
  existsb (fun root => isPathWithin (w_cwd w) (resolve (w_cwd w) root) resolvedTarget) (w_roots w).

Definition resolveAllowedWorkspaceUnbounded (rawPath : string) (allowTrustedOutsideRoots : bool)
    : option string :=
  match w_realpath w (resolve (w_cwd w) rawPath) with
  | None => None
  | Some workspace =>
      match w_stat w workspace with
      | Some details =>
          if negb (f_isDirectory details) then None
          else if allowTrustedOutsideRoots then Some workspace
          else if existsb (fun rootPath =>
                    match w_realpath w (resolve (w_cwd w) rootPath) with
                    | Some root => isPathWithin (w_cwd w) root workspace
                    | None => false
                    end) (w_roots w)
          then Some workspace else None
      | None => None
      end
  end.

Definition resolveAllowedWorkspace (rawPath : string) (allowTrustedOutsideRoots : bool) : option string :=
  if (rawPath === "") || (trim rawPath === "") then None
  else if w_slow w rawPath then None
  else resolveAllowedWorkspaceUnbounded rawPath allowTrustedOutsideRoots.

Definition filterAllowedThreads (threads : list ThreadSummary) : list ThreadSummary :=
  List.filter (fun t => (trim (th_cwd t) !== "") && str_truthy (resolveAllowedWorkspace (th_cwd t) false))
    (take (Z.to_nat 10000) threads).

Definition filterAllowedSessions (sessions : list GatewaySession) : list GatewaySession :=
  List.filter (fun s => (trim (s_workspacePath s) !== "")
                        && str_truthy (resolveAllowedWorkspace (s_workspacePath s) true))
    (take (Z.to_nat 10000) sessions).

(** [GET /filesystem/list] *)
Definition listed_entry (dir : string) (entry : dirent) : option ListedEntry :=
  let entryPath := path_join dir (d_name entry) in
  match w_realpath w entryPath with
  | None => None
  | Some resolved =>
      if isPathWithinAllowedRoots resolved then
        let stats := w_stat w entryPath in
        Some {| l_name := d_name entry; l_path := resolved;
                l_type := if d_isDirectory entry then "directory" else "file";
                l_size := (s ← stats; if f_isFile s then Some (f_size s) else None);
                l_modifiedAt := f_mtime <$> stats |}
      else None
  end.

Definition filesystemList (path : string) : listing :=
  match resolveAllowedWorkspace path false with
  | None => ListForbidden
  | Some requestedPath =>
      match w_readdir w requestedPath with
      | None => ListThrew
      | Some names =>
          let allEntries := isort (fun a b => w_before w (d_name a) (d_name b)) names in
          let entries := omap (listed_entry requestedPath) (take maxFilesystemEntries allEntries) in
          let parentPath := match w_realpath w (dirname requestedPath) with
                            | Some p => if isPathWithinAllowedRoots p then Some p else None
                            | None => None
                            end in
          ListOk requestedPath parentPath entries (maxFilesystemEntries <? length allEntries)%nat
      end
  end.

(** [GET /files/download]: [workspacePath] is the one of the stored session
    ([trusted]) or of the indexed thread. *)
Definition filesDownload (workspacePath : option string) (trusted : bool) (path : string) : download :=
  if negb (str_truthy workspacePath) then DownloadError 404 "session_not_found"
  else match w_realpath w (default "" workspacePath) with
  | None => DownloadError 404 "workspace_not_found"
  | Some workspace =>
      let candidatePath := resolve workspace path in
      match w_realpath w candidatePath with
      | None => DownloadError 403 "forbidden"
      | Some requestedPath =>
          if negb (isPathWithin (w_cwd w) workspace requestedPath)
             || (negb trusted && negb (isPathWithinAllowedRoots requestedPath))
          then DownloadError 403 "forbidden"
          else match w_stat w requestedPath with
          | Some file =>
              if negb (f_isFile file) then DownloadError 404 "file_not_found"
              else if maxFileDownloadBytes <? f_size file then DownloadError 413 "file_too_large"
              else DownloadOk requestedPath (f_size file) (encodeURIComponent (basename requestedPath))
          | None => DownloadError 404 "file_not_found"
          end
      end
  end.

(** [p] is [root] or lies below it, segment by segment. *)
Definition below (root p : string) : Prop :=
  exists rest, segs (w_cwd w) p = segs (w_cwd w) root ++ rest.

Lemma within_below root p : isPathWithin (w_cwd w) root p = true -> below root p.
Proof. intros (rest & E & _)%isPathWithin_spec. by exists rest. Qed.

Lemma roots_below p :
  isPathWithinAllowedRoots p = true -> exists root, root ∈ w_roots w /\ below root p.
Proof.
  unfold isPathWithinAllowedRoots. cbv zeta. rewrite existsb_exists. intros (root & Hr & H).
  exists root. split; [by apply list_elem_of_In|]. apply within_below in H as [rest E]. exists rest.
  by rewrite !segs_resolve in E.
Qed.

Lemma workspace_confined raw p :
  resolveAllowedWorkspace raw false = Some p ->
  exists root real, root ∈ w_roots w /\ w_realpath w (resolve (w_cwd w) root) = Some real /\ below real p.
Proof.
  unfold resolveAllowedWorkspace, resolveAllowedWorkspaceUnbounded.
  destruct (_ || _); [done|]. destruct (w_slow w raw); [done|].
  destruct (w_realpath w (resolve _ raw)) as [ws|]; [|done]. destruct (w_stat w ws) as [d|]; [|done].
  destruct (negb _); [done|]. destruct (existsb _ _) eqn:E; [|done]. intros [= ->].
  apply existsb_exists in E as (root & Hr & H).
  destruct (w_realpath w (resolve (w_cwd w) root)) as [real|] eqn:Er; [|done].
  exists root, real. split; [by apply list_elem_of_In|]. split; [done|]. by apply within_below.
Qed.

Lemma omap_shorter {A B} (f : A -> option B) l : (length (omap f l) <= length l)%nat.
Proof. induction l as [|x l IH]; [done|]. csimpl. destruct (f x); csimpl; lia. Qed.

(** C27: what leaves the file system is confined, symbolic links included: a
    workspace that needs authorization lies below the real path of an allowed
    root; every entry a directory listing shows resolves below an allowed
    root, and at most 2000 are shown; a download resolves inside the real
    workspace of its session, below an allowed root unless the session is
    stored, and has at most 8 MiB. *)
Theorem filesystem_confined :
  (forall raw p, resolveAllowedWorkspace raw false = Some p ->
     exists root real, root ∈ w_roots w /\ w_realpath w (resolve (w_cwd w) root) = Some real /\ below real p) /\
  (forall path p parent entries truncated, filesystemList path = ListOk p parent entries truncated ->
     (length entries <= maxFilesystemEntries)%nat /\
     Forall (fun e => exists root, root ∈ w_roots w /\ below root (l_path e)) entries) /\
  (forall workspacePath trusted path p size name,
     filesDownload workspacePath trusted path = DownloadOk p size name ->
     exists ws real, workspacePath = Some ws /\ w_realpath w ws = Some real /\ below real p /\
       size <= maxFileDownloadBytes /\
       (trusted = false -> exists root, root ∈ w_roots w /\ below root p)).
Proof.
  split; [exact workspace_confined|]. split.
  - intros path p parent entries truncated. unfold filesystemList.
    destruct (resolveAllowedWorkspace path false) as [dir|]; [|done].
    destruct (w_readdir w dir) as [names|]; [|done]. cbv zeta. intros [= _ _ <- _].
    set (shown := take _ _). split.
    + etrans; [apply omap_shorter|]. apply firstn_le_length.
    + apply Forall_forall. intros e (entry & _ & He)%list_elem_of_omap. unfold listed_entry in He. cbv zeta in He.
      destruct (w_realpath w _) as [resolved|]; [|done].
      destruct (isPathWithinAllowedRoots resolved) eqn:E; [|done]. simplify_eq. by apply roots_below.
  - intros wp trusted path p size name. unfold filesDownload.
    destruct (negb (str_truthy wp)) eqn:Ew; [done|]. destruct wp as [ws|]; [|done].
    change (default "" (Some ws)) with ws. destruct (w_realpath w ws) as [real|] eqn:Er; [|done]. cbv zeta.
    destruct (w_realpath w (resolve real path)) as [q|]; [|done].
    destruct (_ || _) eqn:E; [done|]. apply orb_false_iff in E as [E1 E2]. apply negb_false_iff in E1.
    destruct (w_stat w q) as [file|]; [|done]. destruct (negb (f_isFile file)); [done|].
    destruct (Z.ltb_spec maxFileDownloadBytes (f_size file)); [done|]. intros [= <- <- <-].
    exists ws, real. split; [done|]. split; [done|]. split; [by apply within_below|].
    split; [lia|]. intros ->. apply negb_false_iff in E2. by apply roots_below.
Qed.
End boundary.

(** A tree with one root, a file in it and a link that leads out of it. *)
Definition demo_world : world := {|
  w_cwd := "/srv"; w_roots := ["/work"];
  w_realpath := fun p => if p === "/work/link" then Some "/etc/passwd"
                         else if starts_with "/work" p then Some p else None;
  w_stat := fun p => if p === "/work" then Some {| f_isFile := false; f_isDirectory := true; f_size := 0; f_mtime := "" |}
                     else Some {| f_isFile := true; f_isDirectory := false; f_size := 12; f_mtime := "" |};
  w_readdir := fun _ => Some [{| d_name := "a.txt"; d_isDirectory := false |}; {| d_name := "link"; d_isDirectory := false |}];
  w_slow := fun _ => false;
  w_before := str_ltb |}.

Lemma filesystem_confined_witness :
  filesDownload demo_world (Some "/work") true "link" = DownloadError 403 "forbidden" /\
  filesDownload demo_world (Some "/work") true "../work/a.txt" = DownloadOk "/work/a.txt" 12 "a.txt" /\
  below demo_world "/work" "/work/a.txt".
Proof.
  assert (H : filesDownload demo_world (Some "/work") true "../work/a.txt" = DownloadOk "/work/a.txt" 12 "a.txt")
    by (vm_compute; reflexivity).
  split; [vm_compute; reflexivity|]. split; [exact H|].
  destruct (filesystem_confined demo_world) as (_ & _ & Hd).
  destruct (Hd (Some "/work") true "../work/a.txt" "/work/a.txt" 12 "a.txt" H) as (ws & real & E1 & E2 & Hb & _).
  injection E1 as <-. vm_compute in E2. injection E2 as <-. exact Hb.
Defined.
