(* ===== verification/Base64.v ===== *)
(** * Base64

    [Buffer.from(s, "base64")] and [buffer.toString("base64")] as
    attachments.ts and relayProxy.ts use them; a buffer is a string of bytes. *)

From Stdlib Require Import Ascii.
From S2P Require Import Prelude JsValue.

Local Open Scope Z_scope.

Definition byte_of (c : ascii) : Z := Z.of_nat (code c).
Definition of_byte (z : Z) : ascii := ascii_of_nat (Z.to_nat z).

(** ** The alphabet *)

Definition b64_char (d : Z) : ascii :=
  if d <? 26 then of_byte (65 + d)
  else if d <? 52 then of_byte (97 + (d - 26))
  else if d <? 62 then of_byte (48 + (d - 52))
  else if d =? 62 then "+"%char else "/"%char.

Definition b64_digit (c : ascii) : option Z :=
  let n := byte_of c in
  if (65 <=? n) && (n <=? 90) then Some (n - 65)
  else if (97 <=? n) && (n <=? 122) then Some (n - 97 + 26)
  else if (48 <=? n) && (n <=? 57) then Some (n - 48 + 52)
  else if Ascii.eqb c "+"%char then Some 62
  else if Ascii.eqb c "/"%char then Some 63 else None.

Definition is_b64 (c : ascii) : bool := match b64_digit c with Some _ => true | None => false end.

(** [/^[A-Za-z0-9+/]*={0,2}$/.test(s)] *)
Definition drop_pad (s : string) : string :=
  match s with
  | String "=" (String "=" r) => r
  | String "=" r => r
  | _ => s
  end.
Definition valid_base64 (s : string) : bool := sforall is_b64 (drop_pad (srev s)).

(** ** Encoding *)

Definition char4 (n : Z) (rest : string) : string :=
  String (b64_char (n / 262144)) (String (b64_char ((n / 4096) mod 64))
    (String (b64_char ((n / 64) mod 64)) (String (b64_char (n mod 64)) rest))).

Fixpoint encode64 (s : string) : string :=
  match s with
  | "" => ""
  | String a "" =>
      let n := byte_of a * 16 in
      String (b64_char (n / 64)) (String (b64_char (n mod 64)) "==")
  | String a (String b "") =>
      let n := byte_of a * 1024 + byte_of b * 4 in
      String (b64_char (n / 4096)) (String (b64_char ((n / 64) mod 64)) (String (b64_char (n mod 64)) "="))
  | String a (String b (String c r)) =>
      char4 (byte_of a * 65536 + byte_of b * 256 + byte_of c) (encode64 r)
  end.

(** ** Decoding *)

(** The digits up to the first character that is none. *)
Fixpoint digits (s : string) : list Z :=
  match s with
  | "" => []
  | String c s' => match b64_digit c with Some d => d :: digits s' | None => [] end
  end.

Fixpoint bytes_of (l : list Z) : string :=
  match l with
  | d1 :: d2 :: d3 :: d4 :: r =>
      let n := d1 * 262144 + d2 * 4096 + d3 * 64 + d4 in
      String (of_byte (n / 65536)) (String (of_byte ((n / 256) mod 256)) (String (of_byte (n mod 256)) (bytes_of r)))
  | [d1; d2; d3] =>
      let n := d1 * 4096 + d2 * 64 + d3 in
      String (of_byte (n / 1024)) (String (of_byte ((n / 4) mod 256)) "")
  | [d1; d2] => String (of_byte ((d1 * 64 + d2) / 16)) ""
  | _ => ""
  end.

Definition decode64 (s : string) : string := bytes_of (digits s).

(** ** Round trip *)

Lemma byte_range c : 0 <= byte_of c < 256.
Proof. unfold byte_of, code. pose proof (nat_ascii_bounded c). lia. Qed.

Lemma of_byte_of c : of_byte (byte_of c) = c.
Proof. unfold of_byte, byte_of, code. by rewrite Nat2Z.id, ascii_nat_embedding. Qed.

Lemma digit_char d : 0 <= d < 64 -> b64_digit (b64_char d) = Some d.
Proof.
  intros H.
  assert (forallb (fun n => match b64_digit (b64_char (Z.of_nat n)) with
                            | Some x => x =? Z.of_nat n | None => false end) (seq 0 64) = true) as Ha
    by reflexivity.
  rewrite forallb_forall in Ha. specialize (Ha (Z.to_nat d)).
  rewrite Z2Nat.id in Ha by lia. specialize (Ha ltac:(apply in_seq; lia)).
  destruct (b64_digit (b64_char d)) as [x|]; [|done]. apply Z.eqb_eq in Ha. by subst.
Qed.

Lemma digits_char d s : 0 <= d < 64 -> digits (String (b64_char d) s) = d :: digits s.
Proof. intros H. cbn [digits]. by rewrite digit_char. Qed.

Lemma three_bytes (P : string -> Prop) :
  P "" -> (forall a, P (String a "")) -> (forall a b, P (String a (String b ""))) ->
  (forall a b c s, P s -> P (String a (String b (String c s)))) -> forall s, P s.
Proof.
  intros H0 H1 H2 H3. fix IH 1. intros [|a [|b [|c s]]]; [done|apply H1|apply H2|apply H3, IH].
Qed.

(** [lia] with division and remainder. *)
Ltac dlia := Z.div_mod_to_equations; lia.

Ltac byte_cases :=
  repeat match goal with |- context [byte_of ?c] =>
    lazymatch goal with H : 0 <= byte_of c < 256 |- _ => fail | _ => pose proof (byte_range c) end end.

Ltac by_byte := etrans; [|apply of_byte_of]; f_equal; dlia.

Lemma decode_encode s : decode64 (encode64 s) = s.
Proof.
  unfold decode64. induction s as [|a|a b|a b c s IH] using three_bytes.
  - done.
  - cbn [encode64]. byte_cases. rewrite !digits_char by dlia. change (digits "==") with (@nil Z). cbn [bytes_of].
    f_equal. by_byte.
  - cbn [encode64]. byte_cases. rewrite !digits_char by dlia. change (digits "=") with (@nil Z). cbn [bytes_of].
    f_equal; [by_byte|f_equal; by_byte].
  - cbn [encode64]. unfold char4. byte_cases. rewrite !digits_char by dlia. cbn [bytes_of]. rewrite IH.
    f_equal; [by_byte|f_equal; [by_byte|f_equal; by_byte]].
Qed.

(** ** What is encoded passes the checks on the other side *)

Lemma srev_onto_sapp a b acc : srev_onto (a ^^ b) acc = srev_onto b (srev_onto a acc).
Proof. revert acc. induction a as [|c a IH]; intros acc; simpl; [done|]. apply IH. Qed.

Lemma is_b64_char d : 0 <= d < 64 -> is_b64 (b64_char d) = true.
Proof. intros H. unfold is_b64. by rewrite digit_char. Qed.

(** The encoding is a text of digits followed by its padding. *)
Lemma encode_shape s :
  exists body pad, encode64 s = body ^^ pad /\ sforall is_b64 body = true /\
    (pad = "" \/ pad = "=" \/ pad = "==") /\ (slen (encode64 s) mod 4 = 0)%nat /\
    (slen (encode64 s) = 4 * ((slen s + 2) / 3))%nat.
Proof.
  induction s as [|a|a b|a b c s (body & pad & E & Hb & Hp & Hm & Hl)] using three_bytes.
  - exists "", "". auto.
  - pose proof (byte_range a). eexists (String _ (String _ "")), "==". split; [reflexivity|].
    split; [|by auto]. cbn [sforall]. rewrite !is_b64_char by dlia. done.
  - pose proof (byte_range a). pose proof (byte_range b). eexists (String _ (String _ (String _ ""))), "=".
    split; [reflexivity|]. split; [|by auto]. cbn [sforall]. rewrite !is_b64_char by dlia. done.
  - pose proof (byte_range a). pose proof (byte_range b). pose proof (byte_range c).
    cbn [encode64]. unfold char4. rewrite E.
    eexists (String _ (String _ (String _ (String _ body)))), pad. split; [reflexivity|].
    rewrite E in Hm, Hl. unfold slen in *. split; [|split; [done|]].
    + cbn [sforall]. rewrite !is_b64_char by dlia. done.
    + cbn [String.length]. rewrite Hl.
      replace (S (S (S (String.length s))) + 2)%nat with (String.length s + 2 + 1 * 3)%nat by lia.
      rewrite Nat.div_add by lia. split; [|lia].
      replace (S (S (S (S (4 * ((String.length s + 2) / 3))))))%nat with (0 + ((String.length s + 2) / 3 + 1) * 4)%nat by lia.
      by rewrite Nat.Div0.mod_add.
Qed.

Lemma drop_pad_digits s : sforall is_b64 s = true -> drop_pad s = s.
Proof.
  destruct s as [|c s]; [done|]. cbn [sforall]. intros [Hc _]%andb_true_iff.
  destruct (Ascii.eqb_spec c "="%char) as [->|Hn]; [done|].
  unfold drop_pad. destruct c as [[] [] [] [] [] [] [] []]; try done.
Qed.

Lemma encode_valid s : valid_base64 (encode64 s) = true.
Proof.
  destruct (encode_shape s) as (body & pad & -> & Hb & Hp & _). unfold valid_base64, srev.
  rewrite srev_onto_sapp.
  assert (sforall is_b64 (srev_onto body "") = true) as Hr by (by rewrite srev_onto_sforall, Hb).
  destruct Hp as [->|[->| ->]]; cbn [srev_onto].
  - by rewrite drop_pad_digits.
  - set (r := srev_onto body "") in *. cbn [drop_pad]. destruct r as [|c r]; [done|].
    cbn [sforall] in Hr. pose proof Hr as [Hc _]%andb_true_iff.
    destruct (Ascii.eqb_spec c "="%char) as [->|Hn]; [done|].
    by destruct c as [[] [] [] [] [] [] [] []].
  - done.
Qed.

Lemma four_digits (P : list Z -> Prop) :
  P [] -> (forall a, P [a]) -> (forall a b, P [a; b]) -> (forall a b c, P [a; b; c]) ->
  (forall a b c d l, P l -> P (a :: b :: c :: d :: l)) -> forall l, P l.
Proof.
  intros H0 H1 H2 H3 H4. fix IH 1. intros [|a [|b [|c [|d l]]]]; [done|apply H1|apply H2|apply H3|apply H4, IH].
Qed.

Lemma decode_length s : (4 * slen (decode64 s) <= 3 * slen s)%nat.
Proof.
  assert (length (digits s) <= slen s)%nat as Hd.
  { unfold slen. induction s as [|c s IH]; simpl; [done|]. destruct (b64_digit c); simpl; lia. }
  unfold decode64. enough (4 * slen (bytes_of (digits s)) <= 3 * length (digits s))%nat by lia. clear Hd.
  unfold slen. induction (digits s) as [|a|a b|a b c|a b c d l IH] using four_digits; cbn [bytes_of String.length length];
    lia.
Qed.

(** whatever bytes the gateway encodes, the text is well-formed base64 of
    a length divisible by four, four characters for every three bytes begun,
    so that it passes the checks on uploads and proxied bodies; decoding gives
    the bytes back; and decoding never yields more than three bytes for four
    characters. *)
Theorem base64_roundtrip s :
  decode64 (encode64 s) = s /\ valid_base64 (encode64 s) = true /\
  (slen (encode64 s) mod 4 = 0)%nat /\ (slen (encode64 s) = 4 * ((slen s + 2) / 3))%nat /\
  (4 * slen (decode64 s) <= 3 * slen s)%nat.
Proof.
  destruct (encode_shape s) as (_ & _ & _ & _ & _ & Hm & Hl).
  split; [apply decode_encode|]. split; [apply encode_valid|]. split; [done|]. split; [done|apply decode_length].
Qed.
