(* ===== verification/Attachments.v ===== *)
(** * Attachments

    server/src/attachments.ts: names, kinds, decoding and storing of uploads.
    The file system is a map from paths to contents; its answers to [mkdir],
    [realpath], [writeFile] and [rm], the random ids and the NFKC
    normalization of a name are arguments. *)

From Stdlib Require Import Ascii.
From S2P Require Import Prelude JsValue JsDate CodexEvents CodexBridge Paths Base64.

Local Open Scope Z_scope.

(** ** Data *)

Definition maxAttachmentsPerTurn : nat := 8.
Definition maxAttachmentBytes : Z := 15 * 1024 * 1024.
Definition maxAttachmentBase64Chars : Z := 20971520 + 512.

Definition imageExtensions : list string := [".png"; ".jpg"; ".jpeg"; ".webp"; ".gif"; ".bmp"].
Definition fileExtensions : list string :=
  [".txt"; ".md"; ".markdown"; ".json"; ".yaml"; ".yml"; ".csv"; ".log"; ".pdf"; ".doc"; ".docx"; ".xls"; ".xlsx";
   ".ppt"; ".pptx"; ".zip"; ".js"; ".jsx"; ".ts"; ".tsx"; ".py"; ".java"; ".kt"; ".swift"; ".go"; ".rs"; ".c"; ".h";
   ".cpp"; ".hpp"; ".cs"; ".php"; ".rb"; ".sh"; ".bash"; ".zsh"; ".ps1"; ".html"; ".css"; ".scss"; ".xml"; ".toml";
   ".ini"; ".conf"; ".env"; ".gradle"; ".sql"].

Record UploadedAttachmentInput := {
  a_name : string; a_mimeType : option string; a_size : option Z; a_dataBase64 : string
}.

Inductive attachment_kind := image | file.

Record StoredAttachment := {
  sa_id : string; sa_originalName : string; sa_mimeType : string; sa_size : Z;
  sa_kind : attachment_kind; sa_relativePath : string; sa_absolutePath : string
}.

(** [Object.assign(new Error(message), { statusCode })] *)
Inductive attachment_error := AttachmentError (message : string) (statusCode : Z) | WriteError.

(** ** Names *)

Definition is_control (c : ascii) : bool := ((code c <? 32) || (code c =? 127))%nat.
Definition is_separator (c : ascii) : bool := Ascii.eqb c "/"%char || Ascii.eqb c "\"%char.

Definition clean_name (nfkc : string -> string) (baseName : string) : string :=
  trim (collapse_spaces
    (smap (fun c => if is_separator c then "-"%char else c)
      (sfilter (fun c => negb (is_control c)) (nfkc baseName)))).

Definition sanitizeAttachmentFileName (nfkc : string -> string) (fileName : string) : string :=
  let baseName := basename (if fileName === "" then "attachment" else fileName) in
  let cleaned := clean_name nfkc baseName in
  if (cleaned === "") || (cleaned === ".") || (cleaned === "..") then "attachment"
  else slice0 120 cleaned.

Definition classifyAttachment (fileName mimeType : string) : attachment_kind + attachment_error :=
  let extension := to_lower (extname fileName) in
  let normalizedMime := to_lower mimeType in
  if starts_with "image/" normalizedMime || bool_decide (extension ∈ imageExtensions) then inl image
  else if bool_decide (extension ∈ fileExtensions) || starts_with "text/" normalizedMime
          || (normalizedMime === "application/octet-stream")
  then inl file
  else inr (AttachmentError "unsupported_attachment_type" 400).

(** ** Contents *)

(** [value.slice(value.indexOf(",") + 1)] *)
Fixpoint after_comma (s : string) : string :=
  match s with
  | "" => ""
  | String c s' => if Ascii.eqb c ","%char then s' else after_comma s'
  end.

Definition is_blank (c : ascii) : bool := ((code c =? 13) || (code c =? 10) || (code c =? 9) || (code c =? 32))%nat.

Definition decodeBase64 (value : string) : string + attachment_error :=
  let base64 := if includes "," value then after_comma value else value in
  let compact := sfilter (fun c => negb (is_blank c)) base64 in
  if (compact === "") || (maxAttachmentBase64Chars <? Z.of_nat (slen compact))
     || (slen compact mod 4 =? 1)%nat || negb (valid_base64 compact)
  then inr (AttachmentError "invalid_attachment" 400)
  else
    let buffer := decode64 compact in
    if buffer === "" then inr (AttachmentError "invalid_attachment" 400) else inl buffer.

Definition ensurePathInside (cwd parentPath childPath : string) : bool :=
  let rel := relative cwd parentPath childPath in
  negb (starts_with ".." rel || isAbsolute rel).

(** ** Storing *)

(** The answer of [writeFile]; a failed write may have left part of the file. *)
Inductive write_outcome := Written | WriteFailed (partial : option string).

Section store.
Context (cwd : string) (nfkc : string -> string).

(** An upload with the id drawn for it and the answer to its write. *)
Record upload := { u_input : UploadedAttachmentInput; u_uuid : string; u_write : write_outcome }.

Definition upload_id (u : upload) : string := "att_" ^^ u_uuid u.
Definition storedName (u : upload) : string :=
  upload_id u ^^ "-" ^^ sanitizeAttachmentFileName nfkc (a_name (u_input u)).
Definition upload_path (dir : string) (u : upload) : string := resolve dir (storedName u).

Definition mime_of (u : upload) : string :=
  let m := trim (default "" (a_mimeType (u_input u))) in
  if m === "" then "application/octet-stream" else m.

(** What is checked of one upload before it is written. *)
Definition prepare (dir threadId : string) (u : upload) : (string * StoredAttachment) + attachment_error :=
  let originalName := sanitizeAttachmentFileName nfkc (a_name (u_input u)) in
  match decodeBase64 (a_dataBase64 (u_input u)) with
  | inr e => inr e
  | inl buffer =>
      let size := default (Z.of_nat (slen buffer)) (a_size (u_input u)) in
      if negb (size =? Z.of_nat (slen buffer)) then inr (AttachmentError "invalid_attachment_size" 400)
      else if maxAttachmentBytes <? Z.of_nat (slen buffer) then inr (AttachmentError "attachment_too_large" 413)
      else match classifyAttachment originalName (mime_of u) with
      | inr e => inr e
      | inl kind =>
          if ensurePathInside cwd dir (upload_path dir u) then
            inl (buffer,
              {| sa_id := upload_id u; sa_originalName := originalName; sa_mimeType := mime_of u;
                 sa_size := Z.of_nat (slen buffer); sa_kind := kind;
                 sa_relativePath := join "/" [".acode"; "attachments"; threadId; storedName u];
                 sa_absolutePath := upload_path dir u |})
          else inr (AttachmentError "attachment_path_escape" 400)
      end
  end.

Fixpoint store_loop (dir threadId : string) (l : list upload) (files : jmap string string)
    (stored : list StoredAttachment) : option attachment_error * list StoredAttachment * jmap string string :=
  match l with
  | [] => (None, stored, files)
  | u :: l' =>
      match prepare dir threadId u with
      | inr e => (Some e, stored, files)
      | inl (buffer, a) =>
          match u_write u with
          | Written => store_loop dir threadId l' (mset (sa_absolutePath a) buffer files) (stored ++ [a])
          | WriteFailed None => (Some WriteError, stored, files)
          | WriteFailed (Some partial) => (Some WriteError, stored, mset (sa_absolutePath a) partial files)
          end
      end
  end.

(** [workspaceRoot] and [attachmentDir] are the answers of [realpath]; [rm_ok]
    says which removals succeed. *)
Definition storeAttachments (workspaceRoot attachmentDir : option string) (rm_ok : string -> bool)
    (threadId : string) (l : list upload) (files : jmap string string)
    : (list StoredAttachment + attachment_error) * jmap string string :=
  if (maxAttachmentsPerTurn <? length l)%nat then (inr (AttachmentError "too_many_attachments" 400), files)
  else if (length l =? 0)%nat then (inl [], files)
  else match workspaceRoot, attachmentDir with
  | Some root, Some dir =>
      if negb (ensurePathInside cwd root dir) then (inr (AttachmentError "attachment_path_escape" 400), files)
      else
        match store_loop dir threadId l files [] with
        | (None, stored, files) => (inl stored, files)
        | (Some e, stored, files) =>
            (inr e, foldl (fun files a => if rm_ok (sa_absolutePath a) then mdelete (sa_absolutePath a) files
                                          else files) files stored)
        end
  | _, _ => (inr (AttachmentError "attachment_path_escape" 400), files)
  end.
End store.

(** ** The prompt *)

(** [(bytes / 1024 / 1024).toFixed(1)]: the division is exact, a tie rounds up. *)
Definition megabytes (bytes : Z) : string :=
  let n := (20 * bytes + 1048576) / 2097152 in zstr (n / 10) ^^ "." ^^ zstr (n mod 10).

Definition formatBytes (bytes : Z) : string :=
  if bytes <? 1024 then zstr bytes ^^ " B"
  else if bytes <? 1024 * 1024 then zstr ((2 * bytes + 1024) / 2048) ^^ " KB"
  else megabytes bytes ^^ " MB".

Definition NL : string := String (ascii_of_nat 10) "".

Definition attachment_line (a : StoredAttachment) : string :=
  "- " ^^ sa_originalName a ^^ " (" ^^ sa_mimeType a ^^ ", " ^^ formatBytes (sa_size a) ^^ "): "
  ^^ sa_relativePath a.

Definition appendAttachmentPrompt (text : string) (l : list StoredAttachment) : string :=
  match l with
  | [] => text
  | _ => join NL ([trim_end text; "";
           "本轮附带了以下附件。图片已作为本地图片输入，同时也保存在路径中；普通文件请按需读取："]
           ++ map attachment_line l)
  end.

Definition buildCodexInput (text : string) (l : list StoredAttachment) : list val :=
  VObj [("type", VStr "text"); ("text", VStr (appendAttachmentPrompt text l)); ("text_elements", VArr [])]
  :: omap (fun a => match sa_kind a with
                    | image => Some (VObj [("type", VStr "localImage"); ("path", VStr (sa_absolutePath a))])
                    | file => None
                    end) l.

(** ** Names are safe *)

Lemma sforall_sfilter f g s : sforall g s = true -> sforall g (sfilter f s) = true.
Proof.
  induction s as [|c s IH]; simpl; [done|]. intros [Hc Hs]%andb_true_iff.
  destruct (f c); simpl; [by rewrite Hc, IH|auto].
Qed.

Lemma sfilter_all f s : sforall f (sfilter f s) = true.
Proof. induction s as [|c s IH]; simpl; [done|]. destruct (f c) eqn:E; simpl; [by rewrite E|done]. Qed.

Lemma sforall_smap f g h s :
  (forall c, f c = true -> h (g c) = true) -> sforall f s = true -> sforall h (smap g s) = true.
Proof.
  intros H. induction s as [|c s IH]; simpl; [done|]. intros [Hc Hs]%andb_true_iff. by rewrite (H c Hc), IH.
Qed.

Lemma sforall_collapse f s : f " "%char = true -> sforall f s = true -> sforall f (collapse_spaces s) = true.
Proof.
  intros Hf. induction s as [|c s IH]; [done|]. cbn [sforall collapse_spaces].
  intros [Hc Hs]%andb_true_iff. specialize (IH Hs). destruct (is_space c).
  - destruct s as [|d s]; [cbn [sforall]; by rewrite Hf|]. destruct (is_space d); [done|].
    cbn [sforall]. by rewrite Hf.
  - cbn [sforall]. by rewrite Hc.
Qed.

Lemma sforall_trim_start f s : sforall f s = true -> sforall f (trim_start s) = true.
Proof.
  induction s as [|c s IH]; [done|]. cbn [sforall trim_start]. intros [Hc Hs]%andb_true_iff.
  destruct (is_space c); [auto|]. cbn [sforall]. by rewrite Hc.
Qed.

Lemma sforall_trim f s : sforall f s = true -> sforall f (trim s) = true.
Proof.
  intros H. unfold trim, trim_end. rewrite sforall_srev. apply sforall_trim_start. rewrite sforall_srev.
  by apply sforall_trim_start.
Qed.

Lemma sforall_slice f n s : sforall f s = true -> sforall f (slice0 n s) = true.
Proof.
  unfold slice0. revert n. induction s as [|c s IH]; intros [|n]; simpl; try done.
  intros [Hc Hs]%andb_true_iff. by rewrite Hc, IH.
Qed.

Definition safe_char (c : ascii) : bool := negb (is_control c) && negb (is_separator c).

Lemma sanitized_chars nfkc name : sforall safe_char (sanitizeAttachmentFileName nfkc name) = true.
Proof.
  unfold sanitizeAttachmentFileName. cbv zeta. set (b := basename _). destruct (_ || _ || _); [done|].
  apply sforall_slice. unfold clean_name. apply sforall_trim, sforall_collapse; [done|].
  eapply sforall_smap; [|apply sfilter_all]. intros c Hc. unfold safe_char.
  destruct (is_separator c) eqn:E; [done|]. by rewrite E, Hc.
Qed.

Lemma sanitized_length nfkc name :
  (0 < slen (sanitizeAttachmentFileName nfkc name) <= 120)%nat.
Proof.
  unfold sanitizeAttachmentFileName. cbv zeta. set (c := clean_name _ _).
  destruct ((c === "") || (c === ".") || (c === "..")) eqn:E; [unfold slen; simpl; lia|].
  rewrite slice0_le. str_cases. destruct c as [|x c]; [done|]. unfold slen. cbn [String.length]. lia.
Qed.

(** A stored name is one segment. *)
Lemma stored_segment nfkc dir u :
  sforall (fun c => negb (Ascii.eqb c "/"%char)) (u_uuid u) = true -> isAbsolute dir = true ->
  segs dir (storedName nfkc u) = segs dir dir ++ [storedName nfkc u].
Proof.
  intros Hu Hd.
  assert (sforall (fun c => negb (Ascii.eqb c "/"%char)) (storedName nfkc u) = true) as Hs.
  { unfold storedName, upload_id. rewrite !sforall_sapp, Hu. cbn [sforall andb negb].
    apply (sforall_impl safe_char); [|apply sanitized_chars]. intros c. unfold safe_char, is_separator.
    destruct (Ascii.eqb c "/"); [by rewrite andb_false_r|done]. }
  unfold segs. rewrite Hd. change (isAbsolute (storedName nfkc u)) with false. cbv iota.
  change (dir ^^ "/" ^^ storedName nfkc u) with (dir ^^ String "/"%char (storedName nfkc u)).
  unfold segments. rewrite split_tail by done. apply normalize_snoc; done.
Qed.

(** ** Storing is confined, and all or nothing *)

Section storing.
Context (cwd : string) (nfkc : string -> string) (dir threadId : string).

Definition accepted (u : upload) (buffer : string) (a : StoredAttachment) : Prop :=
  prepare cwd nfkc dir threadId u = inl (buffer, a).

Lemma accepted_spec u buffer a :
  accepted u buffer a ->
  sa_absolutePath a = upload_path nfkc dir u /\ sa_size a = Z.of_nat (slen buffer) /\
  0 < sa_size a <= maxAttachmentBytes /\ decodeBase64 (a_dataBase64 (u_input u)) = inl buffer.
Proof.
  unfold accepted, prepare. destruct (decodeBase64 _) as [b|e] eqn:E; [|done]. cbv zeta.
  destruct (negb _); [done|]. destruct (Z.ltb_spec maxAttachmentBytes (Z.of_nat (slen b))); [done|].
  destruct (classifyAttachment _ _); [|done]. destruct (ensurePathInside _ _ _); [|done].
  intros [= <- <-]. cbn [sa_absolutePath sa_size]. split; [done|]. split; [done|]. split; [|done].
  split; [|lia]. unfold decodeBase64 in E. cbv zeta in E. destruct (_ || _ || _ || _); [done|].
  destruct (String.eqb_spec (decode64 (sfilter (fun c => negb (is_blank c))
    (if includes "," (a_dataBase64 (u_input u)) then after_comma (a_dataBase64 (u_input u))
     else a_dataBase64 (u_input u)))) "") as [|Hn]; [done|].
  injection E as <-. destruct (decode64 _); [done|]. unfold slen. cbn [String.length]. lia.
Qed.

(** The loop writes a prefix of the uploads, and stops at the first that
    fails; besides them only a partial write of that one is left. *)
Lemma store_loop_spec l files st r stored files' :
  store_loop cwd nfkc dir threadId l files st = (r, stored, files') ->
  exists new, stored = st ++ new /\
    Forall2 (fun u a => exists buffer, accepted u buffer a) (take (length new) l) new /\
    (r = None -> length new = length l) /\
    forall p, (p ∉ sa_absolutePath <$> new) -> mget p files' = mget p files \/
      exists u partial, u ∈ l /\ u_write u = WriteFailed (Some partial) /\ p = upload_path nfkc dir u /\ r <> None.
Proof.
  revert files st. induction l as [|u l IH]; intros files st; cbn [store_loop].
  { intros [= <- <- <-]. exists []. rewrite app_nil_r. split_and!; [done|constructor|done|by left]. }
  destruct (prepare cwd nfkc dir threadId u) as [[buffer a]|e] eqn:Ep.
  2: { intros [= <- <- <-]. exists []. rewrite app_nil_r. split_and!; [done|constructor|done|by left]. }
  pose proof (accepted_spec u buffer a Ep) as (Ea & _ & _ & _).
  destruct (u_write u) as [|[partial|]] eqn:Ew.
  - intros H. apply IH in H as (new & -> & Hf & Hn & Hp). exists (a :: new).
    split; [by rewrite <- app_assoc|]. split; [constructor; [by eexists|done]|].
    split; [intros Hr; simpl; by rewrite Hn|].
    intros p Hin. apply not_elem_of_cons in Hin as [Hpa Hin].
    destruct (Hp p Hin) as [E|(u' & part & Hu & Hw & -> & Hr)].
    + left. rewrite E. by apply mget_mset_ne.
    + right. exists u', part. split_and!; [by right|done..].
  - intros [= <- <- <-]. exists []. rewrite app_nil_r. split_and!; [done|constructor|done|].
    intros p _. destruct (decide (p = sa_absolutePath a)) as [->|Hn].
    + right. exists u, partial. split_and!; [by left|done..].
    + left. by apply mget_mset_ne.
  - intros [= <- <- <-]. exists []. rewrite app_nil_r. split_and!; [done|constructor|done|by left].
Qed.

(** The stored files are found under the paths they were announced with. *)
Lemma store_loop_contents l files st stored files' :
  NoDup (map (upload_path nfkc dir) l) ->
  store_loop cwd nfkc dir threadId l files st = (None, stored, files') ->
  forall u, u ∈ l -> exists buffer a, accepted u buffer a /\ mget (upload_path nfkc dir u) files' = Some buffer.
Proof.
  revert files st. induction l as [|u l IH]; intros files st Hn; cbn [store_loop]; [by intros ? ? ?%elem_of_nil|].
  destruct (prepare cwd nfkc dir threadId u) as [[buffer a]|e] eqn:Ep; [|done].
  pose proof (accepted_spec u buffer a Ep) as (Ea & _ & _ & _).
  destruct (u_write u) as [|[partial|]]; [|done..]. intros H u' Hu'.
  apply NoDup_cons in Hn as [Hnew Hn]. apply elem_of_cons in Hu' as [->|Hu']; [|by eapply IH].
  exists buffer, a. split; [done|]. pose proof (store_loop_spec _ _ _ _ _ _ H) as (new & _ & Hf & _ & Hp).
  assert (upload_path nfkc dir u ∉ sa_absolutePath <$> new) as Hin.
  { intros (a' & Hp' & Ha')%list_elem_of_fmap. apply Hnew.
    apply list_elem_of_lookup in Ha' as [i Hi].
    destruct (Forall2_lookup_r _ _ _ _ _ Hf Hi) as (u1 & Hu1 & b1 & Hb1).
    apply accepted_spec in Hb1 as (E1 & _). rewrite Hp', E1.
    apply list_elem_of_fmap. exists u1. split; [done|]. apply list_elem_of_lookup_2 in Hu1.
    by eapply elem_of_submseteq, sublist_submseteq, sublist_take. }
  destruct (Hp _ Hin) as [->|(? & ? & _ & _ & _ & ?)]; [|done]. rewrite <- Ea. apply mget_mset_eq.
Qed.
End storing.

Lemma remove_all (rm_ok : string -> bool) (stored : list StoredAttachment) (files : jmap string string) p :
  NoDup files.*1 ->
  mget p (foldl (fun files a => if rm_ok (sa_absolutePath a) then mdelete (sa_absolutePath a) files else files)
            files stored)
  = if bool_decide (p ∈ sa_absolutePath <$> stored) && rm_ok p then None else mget p files.
Proof.
  revert files. induction stored as [|a stored IH]; intros files Hn; [done|].
  cbn [foldl]. rewrite IH by (destruct (rm_ok (sa_absolutePath a)); [by apply mdelete_NoDup|done]). csimpl.
  destruct (decide (p = sa_absolutePath a)) as [->|Hp].
  - rewrite (bool_decide_true (_ ∈ _ :: _)) by (by left).
    destruct (rm_ok (sa_absolutePath a)); [|by rewrite !andb_false_r].
    rewrite mget_mdelete_eq. by destruct (bool_decide _).
  - assert (mget p (if rm_ok (sa_absolutePath a) then mdelete (sa_absolutePath a) files else files) = mget p files)
      as -> by (destruct (rm_ok (sa_absolutePath a)); [by apply mget_mdelete_ne|done]).
    destruct (decide (p ∈ sa_absolutePath <$> stored)) as [H|H].
    + by rewrite !bool_decide_true by (done || by right).
    + rewrite !bool_decide_false; [done|by apply not_elem_of_cons|done].
Qed.

Lemma store_loop_NoDup cwd nfkc dir threadId l files st :
  NoDup files.*1 -> NoDup (store_loop cwd nfkc dir threadId l files st).2.*1.
Proof.
  revert files st. induction l as [|u l IH]; intros files st H; cbn [store_loop]; [done|].
  destruct (prepare _ _ _ _ u) as [[b a]|e]; [|done].
  destruct (u_write u) as [|[partial|]]; [|by apply mset_NoDup|done]. by apply IH, mset_NoDup.
Qed.

(** The paths of stored attachments are upload paths, in order. *)
Lemma stored_paths cwd nfkc dir threadId l new :
  Forall2 (fun u a => exists buffer, accepted cwd nfkc dir threadId u buffer a) l new ->
  sa_absolutePath <$> new = map (upload_path nfkc dir) l.
Proof.
  induction 1 as [|u a l new (b & Hb) _ IH]; [done|]. apply accepted_spec in Hb as (E & _).
  csimpl. by rewrite IH, E.
Qed.

(** C28: uploads are confined and all or nothing, whichever writes and removals
    fail. Every upload path is a file directly in the attachment directory, and
    no file at another path is created, changed or removed. On success there
    are as many stored attachments as uploads, at most eight, announced under
    their upload paths, in a directory inside the workspace, each of at most
    15 MiB with the decoded bytes as its contents. On failure no upload path
    holds a file, unless its own write failed part-way or the removal of the
    stored file failed, which the code ignores. *)
Theorem uploads_confined_atomic cwd nfkc root dir rm_ok threadId l files :
  isAbsolute dir = true -> NoDup files.*1 ->
  Forall (fun u => sforall (fun c => negb (Ascii.eqb c "/"%char)) (u_uuid u) = true) l ->
  NoDup (map (upload_path nfkc dir) l) ->
  (forall u, u ∈ l -> mget (upload_path nfkc dir u) files = None) ->
  let '(result, files') := storeAttachments cwd nfkc (Some root) (Some dir) rm_ok threadId l files in
  (forall u, u ∈ l -> segs dir (upload_path nfkc dir u) = segs dir dir ++ [storedName nfkc u]) /\
  (forall p, (p ∉ map (upload_path nfkc dir) l) -> mget p files' = mget p files) /\
  match result with
  | inl stored =>
      map sa_absolutePath stored = map (upload_path nfkc dir) l /\
      (length l <= maxAttachmentsPerTurn)%nat /\
      (l <> [] -> ensurePathInside cwd root dir = true) /\
      forall u, u ∈ l -> exists buffer,
        decodeBase64 (a_dataBase64 (u_input u)) = inl buffer /\ Z.of_nat (slen buffer) <= maxAttachmentBytes /\
        mget (upload_path nfkc dir u) files' = Some buffer
  | inr _ =>
      forall u, u ∈ l -> mget (upload_path nfkc dir u) files' = None \/
        rm_ok (upload_path nfkc dir u) = false \/
        exists u' partial, u' ∈ l /\ u_write u' = WriteFailed (Some partial) /\
          upload_path nfkc dir u' = upload_path nfkc dir u
  end.
Proof.
  intros Hd Hf Hu Hn Hfresh.
  assert (forall u, u ∈ l -> segs dir (upload_path nfkc dir u) = segs dir dir ++ [storedName nfkc u]) as Hseg.
  { intros u Hul. unfold upload_path. rewrite segs_resolve. apply stored_segment; [|done].
    by apply (proj1 (Forall_forall _ _) Hu). }
  unfold storeAttachments.
  destruct (Nat.ltb_spec maxAttachmentsPerTurn (length l)); [by split_and!; auto|].
  destruct (Nat.eqb_spec (length l) 0) as [E0|E0].
  { destruct l; [|done]. split_and!; [done..|]. by intros u ?%elem_of_nil. }
  destruct (ensurePathInside cwd root dir) eqn:Ei; [|by split_and!; auto]. cbn [negb].
  pose proof (store_loop_NoDup cwd nfkc dir threadId l files [] Hf) as Hnd.
  destruct (store_loop cwd nfkc dir threadId l files []) as [[[e|] stored] files'] eqn:El; cbn [snd] in Hnd;
    pose proof (store_loop_spec _ _ _ _ _ _ _ _ _ _ El) as (new & -> & Hnew & Hlen & Hp); cbn [app];
    pose proof (stored_paths _ _ _ _ _ _ Hnew) as Hpaths.
  - assert (forall p, (p ∉ map (upload_path nfkc dir) l) -> mget p files' = mget p files) as Hother.
    { intros p Hnl. destruct (Hp p) as [|(u & partial & Hul & _ & -> & _)]; [|done|].
      - rewrite Hpaths. intros (u & -> & Hi)%list_elem_of_fmap. apply Hnl, list_elem_of_fmap. exists u.
        split; [done|]. by eapply elem_of_submseteq, sublist_submseteq, sublist_take.
      - exfalso. apply Hnl, list_elem_of_fmap. by exists u. }
    split; [done|]. split.
    + intros p Hnl. rewrite remove_all by done. rewrite bool_decide_false; [by apply Hother|].
      rewrite Hpaths. intros (u & -> & Hi)%list_elem_of_fmap. apply Hnl, list_elem_of_fmap. exists u.
      split; [done|]. by eapply elem_of_submseteq, sublist_submseteq, sublist_take.
    + intros u Hul. rewrite remove_all by done. case_bool_decide as Hin; cbn [andb].
      * destruct (rm_ok _) eqn:Er; [by left|by right; left].
      * destruct (Hp _ Hin) as [->|(u' & partial & ? & ? & ? & _)]; [left; by apply Hfresh|].
        right; right. by exists u', partial.
  - specialize (Hlen eq_refl). rewrite Hlen in Hpaths. rewrite firstn_all in Hpaths.
    split; [done|]. split.
    + intros p Hnl. destruct (Hp p) as [|(? & ? & _ & _ & _ & ?)]; [by rewrite Hpaths|done|done].
    + split; [done|]. split; [done|]. split; [done|]. intros u Hul.
      destruct (store_loop_contents _ _ _ _ _ _ _ _ _ Hn El u Hul) as (b & a & Ha & Hm).
      apply accepted_spec in Ha as (_ & Es & Hs & Hb). exists b. split_and!; [done|lia|done].
Qed.

(** One upload of three bytes. *)
Definition demo_upload : upload :=
  {| u_input := {| a_name := "../a/b.txt"; a_mimeType := None; a_size := None; a_dataBase64 := "AQID" |};
     u_uuid := "0f"; u_write := Written |}.

(** A second one, whose write fails after a byte. *)
Definition demo_failing : upload :=
  {| u_input := {| a_name := "c.txt"; a_mimeType := None; a_size := None; a_dataBase64 := "AQID" |};
     u_uuid := "1f"; u_write := WriteFailed (Some "A") |}.

Lemma uploads_confined_atomic_witness :
  exists files, storeAttachments "/" (fun s => s) (Some "/work") (Some "/work/.acode/attachments/t") (fun _ => false)
    "t" [demo_upload] [] = (inl files.1, files.2) /\
  map sa_absolutePath files.1 = ["/work/.acode/attachments/t/att_0f-b.txt"] /\
  mget "/work/.acode/attachments/t/att_0f-b.txt" files.2 = Some (decode64 "AQID") /\
  mget "/work/b.txt" files.2 = None.
Proof.
  pose proof (uploads_confined_atomic "/" (fun s => s) "/work" "/work/.acode/attachments/t" (fun _ => false) "t"
    [demo_upload] [] eq_refl (NoDup_nil_2)) as H.
  specialize (H ltac:(repeat constructor) ltac:(vm_compute; repeat constructor; set_solver) ltac:(done)).
  set (r := storeAttachments _ _ _ _ _ _ _ _) in *.
  assert (exists stored files, r = (inl stored, files)) as (stored & files & E) by (eexists _, _; vm_compute; reflexivity).
  exists (stored, files). split; [exact E|]. rewrite E in H. destruct H as (_ & H0 & H1 & _ & _ & H2).
  split; [etrans; [exact H1|vm_compute; reflexivity]|]. destruct (H2 demo_upload ltac:(by left)) as (b & Eb & _ & Hm).
  vm_compute in Eb. injection Eb as <-. split; [exact Hm|].
  apply H0. apply (bool_decide_unpack _). vm_compute. exact I.
Defined.

(** The failing upload leaves its part, the stored one is removed unless the
    removal fails. *)
Example failed_upload_leaves :
  let outcome rm := (storeAttachments "/" (fun s => s) (Some "/work") (Some "/work/.acode/attachments/t") (fun _ => rm)
    "t" [demo_upload; demo_failing] []).2.*1 in
  outcome true = ["/work/.acode/attachments/t/att_1f-c.txt"] /\
  outcome false = ["/work/.acode/attachments/t/att_0f-b.txt"; "/work/.acode/attachments/t/att_1f-c.txt"].
Proof. vm_compute. auto. Qed.
