(* ===== verification/Relay.v ===== *)
(** * The cloud relay: session sync and request proxy

    server/src/relaySessionSync.ts (what the gateway tells the cloud about its
    sessions) and server/src/relayProxy.ts (requests the cloud forwards to the
    local gateway). HTTP calls are answered by an argument; the [Headers] class
    is a pair of functions, [headers_of] (its constructor) and [header_value]
    (the check its [set] makes), with the lower-casing of names it documents as
    a hypothesis. *)

From Stdlib Require Import Ascii.
From S2P Require Import Prelude JsValue JsDate Json GatewayStore Sessions Base64.

Local Open Scope Z_scope.

(** ** Session sync *)

Record SessionSyncMetadata := {
  y_id : string; y_title : string; y_workspacePath : string; y_status : string;
  y_updatedAt : string; y_sessionPolicyMode : SessionPolicyMode
}.

Record SessionSyncPayload := {
  y_requestId : string; y_sessions : list SessionSyncMetadata; y_cursors : jmap string Z
}.

(** What [fetch] and [response.json()] give: no response, or a status and the
    parsed body, if it parses. *)
Inductive json_answer :=
| NetFailed (message : string)
| Answered (status : Z) (json : option val).

Definition extractResponseSessions (value : val) : option (list val) :=
  if is_object value then as_array (prop "sessions" value) else None.

Definition readResponseBody (json : option val) : val :=
  match json with
  | Some value => if is_object value then value else VObj []
  | None => VObj []
  end.

Definition stringOr (value : val) (fallback : string) : string := default fallback (as_str value).

Definition normalizeSession (value : val) : option SessionSyncMetadata :=
  if is_object value then
    let id := match prop "id" value with VStr s => trim s | _ => "" end in
    if id === "" then None
    else Some {|
      y_id := id;
      y_title := stringOr (prop "title" value) "Codex 会话";
      y_workspacePath := stringOr (prop "workspacePath" value) "";
      y_status := stringOr (prop "status" value) "completed";
      y_updatedAt := stringOr (nullish (prop "updatedAt" value) (prop "lastUpdatedAt" value)) (toISOString 0);
      y_sessionPolicyMode :=
        match prop "sessionPolicyMode" value with
        | VStr s => if s === "full-access" then full_access else confirm
        | _ => confirm
        end |}
  else None.

(** Assigning a number or a string to [__proto__] of an object has no effect. *)
Definition normalizeCursors (value : jmap string num) : jmap string Z :=
  foldl (fun result '(sessionId, cursor) =>
    match safe_integer (VNum cursor) with
    | Some z =>
        if (sessionId === "") || (z <? 0) || (sessionId === "__proto__") then result
        else mset sessionId z result
    | None => result
    end) [] value.

Definition by_id (source : list val) : jmap string SessionSyncMetadata :=
  foldl (fun byId value =>
    match normalizeSession value with
    | Some session => mset (y_id session) session byId
    | None => byId
    end) [] source.

Definition buildSessionSyncPayload (response : val) (fallback : list GatewaySession)
    (cursors : jmap string num) (requestId : string) : SessionSyncPayload :=
  let source := match extractResponseSessions response with
                | Some l => l
                | None => map session_val fallback
                end in
  {| y_requestId := requestId;
     y_sessions := (by_id source).*2;
     y_cursors := normalizeCursors cursors |}.

Definition http_ok (status : Z) : bool := (200 <=? status) && (status <=? 299).

Definition loadSessionSyncPayload (answer : json_answer) (fallback : list GatewaySession)
    (cursors : jmap string num) (requestId : string) : SessionSyncPayload * option string :=
  let '(response, listingError) :=
    match answer with
    | NetFailed message => (VUndef, Some message)
    | Answered status json =>
        let body := readResponseBody json in
        if http_ok status then (body, None)
        else
          let code := match prop "error" body with VStr e => ": " ^^ e | _ => "" end in
          (VUndef, Some ("local session listing failed (" ^^ zstr status ^^ ")" ^^ code))
    end in
  (buildSessionSyncPayload response fallback cursors requestId,
   if str_truthy listingError then listingError else None).

Definition metadata_val (m : SessionSyncMetadata) : val :=
  VObj [("id", VStr (y_id m)); ("title", VStr (y_title m)); ("workspacePath", VStr (y_workspacePath m));
        ("status", VStr (y_status m)); ("updatedAt", VStr (y_updatedAt m));
        ("sessionPolicyMode", VStr (mode_str (y_sessionPolicyMode m)))].

Definition payload_val (p : SessionSyncPayload) : val :=
  VObj [("type", VStr "session-sync"); ("requestId", VStr (y_requestId p));
        ("sessions", VArr (map metadata_val (y_sessions p)));
        ("cursors", VObj (map (fun e => (e.1, vint e.2)) (y_cursors p)))].

(** The texts handed to [send]; [isOpen] is asked after the listing. *)
Definition sendSessionSync (answer : json_answer) (fallback : list GatewaySession)
    (cursors : jmap string num) (requestId : string) (isOpen : bool)
    : list string * (SessionSyncPayload * option string) :=
  let result := loadSessionSyncPayload answer fallback cursors requestId in
  (if isOpen then [stringify (payload_val result.1)] else [], result).

(** ** Request proxy *)

Definition maxProxyBodyBytes : Z := 16 * 1024 * 1024.
Definition maxProxyBodyBase64Chars : Z := - ((- (maxProxyBodyBytes * 4)) / 3) + 512.

Record http_request := {
  q_url : string; q_method : string; q_headers : jmap string string; q_body : option string
}.

(** A response: status, header entries, and the chunks its body stream
    delivers before it ends or breaks; no body at all is [None]. *)
Inductive stream_end := StreamDone | StreamBroken (message : string).
Record http_response := {
  h_status : Z; h_headers : list (string * string); h_body : option (list string * stream_end)
}.

Fixpoint read_chunks (chunks : list string) (ending : stream_end) (limit total : Z) (acc : string)
    : string + string :=
  match chunks with
  | [] => match ending with StreamDone => inl acc | StreamBroken message => inr message end
  | value :: rest =>
      let total := total + Z.of_nat (slen value) in
      if limit <? total then inr "proxy_response_too_large"
      else read_chunks rest ending limit total (acc ^^ value)
  end.

Definition readBodyWithLimit (body : option (list string * stream_end)) (limit : Z) : string + string :=
  match body with
  | None => inl ""
  | Some (chunks, ending) => read_chunks chunks ending limit 0 ""
  end.

Definition filterResponseHeaders (headers : list (string * string)) : jmap string string :=
  foldl (fun result '(key, value) =>
    if bool_decide (to_lower key ∈ ["transfer-encoding"; "content-encoding"; "connection"])
       || (key === "__proto__") then result
    else mset key value result) [] headers.

Definition upper_char (c : ascii) : ascii :=
  if ((97 <=? code c) && (code c <=? 122))%nat then ascii_of_nat (code c - 32) else c.
Definition to_upper : string -> string := smap upper_char.

(** [Buffer.from(text)]: the UTF-8 bytes. *)
Fixpoint utf8 (s : string) : string :=
  match s with
  | "" => ""
  | String c s' =>
      if (code c <? 128)%nat then String c (utf8 s')
      else String (ascii_of_nat (192 + code c / 64)) (String (ascii_of_nat (128 + code c mod 64)) (utf8 s'))
  end.

Definition proxy_response (requestId : val) (status : Z) (headers : jmap string string) (body : string) : val :=
  VObj [("type", VStr "proxy-response"); ("requestId", requestId); ("status", vint status);
        ("headers", VObj (map (fun e => (e.1, VStr e.2)) headers));
        ("bodyBase64", VStr (encode64 body))].

Definition json_response (requestId : val) (status : Z) (error : string) : val :=
  proxy_response requestId status [("content-type", "application/json")]
    (utf8 (stringify (VObj [("error", VStr error)]))).

(** What a call does: the request it makes, if any, the objects it sends, and
    whether its promise is rejected. *)
Record proxy_run := { x_request : option http_request; x_sent : list val; x_rejected : bool }.

Section proxy.
Context (headers_of : val -> jmap string string + string).
Context (header_value : string -> bool).
Context (fetch : http_request -> http_response + string).
Context (localOrigin gatewayAuthToken : string).

Definition valid_proxy_message (message : val) : bool :=
  truthy message &&
  match prop "requestId" message, prop "path" message, prop "method" message with
  | VStr requestId, VStr path, VStr _ =>
      (slen requestId <=? 120)%nat && starts_with "/" path && (slen path <=? Z.to_nat 4096)%nat
  | _, _, _ => false
  end.

(** The headers and the body of the local request; [None] in the body's place
    means that the call ends with status 413. *)
Definition proxy_headers (message : val) : jmap string string + string :=
  match headers_of (nullish (prop "headers" message) (VObj [])) with
  | inr e => inr e
  | inl headers =>
      let value := "Bearer " ^^ gatewayAuthToken in
      if header_value value then inl (mset "authorization" value headers)
      else inr "Headers.set: invalid header value"
  end.

Definition proxy_body (message : val) : option (option string) + string :=
  match prop "bodyBase64" message with
  | VUndef => inl (Some None)
  | VStr b64 =>
      if b64 === "" then inl (Some None)
      else if (slen b64 mod 4 =? 1)%nat || negb (valid_base64 b64) then inr "invalid_proxy_body"
      else if maxProxyBodyBase64Chars <? Z.of_nat (slen b64) then inl None
      else
        let body := decode64 b64 in
        if maxProxyBodyBytes <? Z.of_nat (slen body) then inl None else inl (Some (Some body))
  | _ => inr "invalid_proxy_body"
  end.

Definition prop_str (key : string) (v : val) : string := default "" (as_str (prop key v)).

Definition proxyLocalRequest (message : val) : proxy_run :=
  let requestId := prop "requestId" message in
  let fail req error :=
    match message with
    | VUndef | VNull => {| x_request := req; x_sent := []; x_rejected := true |}
    | _ => {| x_request := req; x_sent := [json_response requestId 502 error]; x_rejected := false |}
    end in
  if negb (valid_proxy_message message) then fail None "invalid_proxy_request"
  else
    match proxy_headers message with
    | inr e => fail None e
    | inl headers =>
        match proxy_body message with
        | inr e => fail None e
        | inl None =>
            {| x_request := None; x_sent := [json_response requestId 413 "request_too_large"];
               x_rejected := false |}
        | inl (Some body) =>
            let method := prop_str "method" message in
            let req := {|
              q_url := localOrigin ^^ prop_str "path" message;
              q_method := method;
              q_headers := headers;
              q_body := if bool_decide (to_upper method ∈ ["GET"; "HEAD"]) then None else body |} in
            match fetch req with
            | inr e => fail (Some req) e
            | inl response =>
                match readBodyWithLimit (h_body response) maxProxyBodyBytes with
                | inr e => fail (Some req) e
                | inl buffer =>
                    {| x_request := Some req;
                       x_sent := [proxy_response requestId (h_status response)
                                    (filterResponseHeaders (h_headers response)) buffer];
                       x_rejected := false |}
                end
            end
        end
    end.
End proxy.

(** ** What the cloud learns *)

(** The properties of a session that leave the computer. *)
Definition exposed : list string :=
  ["id"; "title"; "workspacePath"; "status"; "updatedAt"; "lastUpdatedAt"; "sessionPolicyMode"].

Definition same_exposed (v v' : val) : Prop :=
  is_object v = is_object v' /\ forall key, key ∈ exposed -> prop key v = prop key v'.

Lemma normalize_same v v' : same_exposed v v' -> normalizeSession v = normalizeSession v'.
Proof.
  intros [Ho Hp]. unfold normalizeSession. rewrite Ho.
  rewrite !(Hp "id"), !(Hp "title"), !(Hp "workspacePath"), !(Hp "status"), !(Hp "updatedAt"),
    !(Hp "lastUpdatedAt"), !(Hp "sessionPolicyMode") by (unfold exposed; set_solver).
  done.
Qed.

Lemma by_id_same l l' : Forall2 same_exposed l l' -> by_id l = by_id l'.
Proof.
  unfold by_id. generalize (@nil (string * SessionSyncMetadata)) as acc. intros acc H. revert acc.
  induction H as [|v v' l l' Hv _ IH]; intros acc; simpl; [done|].
  by rewrite (normalize_same v v' Hv).
Qed.

Lemma normalizeSession_id v m :
  normalizeSession v = Some m -> exists s, prop "id" v = VStr s /\ y_id m = trim s /\ trim s <> "".
Proof.
  unfold normalizeSession. destruct (is_object v); [|done].
  destruct (prop "id" v) as [| | | |s| |]; try done.
  destruct (String.eqb_spec (trim s) ""); [done|]. intros [= <-]. eauto.
Qed.

(** The map built so far: keys are the ids of the values, and the value of a
    key is the last session with that id. *)
Lemma by_id_spec l :
  NoDup (by_id l).*1 /\
  (forall k m, mget k (by_id l) = Some m -> y_id m = k /\ k <> "" /\ exists v, v ∈ l /\ normalizeSession v = Some m) /\
  (forall k v m l1 l2, l = l1 ++ v :: l2 -> normalizeSession v = Some m -> y_id m = k ->
     (forall v' m', v' ∈ l2 -> normalizeSession v' = Some m' -> y_id m' <> k) ->
     mget k (by_id l) = Some m).
Proof.
  induction l as [|x l IH] using rev_ind; [split_and!; [constructor|done|by intros ? ? ? []]|].
  destruct IH as (Hn & Hs & Hl).
  assert (by_id (l ++ [x]) = match normalizeSession x with
      | Some session => mset (y_id session) session (by_id l) | None => by_id l end) as E
    by (unfold by_id; by rewrite foldl_app).
  rewrite E. split; [|split].
  - destruct (normalizeSession x); auto with js.
  - intros k m. destruct (normalizeSession x) as [mx|] eqn:Ex.
    + rewrite mget_mset. case_decide as D.
      * intros [= <-]. destruct (normalizeSession_id _ _ Ex) as (s & _ & Hid & Hne).
        split_and!; [done|congruence|]. exists x. split; [set_solver|done].
      * intros Hg. destruct (Hs _ _ Hg) as (? & ? & v & ? & ?).
        split_and!; [done|done|]. exists v. split; [set_solver|done].
    + intros Hg. destruct (Hs _ _ Hg) as (? & ? & v & ? & ?).
      split_and!; [done|done|]. exists v. split; [set_solver|done].
  - intros k v m l1 l2 Hsplit Hv Hk Hlast.
    destruct l2 as [|y l2 _] using rev_ind.
    + apply app_inj_tail in Hsplit as [-> ->]. rewrite Hv, Hk. apply mget_mset_eq.
    + rewrite app_comm_cons, app_assoc in Hsplit. apply app_inj_tail in Hsplit as [-> ->].
      assert (mget k (by_id (l1 ++ v :: l2)) = Some m) as Hg.
      { eapply Hl; [done..|]. intros v' m' Hin. apply Hlast. set_solver. }
      destruct (normalizeSession y) as [my|] eqn:Ey; [|done].
      rewrite mget_mset_ne; [done|]. eapply Hlast; [|done]. set_solver.
Qed.

Lemma by_id_NoDup l : NoDup (map y_id (by_id l).*2) /\ (by_id l).*1 = map y_id (by_id l).*2.
Proof.
  destruct (by_id_spec l) as (Hn & Hs & _).
  assert ((by_id l).*1 = map y_id (by_id l).*2) as E.
  { rewrite <- list_fmap_compose. apply list_fmap_ext. intros i [k m] Hi. simpl.
    symmetry. apply Hs. apply elem_mget; [done|]. eapply list_elem_of_lookup_2, Hi. }
  by rewrite <- E.
Qed.

Lemma cursors_spec l k z :
  mget k (normalizeCursors l) = Some z ->
  (k, NInt z) ∈ l /\ k <> "" /\ 0 <= z <= max_safe_integer.
Proof.
  induction l as [|[k' c] l IH] using rev_ind; [done|].
  unfold normalizeCursors in *. rewrite foldl_app. simpl.
  destruct c as [x|f r| |b]; simpl; try (intros H; apply IH in H; set_solver).
  unfold is_safe_integer. destruct (Z.leb_spec (Z.abs x) max_safe_integer); [|intros Hg; apply IH in Hg; set_solver].
  destruct (String.eqb_spec k' ""); simpl; [intros Hg; apply IH in Hg; set_solver|].
  destruct (Z.ltb_spec x 0); simpl; [intros Hg; apply IH in Hg; set_solver|].
  destruct (k' === "__proto__"); simpl; [intros Hg; apply IH in Hg; set_solver|].
  rewrite mget_mset. case_decide; [|intros Hg; apply IH in Hg; set_solver].
  intros [= ->]. subst. split; [set_solver|]. split; [done|lia].
Qed.

(** A listing that is served is the only source of what is sent. *)
Lemma load_listing status body l fallback cursors requestId :
  http_ok status = true -> is_object body = true -> prop "sessions" body = VArr l ->
  loadSessionSyncPayload (Answered status (Some body)) fallback cursors requestId =
    ({| y_requestId := requestId; y_sessions := (by_id l).*2; y_cursors := normalizeCursors cursors |}, None).
Proof.
  intros Hok Ho Hl. unfold loadSessionSyncPayload, readResponseBody. rewrite Ho, Hok.
  unfold buildSessionSyncPayload, extractResponseSessions. by rewrite Ho, Hl.
Qed.

Lemma load_source answer fallback cursors requestId :
  exists l, y_sessions (loadSessionSyncPayload answer fallback cursors requestId).1 = (by_id l).*2.
Proof. unfold loadSessionSyncPayload. case_match. eexists. reflexivity. Qed.

(** session sync. The text sent to the cloud is determined by the seven
    exposed properties of the listed sessions: prompts, commands, arguments and
    request ids cannot influence it. A served listing, an empty one included, is
    authoritative and the stored sessions are not consulted; each of its
    sessions with a non-blank id is in the payload, the last one winning when an
    id repeats. A listing that fails is reported and replaced by the stored
    sessions. In every case the ids sent are distinct and non-empty and the
    cursors are those of the store that are safe non-negative integers; nothing
    is sent on a socket that is no longer open. *)
Theorem session_sync_minimal fallback cursors requestId :
  (forall status body body' l l' fallback',
     http_ok status = true -> is_object body = true -> is_object body' = true ->
     prop "sessions" body = VArr l -> prop "sessions" body' = VArr l' -> Forall2 same_exposed l l' ->
     sendSessionSync (Answered status (Some body)) fallback cursors requestId true =
     sendSessionSync (Answered status (Some body')) fallback' cursors requestId true) /\
  (forall status body l l1 v l2 m,
     http_ok status = true -> is_object body = true -> prop "sessions" body = VArr l ->
     l = l1 ++ v :: l2 -> normalizeSession v = Some m ->
     (forall v' m', v' ∈ l2 -> normalizeSession v' = Some m' -> y_id m' <> y_id m) ->
     m ∈ y_sessions (loadSessionSyncPayload (Answered status (Some body)) fallback cursors requestId).1) /\
  (forall message, message <> "" ->
     loadSessionSyncPayload (NetFailed message) fallback cursors requestId =
       ({| y_requestId := requestId; y_sessions := (by_id (map session_val fallback)).*2;
           y_cursors := normalizeCursors cursors |}, Some message)) /\
  (forall answer, let p := (loadSessionSyncPayload answer fallback cursors requestId).1 in
     NoDup (map y_id (y_sessions p)) /\ (forall m, m ∈ y_sessions p -> y_id m <> "") /\
     (forall k z, mget k (y_cursors p) = Some z -> (k, NInt z) ∈ cursors /\ 0 <= z <= max_safe_integer) /\
     (sendSessionSync answer fallback cursors requestId false).1 = []).
Proof.
  split; [|split; [|split]].
  - intros status body body' l l' fallback' Hok Ho Ho' Hl Hl' Hsame. unfold sendSessionSync.
    rewrite (load_listing _ _ l), (load_listing _ _ l') by done. by rewrite (by_id_same _ _ Hsame).
  - intros status body l l1 v l2 m Hok Ho Hl Hsplit Hm Hlast. rewrite (load_listing _ _ l) by done. simpl.
    destruct (by_id_spec l) as (_ & _ & H). specialize (H _ _ _ _ _ Hsplit Hm eq_refl Hlast).
    apply mget_Some_elem in H. apply list_elem_of_fmap. by eexists (_, m).
  - intros message Hne. unfold loadSessionSyncPayload, str_truthy. simpl.
    by destruct (String.eqb_spec message "").
  - intros answer p. destruct (load_source answer fallback cursors requestId) as [l Hl].
    unfold p. rewrite Hl. split; [apply by_id_NoDup|]. split; [|split; [|done]].
    + intros m Hm. destruct (by_id_NoDup l) as [_ E]. destruct (by_id_spec l) as (Hn & Hs & _).
      apply list_elem_of_fmap in Hm as ([k m'] & -> & Hin). simpl.
      destruct (Hs k m') as (-> & ? & _); [by apply elem_mget|done].
    + intros k z. replace (y_cursors _) with (normalizeCursors cursors)
        by (unfold loadSessionSyncPayload; by case_match).
      intros H%cursors_spec. tauto.
Qed.

Definition demo_listed (prompt : string) : val :=
  VObj [("id", VStr " t1 "); ("title", VStr "Fix"); ("prompt", VStr prompt);
        ("sessionPolicyMode", VStr "full-access")].

Lemma session_sync_minimal_witness :
  let body p := VObj [("sessions", VArr [demo_listed p])] in
  sendSessionSync (Answered 200 (Some (body "secret"))) [] [("t1", NInt 7)] "r" true =
  sendSessionSync (Answered 200 (Some (body "other"))) [] [("t1", NInt 7)] "r" true /\
  map y_id (y_sessions (loadSessionSyncPayload (Answered 200 (Some (body "secret"))) [] [] "r").1) = ["t1"].
Proof.
  intros body. split; [|vm_compute; reflexivity].
  destruct (session_sync_minimal [] [("t1", NInt 7)] "r") as (H & _).
  eapply (H 200 (body "secret") (body "other") [demo_listed "secret"] [demo_listed "other"] []);
    [reflexivity..|].
  repeat constructor. intros key Hk. unfold exposed in Hk.
  repeat (apply elem_of_cons in Hk as [->|Hk]; [reflexivity|]). by apply elem_of_nil in Hk.
Defined.

(** ** What the proxy may do *)

Lemma read_chunks_spec chunks ending limit total acc buffer :
  read_chunks chunks ending limit total acc = inl buffer ->
  total = Z.of_nat (slen acc) -> total <= limit ->
  buffer = acc ^^ foldr sapp "" chunks /\ ending = StreamDone /\ Z.of_nat (slen buffer) <= limit.
Proof.
  revert total acc. induction chunks as [|c chunks IH]; intros total acc; simpl.
  - destruct ending; [|done]. intros [= <-] -> ?. by rewrite sapp_nil_r.
  - destruct (Z.ltb_spec limit (total + Z.of_nat (slen c))); [done|].
    intros Hr -> ?. apply IH in Hr as (-> & -> & Hle); [|rewrite slen_sapp; lia|lia].
    rewrite sapp_assoc in *. done.
Qed.

Lemma read_body_spec body buffer limit :
  0 <= limit -> readBodyWithLimit body limit = inl buffer ->
  Z.of_nat (slen buffer) <= limit /\
  buffer = match body with Some (chunks, _) => foldr sapp "" chunks | None => "" end.
Proof.
  intros ?. unfold readBodyWithLimit. destruct body as [[chunks ending]|].
  - intros Hr%read_chunks_spec; [|done..]. simpl in Hr. tauto.
  - intros [= <-]. simpl. split; [lia|done].
Qed.

Lemma filtered_headers l k :
  mhas k (filterResponseHeaders l) = true ->
  to_lower k ∉ ["transfer-encoding"; "content-encoding"; "connection"].
Proof.
  induction l as [|[key value] l IH] using rev_ind; [done|].
  unfold filterResponseHeaders in *. rewrite foldl_app. simpl.
  case_bool_decide as D; simpl; [done|]. destruct (key === "__proto__"); [done|].
  unfold mhas in *. rewrite mget_mset. case_decide; [by subst|done].
Qed.

Lemma valid_message_spec message :
  valid_proxy_message message = true ->
  exists rid path method,
    prop "requestId" message = VStr rid /\ prop "path" message = VStr path /\
    prop "method" message = VStr method /\ starts_with "/" path = true /\ (slen path <= 4096)%nat.
Proof.
  unfold valid_proxy_message. rewrite andb_true_iff. intros [_ H].
  destruct (prop "requestId" message) as [| | | |rid| |]; try done.
  destruct (prop "path" message) as [| | | |path| |]; try done.
  destruct (prop "method" message) as [| | | |method| |]; try done.
  apply andb_true_iff in H as [H Hl]. apply andb_true_iff in H as [_ Hs]. apply Nat.leb_le in Hl.
  exists rid, path, method. by split_and!.
Qed.

Lemma proxy_body_spec message b :
  proxy_body message = inl (Some (Some b)) ->
  Z.of_nat (slen b) <= maxProxyBodyBytes /\
  exists b64, prop "bodyBase64" message = VStr b64 /\ b = decode64 b64 /\ valid_base64 b64 = true.
Proof.
  unfold proxy_body. destruct (prop "bodyBase64" message) as [| | | |b64| |]; try done.
  destruct (b64 === ""); [done|]. destruct (_ =? 1)%nat; [done|].
  destruct (valid_base64 b64) eqn:V; [|done]. simpl. destruct (_ <? _); [done|].
  destruct (Z.ltb_spec maxProxyBodyBytes (Z.of_nat (slen (decode64 b64)))); [done|].
  intros [= <-]. split; [done|]. by exists b64.
Qed.

(** The local request of a message. *)
Definition local_request (localOrigin : string) (message : val) (headers : jmap string string)
    (body : option string) : http_request := {|
  q_url := localOrigin ^^ prop_str "path" message;
  q_method := prop_str "method" message;
  q_headers := headers;
  q_body := if bool_decide (to_upper (prop_str "method" message) ∈ ["GET"; "HEAD"]) then None else body |}.

(** What is sent once the local gateway has answered. *)
Definition relayed (requestId : val) (answer : http_response + string) : val :=
  match answer with
  | inr e => json_response requestId 502 e
  | inl response =>
      match readBodyWithLimit (h_body response) maxProxyBodyBytes with
      | inr e => json_response requestId 502 e
      | inl buffer =>
          proxy_response requestId (h_status response) (filterResponseHeaders (h_headers response)) buffer
      end
  end.

Section proxy_proofs.
Context (headers_of : val -> jmap string string + string) (header_value : string -> bool).
Context (fetch : http_request -> http_response + string) (localOrigin gatewayAuthToken : string).

#[local] Abbreviation run message :=
  (proxyLocalRequest headers_of header_value fetch localOrigin gatewayAuthToken message).

Lemma proxy_run_cases message :
  is_object message = true ->
  (exists status e, run message =
     {| x_request := None; x_sent := [json_response (prop "requestId" message) status e];
        x_rejected := false |}) \/
  (exists headers body,
     valid_proxy_message message = true /\
     proxy_headers headers_of header_value gatewayAuthToken message = inl headers /\
     proxy_body message = inl (Some body) /\
     let req := local_request localOrigin message headers body in
     run message = {| x_request := Some req; x_sent := [relayed (prop "requestId" message) (fetch req)];
                      x_rejected := false |}).
Proof.
  intros Hobj. unfold proxyLocalRequest. cbv zeta.
  assert (forall (a b : proxy_run), match message with VUndef | VNull => a | _ => b end = b) as Hcatch
    by (by destruct message).
  destruct (valid_proxy_message message); simpl; [|rewrite Hcatch; eauto].
  destruct (proxy_headers _ _ _ message) as [headers|e]; [|rewrite Hcatch; eauto].
  destruct (proxy_body message) as [[body|]|e]; [|eauto|rewrite Hcatch; eauto].
  right. exists headers, body. split_and!; [done..|].
  fold (local_request localOrigin message headers body). unfold relayed.
  destruct (fetch _) as [response|e]; [|by rewrite Hcatch].
  destruct (readBodyWithLimit _ _); [done|by rewrite Hcatch].
Qed.

Lemma proxy_headers_spec message headers :
  (forall v h, headers_of v = inl h -> Forall (fun k => to_lower k = k) h.*1) ->
  (forall v h, headers_of v = inl h -> NoDup h.*1) ->
  proxy_headers headers_of header_value gatewayAuthToken message = inl headers ->
  mget "authorization" headers = Some ("Bearer " ^^ gatewayAuthToken) /\
  forall k v, (k, v) ∈ headers -> to_lower k = "authorization" -> v = "Bearer " ^^ gatewayAuthToken.
Proof.
  intros Hlow Hdis. unfold proxy_headers.
  destruct (headers_of _) as [h|] eqn:Hh; [|done]. destruct (header_value _); [|done].
  intros [= <-]. split; [apply mget_mset_eq|]. intros k v Hin Hk.
  assert (NoDup (mset "authorization" ("Bearer " ^^ gatewayAuthToken) h).*1) as Hn by eauto with js.
  pose proof (elem_mget _ _ _ Hn Hin) as Hg. rewrite mget_mset in Hg.
  case_decide as D; [by injection Hg|].
  pose proof (Hlow _ _ Hh) as Hf. rewrite Forall_forall in Hf.
  destruct D. rewrite <- Hk. apply Hf. apply list_elem_of_fmap. exists (k, v).
  split; [done|by apply mget_Some_elem].
Qed.
End proxy_proofs.

(** C29: the proxy answers every request object exactly once, with its own
    request id, and never rejects. A request that reaches the local gateway
    stays on its origin, has a bounded path, carries the gateway's token and no
    other authorization, has a body of at most 16 MiB decoded from well-formed
    base64 and none for GET and HEAD. A response that is read completely is
    relayed with its status, without hop-by-hop headers, its bytes recoverable
    from the base64 text and at most 16 MiB; one that is too long, breaks off or
    fails is reported with status 502. *)
Theorem proxy_contract headers_of header_value fetch localOrigin gatewayAuthToken
    (headers_lower : forall v h, headers_of v = inl h -> Forall (fun k => to_lower k = k) h.*1)
    (headers_distinct : forall v h, headers_of v = inl h -> NoDup h.*1)
    message (Hobj : is_object message = true) :
  let run := proxyLocalRequest headers_of header_value fetch localOrigin gatewayAuthToken message in
  (x_rejected run = false /\
   exists status headers body,
     x_sent run = [proxy_response (prop "requestId" message) status headers body]) /\
  (forall req, x_request run = Some req ->
     (exists path, q_url req = localOrigin ^^ path /\ starts_with "/" path = true /\ (slen path <= 4096)%nat) /\
     (forall k v, (k, v) ∈ q_headers req -> to_lower k = "authorization" -> v = "Bearer " ^^ gatewayAuthToken) /\
     mget "authorization" (q_headers req) = Some ("Bearer " ^^ gatewayAuthToken) /\
     (forall b, q_body req = Some b ->
        Z.of_nat (slen b) <= maxProxyBodyBytes /\ (to_upper (q_method req) ∉ ["GET"; "HEAD"]) /\
        exists b64, prop "bodyBase64" message = VStr b64 /\ valid_base64 b64 = true /\ b = decode64 b64)) /\
  (forall req, x_request run = Some req ->
     match fetch req with
     | inr e => x_sent run = [json_response (prop "requestId" message) 502 e]
     | inl response =>
         match readBodyWithLimit (h_body response) maxProxyBodyBytes with
         | inr e => x_sent run = [json_response (prop "requestId" message) 502 e]
         | inl buffer =>
             x_sent run = [proxy_response (prop "requestId" message) (h_status response)
                             (filterResponseHeaders (h_headers response)) buffer] /\
             decode64 (encode64 buffer) = buffer /\ Z.of_nat (slen buffer) <= maxProxyBodyBytes /\
             buffer = match h_body response with Some (chunks, _) => foldr sapp "" chunks | None => "" end /\
             forall k, mhas k (filterResponseHeaders (h_headers response)) = true ->
               to_lower k ∉ ["transfer-encoding"; "content-encoding"; "connection"]
         end
     end).
Proof.
  intros run. unfold run.
  destruct (proxy_run_cases headers_of header_value fetch localOrigin gatewayAuthToken message Hobj)
    as [(status & e & ->) | (headers & body & V & Hh & Hb & ->)]; simpl.
  { split; [split; [done|]; by unfold json_response; eauto|]. split; by intros. }
  destruct (valid_message_spec _ V) as (rid & path & method & _ & Hp & Hm & Hslash & Hlen).
  split; [split; [done|]|split].
  - unfold relayed. repeat case_match; unfold json_response; eauto.
  - intros req [= <-]. split; [|split; [|split]].
    + exists path. simpl. unfold prop_str. by rewrite Hp.
    + by eapply proxy_headers_spec.
    + by eapply proxy_headers_spec.
    + simpl. case_bool_decide as D; [done|]. intros b ->.
      apply proxy_body_spec in Hb as (? & b64 & ? & ? & ?). split_and!; eauto.
  - intros req [= <-]. unfold relayed. destruct (fetch _) as [response|e]; [|done].
    destruct (readBodyWithLimit _ _) as [buffer|e] eqn:R; [|done].
    apply read_body_spec in R as [? ?]; [|done].
    split_and!; [done|apply decode_encode|done|done|apply filtered_headers].
Qed.

Definition demo_headers (v : val) : jmap string string + string :=
  match v with
  | VObj fs => inl (foldl (fun h '(k, x) => mset (to_lower k) (default "" (as_str x)) h) [] fs)
  | _ => inr "invalid headers"
  end.

Lemma to_lower_idem s : to_lower (to_lower s) = to_lower s.
Proof.
  unfold to_lower. induction s as [|c s IH]; simpl; [done|]. rewrite IH. f_equal.
  by destruct c as [[] [] [] [] [] [] [] []].
Qed.

Lemma demo_headers_ok v h :
  demo_headers v = inl h -> Forall (fun k => to_lower k = k) h.*1 /\ NoDup h.*1.
Proof.
  destruct v as [| | | | | |fs]; try done. intros [= <-].
  induction fs as [|[k x] fs IH] using rev_ind; [split; constructor|].
  rewrite foldl_app. simpl. destruct IH as [Hf Hn]. split; [|auto with js].
  rewrite mset_keys. destruct (mhas _ _); [done|].
  apply Forall_app. split; [done|]. constructor; [apply to_lower_idem|done].
Qed.

Definition demo_proxied : val :=
  VObj [("type", VStr "proxy-request"); ("requestId", VStr "p1"); ("method", VStr "POST");
        ("path", VStr "/sessions"); ("headers", VObj [("Authorization", VStr "Bearer forged")]);
        ("bodyBase64", VStr "e30=")].

Definition demo_fetch (q : http_request) : http_response + string :=
  inl {| h_status := 200; h_headers := [("connection", "close"); ("x-a", "b")];
         h_body := Some (["ok"], StreamDone) |}.

Lemma proxy_contract_witness :
  let run := proxyLocalRequest demo_headers (fun _ => true) demo_fetch "http://127.0.0.1:8787" "t" demo_proxied in
  (exists req, x_request run = Some req /\ mget "authorization" (q_headers req) = Some "Bearer t" /\
     q_body req = Some "{}") /\
  x_sent run = [proxy_response (VStr "p1") 200 [("x-a", "b")] "ok"].
Proof.
  intros run.
  pose proof (proxy_contract demo_headers (fun _ => true) demo_fetch "http://127.0.0.1:8787" "t"
    (fun v h H => proj1 (demo_headers_ok v h H)) (fun v h H => proj2 (demo_headers_ok v h H))
    demo_proxied eq_refl) as (_ & H & _).
  assert (is_Some (x_request run)) as [req Hr] by (vm_compute; eauto).
  destruct (H req Hr) as (_ & _ & Ha & _). split; [|vm_compute; reflexivity].
  exists req. split; [done|]. split; [exact Ha|]. vm_compute in Hr. by injection Hr as <-.
Defined.
