(* ===== verification/RelayClient.v ===== *)
(** * The relay client

    server/src/relayClient.ts, class [RelayClient]: the device's connection to
    the cloud relay as a state machine. Each [await] of the source ends a step;
    an event of the environment (a network answer, a socket event, a timer, a
    call from the gateway) starts the next one. A step is [None] when a handler
    throws where nothing catches it, which ends the process.

    Sockets are numbered in order of creation; their ready state, the answers
    of the network and of the disk are the environment's. *)

From S2P Require Import Prelude JsValue JsDate Json GatewayStore Base64 Relay.

Local Open Scope Z_scope.

(** ** Data *)

Record PersistedRelayIdentity := {
  d_deviceId : option string; d_deviceToken : option string; d_deviceSecret : option string
}.

Definition only_id (deviceId : option string) : PersistedRelayIdentity :=
  {| d_deviceId := deviceId; d_deviceToken := None; d_deviceSecret := None |}.

Record relay_config := {
  cfg_relayUrl : string; cfg_https : bool; cfg_production : bool;
  cfg_accountToken : string; cfg_accountUsername : string; cfg_accountPassword : string;
  cfg_serverToken : string; cfg_deviceName : string; cfg_publicOrigin : string;
  cfg_fallbackId : string; cfg_localOrigin : string; cfg_gatewayAuthToken : string
}.

Record RelayStatus := mkStatus {
  w_connected : bool; w_deviceId : option string; w_deviceName : option string;
  w_pairCode : option string; w_pairCodeExpiresAt : option string; w_lastError : option string
}.

Definition with_w_connected v (w : RelayStatus) : RelayStatus :=
  mkStatus v (w_deviceId w) (w_deviceName w) (w_pairCode w) (w_pairCodeExpiresAt w) (w_lastError w).
Definition with_w_deviceId v (w : RelayStatus) : RelayStatus :=
  mkStatus (w_connected w) v (w_deviceName w) (w_pairCode w) (w_pairCodeExpiresAt w) (w_lastError w).
Definition with_w_deviceName v (w : RelayStatus) : RelayStatus :=
  mkStatus (w_connected w) (w_deviceId w) v (w_pairCode w) (w_pairCodeExpiresAt w) (w_lastError w).
Definition with_w_pairCode v (w : RelayStatus) : RelayStatus :=
  mkStatus (w_connected w) (w_deviceId w) (w_deviceName w) v (w_pairCodeExpiresAt w) (w_lastError w).
Definition with_w_pairCodeExpiresAt v (w : RelayStatus) : RelayStatus :=
  mkStatus (w_connected w) (w_deviceId w) (w_deviceName w) (w_pairCode w) v (w_lastError w).
Definition with_w_lastError v (w : RelayStatus) : RelayStatus :=
  mkStatus (w_connected w) (w_deviceId w) (w_deviceName w) (w_pairCode w) (w_pairCodeExpiresAt w) v.

Inductive ready := CONNECTING | OPEN | CLOSING | CLOSED.
#[global] Instance ready_eq_dec : EqDecision ready.
Proof. solve_decision. Defined.

(** [k_relay]: opened to the relay rather than to the local gateway.
    [k_buffered] and [k_throws]: the [bufferedAmount] it reports and whether
    [send] would throw. *)
Record socket := mkSocket {
  k_relay : bool; k_state : ready; k_buffered : Z; k_throws : bool; k_sent : list val
}.
Definition with_k_state (v : ready) (k : socket) : socket :=
  mkSocket (k_relay k) v (k_buffered k) (k_throws k) (k_sent k).
Definition with_k_sent (v : list val) (k : socket) : socket :=
  mkSocket (k_relay k) (k_state k) (k_buffered k) (k_throws k) v.

(** The await an enrollment stands at; [rotate] is [allowDeviceRotation]. *)
Inductive enroll_stage :=
| LoginSent (rotate : bool)
| EnrollSent (rotate : bool).

(** The await [connectRelay] stands at: the enrollment, or a settled promise. *)
Inductive connect_stage :=
| AwaitEnrollment
| Credential (result : option string).

Record sync_input := { si_fallback : list GatewaySession; si_cursors : jmap string num; si_requestId : string }.
Record sync_task := { t_socket : nat; t_input : sync_input }.

Record PairCode := { pairCode : string; pairCodeExpiresAt : string }.

Inductive identity_file := NoFile | BadFile | JsonFile (v : val).
Inductive write_answer := WriteDone | WriteFails (message : string) (remains : identity_file).

(** The fields of the class, then the environment: sockets, the awaits in
    progress, callers waiting for a sync, proxied requests, timers of the local
    socket, a counter of promises, settled pairing promises, the identity file
    and how the disk answers, and the statuses emitted. *)
Record RelayClient := mkRelay {
  r_relaySocket : option nat;
  r_relayReadySocket : option nat;
  r_gatewayEventSocket : option nat;
  r_reconnectTimer : option Z;
  r_relayHeartbeatTimer : option nat;
  r_gatewayHeartbeatTimer : option nat;
  r_enrollmentPromise : option enroll_stage;
  r_pending : jmap string nat;
  r_identity : PersistedRelayIdentity;
  r_sessionSyncPromise : option nat;
  r_sessionSyncSocket : option nat;
  r_sessionSyncAgain : bool;
  r_started : bool;
  r_connecting : bool;
  r_revoked : bool;
  r_credentialRecoveryAttempted : bool;
  r_status : RelayStatus;
  r_sockets : list socket;
  r_connect : option connect_stage;
  r_syncs : jmap nat sync_task;
  r_waiters : list nat;
  r_proxies : list val;
  r_local_timers : nat;
  r_promises : nat;
  r_settled : list (nat * (PairCode + string));
  r_file : identity_file;
  r_disk : write_answer;
  r_emitted : list RelayStatus
}.

Definition with_r_relaySocket (v : option nat) (r : RelayClient) : RelayClient :=
  mkRelay v (r_relayReadySocket r) (r_gatewayEventSocket r) (r_reconnectTimer r)
    (r_relayHeartbeatTimer r) (r_gatewayHeartbeatTimer r) (r_enrollmentPromise r) (r_pending r)
    (r_identity r) (r_sessionSyncPromise r) (r_sessionSyncSocket r) (r_sessionSyncAgain r)
    (r_started r) (r_connecting r) (r_revoked r) (r_credentialRecoveryAttempted r) (r_status r)
    (r_sockets r) (r_connect r) (r_syncs r) (r_waiters r) (r_proxies r) (r_local_timers r)
    (r_promises r) (r_settled r) (r_file r) (r_disk r) (r_emitted r).
Definition with_r_relayReadySocket (v : option nat) (r : RelayClient) : RelayClient :=
  mkRelay (r_relaySocket r) v (r_gatewayEventSocket r) (r_reconnectTimer r) (r_relayHeartbeatTimer
    r) (r_gatewayHeartbeatTimer r) (r_enrollmentPromise r) (r_pending r) (r_identity r)
    (r_sessionSyncPromise r) (r_sessionSyncSocket r) (r_sessionSyncAgain r) (r_started r)
    (r_connecting r) (r_revoked r) (r_credentialRecoveryAttempted r) (r_status r) (r_sockets r)
    (r_connect r) (r_syncs r) (r_waiters r) (r_proxies r) (r_local_timers r) (r_promises r)
    (r_settled r) (r_file r) (r_disk r) (r_emitted r).
Definition with_r_gatewayEventSocket (v : option nat) (r : RelayClient) : RelayClient :=
  mkRelay (r_relaySocket r) (r_relayReadySocket r) v (r_reconnectTimer r) (r_relayHeartbeatTimer r)
    (r_gatewayHeartbeatTimer r) (r_enrollmentPromise r) (r_pending r) (r_identity r)
    (r_sessionSyncPromise r) (r_sessionSyncSocket r) (r_sessionSyncAgain r) (r_started r)
    (r_connecting r) (r_revoked r) (r_credentialRecoveryAttempted r) (r_status r) (r_sockets r)
    (r_connect r) (r_syncs r) (r_waiters r) (r_proxies r) (r_local_timers r) (r_promises r)
    (r_settled r) (r_file r) (r_disk r) (r_emitted r).
Definition with_r_reconnectTimer (v : option Z) (r : RelayClient) : RelayClient :=
  mkRelay (r_relaySocket r) (r_relayReadySocket r) (r_gatewayEventSocket r) v (r_relayHeartbeatTimer
    r) (r_gatewayHeartbeatTimer r) (r_enrollmentPromise r) (r_pending r) (r_identity r)
    (r_sessionSyncPromise r) (r_sessionSyncSocket r) (r_sessionSyncAgain r) (r_started r)
    (r_connecting r) (r_revoked r) (r_credentialRecoveryAttempted r) (r_status r) (r_sockets r)
    (r_connect r) (r_syncs r) (r_waiters r) (r_proxies r) (r_local_timers r) (r_promises r)
    (r_settled r) (r_file r) (r_disk r) (r_emitted r).
Definition with_r_relayHeartbeatTimer (v : option nat) (r : RelayClient) : RelayClient :=
  mkRelay (r_relaySocket r) (r_relayReadySocket r) (r_gatewayEventSocket r) (r_reconnectTimer r) v
    (r_gatewayHeartbeatTimer r) (r_enrollmentPromise r) (r_pending r) (r_identity r)
    (r_sessionSyncPromise r) (r_sessionSyncSocket r) (r_sessionSyncAgain r) (r_started r)
    (r_connecting r) (r_revoked r) (r_credentialRecoveryAttempted r) (r_status r) (r_sockets r)
    (r_connect r) (r_syncs r) (r_waiters r) (r_proxies r) (r_local_timers r) (r_promises r)
    (r_settled r) (r_file r) (r_disk r) (r_emitted r).
Definition with_r_gatewayHeartbeatTimer (v : option nat) (r : RelayClient) : RelayClient :=
  mkRelay (r_relaySocket r) (r_relayReadySocket r) (r_gatewayEventSocket r) (r_reconnectTimer r)
    (r_relayHeartbeatTimer r) v (r_enrollmentPromise r) (r_pending r) (r_identity r)
    (r_sessionSyncPromise r) (r_sessionSyncSocket r) (r_sessionSyncAgain r) (r_started r)
    (r_connecting r) (r_revoked r) (r_credentialRecoveryAttempted r) (r_status r) (r_sockets r)
    (r_connect r) (r_syncs r) (r_waiters r) (r_proxies r) (r_local_timers r) (r_promises r)
    (r_settled r) (r_file r) (r_disk r) (r_emitted r).
Definition with_r_enrollmentPromise (v : option enroll_stage) (r : RelayClient) : RelayClient :=
  mkRelay (r_relaySocket r) (r_relayReadySocket r) (r_gatewayEventSocket r) (r_reconnectTimer r)
    (r_relayHeartbeatTimer r) (r_gatewayHeartbeatTimer r) v (r_pending r) (r_identity r)
    (r_sessionSyncPromise r) (r_sessionSyncSocket r) (r_sessionSyncAgain r) (r_started r)
    (r_connecting r) (r_revoked r) (r_credentialRecoveryAttempted r) (r_status r) (r_sockets r)
    (r_connect r) (r_syncs r) (r_waiters r) (r_proxies r) (r_local_timers r) (r_promises r)
    (r_settled r) (r_file r) (r_disk r) (r_emitted r).
Definition with_r_pending (v : jmap string nat) (r : RelayClient) : RelayClient :=
  mkRelay (r_relaySocket r) (r_relayReadySocket r) (r_gatewayEventSocket r) (r_reconnectTimer r)
    (r_relayHeartbeatTimer r) (r_gatewayHeartbeatTimer r) (r_enrollmentPromise r) v (r_identity r)
    (r_sessionSyncPromise r) (r_sessionSyncSocket r) (r_sessionSyncAgain r) (r_started r)
    (r_connecting r) (r_revoked r) (r_credentialRecoveryAttempted r) (r_status r) (r_sockets r)
    (r_connect r) (r_syncs r) (r_waiters r) (r_proxies r) (r_local_timers r) (r_promises r)
    (r_settled r) (r_file r) (r_disk r) (r_emitted r).
Definition with_r_identity (v : PersistedRelayIdentity) (r : RelayClient) : RelayClient :=
  mkRelay (r_relaySocket r) (r_relayReadySocket r) (r_gatewayEventSocket r) (r_reconnectTimer r)
    (r_relayHeartbeatTimer r) (r_gatewayHeartbeatTimer r) (r_enrollmentPromise r) (r_pending r) v
    (r_sessionSyncPromise r) (r_sessionSyncSocket r) (r_sessionSyncAgain r) (r_started r)
    (r_connecting r) (r_revoked r) (r_credentialRecoveryAttempted r) (r_status r) (r_sockets r)
    (r_connect r) (r_syncs r) (r_waiters r) (r_proxies r) (r_local_timers r) (r_promises r)
    (r_settled r) (r_file r) (r_disk r) (r_emitted r).
Definition with_r_sessionSyncPromise (v : option nat) (r : RelayClient) : RelayClient :=
  mkRelay (r_relaySocket r) (r_relayReadySocket r) (r_gatewayEventSocket r) (r_reconnectTimer r)
    (r_relayHeartbeatTimer r) (r_gatewayHeartbeatTimer r) (r_enrollmentPromise r) (r_pending r)
    (r_identity r) v (r_sessionSyncSocket r) (r_sessionSyncAgain r) (r_started r) (r_connecting r)
    (r_revoked r) (r_credentialRecoveryAttempted r) (r_status r) (r_sockets r) (r_connect r)
    (r_syncs r) (r_waiters r) (r_proxies r) (r_local_timers r) (r_promises r) (r_settled r) (r_file
    r) (r_disk r) (r_emitted r).
Definition with_r_sessionSyncSocket (v : option nat) (r : RelayClient) : RelayClient :=
  mkRelay (r_relaySocket r) (r_relayReadySocket r) (r_gatewayEventSocket r) (r_reconnectTimer r)
    (r_relayHeartbeatTimer r) (r_gatewayHeartbeatTimer r) (r_enrollmentPromise r) (r_pending r)
    (r_identity r) (r_sessionSyncPromise r) v (r_sessionSyncAgain r) (r_started r) (r_connecting r)
    (r_revoked r) (r_credentialRecoveryAttempted r) (r_status r) (r_sockets r) (r_connect r)
    (r_syncs r) (r_waiters r) (r_proxies r) (r_local_timers r) (r_promises r) (r_settled r) (r_file
    r) (r_disk r) (r_emitted r).
Definition with_r_sessionSyncAgain (v : bool) (r : RelayClient) : RelayClient :=
  mkRelay (r_relaySocket r) (r_relayReadySocket r) (r_gatewayEventSocket r) (r_reconnectTimer r)
    (r_relayHeartbeatTimer r) (r_gatewayHeartbeatTimer r) (r_enrollmentPromise r) (r_pending r)
    (r_identity r) (r_sessionSyncPromise r) (r_sessionSyncSocket r) v (r_started r) (r_connecting r)
    (r_revoked r) (r_credentialRecoveryAttempted r) (r_status r) (r_sockets r) (r_connect r)
    (r_syncs r) (r_waiters r) (r_proxies r) (r_local_timers r) (r_promises r) (r_settled r) (r_file
    r) (r_disk r) (r_emitted r).
Definition with_r_started (v : bool) (r : RelayClient) : RelayClient :=
  mkRelay (r_relaySocket r) (r_relayReadySocket r) (r_gatewayEventSocket r) (r_reconnectTimer r)
    (r_relayHeartbeatTimer r) (r_gatewayHeartbeatTimer r) (r_enrollmentPromise r) (r_pending r)
    (r_identity r) (r_sessionSyncPromise r) (r_sessionSyncSocket r) (r_sessionSyncAgain r) v
    (r_connecting r) (r_revoked r) (r_credentialRecoveryAttempted r) (r_status r) (r_sockets r)
    (r_connect r) (r_syncs r) (r_waiters r) (r_proxies r) (r_local_timers r) (r_promises r)
    (r_settled r) (r_file r) (r_disk r) (r_emitted r).
Definition with_r_connecting (v : bool) (r : RelayClient) : RelayClient :=
  mkRelay (r_relaySocket r) (r_relayReadySocket r) (r_gatewayEventSocket r) (r_reconnectTimer r)
    (r_relayHeartbeatTimer r) (r_gatewayHeartbeatTimer r) (r_enrollmentPromise r) (r_pending r)
    (r_identity r) (r_sessionSyncPromise r) (r_sessionSyncSocket r) (r_sessionSyncAgain r)
    (r_started r) v (r_revoked r) (r_credentialRecoveryAttempted r) (r_status r) (r_sockets r)
    (r_connect r) (r_syncs r) (r_waiters r) (r_proxies r) (r_local_timers r) (r_promises r)
    (r_settled r) (r_file r) (r_disk r) (r_emitted r).
Definition with_r_revoked (v : bool) (r : RelayClient) : RelayClient :=
  mkRelay (r_relaySocket r) (r_relayReadySocket r) (r_gatewayEventSocket r) (r_reconnectTimer r)
    (r_relayHeartbeatTimer r) (r_gatewayHeartbeatTimer r) (r_enrollmentPromise r) (r_pending r)
    (r_identity r) (r_sessionSyncPromise r) (r_sessionSyncSocket r) (r_sessionSyncAgain r)
    (r_started r) (r_connecting r) v (r_credentialRecoveryAttempted r) (r_status r) (r_sockets r)
    (r_connect r) (r_syncs r) (r_waiters r) (r_proxies r) (r_local_timers r) (r_promises r)
    (r_settled r) (r_file r) (r_disk r) (r_emitted r).
Definition with_r_credentialRecoveryAttempted (v : bool) (r : RelayClient) : RelayClient :=
  mkRelay (r_relaySocket r) (r_relayReadySocket r) (r_gatewayEventSocket r) (r_reconnectTimer r)
    (r_relayHeartbeatTimer r) (r_gatewayHeartbeatTimer r) (r_enrollmentPromise r) (r_pending r)
    (r_identity r) (r_sessionSyncPromise r) (r_sessionSyncSocket r) (r_sessionSyncAgain r)
    (r_started r) (r_connecting r) (r_revoked r) v (r_status r) (r_sockets r) (r_connect r) (r_syncs
    r) (r_waiters r) (r_proxies r) (r_local_timers r) (r_promises r) (r_settled r) (r_file r)
    (r_disk r) (r_emitted r).
Definition with_r_status (v : RelayStatus) (r : RelayClient) : RelayClient :=
  mkRelay (r_relaySocket r) (r_relayReadySocket r) (r_gatewayEventSocket r) (r_reconnectTimer r)
    (r_relayHeartbeatTimer r) (r_gatewayHeartbeatTimer r) (r_enrollmentPromise r) (r_pending r)
    (r_identity r) (r_sessionSyncPromise r) (r_sessionSyncSocket r) (r_sessionSyncAgain r)
    (r_started r) (r_connecting r) (r_revoked r) (r_credentialRecoveryAttempted r) v (r_sockets r)
    (r_connect r) (r_syncs r) (r_waiters r) (r_proxies r) (r_local_timers r) (r_promises r)
    (r_settled r) (r_file r) (r_disk r) (r_emitted r).
Definition with_r_sockets (v : list socket) (r : RelayClient) : RelayClient :=
  mkRelay (r_relaySocket r) (r_relayReadySocket r) (r_gatewayEventSocket r) (r_reconnectTimer r)
    (r_relayHeartbeatTimer r) (r_gatewayHeartbeatTimer r) (r_enrollmentPromise r) (r_pending r)
    (r_identity r) (r_sessionSyncPromise r) (r_sessionSyncSocket r) (r_sessionSyncAgain r)
    (r_started r) (r_connecting r) (r_revoked r) (r_credentialRecoveryAttempted r) (r_status r) v
    (r_connect r) (r_syncs r) (r_waiters r) (r_proxies r) (r_local_timers r) (r_promises r)
    (r_settled r) (r_file r) (r_disk r) (r_emitted r).
Definition with_r_connect (v : option connect_stage) (r : RelayClient) : RelayClient :=
  mkRelay (r_relaySocket r) (r_relayReadySocket r) (r_gatewayEventSocket r) (r_reconnectTimer r)
    (r_relayHeartbeatTimer r) (r_gatewayHeartbeatTimer r) (r_enrollmentPromise r) (r_pending r)
    (r_identity r) (r_sessionSyncPromise r) (r_sessionSyncSocket r) (r_sessionSyncAgain r)
    (r_started r) (r_connecting r) (r_revoked r) (r_credentialRecoveryAttempted r) (r_status r)
    (r_sockets r) v (r_syncs r) (r_waiters r) (r_proxies r) (r_local_timers r) (r_promises r)
    (r_settled r) (r_file r) (r_disk r) (r_emitted r).
Definition with_r_syncs (v : jmap nat sync_task) (r : RelayClient) : RelayClient :=
  mkRelay (r_relaySocket r) (r_relayReadySocket r) (r_gatewayEventSocket r) (r_reconnectTimer r)
    (r_relayHeartbeatTimer r) (r_gatewayHeartbeatTimer r) (r_enrollmentPromise r) (r_pending r)
    (r_identity r) (r_sessionSyncPromise r) (r_sessionSyncSocket r) (r_sessionSyncAgain r)
    (r_started r) (r_connecting r) (r_revoked r) (r_credentialRecoveryAttempted r) (r_status r)
    (r_sockets r) (r_connect r) v (r_waiters r) (r_proxies r) (r_local_timers r) (r_promises r)
    (r_settled r) (r_file r) (r_disk r) (r_emitted r).
Definition with_r_waiters (v : list nat) (r : RelayClient) : RelayClient :=
  mkRelay (r_relaySocket r) (r_relayReadySocket r) (r_gatewayEventSocket r) (r_reconnectTimer r)
    (r_relayHeartbeatTimer r) (r_gatewayHeartbeatTimer r) (r_enrollmentPromise r) (r_pending r)
    (r_identity r) (r_sessionSyncPromise r) (r_sessionSyncSocket r) (r_sessionSyncAgain r)
    (r_started r) (r_connecting r) (r_revoked r) (r_credentialRecoveryAttempted r) (r_status r)
    (r_sockets r) (r_connect r) (r_syncs r) v (r_proxies r) (r_local_timers r) (r_promises r)
    (r_settled r) (r_file r) (r_disk r) (r_emitted r).
Definition with_r_proxies (v : list val) (r : RelayClient) : RelayClient :=
  mkRelay (r_relaySocket r) (r_relayReadySocket r) (r_gatewayEventSocket r) (r_reconnectTimer r)
    (r_relayHeartbeatTimer r) (r_gatewayHeartbeatTimer r) (r_enrollmentPromise r) (r_pending r)
    (r_identity r) (r_sessionSyncPromise r) (r_sessionSyncSocket r) (r_sessionSyncAgain r)
    (r_started r) (r_connecting r) (r_revoked r) (r_credentialRecoveryAttempted r) (r_status r)
    (r_sockets r) (r_connect r) (r_syncs r) (r_waiters r) v (r_local_timers r) (r_promises r)
    (r_settled r) (r_file r) (r_disk r) (r_emitted r).
Definition with_r_local_timers (v : nat) (r : RelayClient) : RelayClient :=
  mkRelay (r_relaySocket r) (r_relayReadySocket r) (r_gatewayEventSocket r) (r_reconnectTimer r)
    (r_relayHeartbeatTimer r) (r_gatewayHeartbeatTimer r) (r_enrollmentPromise r) (r_pending r)
    (r_identity r) (r_sessionSyncPromise r) (r_sessionSyncSocket r) (r_sessionSyncAgain r)
    (r_started r) (r_connecting r) (r_revoked r) (r_credentialRecoveryAttempted r) (r_status r)
    (r_sockets r) (r_connect r) (r_syncs r) (r_waiters r) (r_proxies r) v (r_promises r) (r_settled
    r) (r_file r) (r_disk r) (r_emitted r).
Definition with_r_promises (v : nat) (r : RelayClient) : RelayClient :=
  mkRelay (r_relaySocket r) (r_relayReadySocket r) (r_gatewayEventSocket r) (r_reconnectTimer r)
    (r_relayHeartbeatTimer r) (r_gatewayHeartbeatTimer r) (r_enrollmentPromise r) (r_pending r)
    (r_identity r) (r_sessionSyncPromise r) (r_sessionSyncSocket r) (r_sessionSyncAgain r)
    (r_started r) (r_connecting r) (r_revoked r) (r_credentialRecoveryAttempted r) (r_status r)
    (r_sockets r) (r_connect r) (r_syncs r) (r_waiters r) (r_proxies r) (r_local_timers r) v
    (r_settled r) (r_file r) (r_disk r) (r_emitted r).
Definition with_r_settled (v : list (nat * (PairCode + string))) (r : RelayClient) : RelayClient :=
  mkRelay (r_relaySocket r) (r_relayReadySocket r) (r_gatewayEventSocket r) (r_reconnectTimer r)
    (r_relayHeartbeatTimer r) (r_gatewayHeartbeatTimer r) (r_enrollmentPromise r) (r_pending r)
    (r_identity r) (r_sessionSyncPromise r) (r_sessionSyncSocket r) (r_sessionSyncAgain r)
    (r_started r) (r_connecting r) (r_revoked r) (r_credentialRecoveryAttempted r) (r_status r)
    (r_sockets r) (r_connect r) (r_syncs r) (r_waiters r) (r_proxies r) (r_local_timers r)
    (r_promises r) v (r_file r) (r_disk r) (r_emitted r).
Definition with_r_file (v : identity_file) (r : RelayClient) : RelayClient :=
  mkRelay (r_relaySocket r) (r_relayReadySocket r) (r_gatewayEventSocket r) (r_reconnectTimer r)
    (r_relayHeartbeatTimer r) (r_gatewayHeartbeatTimer r) (r_enrollmentPromise r) (r_pending r)
    (r_identity r) (r_sessionSyncPromise r) (r_sessionSyncSocket r) (r_sessionSyncAgain r)
    (r_started r) (r_connecting r) (r_revoked r) (r_credentialRecoveryAttempted r) (r_status r)
    (r_sockets r) (r_connect r) (r_syncs r) (r_waiters r) (r_proxies r) (r_local_timers r)
    (r_promises r) (r_settled r) v (r_disk r) (r_emitted r).
Definition with_r_disk (v : write_answer) (r : RelayClient) : RelayClient :=
  mkRelay (r_relaySocket r) (r_relayReadySocket r) (r_gatewayEventSocket r) (r_reconnectTimer r)
    (r_relayHeartbeatTimer r) (r_gatewayHeartbeatTimer r) (r_enrollmentPromise r) (r_pending r)
    (r_identity r) (r_sessionSyncPromise r) (r_sessionSyncSocket r) (r_sessionSyncAgain r)
    (r_started r) (r_connecting r) (r_revoked r) (r_credentialRecoveryAttempted r) (r_status r)
    (r_sockets r) (r_connect r) (r_syncs r) (r_waiters r) (r_proxies r) (r_local_timers r)
    (r_promises r) (r_settled r) (r_file r) v (r_emitted r).
Definition with_r_emitted (v : list RelayStatus) (r : RelayClient) : RelayClient :=
  mkRelay (r_relaySocket r) (r_relayReadySocket r) (r_gatewayEventSocket r) (r_reconnectTimer r)
    (r_relayHeartbeatTimer r) (r_gatewayHeartbeatTimer r) (r_enrollmentPromise r) (r_pending r)
    (r_identity r) (r_sessionSyncPromise r) (r_sessionSyncSocket r) (r_sessionSyncAgain r)
    (r_started r) (r_connecting r) (r_revoked r) (r_credentialRecoveryAttempted r) (r_status r)
    (r_sockets r) (r_connect r) (r_syncs r) (r_waiters r) (r_proxies r) (r_local_timers r)
    (r_promises r) (r_settled r) (r_file r) (r_disk r) v.

(** ** Sockets, status, files *)

Definition readyState (s : nat) (r : RelayClient) : ready :=
  match r_sockets r !! s with Some k => k_state k | None => CLOSED end.

Definition update_socket (s : nat) (f : socket -> socket) (r : RelayClient) : RelayClient :=
  with_r_sockets (alter f s (r_sockets r)) r.

Definition close_socket (s : nat) (r : RelayClient) : RelayClient :=
  update_socket s (fun k => match k_state k with CLOSED => k | _ => with_k_state CLOSING k end) r.

Definition new_socket (relay : bool) (r : RelayClient) : nat * RelayClient :=
  (length (r_sockets r), with_r_sockets (r_sockets r ++ [mkSocket relay CONNECTING 0 false []]) r).

Definition maxRelayBufferedBytes : Z := 32 * 1024 * 1024.

Definition safeRelaySend (s : nat) (message : val) (r : RelayClient) : bool * RelayClient :=
  match r_sockets r !! s with
  | Some k =>
      match k_state k with
      | OPEN =>
          if maxRelayBufferedBytes <? k_buffered k + Z.of_nat (byte_length (stringify message))
          then (false, close_socket s r)
          else if k_throws k then (false, close_socket s r)
          else (true, update_socket s (fun k => with_k_sent (k_sent k ++ [message]) k) r)
      | _ => (false, r)
      end
  | None => (false, r)
  end.

Definition set_status (f : RelayStatus -> RelayStatus) (r : RelayClient) : RelayClient :=
  with_r_status (f (r_status r)) r.

Definition emit_status (r : RelayClient) : RelayClient :=
  with_r_emitted (r_emitted r ++ [r_status r]) r.

Definition setError (message : string) (r : RelayClient) : RelayClient :=
  emit_status (set_status (fun w => with_w_lastError (Some message) (with_w_connected false w)) r).

Definition identity_val (i : PersistedRelayIdentity) : val :=
  VObj [("deviceId", opt_val VStr (d_deviceId i)); ("deviceToken", opt_val VStr (d_deviceToken i));
        ("deviceSecret", opt_val VStr (d_deviceSecret i))].

Definition readIdentity (cfg : relay_config) (f : identity_file) : PersistedRelayIdentity :=
  match f with
  | NoFile | BadFile | JsonFile VNull | JsonFile VUndef => only_id (Some (cfg_fallbackId cfg))
  | JsonFile v =>
      {| d_deviceId := as_str (prop "deviceId" v); d_deviceToken := as_str (prop "deviceToken" v);
         d_deviceSecret := as_str (prop "deviceSecret" v) |}
  end.

(** With the message of the error it throws, if it does. *)
Definition writeIdentity (i : PersistedRelayIdentity) (r : RelayClient) : option string * RelayClient :=
  match r_disk r with
  | WriteDone => (None, with_r_file (JsonFile (json_clone (identity_val i))) r)
  | WriteFails message remains => (Some message, with_r_file remains r)
  end.

(** [this.identity = i; writeIdentity(i)] in a handler nothing catches for. *)
Definition store_identity (i : PersistedRelayIdentity) (r : RelayClient) : option RelayClient :=
  match writeIdentity i (with_r_identity i r) with (None, r) => Some r | _ => None end.

(** ** Connecting *)

Definition scheduleReconnect (delay : Z) (r : RelayClient) : RelayClient :=
  if negb (r_started r) || r_revoked r || bool_decide (is_Some (r_reconnectTimer r)) then r
  else with_r_reconnectTimer (Some delay) r.

Section client.
Context (cfg : relay_config).

Definition hasAccountCredentials : bool :=
  (cfg_accountToken cfg !== "") ||
  ((cfg_accountUsername cfg !== "") && (cfg_accountPassword cfg !== "")).

(** The start of [enrollDevice]: [authenticateAccount] gives the configured
    token at once, fails, or asks the relay. *)
Definition enrollDevice (rotate : bool) : enroll_stage + string :=
  if cfg_accountToken cfg !== "" then inl (EnrollSent rotate)
  else if (cfg_accountUsername cfg === "") || (cfg_accountPassword cfg === "")
       then inr "relay account credentials required"
  else inl (LoginSent rotate).

(** The promise of an enrollment settles: [finally] clears it, and the
    connection attempt that waits for it goes on. *)
Definition settle_enrollment (result : option string) (r : RelayClient) : RelayClient :=
  let r := with_r_enrollmentPromise None r in
  match r_connect r with
  | Some AwaitEnrollment => with_r_connect (Some (Credential result)) r
  | _ => r
  end.

Definition run_enrollment (stage : enroll_stage + string) (r : RelayClient) : RelayClient :=
  match stage with
  | inl stage => with_r_enrollmentPromise (Some stage) r
  | inr e => settle_enrollment (Some e) r
  end.

Definition ensureDeviceCredential (r : RelayClient) : RelayClient :=
  let settled result := with_r_connect (Some (Credential result)) in
  let enroll r :=
    if negb hasAccountCredentials then
      settled (Some "relay account credentials required: set RELAY_ACCOUNT_TOKEN or RELAY_ACCOUNT_USERNAME and RELAY_ACCOUNT_PASSWORD") r
    else
      let r := with_r_connect (Some AwaitEnrollment) r in
      match r_enrollmentPromise r with
      | Some _ => r
      | None => run_enrollment (enrollDevice true) r
      end in
  if str_truthy (d_deviceToken (r_identity r)) then settled None r
  else if str_truthy (d_deviceSecret (r_identity r)) || (cfg_serverToken cfg !== "") then
    if negb hasAccountCredentials then settled None r
    else enroll (with_r_identity (only_id (d_deviceId (r_identity r))) r)
  else enroll r.

Definition connectRelay (r : RelayClient) : RelayClient :=
  if negb (r_started r) || r_revoked r || r_connecting r then r
  else
    let live := match r_relaySocket r with
                | Some s => match readyState s r with OPEN | CONNECTING => true | _ => false end
                | None => false
                end in
    if live then r else ensureDeviceCredential (with_r_connecting true r).

(** [connectRelay] after the await; [refused] is the error of [new WebSocket]. *)
Definition connectContinues (refused : option string) (r : RelayClient) : RelayClient :=
  match r_connect r with
  | Some (Credential result) =>
      let r := with_r_connecting false (with_r_connect None r) in
      match result with
      | Some e => scheduleReconnect 10000 (setError e r)
      | None =>
          if negb (r_started r) || r_revoked r then r
          else
            match refused with
            | Some e => scheduleReconnect 3000 (setError e r)
            | None => let '(s, r) := new_socket true r in with_r_relaySocket (Some s) r
            end
      end
  | _ => r
  end.

Definition response_error (status : Z) (body : val) : string :=
  "relay request failed (" ^^ zstr status ^^ ")" ^^
  match prop "error" body with VStr code => if code === "" then "" else ": " ^^ code | _ => "" end.

(** The login request of [authenticateAccount] is answered. *)
Definition loginAnswered (answer : json_answer) (r : RelayClient) : RelayClient :=
  match r_enrollmentPromise r with
  | Some (LoginSent rotate) =>
      match answer with
      | NetFailed e => settle_enrollment (Some e) r
      | Answered status json =>
          let body := readResponseBody json in
          if negb (http_ok status) then settle_enrollment (Some (response_error status body)) r
          else if stringOr (prop "token" body) "" === ""
          then settle_enrollment (Some "relay account login returned no token") r
          else with_r_enrollmentPromise (Some (EnrollSent rotate)) r
      end
  | _ => r
  end.

(** The enrollment request is answered; [uuid] is what [randomUUID] would give. *)
Definition enrollAnswered (answer : json_answer) (uuid : string) (r : RelayClient) : RelayClient :=
  match r_enrollmentPromise r with
  | Some (EnrollSent rotate) =>
      match answer with
      | NetFailed e => settle_enrollment (Some e) r
      | Answered status json =>
          let body := readResponseBody json in
          if negb (http_ok status) then
            if rotate && (status =? 409) && opt_str_eqb (as_str (prop "error" body)) (Some "device_owned") then
              let i := only_id (Some uuid) in
              match writeIdentity i (with_r_identity i r) with
              | (None, r) =>
                  let r := emit_status (set_status (with_w_deviceId (Some uuid)) r) in
                  run_enrollment (enrollDevice false) r
              | (Some e, r) => settle_enrollment (Some e) r
              end
            else settle_enrollment (Some (response_error status body)) r
          else
            let deviceToken := stringOr (prop "deviceToken" body) "" in
            let deviceId := match as_str (prop "deviceId" body) with
                            | Some d => Some d | None => d_deviceId (r_identity r) end in
            if (deviceToken === "") || negb (str_truthy deviceId)
            then settle_enrollment (Some "relay enrollment returned no device credential") r
            else
              let i := {| d_deviceId := deviceId; d_deviceToken := Some deviceToken; d_deviceSecret := None |} in
              match writeIdentity i (with_r_identity i r) with
              | (None, r) =>
                  settle_enrollment None
                    (emit_status (set_status (fun w =>
                       with_w_deviceName (Some (stringOr (prop "deviceName" body) (cfg_deviceName cfg)))
                         (with_w_deviceId deviceId w)) r))
              | (Some e, r) => settle_enrollment (Some e) r
              end
      end
  | _ => r
  end.

Definition start (r : RelayClient) : RelayClient :=
  if (cfg_relayUrl cfg === "") || r_started r then r
  else if cfg_production cfg && negb (cfg_https cfg) then
    emit_status (set_status (with_w_lastError (Some "production relay requires an https URL")) r)
  else connectRelay (with_r_started true r).

Definition reconnectFires (r : RelayClient) : RelayClient :=
  match r_reconnectTimer r with
  | Some _ => connectRelay (with_r_reconnectTimer None r)
  | None => r
  end.

(** ** Socket events *)

Definition deviceHello (r : RelayClient) : val :=
  VObj ([("type", VStr "device-hello"); ("deviceId", opt_val VStr (d_deviceId (r_identity r)));
         ("deviceName", VStr (cfg_deviceName cfg)); ("gatewayOrigin", VStr (cfg_publicOrigin cfg))] ++
        if str_truthy (d_deviceToken (r_identity r)) then
          [("deviceToken", opt_val VStr (d_deviceToken (r_identity r)))]
        else if str_truthy (d_deviceSecret (r_identity r)) then
          [("deviceSecret", opt_val VStr (d_deviceSecret (r_identity r)))]
        else if cfg_serverToken cfg !== "" then [("serverToken", VStr (cfg_serverToken cfg))]
        else []).

Definition ensureGatewayEventSocket (r : RelayClient) : RelayClient :=
  let live := match r_gatewayEventSocket r with
              | Some s => match readyState s r with OPEN | CONNECTING => true | _ => false end
              | None => false
              end in
  if live then r
  else
    let '(s, r) := new_socket false r in
    with_r_gatewayHeartbeatTimer (Some s) (with_r_gatewayEventSocket (Some s) r).

Definition ping : val := VObj [("type", VStr "ping")].

Definition relayOpened (s : nat) (r : RelayClient) : RelayClient :=
  let r := update_socket s (with_k_state OPEN) r in
  if bool_decide (r_relaySocket r = Some s) then
    let r := emit_status (set_status (with_w_connected false) r) in
    let '(_, r) := safeRelaySend s (deviceHello r) r in
    ensureGatewayEventSocket (with_r_relayHeartbeatTimer (Some s) r)
  else r.

(** [for (const [requestId, pending] of this.pending) pending.reject(...)] *)
Definition reject_pending (message : string) (r : RelayClient) : RelayClient :=
  with_r_pending [] (with_r_settled (r_settled r ++ map (fun e => (e.2, inr message)) (r_pending r)) r).

(** The part of [handleRelayDisconnect] that forgets the sockets, from
    [this.relaySocket = null] on. *)
Definition finishDisconnect (recovered : bool) (r : RelayClient) : RelayClient :=
  let r := with_r_relayReadySocket None (with_r_relaySocket None r) in
  let r := match r_gatewayEventSocket r with
           | Some g => with_r_gatewayEventSocket None (close_socket g r)
           | None => r
           end in
  let r := emit_status (reject_pending "relay connection closed" r) in
  scheduleReconnect (if recovered then 500 else 3000) r.

Definition handleRelayDisconnect (s : nat) (code : Z) (reason : string) (r : RelayClient) : option RelayClient :=
  if negb (bool_decide (r_relaySocket r = Some s)) then Some r
  else
    let handshakeIncomplete := negb (bool_decide (r_relayReadySocket r = Some s)) in
    let r := set_status (with_w_connected false) (with_r_relayHeartbeatTimer None r) in
    if handshakeIncomplete then
      let detail := trim reason in
      let r := set_status (with_w_lastError (Some ("relay device handshake closed (" ^^ zstr code ^^
                 (if detail === "" then "" else ": " ^^ detail) ^^ ")"))) r in
      if (code =? 1006) && str_truthy (d_deviceToken (r_identity r)) && negb (r_credentialRecoveryAttempted r) then
        let r := with_r_credentialRecoveryAttempted true r in
        match store_identity (only_id (d_deviceId (r_identity r))) r with
        | None => None
        | Some r => Some (finishDisconnect true (set_status (with_w_lastError (Some "设备凭据已刷新，正在重新认证")) r))
        end
      else Some (finishDisconnect false r)
    else Some (finishDisconnect false r).

(** ** Session sync *)

Definition syncSessions (inp : sync_input) (r : RelayClient) : RelayClient :=
  match r_relaySocket r with
  | None => r
  | Some s =>
      if negb (bool_decide (readyState s r = OPEN)) then r
      else if bool_decide (is_Some (r_sessionSyncPromise r)) && bool_decide (r_sessionSyncSocket r = Some s) then r
      else
        let t := r_promises r in
        with_r_promises (S t)
          (with_r_syncs (mset t {| t_socket := s; t_input := inp |} (r_syncs r))
            (with_r_sessionSyncPromise (Some t) (with_r_sessionSyncSocket (Some s) r)))
  end.

Definition syncSessionsNow (inp : sync_input) (r : RelayClient) : RelayClient :=
  match r_sessionSyncPromise r with
  | None => syncSessions inp r
  | Some t => with_r_waiters (r_waiters r ++ [t]) (with_r_sessionSyncAgain true r)
  end.

(** One caller of [syncSessionsNow] resumes after the sync it waited for. *)
Definition resume_waiter (inp : sync_input) (r : RelayClient) : RelayClient :=
  if r_sessionSyncAgain r then syncSessionsNow inp (with_r_sessionSyncAgain false r) else r.

Definition sync_error_prefix : string := "session sync local listing failed:".

(** The listing a sync waits for is answered; [inp] is what a follow-up reads. *)
Definition synced (t : nat) (answer : json_answer) (inp : sync_input) (r : RelayClient) : RelayClient :=
  match mget t (r_syncs r) with
  | None => r
  | Some task =>
      let s := t_socket task in
      let '(payload, listingError) :=
        loadSessionSyncPayload answer (si_fallback (t_input task)) (si_cursors (t_input task))
          (si_requestId (t_input task)) in
      let isOpen := bool_decide (r_relaySocket r = Some s) && bool_decide (readyState s r = OPEN) in
      let r := with_r_syncs (mdelete t (r_syncs r)) r in
      let r := if isOpen then (safeRelaySend s (payload_val payload) r).2 else r in
      let r := match listingError with
               | Some e => emit_status (set_status (with_w_lastError (Some (sync_error_prefix ^^ " " ^^ e))) r)
               | None =>
                   if starts_with sync_error_prefix (default "" (w_lastError (r_status r)))
                   then emit_status (set_status (with_w_lastError None) r) else r
               end in
      let r := if bool_decide (r_sessionSyncSocket r = Some s)
               then with_r_sessionSyncSocket None (with_r_sessionSyncPromise None r) else r in
      let mine := List.filter (fun x => bool_decide (x = t)) (r_waiters r) in
      let r := with_r_waiters (List.filter (fun x => negb (bool_decide (x = t))) (r_waiters r)) r in
      foldl (fun r _ => resume_waiter inp r) r mine
  end.

(** ** Messages of the relay *)

Section messages.
Context (headers_of : val -> jmap string string + string) (header_value : string -> bool).

Definition proxy_with (answer : http_response + string) (message : val) : proxy_run :=
  proxyLocalRequest headers_of header_value (fun _ => answer) (cfg_localOrigin cfg)
    (cfg_gatewayAuthToken cfg) message.

Definition send_current (l : list val) (r : RelayClient) : RelayClient :=
  match r_relaySocket r with
  | Some s => foldl (fun r v => (safeRelaySend s v r).2) r l
  | None => r
  end.

(** [handleProxyRequest] up to its fetch: a request that makes none is
    answered at once. *)
Definition handleProxyRequest (message : val) (r : RelayClient) : RelayClient :=
  let run := proxy_with (inr "") message in
  match x_request run with
  | None => send_current (x_sent run) r
  | Some _ => with_r_proxies (r_proxies r ++ [message]) r
  end.

Definition proxied (i : nat) (answer : http_response + string) (r : RelayClient) : RelayClient :=
  match r_proxies r !! i with
  | None => r
  | Some message =>
      send_current (x_sent (proxy_with answer message))
        (with_r_proxies (take i (r_proxies r) ++ drop (S i) (r_proxies r)) r)
  end.

Definition str_or (v : val) (o : option string) : option string :=
  match v with VStr s => Some s | _ => o end.

Definition deviceReady (record : val) (inp : sync_input) (r : RelayClient) : option RelayClient :=
  let i := {| d_deviceId := str_or (prop "deviceId" record) (d_deviceId (r_identity r));
              d_deviceToken := str_or (prop "deviceToken" record) (d_deviceToken (r_identity r));
              d_deviceSecret := str_or (prop "deviceSecret" record) (d_deviceSecret (r_identity r)) |} in
  match store_identity i r with
  | None => None
  | Some r =>
      let r := with_r_credentialRecoveryAttempted false (with_r_relayReadySocket (r_relaySocket r) r) in
      let r := set_status (fun w =>
        mkStatus true (d_deviceId i) (str_or (prop "deviceName" record) (w_deviceName w))
          (str_or (prop "pairCode" record) (w_pairCode w))
          (str_or (prop "pairCodeExpiresAt" record) (w_pairCodeExpiresAt w)) (w_lastError w)) r in
      Some (syncSessions inp (emit_status r))
  end.

Definition deviceCredential (record : val) (r : RelayClient) : option RelayClient :=
  let deviceToken := stringOr (prop "deviceToken" record) "" in
  let deviceId := str_or (prop "deviceId" record) (d_deviceId (r_identity r)) in
  if (deviceToken !== "") && str_truthy deviceId then
    match store_identity {| d_deviceId := deviceId; d_deviceToken := Some deviceToken;
                            d_deviceSecret := None |} r with
    | None => None
    | Some r => Some (emit_status (set_status (fun w => with_w_lastError None (with_w_deviceId deviceId w)) r))
    end
  else Some r.

Definition deviceRevoked (r : RelayClient) : option RelayClient :=
  match store_identity (only_id (d_deviceId (r_identity r))) r with
  | None => None
  | Some r =>
      let r := set_status (fun w =>
        with_w_lastError (Some "relay device credential revoked; restart after re-enrollment")
          (with_w_connected false w)) (with_r_revoked true r) in
      let r := emit_status r in
      Some (match r_relaySocket r with Some s => close_socket s r | None => r end)
  end.

Definition settle (requestId : string) (result : PairCode + string) (r : RelayClient) : RelayClient :=
  match mget requestId (r_pending r) with
  | Some n => with_r_pending (mdelete requestId (r_pending r)) (with_r_settled (r_settled r ++ [(n, result)]) r)
  | None => r
  end.

(** [requestPairCode] stores the result a second time, with the same values. *)
Definition pairCodeMessage (record : val) (r : RelayClient) : RelayClient :=
  let requestId := stringOr (prop "requestId" record) "" in
  let waiting := (requestId !== "") && mhas requestId (r_pending r) in
  match as_str (prop "error" record), waiting with
  | Some e, true =>
      emit_status (set_status (with_w_lastError (Some ("pairing failed: " ^^ e))) (settle requestId (inr e) r))
  | _, _ =>
      let result := {| pairCode := stringOr (prop "pairCode" record) "";
                       pairCodeExpiresAt := stringOr (prop "pairCodeExpiresAt" record) "" |} in
      let r := set_status (fun w =>
        with_w_pairCodeExpiresAt (Some (pairCodeExpiresAt result)) (with_w_pairCode (Some (pairCode result)) w)) r in
      emit_status (if waiting then settle requestId (inl result) r else r)
  end.

(** [message] is [None] when the text is not JSON. *)
Definition handleRelayMessage (message : option val) (inp : sync_input) (r : RelayClient) : option RelayClient :=
  match message with
  | Some record =>
      if is_object record then
        let type := as_str (prop "type" record) in
        let typed t := opt_str_eqb type (Some t) in
        if typed "device-ready" then deviceReady record inp r
        else if typed "device-credential" then deviceCredential record r
        else if typed "device-owner-bound" then Some (syncSessions inp r)
        else if typed "device-revoked" then deviceRevoked r
        else if typed "pair-code" then Some (pairCodeMessage record r)
        else if typed "proxy-request" then Some (handleProxyRequest record r)
        else Some r
      else Some r
  | None => Some r
  end.

(** ** Pairing *)

Definition requestPairCode (requestId : string) (r : RelayClient) : RelayClient :=
  match r_relaySocket r with
  | None => r
  | Some s =>
      if negb (bool_decide (readyState s r = OPEN)) then r
      else
        let r := with_r_promises (S (r_promises r))
                   (with_r_pending (mset requestId (r_promises r) (r_pending r)) r) in
        let '(ok, r) := safeRelaySend s
          (VObj [("type", VStr "pair-code:create"); ("requestId", VStr requestId)]) r in
        if ok then r else settle requestId (inr "relay connection not writable") r
  end.

(** ** The socket to the local gateway *)

Definition localMessage (message : option val) (r : RelayClient) : RelayClient :=
  match r_relaySocket r, message with
  | Some s, Some payload =>
      (safeRelaySend s (VObj [("type", VStr "gateway-event"); ("payload", payload)]) r).2
  | _, _ => r
  end.

Definition localClosed (s : nat) (r : RelayClient) : RelayClient :=
  if bool_decide (r_gatewayEventSocket r = Some s) then
    let r := with_r_gatewayEventSocket None (with_r_gatewayHeartbeatTimer None r) in
    if r_started r && negb (r_revoked r) && w_connected (r_status r)
    then with_r_local_timers (S (r_local_timers r)) r else r
  else r.

(** ** Steps *)

Inductive relay_event :=
| RStart
| RReconnectFires
| RLogin (answer : json_answer)
| REnroll (answer : json_answer) (uuid : string)
| RContinue (refused : option string)
| ROpened (s : nat)
| RMessage (s : nat) (message : option val) (inp : sync_input)
| RClosed (s : nat) (code : Z) (reason : string)
| RErrored (s : nat) (message : string)
| RHeartbeat
| RLocalHeartbeat
| RLocalMessage (s : nat) (message : option val)
| RLocalTimer
| RPairRequest (requestId : string)
| RPairTimeout (requestId : string)
| RSyncNow (inp : sync_input)
| RSynced (t : nat) (answer : json_answer) (inp : sync_input)
| RProxied (i : nat) (answer : http_response + string)
| RSocketChanges (s : nat) (buffered : Z) (throws closing : bool)
| RDiskChanges (disk : write_answer).

Definition beat (timer : option nat) (r : RelayClient) : RelayClient :=
  match timer with Some s => (safeRelaySend s ping r).2 | None => r end.

(** Whether socket [s] can deliver an event now. *)
Definition can (s : nat) (kinds : list (bool * ready)) (r : RelayClient) : bool :=
  match r_sockets r !! s with
  | Some k => bool_decide ((k_relay k, k_state k) ∈ kinds)
  | None => false
  end.

Definition relay_step (e : relay_event) (r : RelayClient) : option RelayClient :=
  match e with
  | RStart => Some (start r)
  | RReconnectFires => Some (reconnectFires r)
  | RLogin answer => Some (loginAnswered answer r)
  | REnroll answer uuid => Some (enrollAnswered answer uuid r)
  | RContinue refused => Some (connectContinues refused r)
  | ROpened s =>
      Some (if can s [(true, CONNECTING)] r then relayOpened s r
            else if can s [(false, CONNECTING)] r then update_socket s (with_k_state OPEN) r else r)
  | RMessage s message inp =>
      if can s [(true, OPEN); (true, CLOSING)] r then handleRelayMessage message inp r else Some r
  | RClosed s code reason =>
      if can s [(true, CONNECTING); (true, OPEN); (true, CLOSING)] r
      then handleRelayDisconnect s code reason (update_socket s (with_k_state CLOSED) r)
      else if can s [(false, CONNECTING); (false, OPEN); (false, CLOSING)] r
      then Some (localClosed s (update_socket s (with_k_state CLOSED) r))
      else Some r
  | RErrored s message =>
      Some (if can s [(true, CONNECTING); (true, OPEN); (true, CLOSING)] r && bool_decide (r_relaySocket r = Some s)
            then setError message r else r)
  | RHeartbeat => Some (beat (r_relayHeartbeatTimer r) r)
  | RLocalHeartbeat => Some (beat (r_gatewayHeartbeatTimer r) r)
  | RLocalMessage s message =>
      Some (if can s [(false, OPEN); (false, CLOSING)] r then localMessage message r else r)
  | RLocalTimer =>
      Some (match r_local_timers r with
            | O => r
            | S n => ensureGatewayEventSocket (with_r_local_timers n r)
            end)
  | RPairRequest requestId => Some (requestPairCode requestId r)
  | RPairTimeout requestId => Some (settle requestId (inr "pair code request timed out") r)
  | RSyncNow inp => Some (syncSessionsNow inp r)
  | RSynced t answer inp => Some (synced t answer inp r)
  | RProxied i answer => Some (proxied i answer r)
  | RSocketChanges s buffered throws closing =>
      Some (update_socket s (fun k =>
        mkSocket (k_relay k)
          (match k_state k with OPEN | CONNECTING => if closing then CLOSING else k_state k | st => st end)
          buffered throws (k_sent k)) r)
  | RDiskChanges disk => Some (with_r_disk disk r)
  end.

(** [new RelayClient()] on the identity file of an earlier process. *)
Definition boot (file : identity_file) (disk : write_answer) : RelayClient :=
  mkRelay None None None None None None None [] (readIdentity cfg file) None None false false false false
    false (mkStatus false None None None None None) [] None [] [] [] 0 0 [] file disk [].

Fixpoint relay_run (es : list relay_event) (r : RelayClient) : option RelayClient :=
  match es with
  | [] => Some r
  | e :: es => match relay_step e r with Some r' => relay_run es r' | None => None end
  end.
End messages.
End client.
