(* ===== verification/RelayInv.v ===== *)
(** * Invariants of the relay client

    The connection discipline of [RelayClient]: one activity at a time, one
    live relay socket, revocation is final, and which credential a handshake
    carries. Most operations leave the connection alone; [frame] is what they
    guarantee, and the invariant is preserved along it. *)

From S2P Require Import Prelude JsValue JsDate Json GatewayStore Base64 Relay RelayClient.

Local Open Scope Z_scope.

Section connection.
Context (cfg : relay_config).

(** A message that is not a handshake, or, when the account's credentials are
    configured, a handshake that carries a device token and no other
    credential. *)
Definition hello_ok (v : val) : Prop :=
  hasAccountCredentials cfg = true -> prop "type" v = VStr "device-hello" ->
  truthy (prop "deviceToken" v) = true /\ prop "deviceSecret" v = VUndef /\ prop "serverToken" v = VUndef.

Definition sent_ok (r : RelayClient) : Prop :=
  forall s k v, r_sockets r !! s = Some k -> v ∈ k_sent k -> hello_ok v.

Definition has_token (r : RelayClient) : bool := str_truthy (d_deviceToken (r_identity r)).

(** What a socket of the earlier state may have become. *)
Definition socket_evolves (k k' : socket) : Prop :=
  k_relay k' = k_relay k /\
  (k_relay k = true ->
   (k_state k' = CLOSED <-> k_state k = CLOSED) /\ (k_state k' = CONNECTING -> k_state k = CONNECTING)).

Record frame (r r' : RelayClient) : Prop := {
  fr_relaySocket : r_relaySocket r' = r_relaySocket r;
  fr_ready : r_relayReadySocket r' = r_relayReadySocket r;
  fr_timer : r_reconnectTimer r' = r_reconnectTimer r;
  fr_enroll : r_enrollmentPromise r' = r_enrollmentPromise r;
  fr_identity : r_identity r' = r_identity r;
  fr_started : r_started r' = r_started r;
  fr_connecting : r_connecting r' = r_connecting r;
  fr_revoked : r_revoked r' = r_revoked r;
  fr_connect : r_connect r' = r_connect r;
  fr_connected : w_connected (r_status r') = true -> w_connected (r_status r) = true;
  fr_old : forall s k, r_sockets r !! s = Some k ->
             exists k', r_sockets r' !! s = Some k' /\ socket_evolves k k';
  fr_new : forall s k', r_sockets r' !! s = Some k' -> k_relay k' = true -> is_Some (r_sockets r !! s);
  fr_sent : sent_ok r -> sent_ok r'
}.

Lemma socket_evolves_refl k : socket_evolves k k.
Proof. by split_and!. Qed.

Lemma frame_refl r : frame r r.
Proof. split; try done; eauto using socket_evolves_refl. Qed.

Lemma frame_trans r1 r2 r3 : frame r1 r2 -> frame r2 r3 -> frame r1 r3.
Proof.
  intros [] []. split; try congruence; eauto.
  - intros s k Hk. destruct (fr_old0 _ _ Hk) as (k2 & Hk2 & E2 & S2).
    destruct (fr_old1 _ _ Hk2) as (k3 & Hk3 & E3 & S3).
    exists k3. split; [done|]. split; [congruence|]. intros Hr. destruct (S2 Hr), S3; [congruence|tauto].
  - intros s k' Hk' Hr. destruct (fr_new1 _ _ Hk' Hr) as [k2 Hk2].
    apply (fr_new0 _ _ Hk2). destruct (fr_old1 _ _ Hk2) as (k3 & Hk3 & E & _). congruence.
Qed.

#[local] Instance frame_preorder : PreOrder frame.
Proof. split; [exact frame_refl|exact frame_trans]. Qed.

(** Only fields outside the connection differ. *)
Ltac frame_fields := split; simpl; try done; eauto using socket_evolves_refl.

Lemma frame_update s f r :
  (forall k, r_sockets r !! s = Some k ->
     socket_evolves k (f k) /\ (forall v, v ∈ k_sent (f k) -> v ∈ k_sent k \/ hello_ok v)) ->
  frame r (update_socket s f r).
Proof.
  intros Hf. split; simpl; try done.
  - intros t k Hk. rewrite list_lookup_alter. case_decide; [subst|by eauto using socket_evolves_refl].
    rewrite Hk. simpl. eexists. split; [done|]. by apply Hf.
  - intros t k'. rewrite list_lookup_alter. case_decide; [subst|by eauto].
    intros (k & Hk & ->)%fmap_Some _. by rewrite Hk.
  - intros Hs t k' v. simpl. rewrite list_lookup_alter. case_decide; [subst|by apply Hs].
    intros (k & Hk & ->)%fmap_Some Hv. destruct (Hf k Hk) as [_ Hsent].
    destruct (Hsent v Hv) as [Hold|]; [by eapply Hs|done].
Qed.

Lemma frame_close s r : frame r (close_socket s r).
Proof. apply frame_update. intros k _. unfold with_k_state, socket_evolves. destruct (k_state k) eqn:E; simpl;
  rewrite ?E; split; auto; split_and!; try done. Qed.

Lemma frame_send s v r : hello_ok v -> frame r (safeRelaySend s v r).2.
Proof.
  intros Hv. unfold safeRelaySend. destruct (r_sockets r !! s) as [k|]; [|apply frame_refl].
  destruct (k_state k); try apply frame_refl.
  destruct (_ <? _); [apply frame_close|]. destruct (k_throws k); [apply frame_close|].
  apply frame_update. intros k' _. split; [by split_and!|]. simpl.
  intros x Hx. apply elem_of_app in Hx as [?|Hx]; [auto|]. apply list_elem_of_singleton in Hx as ->. auto.
Qed.

Lemma frame_status f r :
  (forall w, w_connected (f w) = true -> w_connected w = true) -> frame r (emit_status (set_status f r)).
Proof. intros. frame_fields. Qed.

Lemma frame_emit r : frame r (emit_status r).
Proof. frame_fields. Qed.

Lemma frame_error e r : frame r (setError e r).
Proof. by apply frame_status. Qed.

Lemma frame_settle rid x r : frame r (settle rid x r).
Proof. unfold settle. destruct (mget _ _); frame_fields. Qed.

Lemma new_socket_lookup relay r s k :
  r_sockets (new_socket relay r).2 !! s = Some k ->
  r_sockets r !! s = Some k \/ (s = length (r_sockets r) /\ k = mkSocket relay CONNECTING 0 false []).
Proof. simpl. intros [?|[? ?%list_lookup_singleton_Some]]%lookup_app_Some; [auto|]. right. split; [lia|]. naive_solver. Qed.

Lemma frame_local r : frame r (ensureGatewayEventSocket r).
Proof.
  unfold ensureGatewayEventSocket. destruct (match r_gatewayEventSocket r with Some _ => _ | None => _ end);
    [apply frame_refl|]. split; try done.
  - intros s k Hk. exists k. split; [|apply socket_evolves_refl]. simpl. by apply lookup_app_l_Some.
  - intros s k' Hk' Hr. apply (new_socket_lookup false) in Hk' as [->|[_ ->]]; [eauto|done].
  - intros Hs s k v Hk Hv. apply (new_socket_lookup false) in Hk as [Hk|[_ ->]]; [by eapply Hs|].
    by apply elem_of_nil in Hv.
Qed.

Lemma frame_syncSessions inp r : frame r (syncSessions inp r).
Proof.
  unfold syncSessions. destruct (r_relaySocket r); [|apply frame_refl].
  repeat case_match; try apply frame_refl. frame_fields.
Qed.

Lemma frame_syncNow inp r : frame r (syncSessionsNow inp r).
Proof. unfold syncSessionsNow. destruct (r_sessionSyncPromise r); [frame_fields|apply frame_syncSessions]. Qed.

Lemma frame_waiter inp r : frame r (resume_waiter inp r).
Proof.
  unfold resume_waiter. destruct (r_sessionSyncAgain r); [|apply frame_refl].
  etrans; [|apply frame_syncNow]. frame_fields.
Qed.

Lemma frame_foldl {A} (f : RelayClient -> A -> RelayClient) l r :
  (forall x r, x ∈ l -> frame r (f r x)) -> frame r (foldl f r l).
Proof.
  revert r. induction l as [|x l IH]; intros r Hf; simpl; [apply frame_refl|].
  etrans; [apply (Hf x), list_elem_of_here|]. apply IH. intros y r' Hy. apply Hf. by right.
Qed.

(** Messages of every kind but the handshake. *)
Lemma hello_other v t : prop "type" v = VStr t -> t <> "device-hello" -> hello_ok v.
Proof. intros Ht Hne _ H. congruence. Qed.

Lemma proxy_sent_type headers_of header_value fetch origin token message v :
  v ∈ x_sent (proxyLocalRequest headers_of header_value fetch origin token message) -> hello_ok v.
Proof.
  intros Hv. apply (hello_other v "proxy-response"); [|done]. revert Hv.
  unfold proxyLocalRequest. repeat case_match; simpl;
    (intros Hv%list_elem_of_singleton || intros Hv%elem_of_nil); by subst.
Qed.

Lemma frame_send_current l r : Forall hello_ok l -> frame r (send_current l r).
Proof.
  intros Hl. unfold send_current. destruct (r_relaySocket r); [|apply frame_refl].
  apply frame_foldl. intros v r' Hv. apply frame_send. rewrite Forall_forall in Hl. auto.
Qed.

Lemma frame_synced t answer inp r : frame r (synced t answer inp r).
Proof.
  unfold synced. destruct (mget t (r_syncs r)) as [task|]; [|apply frame_refl].
  destruct (loadSessionSyncPayload _ _ _ _) as [payload err]. cbv zeta.
  etrans; [|apply frame_foldl; intros; apply frame_waiter].
  etrans; [|by frame_fields]. 
  match goal with |- frame r (if ?b then with_r_sessionSyncSocket None (with_r_sessionSyncPromise None ?x) else _) =>
    assert (frame r x) as H; [|destruct b; [etrans; [exact H|frame_fields]|exact H]] end.
  match goal with |- frame r (match err with Some _ => emit_status (set_status _ ?x) | None => _ end) =>
    assert (frame r x) as H end.
  { destruct (_ && _); [|frame_fields].
    etrans; [|apply frame_send; by apply (hello_other _ "session-sync")]. frame_fields. }
  etrans; [exact H|]. destruct err; [by apply frame_status|].
  match goal with |- frame _ (if ?b then _ else _) => destruct b end; [by apply frame_status|apply frame_refl].
Qed.

Lemma frame_proxied ho hv i answer r : frame r (proxied cfg ho hv i answer r).
Proof.
  unfold proxied. destruct (r_proxies r !! i); [|apply frame_refl].
  etrans; [|apply frame_send_current, Forall_forall; intros x; apply proxy_sent_type]. frame_fields.
Qed.

Lemma frame_proxy ho hv message r : frame r (handleProxyRequest cfg ho hv message r).
Proof.
  unfold handleProxyRequest. destruct (x_request _); [frame_fields|].
  apply frame_send_current, Forall_forall. intros x. apply proxy_sent_type.
Qed.

Lemma frame_pairCode record r : frame r (pairCodeMessage record r).
Proof.
  unfold pairCodeMessage. cbv zeta.
  destruct (as_str (prop "error" record)) as [e|]; destruct (_ && _);
    try (by apply frame_status); [etrans; [apply frame_settle|by apply frame_status]|].
  etrans; [|apply frame_emit]. etrans; [|apply frame_settle]. frame_fields.
Qed.

Lemma frame_pairRequest rid r : frame r (requestPairCode rid r).
Proof.
  unfold requestPairCode. destruct (r_relaySocket r) as [s|]; [|apply frame_refl].
  destruct (negb _); [apply frame_refl|].
  match goal with |- frame r (let '(ok, r) := safeRelaySend s ?m ?x in _) =>
    assert (frame r (safeRelaySend s m x).2) as H end.
  { etrans; [|apply frame_send; by apply (hello_other _ "pair-code:create")]. frame_fields. }
  destruct (safeRelaySend _ _ _) as [[] x]; [done|]. etrans; [exact H|apply frame_settle].
Qed.

Lemma frame_localMessage m r : frame r (localMessage m r).
Proof.
  unfold localMessage. destruct (r_relaySocket r), m; try apply frame_refl.
  apply frame_send. by apply (hello_other _ "gateway-event").
Qed.

Lemma frame_beat t r : frame r (beat t r).
Proof. destruct t; [|apply frame_refl]. apply frame_send. by apply (hello_other _ "ping"). Qed.

(** ** The connection invariant *)

Record base (r : RelayClient) : Prop := {
  b_connect : r_connecting r = true <-> is_Some (r_connect r);
  b_enroll : is_Some (r_enrollmentPromise r) <-> r_connect r = Some AwaitEnrollment;
  b_live : forall s k, r_sockets r !! s = Some k -> k_relay k = true ->
             (k_state k <> CLOSED <-> r_relaySocket r = Some s);
  b_socket : forall s, r_relaySocket r = Some s -> exists k, r_sockets r !! s = Some k /\ k_relay k = true;
  b_conn : r_connecting r = true -> r_reconnectTimer r = None /\ r_relaySocket r = None;
  b_timer : is_Some (r_reconnectTimer r) -> r_relaySocket r = None;
  b_started : r_started r = false ->
                r_connecting r = false /\ r_reconnectTimer r = None /\ r_relaySocket r = None;
  b_revoked : r_revoked r = true -> r_connecting r = false /\ r_reconnectTimer r = None;
  b_ready : r_relayReadySocket r = None \/ r_relayReadySocket r = r_relaySocket r;
  b_connected : w_connected (r_status r) = true ->
                  is_Some (r_relaySocket r) /\ r_relayReadySocket r = r_relaySocket r;
  b_cred : hasAccountCredentials cfg = true -> r_connect r = Some (Credential None) -> has_token r = true;
  b_hello : hasAccountCredentials cfg = true -> forall s k, r_relaySocket r = Some s ->
              r_sockets r !! s = Some k -> k_state k = CONNECTING -> has_token r = true;
  b_sent : sent_ok r
}.

(** Connecting, waiting to reconnect, or holding a socket. *)
Definition busy (r : RelayClient) : Prop :=
  r_connecting r = true \/ is_Some (r_reconnectTimer r) \/ is_Some (r_relaySocket r).

Definition relay_ok (r : RelayClient) : Prop :=
  base r /\ (r_started r = true -> r_revoked r = false -> busy r).

Definition idle (r : RelayClient) : Prop :=
  r_connecting r = false /\ r_reconnectTimer r = None /\ r_relaySocket r = None.

Lemma base_frame r r' : frame r r' -> base r -> base r'.
Proof.
  intros F B. destruct B. pose proof F as [Esock Eready Etimer Eenr Eid Estart Econ Erev Ecn Hcon Hold Hnew Hsent].
  split; rewrite ?Esock, ?Eready, ?Etimer, ?Eenr, ?Estart, ?Econ, ?Erev, ?Ecn; unfold has_token;
    rewrite ?Eid; try done; auto.
  - intros s k' Hk' Hr. destruct (Hnew _ _ Hk' Hr) as [k Hk].
    destruct (Hold _ _ Hk) as (k2 & Hk2 & Er & Ec). assert (k2 = k') as -> by congruence.
    rewrite <- (b_live0 s k) by congruence. destruct Ec; [congruence|tauto].
  - intros s Hs. destruct (b_socket0 s Hs) as (k & Hk & Hr).
    destruct (Hold _ _ Hk) as (k2 & Hk2 & Er & _). exists k2. split; congruence.
  - intros Ha s k' Hs Hk' Hc. destruct (b_socket0 s Hs) as (k & Hk & Hr).
    destruct (Hold _ _ Hk) as (k2 & Hk2 & _ & Ek). eapply b_hello0; [done|done|done|].
    apply Ek; congruence.
Qed.

Lemma idle_frame r r' : frame r r' -> idle r -> idle r'.
Proof. intros [] (? & ? & ?). split_and!; congruence. Qed.

Lemma ok_frame r r' : frame r r' -> relay_ok r -> relay_ok r'.
Proof.
  intros F [B Hb]. split; [by eapply base_frame|]. destruct F as [Es _ Et _ _ Est Ec Er _ _ _ _ _]. unfold busy.
  by rewrite Es, Et, Est, Ec, Er.
Qed.

(** Changes of the fields below leave the sockets alone; what is left are the
    clauses they touch. *)
Ltac base_fields := split; simpl; unfold has_token; simpl; eauto; try done.

Lemma ok_schedule delay r : base r -> idle r -> relay_ok (scheduleReconnect delay r).
Proof.
  intros B (Hc & Ht & Hs). unfold scheduleReconnect. rewrite Ht.
  rewrite (bool_decide_false (is_Some (@None Z))) by (by intros []).
  destruct (r_started r) eqn:St, (r_revoked r) eqn:Rv; simpl; try (split; [done|congruence]).
  split; [|intros _ _; right; left; simpl; eauto]. destruct B. base_fields.
  - congruence.
  - congruence.
  - congruence.
Qed.

Lemma base_settle result r :
  base r -> r_connect r = Some AwaitEnrollment ->
  (result = None -> hasAccountCredentials cfg = true -> has_token r = true) ->
  base (settle_enrollment result r).
Proof.
  intros B Hc Ht. unfold settle_enrollment. simpl. rewrite Hc. destruct B. base_fields.
  - rewrite b_connect0, Hc. split; eauto.
  - intros Ha He. apply Ht; [congruence|done].
Qed.

Lemma settle_activity result r :
  r_connecting (settle_enrollment result r) = r_connecting r /\
  r_reconnectTimer (settle_enrollment result r) = r_reconnectTimer r /\
  r_relaySocket (settle_enrollment result r) = r_relaySocket r /\
  r_started (settle_enrollment result r) = r_started r /\
  r_revoked (settle_enrollment result r) = r_revoked r.
Proof. unfold settle_enrollment. simpl. by repeat case_match. Qed.

Lemma ok_settle result r :
  relay_ok r -> r_connect r = Some AwaitEnrollment ->
  (result = None -> hasAccountCredentials cfg = true -> has_token r = true) ->
  relay_ok (settle_enrollment result r).
Proof.
  intros [B Hb] Hc Ht. split; [by apply base_settle|].
  destruct (settle_activity result r) as (E1 & E2 & E3 & E4 & E5). unfold busy. by rewrite E1, E2, E3, E4, E5.
Qed.

Lemma ok_stage stage r :
  relay_ok r -> r_connect r = Some AwaitEnrollment -> relay_ok (with_r_enrollmentPromise (Some stage) r).
Proof. intros [B Hb] Hc. split; [|done]. destruct B. base_fields.  Qed.

Lemma ok_run_enrollment stage r :
  relay_ok r -> r_connect r = Some AwaitEnrollment -> relay_ok (run_enrollment stage r).
Proof. intros. destruct stage; [by apply ok_stage|by apply ok_settle]. Qed.

Lemma idle_connect r : base r -> idle r -> r_connect r = None /\ r_enrollmentPromise r = None.
Proof.
  intros B (Hc & _). destruct B.
  assert (r_connect r = None) as E.
  { apply eq_None_not_Some. rewrite <- b_connect0. congruence. }
  split; [done|]. apply eq_None_not_Some. rewrite b_enroll0. congruence.
Qed.

Lemma base_identity i r : base r -> idle r -> base (with_r_identity i r).
Proof.
  intros B I. destruct (idle_connect r B I) as [Ec _]. destruct I as (_ & _ & Hs). destruct B. base_fields.
  - congruence.
  - intros. congruence.
Qed.

(** An attempt whose credential is settled, or which waits for an enrollment. *)
Lemma ok_attempt stage promise r :
  base r -> idle r -> r_started r = true -> r_revoked r = false ->
  (is_Some promise <-> stage = AwaitEnrollment) ->
  (stage = Credential None -> hasAccountCredentials cfg = true -> has_token r = true) ->
  relay_ok (with_r_enrollmentPromise promise (with_r_connect (Some stage) (with_r_connecting true r))).
Proof.
  intros B I St Rv Hp Ht. pose proof I as (Hc & Hti & Hs). split; [|intros; by left]. destruct B.
  base_fields; try congruence.
  - rewrite Hp. split; congruence.
  - intros Ha He. apply Ht; [congruence|done].
Qed.

Lemma frame_promise_id r : r_enrollmentPromise r = None -> with_r_enrollmentPromise None r = r.
Proof. destruct r; simpl. by intros ->. Qed.

Lemma ok_enroll_attempt r :
  base r -> idle r -> r_started r = true -> r_revoked r = false ->
  relay_ok (run_enrollment (enrollDevice cfg true) (with_r_connect (Some AwaitEnrollment) (with_r_connecting true r))).
Proof.
  intros B I St Rv. destruct (enrollDevice cfg true) as [stage|e]; simpl.
  - by apply ok_attempt.
  - unfold settle_enrollment. simpl. by apply (ok_attempt (Credential (Some e)) None).
Qed.

Lemma ok_settled_attempt result r :
  base r -> idle r -> r_started r = true -> r_revoked r = false ->
  (result = None -> hasAccountCredentials cfg = true -> has_token r = true) ->
  relay_ok (with_r_connect (Some (Credential result)) (with_r_connecting true r)).
Proof.
  intros B I St Rv Ht. destruct (idle_connect r B I) as [_ Ee].
  rewrite <- (frame_promise_id (with_r_connect _ _)) by done.
  apply ok_attempt; try done. intros [= ->]. auto.
Qed.

Lemma ok_connectRelay r : base r -> idle r -> relay_ok (connectRelay cfg r).
Proof.
  intros B I. pose proof I as (Hc & Ht & Hs). unfold connectRelay. rewrite Hc, Hs.
  destruct (r_started r) eqn:St; simpl; [|split; [done|congruence]].
  destruct (r_revoked r) eqn:Rv; simpl; [split; [done|congruence]|].
  destruct (idle_connect r B I) as [_ Ee].
  unfold ensureDeviceCredential. simpl. rewrite Ee.
  destruct (str_truthy (d_deviceToken (r_identity r))) eqn:Tk; [by apply ok_settled_attempt|].
  destruct (str_truthy (d_deviceSecret (r_identity r)) || _).
  - destruct (hasAccountCredentials cfg) eqn:Ha; simpl.
    + apply (ok_enroll_attempt (with_r_identity (only_id (d_deviceId (r_identity r))) r)); try done.
      by apply base_identity.
    + apply ok_settled_attempt; try done. congruence.
  - destruct (hasAccountCredentials cfg) eqn:Ha; simpl.
    + by apply ok_enroll_attempt.
    + by apply ok_settled_attempt.
Qed.

Lemma ok_start r : relay_ok r -> relay_ok (start cfg r).
Proof.
  intros H. pose proof (proj1 H) as B. unfold start. destruct (cfg_relayUrl cfg === ""); [done|]. simpl.
  destruct (r_started r) eqn:St; [done|].
  destruct (_ && _); [eapply ok_frame; [by apply frame_status|done]|].
  pose proof (b_started r B St) as I. apply ok_connectRelay; [|exact I].
  destruct B. base_fields.
Qed.

Lemma ok_fires r : relay_ok r -> relay_ok (reconnectFires cfg r).
Proof.
  intros [B Hb]. unfold reconnectFires. destruct (r_reconnectTimer r) as [d|] eqn:Et; [|by split].
  assert (idle (with_r_reconnectTimer None r)) as I.
  { split; [|split; [done|simpl; apply (b_timer r B); eauto]]. simpl.
    destruct (r_connecting r) eqn:Ec; [|done]. apply (b_conn r B) in Ec. destruct Ec. congruence. }
  apply ok_connectRelay; [|done]. destruct B. base_fields.
  intros Hr. split; [by apply b_revoked0|done].
Qed.

Lemma ok_new_socket r :
  base r -> idle r -> r_started r = true -> r_revoked r = false ->
  (hasAccountCredentials cfg = true -> has_token r = true) ->
  relay_ok (with_r_relaySocket (Some (new_socket true r).1) (new_socket true r).2).
Proof.
  intros B (Hc & Ht & Hs) St Rv Htok. split; [|intros; right; right; simpl; eauto].
  destruct B. split; simpl; try done; try congruence.
  - intros s k [Hk|[Hle Hk]]%lookup_app_Some Hr.
    + rewrite (b_live0 s k) by done. split; [congruence|]. intros [= <-].
      apply lookup_lt_Some in Hk. lia.
    + apply list_lookup_singleton_Some in Hk as [Hi <-]. simpl. split; [|done]. intros _. f_equal. lia.
  - intros s [= <-]. exists (mkSocket true CONNECTING 0 false []). split; [|done].
    by rewrite lookup_app_r, Nat.sub_diag by lia.
  - intros [d Hd]. congruence.
  - left. destruct b_ready0; congruence.
  - intros Hw. destruct (b_connected0 Hw) as [[? ?] _]. congruence.
  - intros Ha s k _ _ _. by apply Htok.
  - intros s k v Hk Hv. apply (new_socket_lookup true r) in Hk as [Hk|[_ ->]]; [by eapply b_sent0|].
    by apply elem_of_nil in Hv.
Qed.

Lemma ok_continues refused r : relay_ok r -> relay_ok (connectContinues refused r).
Proof.
  intros [B Hb]. unfold connectContinues. destruct (r_connect r) as [[|result]|] eqn:Ec; [by split| |by split].
  assert (r_connecting r = true) as Hcon by (apply (b_connect r B); eauto).
  destruct (b_conn r B Hcon) as [Et Es].
  set (r1 := with_r_connecting false (with_r_connect None r)).
  assert (idle r1) as I by (by split_and!).
  assert (base r1) as B1.
  { unfold r1. destruct B. base_fields. rewrite b_enroll0. split; congruence. }
  destruct result as [e|]; [apply ok_schedule; [eapply base_frame|eapply idle_frame]; eauto using frame_error|].
  cbv zeta.
  destruct (negb (r_started r1) || r_revoked r1) eqn:Hg.
  { split; [done|]. apply orb_true_iff in Hg as [?%negb_true_iff|?]; congruence. }
  destruct refused as [e|]; [apply ok_schedule; [eapply base_frame|eapply idle_frame]; eauto using frame_error|].
  apply orb_false_iff in Hg as [Hst%negb_false_iff Hrv].
  apply ok_new_socket; try done. intros Ha. by apply (b_cred r B).
Qed.
Lemma ok_identity_await i f r :
  relay_ok r -> r_connect r = Some AwaitEnrollment -> relay_ok (with_r_file f (with_r_identity i r)).
Proof.
  intros [B Hb] Hc. split; [|done].
  assert (r_relaySocket r = None) as Hs by (apply (b_conn r B), (b_connect r B); eauto).
  destruct B. base_fields; intros; congruence.
Qed.

Lemma ok_login answer r : relay_ok r -> relay_ok (loginAnswered answer r).
Proof.
  intros H. unfold loginAnswered. destruct (r_enrollmentPromise r) as [[rotate|]|] eqn:E; try done.
  assert (r_connect r = Some AwaitEnrollment) as Hc by (apply (b_enroll r (proj1 H)); eauto).
  destruct answer; [by apply ok_settle|]. repeat case_match; try (by apply ok_settle). by apply ok_stage.
Qed.

Lemma ok_enrolled answer uuid r : relay_ok r -> relay_ok (enrollAnswered cfg answer uuid r).
Proof.
  intros H. unfold enrollAnswered. destruct (r_enrollmentPromise r) as [[|rotate]|] eqn:E; try done.
  assert (r_connect r = Some AwaitEnrollment) as Hc by (apply (b_enroll r (proj1 H)); eauto).
  destruct answer as [e|status json]; [by apply ok_settle|].
  destruct (http_ok status); simpl.
  - destruct (stringOr (prop "deviceToken" (readResponseBody json)) "" === "") eqn:Tk; simpl; [by apply ok_settle|].
    destruct (negb _); [by apply ok_settle|].
    unfold writeIdentity. destruct (r_disk _); simpl.
    + apply ok_settle; [|done|].
      * eapply ok_frame; [apply frame_status|by apply ok_identity_await]. done.
      * intros _ _. unfold has_token, str_truthy. simpl. by rewrite Tk.
    + apply ok_settle; [by apply ok_identity_await|done|done].
  - destruct (_ && _); [|by apply ok_settle].
    unfold writeIdentity. destruct (r_disk _); simpl.
    + apply ok_run_enrollment; [|done].
      eapply ok_frame; [apply frame_status|by apply ok_identity_await]. done.
    + apply ok_settle; [by apply ok_identity_await|done|done].
Qed.

(** ** Socket events *)

(** The cases of [(k_relay k, k_state k) ∈ kinds]. *)
Ltac kinds Hin :=
  repeat (apply elem_of_cons in Hin as [[=]|Hin]; [try split_and!; congruence|]); apply elem_of_nil in Hin.

Lemma can_spec s kinds r :
  can s kinds r = true -> exists k, r_sockets r !! s = Some k /\ (k_relay k, k_state k) ∈ kinds.
Proof. unfold can. destruct (r_sockets r !! s) as [k|]; [|done]. intros ?%bool_decide_eq_true. eauto. Qed.

Lemma hello_deviceHello r :
  (hasAccountCredentials cfg = true -> has_token r = true) -> hello_ok (deviceHello cfg r).
Proof.
  intros Ht Ha _. specialize (Ht Ha). unfold has_token in Ht. unfold deviceHello. rewrite Ht.
  unfold str_truthy in Ht. destruct (d_deviceToken (r_identity r)) as [tok|]; [|done]. by split_and!.
Qed.

Lemma frame_open s r k :
  r_sockets r !! s = Some k -> k_state k = CONNECTING -> frame r (update_socket s (with_k_state OPEN) r).
Proof.
  intros Hk Hc. apply frame_update. intros k' Hk'. assert (k' = k) as -> by congruence.
  split; [|auto]. unfold socket_evolves. simpl. rewrite Hc. by split_and!.
Qed.

Lemma frame_opened s r : relay_ok r -> can s [(true, CONNECTING)] r = true -> frame r (relayOpened cfg s r).
Proof.
  intros H Hcan. destruct (can_spec _ _ _ Hcan) as (k & Hk & Hin).
  apply list_elem_of_singleton in Hin. injection Hin as Hr Hc.
  assert (r_relaySocket r = Some s) as Hs by (apply (b_live r (proj1 H) s k); congruence).
  unfold relayOpened. simpl. rewrite bool_decide_true by done.
  set (r1 := emit_status _).
  assert (frame r r1) as F1 by (etrans; [by eapply frame_open|]; by apply frame_status).
  assert (frame r (safeRelaySend s (deviceHello cfg r1) r1).2) as F2.
  { etrans; [exact F1|]. apply frame_send, hello_deviceHello. intros Ha.
    unfold has_token. rewrite (fr_identity _ _ F1). by eapply (b_hello r (proj1 H)). }
  destruct (safeRelaySend _ _ _) as [b r2]. simpl in F2.
  etrans; [exact F2|]. etrans; [|apply frame_local]. frame_fields.
Qed.

(** While a relay socket is live nothing else is under way. *)
Lemma socket_excludes r s :
  base r -> r_relaySocket r = Some s -> r_connecting r = false /\ r_reconnectTimer r = None /\ r_connect r = None.
Proof.
  intros B Hs.
  assert (r_connecting r = false) as Hc.
  { destruct (r_connecting r) eqn:E; [|done]. apply (b_conn r B) in E as [_ ?]. congruence. }
  split_and!; [done| |].
  - apply eq_None_not_Some. intros Ht%(b_timer r B). congruence.
  - apply eq_None_not_Some. rewrite <- (b_connect r B). congruence.
Qed.

(** The current relay socket closes and is forgotten. *)
Lemma base_dropped r r' s :
  base r -> r_relaySocket r = Some s ->
  r_relaySocket r' = None -> r_relayReadySocket r' = None -> r_reconnectTimer r' = r_reconnectTimer r ->
  r_enrollmentPromise r' = r_enrollmentPromise r -> r_connecting r' = r_connecting r ->
  r_connect r' = r_connect r -> r_started r' = r_started r -> r_revoked r' = r_revoked r ->
  w_connected (r_status r') = false -> r_sockets r' = alter (with_k_state CLOSED) s (r_sockets r) ->
  base r' /\ idle r'.
Proof.
  intros B Hs Es Er Et Ee Ec Ect Est Erv Ew Ek.
  destruct (socket_excludes r s B Hs) as (Hc & Ht & Hct).
  split; [|split_and!; congruence]. destruct B.
  split; rewrite ?Es, ?Er, ?Et, ?Ee, ?Ec, ?Ect, ?Est, ?Erv, ?Ew; try done; auto.
  - intros t k. rewrite Ek, list_lookup_alter. case_decide as D.
    + intros (k0 & _ & ->)%fmap_Some _. simpl. naive_solver.
    + intros Hk Hr. rewrite (b_live0 t k) by done. split; congruence.
  - intros. congruence.
  - intros t k v. rewrite Ek, list_lookup_alter. case_decide; [|by apply b_sent0].
    intros (k0 & Hk0 & ->)%fmap_Some. simpl. by eapply b_sent0.
Qed.

Lemma frame_forget_local r :
  frame r (match r_gatewayEventSocket r with
           | Some g => with_r_gatewayEventSocket None (close_socket g r)
           | None => r
           end).
Proof. destruct (r_gatewayEventSocket r) as [g|]; [|apply frame_refl]. etrans; [apply (frame_close g)|]. frame_fields. Qed.

Lemma frame_reject e r : frame r (emit_status (reject_pending e r)).
Proof. frame_fields. Qed.

Lemma ok_finish b r :
  base (with_r_relayReadySocket None (with_r_relaySocket None r)) /\
  idle (with_r_relayReadySocket None (with_r_relaySocket None r)) -> relay_ok (finishDisconnect b r).
Proof.
  intros [B I]. unfold finishDisconnect.
  apply ok_schedule; [eapply base_frame, B | eapply idle_frame, I];
    (etrans; [apply frame_forget_local|apply frame_reject]).
Qed.

Lemma ok_disconnect s code reason r r' :
  relay_ok r -> r_relaySocket r = Some s ->
  handleRelayDisconnect s code reason (update_socket s (with_k_state CLOSED) r) = Some r' -> relay_ok r'.
Proof.
  intros [B _] Hs. unfold handleRelayDisconnect. simpl. rewrite Hs, bool_decide_true by done. simpl.
  assert (forall b r1, r_relaySocket r1 = Some s -> w_connected (r_status r1) = false ->
      r_sockets r1 = alter (with_k_state CLOSED) s (r_sockets r) ->
      r_reconnectTimer r1 = r_reconnectTimer r -> r_enrollmentPromise r1 = r_enrollmentPromise r ->
      r_connecting r1 = r_connecting r -> r_connect r1 = r_connect r -> r_started r1 = r_started r ->
      r_revoked r1 = r_revoked r -> relay_ok (finishDisconnect b r1)) as Hfin.
  { intros. apply ok_finish. by apply (base_dropped r _ s). }
  destruct (negb (bool_decide (r_relayReadySocket r = Some s))); [|intros E; apply Some_inj in E as <-; by apply Hfin].
  destruct (_ && negb _); [|intros E; apply Some_inj in E as <-; by apply Hfin].
  unfold store_identity, writeIdentity. simpl. destruct (r_disk r); [|done].
  intros E; apply Some_inj in E as <-. by apply Hfin.
Qed.

(** ** Messages *)

Lemma ok_store_live i s k r r' :
  relay_ok r -> r_relaySocket r = Some s -> r_sockets r !! s = Some k -> k_state k <> CONNECTING ->
  store_identity i r = Some r' ->
  relay_ok r' /\ r_relaySocket r' = Some s /\ r_sockets r' = r_sockets r /\ r_identity r' = i.
Proof.
  intros [B Hb] Hs Hk Hc. unfold store_identity, writeIdentity. simpl. destruct (r_disk r); [|done].
  intros E. apply Some_inj in E as <-. split; [|done]. split; [|done].
  destruct (socket_excludes r s B Hs) as (_ & _ & Hct). destruct B. base_fields; intros; congruence.
Qed.

Lemma ok_ready_status w b s r :
  relay_ok r -> r_relaySocket r = Some s ->
  relay_ok (set_status w (with_r_credentialRecoveryAttempted b (with_r_relayReadySocket (r_relaySocket r) r))).
Proof. intros [B Hb] Hs. split; [|done]. destruct B. base_fields. Qed.

Lemma ok_revoke s r :
  relay_ok r -> r_relaySocket r = Some s -> relay_ok (with_r_revoked true r).
Proof.
  intros [B Hb] Hs. split; [|done]. destruct (socket_excludes r s B Hs) as (? & ? & _).
  destruct B. base_fields.
Qed.

(** A message comes from the current socket. *)
Lemma message_socket s r :
  relay_ok r -> can s [(true, OPEN); (true, CLOSING)] r = true ->
  exists k, r_relaySocket r = Some s /\ r_sockets r !! s = Some k /\ k_state k <> CONNECTING.
Proof.
  intros H Hcan. destruct (can_spec _ _ _ Hcan) as (k & Hk & Hin).
  assert (k_relay k = true /\ k_state k <> CLOSED /\ k_state k <> CONNECTING) as (Hr & Hcl & Hcn) by (by kinds Hin).
  exists k. split_and!; [|done|done]. by apply (b_live r (proj1 H) s k).
Qed.

Lemma ok_message ho hv m inp s r r' :
  relay_ok r -> can s [(true, OPEN); (true, CLOSING)] r = true ->
  handleRelayMessage cfg ho hv m inp r = Some r' -> relay_ok r'.
Proof.
  intros H Hcan. destruct (message_socket s r H Hcan) as (k & Hs & Hk & Hcn).
  destruct m as [record|]; [|intros E; by apply Some_inj in E as <-].
  unfold handleRelayMessage. destruct (is_object record); [|intros E; by apply Some_inj in E as <-].
  assert (forall r1, Some r1 = Some r' -> frame r r1 -> relay_ok r') as Hframe.
  { intros r1 E F. apply Some_inj in E as <-. by eapply ok_frame. }
  cbv zeta.
  repeat match goal with |- (if ?b then _ else _) = _ -> _ => destruct b end.
  - unfold deviceReady. destruct (store_identity _ r) as [r1|] eqn:St; [|done].
    destruct (ok_store_live _ s k r r1 H Hs Hk Hcn St) as (H1 & Hs1 & _).
    intros E. apply Some_inj in E as <-. eapply ok_frame; [apply frame_syncSessions|].
    eapply ok_frame; [apply frame_emit|]. by eapply ok_ready_status.
  - unfold deviceCredential. destruct (_ && _); [|intros E; by apply Some_inj in E as <-].
    destruct (store_identity _ r) as [r1|] eqn:St; [|done].
    destruct (ok_store_live _ s k r r1 H Hs Hk Hcn St) as (H1 & Hs1 & _).
    intros E. apply Some_inj in E as <-. eapply ok_frame; [|exact H1]. by apply frame_status.
  - intros E. eapply Hframe; [exact E|]. apply frame_syncSessions.
  - unfold deviceRevoked. destruct (store_identity _ r) as [r1|] eqn:St; [|done].
    destruct (ok_store_live _ s k r r1 H Hs Hk Hcn St) as (H1 & Hs1 & _).
    intros E. apply Some_inj in E as <-. eapply ok_frame; [|eapply (ok_revoke s r1 H1 Hs1)].
    simpl. rewrite Hs1. etrans; [|apply frame_close]. by apply frame_status.
  - intros E. eapply Hframe; [exact E|]. apply frame_pairCode.
  - intros E. eapply Hframe; [exact E|]. apply frame_proxy.
  - intros E. eapply Hframe; [exact E|]. apply frame_refl.
Qed.

Lemma frame_localClosed s k r :
  r_sockets r !! s = Some k -> k_relay k = false -> frame r (localClosed s (update_socket s (with_k_state CLOSED) r)).
Proof.
  intros Hk Hr. etrans; [apply (frame_update s (with_k_state CLOSED))|].
  - intros k' Hk'. split; [|auto]. split; [done|]. congruence.
  - unfold localClosed. case_match; [|apply frame_refl]. cbv zeta. case_match; frame_fields.
Qed.

(** ** Every step *)

(** Steps that leave the connection alone. *)
Definition quiet_event (e : relay_event) : bool :=
  match e with
  | RStart | RReconnectFires | RLogin _ | REnroll _ _ | RContinue _ | RMessage _ _ _ | RClosed _ _ _ => false
  | _ => true
  end.

Lemma quiet_step ho hv e r :
  relay_ok r -> quiet_event e = true -> exists r1, relay_step cfg ho hv e r = Some r1 /\ frame r r1.
Proof.
  intros H. destruct e; try done; intros _; simpl; eexists; (split; [reflexivity|]).
  - destruct (can s [(true, CONNECTING)] r) eqn:C; [by apply frame_opened|].
    destruct (can s [(false, CONNECTING)] r) eqn:C'; [|apply frame_refl].
    destruct (can_spec _ _ _ C') as (k & Hk & Hin). apply list_elem_of_singleton in Hin.
    eapply frame_open; [done|congruence].
  - destruct (_ && _); [apply frame_error|apply frame_refl].
  - apply frame_beat.
  - apply frame_beat.
  - destruct (can _ _ _); [apply frame_localMessage|apply frame_refl].
  - destruct (r_local_timers r); [apply frame_refl|]. etrans; [|apply frame_local]. frame_fields.
  - apply frame_pairRequest.
  - apply frame_settle.
  - apply frame_syncNow.
  - apply frame_synced.
  - apply frame_proxied.
  - apply frame_update. intros k _. split; [|auto]. split; [done|]. simpl. intros _.
    by destruct (k_state k), closing.
  - frame_fields.
Qed.

(** A socket closes: the relay's, which is the current one, a local one, or
    none that was still open. *)
Lemma closed_cases ho hv s code reason r :
  relay_ok r ->
  (r_relaySocket r = Some s /\ relay_step cfg ho hv (RClosed s code reason) r =
     handleRelayDisconnect s code reason (update_socket s (with_k_state CLOSED) r)) \/
  (exists r1, relay_step cfg ho hv (RClosed s code reason) r = Some r1 /\ frame r r1).
Proof.
  intros H. simpl. destruct (can s [(true, CONNECTING); _; _] r) eqn:C.
  - left. split; [|done]. destruct (can_spec _ _ _ C) as (k & Hk & Hin).
    by apply (b_live r (proj1 H) s k Hk); kinds Hin.
  - right. destruct (can s [(false, CONNECTING); _; _] r) eqn:C'; [|eauto using frame_refl].
    destruct (can_spec _ _ _ C') as (k & Hk & Hin). eexists. split; [done|].
    eapply frame_localClosed; [done|]. by kinds Hin.
Qed.

Lemma ok_step ho hv e r r' : relay_ok r -> relay_step cfg ho hv e r = Some r' -> relay_ok r'.
Proof.
  intros H Hst. destruct (quiet_event e) eqn:Q.
  { destruct (quiet_step ho hv e r H Q) as (r1 & E & F). assert (r1 = r') as -> by congruence. by eapply ok_frame. }
  destruct e; try done; simpl in Hst; try (apply Some_inj in Hst as <-).
  - by apply ok_start.
  - by apply ok_fires.
  - by apply ok_login.
  - by apply ok_enrolled.
  - by apply ok_continues.
  - destruct (can s _ r) eqn:C; [by eapply ok_message|]. by apply Some_inj in Hst as <-.
  - destruct (closed_cases ho hv s code reason r H) as [[Hs E]|(r1 & E & F)];
      simpl in E; rewrite Hst in E; [by eapply ok_disconnect|].
    apply Some_inj in E as ->. by eapply ok_frame.
Qed.

Lemma boot_ok file disk : relay_ok (boot cfg file disk).
Proof. split; [|done]. split; simpl; try done; auto. Qed.

Lemma run_ok ho hv es r r' : relay_ok r -> relay_run cfg ho hv es r = Some r' -> relay_ok r'.
Proof.
  revert r. induction es as [|e es IH]; intros r H; simpl; [intros E; by apply Some_inj in E as <-|].
  destruct (relay_step cfg ho hv e r) as [r1|] eqn:E; [|done]. apply IH. by eapply ok_step.
Qed.

(** ** After a revocation *)

(** Revoked stays revoked, no relay socket appears, and none becomes current. *)
Definition settled_down (r r' : RelayClient) : Prop :=
  r_revoked r' = true /\
  (forall s k', r_sockets r' !! s = Some k' -> k_relay k' = true ->
     exists k, r_sockets r !! s = Some k /\ k_relay k = true) /\
  (r_relaySocket r' = None \/ r_relaySocket r' = r_relaySocket r).

Lemma down_frame r r' : r_revoked r = true -> frame r r' -> settled_down r r'.
Proof.
  intros Hr F. split; [by rewrite (fr_revoked _ _ F)|]. split; [|right; apply (fr_relaySocket _ _ F)].
  intros s k' Hk' Hrel. destruct (fr_new _ _ F s k' Hk' Hrel) as [k Hk]. exists k. split; [done|].
  destruct (fr_old _ _ F s k Hk) as (k2 & Hk2 & E & _). congruence.
Qed.

Lemma down_disconnect s code reason r r' :
  r_revoked r = true ->
  handleRelayDisconnect s code reason (update_socket s (with_k_state CLOSED) r) = Some r' -> settled_down r r'.
Proof.
  intros Hr. unfold handleRelayDisconnect.
  assert (forall r1, r_revoked r1 = true -> r_sockets r1 = alter (with_k_state CLOSED) s (r_sockets r) ->
    forall b, settled_down r (finishDisconnect b r1)) as Hfin.
  { intros r1 Hr1 Hk1 b. unfold finishDisconnect, scheduleReconnect.
    set (r2 := with_r_relayReadySocket None (with_r_relaySocket None r1)).
    match goal with |- context [emit_status (reject_pending ?e ?x)] =>
      assert (frame r2 (emit_status (reject_pending e x))) as F
        by (etrans; [apply frame_forget_local|apply frame_reject]); revert F;
      generalize (emit_status (reject_pending e x)); intros r3 F end.
    assert (r_revoked r3 = true) as Hr3 by (rewrite (fr_revoked _ _ F); done).
    rewrite Hr3, orb_true_r. simpl. split; [done|]. split; [|left; apply (fr_relaySocket _ _ F)].
    intros t k' Hk' Hrel. destruct (down_frame r2 r3) as (_ & Hn & _); [done|done|].
    destruct (Hn t k' Hk' Hrel) as (k2 & Hk2 & Hrel2).
    unfold r2 in Hk2. simpl in Hk2. rewrite Hk1, list_lookup_alter in Hk2.
    case_decide; [|eauto]. apply fmap_Some in Hk2 as (k0 & Hk0 & ->). subst. eauto. }
  destruct (negb (bool_decide (r_relaySocket _ = Some s))).
  { intros E. apply Some_inj in E as <-. split; [done|]. split; [|by right].
    intros t k'. simpl. rewrite list_lookup_alter. case_decide; [subst|eauto].
    intros (k0 & Hk0 & ->)%fmap_Some. eauto. }
  destruct (negb (bool_decide (r_relayReadySocket _ = Some s))); [|intros E; apply Some_inj in E as <-; by apply Hfin].
  destruct (_ && negb _); [|intros E; apply Some_inj in E as <-; by apply Hfin].
  unfold store_identity, writeIdentity. simpl. destruct (r_disk r); [|done].
  intros E; apply Some_inj in E as <-. by apply Hfin.
Qed.

Lemma down_same x r r' :
  r_revoked x = true -> r_sockets x = r_sockets r -> r_relaySocket x = r_relaySocket r ->
  frame x r' -> settled_down r r'.
Proof.
  intros Hr Hk Hs F. destruct (down_frame _ _ Hr F) as (? & Hn & ?). split; [done|].
  rewrite Hk in Hn. split; [done|]. by rewrite <- Hs.
Qed.

Lemma store_fields i r r1 :
  store_identity i r = Some r1 ->
  r_sockets r1 = r_sockets r /\ r_relaySocket r1 = r_relaySocket r /\ r_revoked r1 = r_revoked r.
Proof.
  unfold store_identity, writeIdentity. simpl. destruct (r_disk r); [|done].
  intros E. by apply Some_inj in E as <-.
Qed.

Lemma down_message ho hv m inp r r' :
  r_revoked r = true -> handleRelayMessage cfg ho hv m inp r = Some r' -> settled_down r r'.
Proof.
  intros Hr. assert (forall r1, Some r1 = Some r' -> frame r r1 -> settled_down r r') as Hframe.
  { intros r1 E F. apply Some_inj in E as <-. by apply down_frame. }
  destruct m as [record|]; [|intros E; eapply Hframe; [exact E|apply frame_refl]].
  unfold handleRelayMessage. destruct (is_object record); [|intros E; eapply Hframe; [exact E|apply frame_refl]].
  cbv zeta. repeat match goal with |- (if ?b then _ else _) = _ -> _ => destruct b end.
  - unfold deviceReady. destruct (store_identity _ r) as [r1|] eqn:St; [|done].
    destruct (store_fields _ _ _ St) as (Hk & Hs & Hr1). intros E. apply Some_inj in E as <-.
    eapply down_same; [..|etrans; [apply frame_emit|apply frame_syncSessions]]; simpl; congruence.
  - unfold deviceCredential. destruct (_ && _); [|intros E; eapply Hframe; [exact E|apply frame_refl]].
    destruct (store_identity _ r) as [r1|] eqn:St; [|done].
    destruct (store_fields _ _ _ St) as (Hk & Hs & Hr1). intros E. apply Some_inj in E as <-.
    apply (down_same r1); [congruence..|]. by apply frame_status.
  - intros E. eapply Hframe; [exact E|]. apply frame_syncSessions.
  - unfold deviceRevoked. destruct (store_identity _ r) as [r1|] eqn:St; [|done].
    destruct (store_fields _ _ _ St) as (Hk & Hs & Hr1). intros E. apply Some_inj in E as <-.
    apply (down_same (with_r_revoked true r1)); [done..|].
    simpl. destruct (r_relaySocket r1); [etrans; [|apply frame_close]|]; by apply frame_status.
  - intros E. eapply Hframe; [exact E|]. apply frame_pairCode.
  - intros E. eapply Hframe; [exact E|]. apply frame_proxy.
  - intros E. eapply Hframe; [exact E|]. apply frame_refl.
Qed.

Lemma down_step ho hv e r r' :
  relay_ok r -> r_revoked r = true -> relay_step cfg ho hv e r = Some r' -> settled_down r r'.
Proof.
  intros H Hr Hst. destruct (b_revoked r (proj1 H) Hr) as [Hc Ht].
  assert (r_connect r = None) as Hct by (apply eq_None_not_Some; rewrite <- (b_connect r (proj1 H)); congruence).
  assert (r_enrollmentPromise r = None) as He
    by (apply eq_None_not_Some; rewrite (b_enroll r (proj1 H)); congruence).
  assert (settled_down r r) as Hrefl by (apply down_frame; [done|apply frame_refl]).
  destruct (quiet_event e) eqn:Q.
  { destruct (quiet_step ho hv e r H Q) as (r1 & E & F). assert (r1 = r') as -> by congruence. by apply down_frame. }
  destruct e; try done; simpl in Hst; try (apply Some_inj in Hst as <-).
  - unfold start. destruct (_ || _); [done|]. destruct (_ && _); [apply down_frame; [done|by apply frame_status]|].
    unfold connectRelay. simpl. rewrite Hr. by split; [|split; [eauto|right]].
  - unfold reconnectFires. by rewrite Ht.
  - unfold loginAnswered. by rewrite He.
  - unfold enrollAnswered. by rewrite He.
  - unfold connectContinues. by rewrite Hct.
  - destruct (can s _ r); [by eapply down_message|]. by apply Some_inj in Hst as <-.
  - destruct (closed_cases ho hv s code reason r H) as [[Hs E]|(r1 & E & F)];
      simpl in E; rewrite Hst in E; [by eapply down_disconnect|].
    apply Some_inj in E as ->. by apply down_frame.
Qed.

Lemma down_run ho hv es r r' :
  relay_ok r -> r_revoked r = true -> relay_run cfg ho hv es r = Some r' -> settled_down r r'.
Proof.
  revert r. induction es as [|e es IH]; intros r H Hr; simpl.
  - intros E. apply Some_inj in E as <-. apply down_frame; [done|apply frame_refl].
  - destruct (relay_step cfg ho hv e r) as [r1|] eqn:E; [|done]. intros Hrun.
    destruct (down_step _ _ _ _ _ H Hr E) as (Hr1 & Hn1 & Hs1).
    destruct (IH r1) as (Hr2 & Hn2 & Hs2); [by eapply ok_step|done|done|].
    split; [done|]. split; [|destruct Hs1, Hs2; intuition congruence].
    intros s k' Hk' Hrel. destruct (Hn2 s k' Hk' Hrel) as (k1 & Hk1 & Hrel1). by apply (Hn1 s k1).
Qed.
End connection.

(** How many of the three things a connected client does are under way. *)
Definition activities (r : RelayClient) : nat :=
  (if r_connecting r then 1 else 0) + (if r_reconnectTimer r is Some _ then 1 else 0) +
  (if r_relaySocket r is Some _ then 1 else 0).

(** C30: in every state the client can reach, it does at most one of: asking for
    a credential, waiting to reconnect, holding a relay socket; once started,
    and unless its device was revoked, it does exactly one, so that it is never
    stuck disconnected and never connects twice. The relay socket it holds is
    the only one not closed, and it reports itself connected only when that
    socket has completed the device handshake. *)
Theorem one_relay_connection cfg headers_of header_value file disk es r
    (Hrun : relay_run cfg headers_of header_value es (boot cfg file disk) = Some r) :
  (activities r <= 1)%nat /\
  (r_started r = true -> r_revoked r = false -> activities r = 1%nat) /\
  (forall s k, r_sockets r !! s = Some k -> k_relay k = true ->
     (k_state k <> CLOSED <-> r_relaySocket r = Some s)) /\
  (w_connected (r_status r) = true ->
     exists s k, r_relaySocket r = Some s /\ r_relayReadySocket r = Some s /\
       r_sockets r !! s = Some k /\ k_state k <> CLOSED).
Proof.
  destruct (run_ok cfg _ _ es _ r (boot_ok cfg file disk) Hrun) as [B Hbusy].
  pose proof (b_conn cfg r B) as Hc. pose proof (b_timer cfg r B) as Ht.
  split; [|split; [|split]].
  - unfold activities. destruct (r_connecting r); [destruct Hc as [-> ->]; [done|lia]|].
    destruct (r_reconnectTimer r); [rewrite Ht by eauto; lia|]. destruct (r_relaySocket r); lia.
  - intros St Rv. destruct (Hbusy St Rv) as [E|[[d E]|[s E]]]; unfold activities; rewrite E.
    + destruct (Hc E) as [-> ->]. done.
    + rewrite Ht by eauto. destruct (r_connecting r); [|done]. destruct Hc; [done|congruence].
    + destruct (socket_excludes cfg r s B E) as (-> & -> & _). done.
  - apply (b_live cfg r B).
  - intros Hw. destruct (b_connected cfg r B Hw) as [[s Hs] Hr].
    destruct (b_socket cfg r B s Hs) as (k & Hk & Hrel). exists s, k.
    split_and!; [done|congruence|done|]. by apply (b_live cfg r B s k).
Qed.

(** A device that enrols with its account, connects and is greeted. *)
Definition demo_cfg : relay_config := {|
  cfg_relayUrl := "https://relay.example"; cfg_https := true; cfg_production := true;
  cfg_accountToken := "account"; cfg_accountUsername := ""; cfg_accountPassword := "";
  cfg_serverToken := "server"; cfg_deviceName := "pc"; cfg_publicOrigin := "http://127.0.0.1:8787";
  cfg_fallbackId := "d0"; cfg_localOrigin := "http://127.0.0.1:8787"; cfg_gatewayAuthToken := "t" |}.

Definition demo_input : sync_input := {| si_fallback := []; si_cursors := []; si_requestId := "r" |}.

Definition demo_connect : list relay_event :=
  [RStart; REnroll (Answered 200 (Some (VObj [("deviceToken", VStr "dt"); ("deviceId", VStr "d1")]))) "u";
   RContinue None; ROpened 0;
   RMessage 0 (Some (VObj [("type", VStr "device-ready"); ("deviceId", VStr "d1")])) demo_input].

#[local] Abbreviation demo_run es :=
  (relay_run demo_cfg demo_headers (fun _ => true) es (boot demo_cfg NoFile WriteDone)).

Definition demo_client (es : list relay_event) : RelayClient := default (boot demo_cfg NoFile WriteDone) (demo_run es).

Lemma one_relay_connection_witness :
  let r := demo_client demo_connect in
  demo_run demo_connect = Some r /\ w_connected (r_status r) = true /\
  activities r = 1%nat /\ exists s k, r_relaySocket r = Some s /\ r_sockets r !! s = Some k /\ k_state k = OPEN.
Proof.
  intros r. assert (demo_run demo_connect = Some r) as Hr by (vm_compute; reflexivity).
  assert (w_connected (r_status r) = true) as Hw by (vm_compute; reflexivity).
  destruct (one_relay_connection demo_cfg demo_headers (fun _ => true) NoFile WriteDone demo_connect r Hr)
    as (_ & H1 & _ & H2).
  destruct (H2 Hw) as (s & k & Hs & _ & Hk & _).
  split; [exact Hr|]. split; [exact Hw|]. split; [apply H1; vm_compute; reflexivity|].
  exists s, k. split; [exact Hs|]. split; [exact Hk|].
  vm_compute in Hs. injection Hs as <-. vm_compute in Hk. injection Hk as <-. reflexivity.
Defined.

(** C31: once the relay has revoked the device, whatever happens after: the
    client stays revoked, asks for no credential, schedules no reconnection and
    opens no further relay socket; when the current one closes it holds none
    and is not connected. *)
Theorem revocation_final cfg headers_of header_value file disk es es' r r'
    (Hrun : relay_run cfg headers_of header_value es (boot cfg file disk) = Some r)
    (Hrev : r_revoked r = true)
    (Hrun' : relay_run cfg headers_of header_value es' r = Some r') :
  r_revoked r' = true /\ r_connecting r' = false /\ r_reconnectTimer r' = None /\
  (forall s k', r_sockets r' !! s = Some k' -> k_relay k' = true ->
     exists k, r_sockets r !! s = Some k /\ k_relay k = true) /\
  (r_relaySocket r = None -> r_relaySocket r' = None /\ w_connected (r_status r') = false).
Proof.
  pose proof (run_ok cfg _ _ es _ r (boot_ok cfg file disk) Hrun) as H.
  destruct (down_run cfg _ _ _ _ _ H Hrev Hrun') as (Hr & Hn & Hs).
  destruct (run_ok cfg _ _ es' _ r' H Hrun') as [B _].
  destruct (b_revoked cfg r' B Hr) as [Hc Ht]. split_and!; try done.
  intros E. split; [destruct Hs; congruence|].
  - destruct (w_connected _) eqn:W; [|done].
    destruct (b_connected cfg r' B W) as [[s Hs'] _]. destruct Hs; congruence.
Qed.

(** with account credentials configured, every device handshake the client
    ever sends carries a device token issued to it, and neither a legacy device
    secret nor the server-wide registration token. *)
Theorem handshake_credentials cfg headers_of header_value file disk es r s k v
    (Haccount : hasAccountCredentials cfg = true)
    (Hrun : relay_run cfg headers_of header_value es (boot cfg file disk) = Some r)
    (Hsocket : r_sockets r !! s = Some k) (Hsent : v ∈ k_sent k)
    (Htype : prop "type" v = VStr "device-hello") :
  truthy (prop "deviceToken" v) = true /\ prop "deviceSecret" v = VUndef /\ prop "serverToken" v = VUndef.
Proof.
  destruct (run_ok cfg _ _ es _ r (boot_ok cfg file disk) Hrun) as [B _].
  by eapply (b_sent cfg r B).
Qed.

Lemma handshake_credentials_witness :
  exists v, prop "type" v = VStr "device-hello" /\ truthy (prop "deviceToken" v) = true /\
    prop "serverToken" v = VUndef /\ cfg_serverToken demo_cfg <> "".
Proof.
  assert (exists k v, r_sockets (demo_client demo_connect) !! 0%nat = Some k /\ v ∈ k_sent k /\
    prop "type" v = VStr "device-hello") as (k & v & Hk & Hv & Ht).
  { eexists _, _. split; [vm_compute; reflexivity|]. split; [left|reflexivity]. }
  destruct (handshake_credentials demo_cfg demo_headers (fun _ => true) NoFile WriteDone demo_connect
    (demo_client demo_connect) 0 k v eq_refl ltac:(vm_compute; reflexivity) Hk Hv Ht) as (H1 & _ & H2).
  exists v. split; [exact Ht|]. split; [exact H1|]. split; [exact H2|discriminate].
Defined.

Lemma revocation_final_witness :
  let revoke := [RMessage 0 (Some (VObj [("type", VStr "device-revoked")])) demo_input] in
  let later := [RClosed 0 4003 "device revoked"; RStart; RReconnectFires] in
  exists r', relay_run demo_cfg demo_headers (fun _ => true) later (demo_client (demo_connect ++ revoke)) = Some r' /\
    r_connecting r' = false /\ r_reconnectTimer r' = None.
Proof.
  intros revoke later.
  assert (exists r', relay_run demo_cfg demo_headers (fun _ => true) later
    (demo_client (demo_connect ++ revoke)) = Some r') as [r' Hr'] by (eexists; vm_compute; reflexivity).
  destruct (revocation_final demo_cfg demo_headers (fun _ => true) NoFile WriteDone (demo_connect ++ revoke) later
    (demo_client (demo_connect ++ revoke)) r' ltac:(vm_compute; reflexivity) ltac:(vm_compute; reflexivity) Hr')
    as (_ & Hc & Ht & _).
  exists r'. split; [exact Hr'|]. split; [exact Hc|exact Ht].
Defined.

(** A failing write of the identity file while a relay message is handled is
    caught by nothing: the step has no successor. *)
Lemma identity_write_failure_fatal :
  demo_run (take 4 demo_connect ++ [RDiskChanges (WriteFails "ENOSPC" NoFile)] ++ drop 4 demo_connect) = None.
Proof. vm_compute. reflexivity. Qed.
