(* ===== verification/Threads.v ===== *)
(** * Codex threads

    server/src/threads.ts: the session index, the metadata and the timeline read
    from rollout files, and the pages of the thread list; and the parts of
    server/src/index.ts that look threads up and turn their details into
    gateway events. Files are given by their lines after [JSON.parse], [None]
    for a line that does not parse; [None] as a result is a thrown error. The
    collation of [localeCompare] is an argument. *)

From S2P Require Import Prelude JsValue JsDate Json GatewayStore CodexEvents Sessions.

Local Open Scope Z_scope.

Abbreviation lines := (list (option val)).

(** ** Rollout files *)

Record RolloutMetadata := mkMeta {
  md_cwd : option string; md_preview : option string; md_model : option string;
  md_modelProvider : option string; md_source : option string;
  md_createdAtMs : option Z; md_updatedAtMs : option Z
}.

Definition no_metadata : RolloutMetadata := mkMeta None None None None None None None.

(** [payload?.key ?? old] for a property that is a string. *)
Definition str_over (key : string) (payload : val) (old : option string) : option string :=
  match str_prop key payload with Some s => Some s | None => old end.

(** [Date.parse(value ?? "")] *)
Definition parse_time (value : val) : option Z := date_parse (default "" (as_str value)).

(** One entry; [None] when the entry is [null] and reading its timestamp throws. *)
Definition metadata_entry (md : RolloutMetadata) (entry : val) : option RolloutMetadata :=
  match entry with
  | VNull | VUndef => None
  | _ =>
      let md := match parse_time (prop "timestamp" entry) with
                | Some t =>
                    mkMeta (md_cwd md) (md_preview md) (md_model md) (md_modelProvider md) (md_source md)
                      (Some (default t (md_createdAtMs md))) (Some t)
                | None => md
                end in
      let payload := prop "payload" entry in
      let type := str_prop "type" entry in
      let md := if opt_str_eqb type (Some "session_meta") then
                  mkMeta (str_over "cwd" payload (md_cwd md)) (md_preview md) (str_over "model" payload (md_model md))
                    (str_over "model_provider" payload (md_modelProvider md))
                    (str_over "source" payload (md_source md)) (md_createdAtMs md) (md_updatedAtMs md)
                else md in
      Some (if negb (str_truthy (md_preview md)) && opt_str_eqb type (Some "event_msg")
               && opt_str_eqb (str_prop "type" payload) (Some "user_message") then
              mkMeta (md_cwd md) (Some (slice0 240 (to_string (nullish (prop "message" payload) (VStr "")))))
                (md_model md) (md_modelProvider md) (md_source md) (md_createdAtMs md) (md_updatedAtMs md)
            else md)
  end.

Fixpoint metadata_from (index : nat) (md : RolloutMetadata) (l : lines) : option RolloutMetadata :=
  match l with
  | [] => Some md
  | None :: l => metadata_from (S index) md l
  | Some entry :: l =>
      md ← metadata_entry md entry;
      if (80 <? index)%nat && str_truthy (md_preview md) && str_truthy (md_cwd md) then Some md
      else metadata_from (S index) md l
  end.

Definition readRolloutMetadata (l : lines) : option RolloutMetadata := metadata_from 0 no_metadata l.

Definition NEWLINE : string := String (Ascii.ascii_of_nat 10) "".

(** [parts.map(...).filter(Boolean).join("\n")] *)
Definition join_texts (l : list string) : string := join NEWLINE (List.filter (fun s => s !== "") l).

Definition text_part (v : val) : val := VObj [("type", VStr "text"); ("text", v)].

Definition rollout_item (id : string) (entry : val) : list val :=
  let payload := prop "payload" entry in
  let type := str_prop "type" entry in
  let kind t := opt_str_eqb (str_prop "type" payload) (Some t) in
  if opt_str_eqb type (Some "event_msg") && kind "user_message" then
    [VObj [("id", VStr id); ("type", VStr "userMessage");
           ("content", VArr [text_part (nullish (prop "message" payload) (VStr ""))])]]
  else if negb (opt_str_eqb type (Some "response_item")) || negb (truthy payload) then []
  else if kind "message" then
    let text := match prop "content" payload with
                | VArr parts => join_texts (map (fun part =>
                    to_string (nullish (nullish (prop "text" part) (prop "output_text" part)) (VStr ""))) parts)
                | _ => ""
                end in
    let user := opt_str_eqb (str_prop "role" payload) (Some "user") in
    [VObj [("id", VStr id); ("type", VStr (if user then "userMessage" else "agentMessage"));
           ("text", VStr text); ("content", if user then VArr [text_part (VStr text)] else VUndef)]]
  else if kind "function_call" then
    [VObj [("id", VStr id); ("type", VStr "commandExecution");
           ("command", VStr (to_string (prop "name" payload) ^^ " " ^^
                             to_string (nullish (prop "arguments" payload) (VStr ""))));
           ("status", VStr "completed"); ("aggregatedOutput", VNull)]]
  else if kind "function_call_output" then
    [VObj [("id", VStr id); ("type", VStr "commandExecution");
           ("command", VStr ("output for " ^^ to_string (nullish (prop "call_id" payload) (VStr "call"))));
           ("status", VStr "completed");
           ("aggregatedOutput", match prop "output" payload with
                                | VStr s => VStr s
                                | VUndef => VUndef
                                | v => VStr (stringify v)
                                end)]]
  else if kind "reasoning" then
    match prop "summary" payload with
    | VArr l =>
        let summary := join NEWLINE (map (fun v => match v with VUndef | VNull => "" | _ => to_string v end) l) in
        if summary === "" then []
        else [VObj [("id", VStr id); ("type", VStr "reasoning"); ("text", VStr summary)]]
    | _ => []
    end
  else [].

Fixpoint rollout_items (index : nat) (l : lines) : option (list val) :=
  match l with
  | [] => Some []
  | None :: l => rollout_items (S index) l
  | Some VNull :: _ | Some VUndef :: _ => None
  | Some entry :: l =>
      rest ← rollout_items (S index) l;
      let position := zstr (Z.of_nat index) in
      let id := to_string (nullish (prop "timestamp" entry) (VStr position)) ^^ ":" ^^ position in
      Some (rollout_item id entry ++ rest)
  end.

Definition readRolloutItems (l : lines) : option (list val) := rollout_items 0 l.

(** [Math.floor(ms / 1000)] *)
Definition seconds (ms : Z) : val := vint (ms / 1000).

Definition readThreadFallbackFromRollout (rollout : string -> option (string * lines)) (now : Z)
    (threadId : string) : option val :=
  '(path, l) ← rollout threadId;
  md ← readRolloutMetadata l;
  items ← readRolloutItems l;
  let createdAt := seconds (default now (md_createdAtMs md)) in
  let updatedAt := seconds (default (default now (md_createdAtMs md)) (md_updatedAtMs md)) in
  let preview := default "" (md_preview md) in
  Some (VObj [("fallback", VBool true); ("thread", VObj
    [("id", VStr threadId); ("name", VStr (if preview === "" then "Untitled" else preview));
     ("preview", VStr preview); ("ephemeral", VBool false);
     ("modelProvider", VStr (default "codex" (md_modelProvider md)));
     ("createdAt", createdAt); ("updatedAt", updatedAt); ("status", VObj [("type", VStr "notLoaded")]);
     ("path", VStr path); ("cwd", VStr (default "" (md_cwd md))); ("cliVersion", VNull);
     ("source", VStr (default "rollout" (md_source md))); ("agentNickname", VNull); ("agentRole", VNull);
     ("gitInfo", VNull);
     ("turns", VArr [VObj [("id", VStr (threadId ^^ ":rollout")); ("status", VStr "completed"); ("error", VNull);
                           ("startedAt", createdAt); ("completedAt", updatedAt); ("durationMs", VNull);
                           ("items", VArr items)]])])]).

(** ** The session index *)

Definition parseIndexLine (line : option val) : option val :=
  match line with
  | Some row => match str_prop "id" row with Some _ => Some row | None => None end
  | None => None
  end.

(** [a || b] on optional numbers: 0 is falsy. *)
Definition ms_or (a : option Z) (b : Z) : Z := match a with Some z => if z =? 0 then b else z | None => b end.

Definition indexRowToThreadSummary (rollout : string -> option (string * lines)) (now : Z) (row : val)
    : option ThreadSummary :=
  let id := default "" (str_prop "id" row) in
  md ← match rollout id with Some (_, l) => readRolloutMetadata l | None => Some no_metadata end;
  let updatedAtMs := ms_or (parse_time (prop "updated_at" row)) (ms_or (md_updatedAtMs md) now) in
  let createdAtMs := ms_or (md_createdAtMs md) updatedAtMs in
  let preview := default "" (md_preview md) in
  let title := default "" (str_prop "thread_name" row) in
  Some (mkThread id (if title === "" then (if preview === "" then "Untitled" else preview) else title)
    (default "" (md_cwd md)) preview (md_model md) (default "codex" (md_modelProvider md))
    (default "session_index" (md_source md)) "notLoaded" createdAtMs updatedAtMs 0 false None).

(** [Math.min(Math.max(limit || 40, 1), 100)] *)
Definition safeLimit (limit : Z) : nat := Z.to_nat (Z.min (Z.max (if limit =? 0 then 40 else limit) 1) 100).

Section index.
(** [localeCompare(a, b) < 0] *)
Context (locale_lt : string -> string -> bool).

(** The order of the list: newest first, then by descending id. *)
Definition before (left right : ThreadSummary) : bool :=
  (th_updatedAtMs right <? th_updatedAtMs left) ||
  ((th_updatedAtMs right =? th_updatedAtMs left) && locale_lt (th_id right) (th_id left)).

(** Cursor 0, like no cursor, does not filter. *)
Definition past (cursor : option Z) (t : ThreadSummary) : bool :=
  match cursor with Some c => (c =? 0) || (th_updatedAtMs t <? c) | None => true end.

Definition thread_page (limit : Z) (cursor : option Z) (threads : list ThreadSummary)
    : list ThreadSummary * option Z :=
  let rows := isort before (List.filter (past cursor) threads) in
  let page := take (S (safeLimit limit)) rows in
  let data := take (safeLimit limit) page in
  (data, if (safeLimit limit <? length page)%nat then th_updatedAtMs <$> last data else None).

(** The summaries of the index, in the order of its lines. *)
Definition index_threads (rollout : string -> option (string * lines)) (now : Z) (l : lines)
    : option (list ThreadSummary) :=
  mapM (indexRowToThreadSummary rollout now) (omap parseIndexLine l).

(** [None]: no index, or a rollout that cannot be read. *)
Definition listThreadsFromIndex (rollout : string -> option (string * lines)) (now : Z)
    (indexFile : option lines) (limit : Z) (cursor : option Z) : option (list ThreadSummary * option Z) :=
  l ← indexFile; thread_page limit cursor <$> index_threads rollout now l.

(** [findThreadSummary]: at most ten pages of a list function. *)
Fixpoint find_pages (pages : nat) (list_threads : option Z -> option (list ThreadSummary * option Z))
    (threadId : string) (cursor : option Z) : option (option ThreadSummary) :=
  match pages with
  | O => Some None
  | S n =>
      '(data, nextCursor) ← list_threads cursor;
      match List.find (fun t => th_id t === threadId) data with
      | Some t => Some (Some t)
      | None => match nextCursor with
                | None => Some None
                | Some c => find_pages n list_threads threadId (Some c)
                end
      end
  end.

Definition findThreadSummary := find_pages 10.

(** A client that follows [nextCursor] to the end of the list; [None] when it
    has not come to the end after [fuel] pages. *)
Fixpoint follow (fuel : nat) (list_threads : option Z -> option (list ThreadSummary * option Z))
    (cursor : option Z) : option (list (list ThreadSummary)) :=
  match fuel with
  | O => None
  | S n =>
      '(data, nextCursor) ← list_threads cursor;
      match nextCursor with
      | None => Some [data]
      | Some c => cons data <$> follow n list_threads (Some c)
      end
  end.
End index.

(** ** Details as events *)

Definition timelineItemText (record : val) : string :=
  match prop "text" record with
  | VStr s => s
  | _ =>
      match prop "content" record with
      | VArr parts => join_texts (map (fun part =>
          if has_prop "text" part then to_string (nullish (prop "text" part) (VStr "")) else "") parts)
      | _ => default (default "" (str_prop "aggregatedOutput" record)) (str_prop "command" record)
      end
  end.

Definition array_of (v : val) : list val := default [] (as_array v).

Definition item_event (sessionId : string) (now : string) (seq : nat) (record : val) : GatewayMessage :=
  mkMessage "session-output" None (Some sessionId) now
    (VObj [("sessionId", VStr sessionId);
           ("stream", VStr (if opt_str_eqb (str_prop "type" record) (Some "commandExecution") then "stdout" else "event"));
           ("chunk", VStr (timelineItemText record)); ("format", VStr "jsonl");
           ("eventType", prop "type" record); ("jsonPayload", compactUnknown record)])
    (Some (Z.of_nat seq)).

(** The two loops push one event per item, numbered from 1. *)
Definition threadDetailToGatewayEvents (now : string) (detail : val) : list GatewayMessage :=
  let thread := prop "thread" detail in
  let sessionId := default "" (str_prop "id" thread) in
  foldl (fun events turn =>
    foldl (fun events item => events ++ [item_event sessionId now (S (length events)) item])
      events (array_of (prop "items" turn))) [] (array_of (prop "turns" thread)).

Definition gatewayEventToTimelineItem (raw : GatewayMessage -> val) (m : GatewayMessage) : val :=
  let payload := nullish (m_payload m) (VObj []) in
  let eventType := default (m_type m) (str_prop "eventType" payload) in
  let text := match prop "chunk" payload with
              | VStr s => s
              | _ => match prop "prompt" payload with VStr s => s | _ => stringify payload end
              end in
  VObj [("id", VStr (m_timestamp m ^^ ":" ^^ eventType)); ("type", VStr eventType); ("text", VStr text);
        ("raw", raw m)].

Definition gatewaySessionToThreadDetail (now : Z) (items : list val) (session : GatewaySession) : val :=
  let createdAt := seconds (ms_or (date_parse (s_createdAt session)) now) in
  let updatedAt := seconds (ms_or (date_parse (s_lastUpdatedAt session)) now) in
  VObj [("fallback", VBool true); ("degraded", VBool true); ("thread", VObj
    [("id", VStr (s_id session));
     ("name", VStr (str_or (s_title session) (str_or (s_prompt session) "Codex 会话")));
     ("preview", VStr (s_prompt session)); ("ephemeral", VBool false);
     ("modelProvider", VStr (default "codex" (fget (s_modelProvider session))));
     ("createdAt", createdAt); ("updatedAt", updatedAt);
     ("status", VObj [("type", VStr (status_str (s_status session)))]); ("path", VStr "");
     ("cwd", VStr (s_workspacePath session)); ("cliVersion", VNull); ("source", VStr "gateway");
     ("agentNickname", VNull); ("agentRole", VNull); ("gitInfo", VNull);
     ("turns", VArr [VObj [("id", VStr (s_id session ^^ ":gateway"));
                           ("status", VStr (status_str (s_status session))); ("error", VNull);
                           ("startedAt", createdAt); ("completedAt", updatedAt); ("durationMs", VNull);
                           ("items", VArr items)]])])].

(** [readThreadDetail]: Codex, else the local history, else the stored session;
    [None] when all three fail. *)
Definition readThreadDetail (fromCodex fallback : option val) (session : option val) : option val :=
  match fromCodex with
  | Some v => Some v
  | None => match fallback with Some v => Some v | None => session end
  end.

(** The history half of GET /sessions/:id/events: the events after [after], at
    most [limit] of them, the cursor to go on from, and whether more remain. *)
Definition history_page (after : Z) (limit : nat) (all : list GatewayMessage)
    : list GatewayMessage * Z * bool :=
  let pending := List.filter (fun m => after <? seq_of m) all in
  let page := take limit pending in
  (page, default after (last page ≫= m_eventSeq), (length page <? length pending)%nat).

(** ** Pages *)

Lemma StronglySorted_List_filter {A} (R : A -> A -> Prop) p l :
  StronglySorted R l -> StronglySorted R (List.filter p l).
Proof.
  induction 1 as [|x l _ IH Hx]; simpl; [constructor|]. destruct (p x); [|done]. constructor; [done|].
  rewrite Forall_forall in *. intros y Hy. apply Hx. apply list_elem_of_In in Hy.
  apply List.filter_In in Hy as [Hy _]. by apply list_elem_of_In.
Qed.

Lemma NoDup_key_inj {A B} (f : A -> B) l x y : NoDup (f <$> l) -> x ∈ l -> y ∈ l -> f x = f y -> x = y.
Proof.
  intros Hn Hx Hy E. apply list_elem_of_lookup in Hx as [i Hi], Hy as [j Hj].
  assert (i = j) as ->; [|congruence].
  apply (NoDup_lookup (f <$> l) i j (f x) Hn); rewrite list_lookup_fmap; [by rewrite Hi|by rewrite Hj, E].
Qed.

Lemma find_app {A} (p : A -> bool) l l' :
  List.find p (l ++ l') = match List.find p l with Some x => Some x | None => List.find p l' end.
Proof. induction l as [|x l IH]; simpl; [done|]. by destruct (p x). Qed.

Lemma filter_everything {A} (p : A -> bool) l : (forall x, x ∈ l -> p x = true) -> List.filter p l = l.
Proof.
  induction l as [|x l IH]; intros H; simpl; [done|]. rewrite (H x) by apply list_elem_of_here.
  f_equal. apply IH. intros. apply H. by right.
Qed.

Lemma filter_nothing {A} (p : A -> bool) l : (forall x, x ∈ l -> p x = false) -> List.filter p l = [].
Proof.
  induction l as [|x l IH]; intros H; simpl; [done|]. rewrite (H x) by apply list_elem_of_here.
  apply IH. intros. apply H. by right.
Qed.

Section pages.
Context (locale_lt : string -> string -> bool).
Context (collation_asym : forall a b, locale_lt a b = true -> locale_lt b a = false).
Context (collation_trans : forall a b c, locale_lt a b = false -> locale_lt b c = false -> locale_lt a c = false).

#[local] Abbreviation sorted := (isort (before locale_lt)).
#[local] Abbreviation newest := (fun x y => th_updatedAtMs y <= th_updatedAtMs x).

Lemma before_trans x y z :
  before locale_lt x y = false -> before locale_lt y z = false -> before locale_lt x z = false.
Proof using collation_trans.
  unfold before. rewrite !orb_false_iff, !andb_false_iff, !Z.ltb_ge, !Z.eqb_neq.
  intros [H1 H2] [H3 H4]. split; [lia|].
  destruct H2 as [?|H2]; [lia|]. destruct H4 as [?|H4]; [lia|]. eauto.
Qed.

Lemma before_asym x y : before locale_lt x y = true -> before locale_lt y x = false.
Proof using collation_asym.
  unfold before. rewrite orb_true_iff, andb_true_iff, orb_false_iff, andb_false_iff, Z.ltb_lt, Z.ltb_ge, Z.eqb_eq, Z.eqb_neq.
  intros [?|[? ?]]; [lia|]. split; [lia|]. right. auto.
Qed.

Lemma sorted_newest l : StronglySorted newest (sorted l).
Proof using collation_asym collation_trans.
  pose proof (isort_sorted _ before_trans before_asym l) as H.
  induction H as [|x l' _ IH Hx]; constructor; [done|].
  eapply Forall_impl; [exact Hx|]. simpl. unfold before. intros y. rewrite orb_false_iff, Z.ltb_ge. tauto.
Qed.

Lemma sorted_filter p l :
  NoDup (th_updatedAtMs <$> l) -> sorted (List.filter p l) = List.filter p (sorted l).
Proof using collation_asym collation_trans.
  intros Hn. apply (StronglySorted_unique_strong newest).
  - intros x y Hx Hy ? ?. rewrite isort_perm in Hx.
    apply list_elem_of_In in Hx, Hy. apply List.filter_In in Hx as [Hx _], Hy as [Hy _].
    apply list_elem_of_In in Hx, Hy. rewrite isort_perm in Hy.
    eapply (NoDup_key_inj th_updatedAtMs); [done..|]. lia.
  - apply sorted_newest.
  - apply StronglySorted_List_filter, sorted_newest.
  - rewrite isort_perm. by rewrite (Permutation_List_filter p _ _ (isort_perm (before locale_lt) l)).
Qed.

(** The rows after the last one of a page are those its cursor lets through. *)
Lemma cursor_rest l pre t rest :
  NoDup (th_updatedAtMs <$> l) -> 0 < th_updatedAtMs t -> sorted l = (pre ++ [t]) ++ rest ->
  List.filter (past (Some (th_updatedAtMs t))) (sorted l) = rest.
Proof using collation_asym collation_trans.
  intros Hn Hpos E. pose proof (sorted_newest l) as Hs.
  assert (NoDup (th_updatedAtMs <$> sorted l)) as Hn' by (by rewrite isort_perm).
  rewrite E in *. rewrite fmap_app, fmap_app in Hn'. rewrite StronglySorted_app in Hs.
  destruct Hs as (Hle & Hpre & _). rewrite StronglySorted_app in Hpre. destruct Hpre as (Hpre & _).
  apply NoDup_app in Hn' as (_ & Hd & _).
  assert (forall x, past (Some (th_updatedAtMs t)) x = (th_updatedAtMs x <? th_updatedAtMs t)) as Hp.
  { intros x. unfold past. destruct (Z.eqb_spec (th_updatedAtMs t) 0); [lia|done]. }
  rewrite List.filter_app, filter_nothing, filter_everything; [done| |].
  - intros x Hx. rewrite Hp. apply Z.ltb_lt.
    assert (th_updatedAtMs x <= th_updatedAtMs t) by (apply Hle; set_solver).
    assert (th_updatedAtMs x <> th_updatedAtMs t); [|lia].
    intros Ex. apply (Hd (th_updatedAtMs t)); [set_solver|]. rewrite <- Ex.
    apply list_elem_of_fmap. eauto.
  - intros x Hx. rewrite Hp. apply Z.ltb_ge. apply elem_of_app in Hx as [Hx|Hx].
    + apply Hpre; [done|set_solver].
    + apply list_elem_of_singleton in Hx as ->. lia.
Qed.

Lemma safeLimit_pos limit : (1 <= safeLimit limit <= 100)%nat.
Proof. unfold safeLimit. lia. Qed.

(** A page is the next stretch of the sorted list, with a cursor exactly when
    something follows it. *)
Lemma page_step l limit cursor pre rest :
  NoDup (th_updatedAtMs <$> l) -> Forall (fun t => 0 < th_updatedAtMs t) l ->
  sorted l = pre ++ rest -> List.filter (past cursor) (sorted l) = rest ->
  let L := safeLimit limit in
  ((length rest <= L)%nat /\ thread_page locale_lt limit cursor l = (rest, None)) \/
  exists c, thread_page locale_lt limit cursor l = (take L rest, Some c) /\
    List.filter (past (Some c)) (sorted l) = drop L rest /\ (L < length rest)%nat.
Proof using collation_asym collation_trans.
  intros Hn Hpos E Hrest L. pose proof (safeLimit_pos limit) as HL. unfold thread_page.
  rewrite (sorted_filter (past cursor) l Hn), Hrest. fold L.
  rewrite take_take, Nat.min_l by lia. rewrite length_take.
  destruct (Nat.ltb_spec L (S L `min` length rest)) as [Hlt|Hge].
  - right. destruct (last (take L rest)) as [t|] eqn:Et.
    2:{ apply last_None in Et. apply (f_equal length) in Et. rewrite length_take in Et. simpl in Et. lia. }
    simpl. exists (th_updatedAtMs t). split; [done|]. split; [|lia].
    apply last_Some in Et as [pre' Et].
    assert (t ∈ l) as Ht.
    { rewrite <- (isort_perm (before locale_lt) l), E. apply elem_of_app. right.
      rewrite <- (take_drop L rest), Et. set_solver. }
    apply (cursor_rest l (pre ++ pre')); [done| |].
    + rewrite Forall_forall in Hpos. auto.
    + rewrite E, <- (take_drop L rest) at 1. rewrite Et. by rewrite !app_assoc.
  - left. assert (length rest <= L)%nat by lia. split; [done|]. by rewrite take_ge by lia.
Qed.

Lemma follow_rest l limit n : forall cursor pre rest,
  NoDup (th_updatedAtMs <$> l) -> Forall (fun t => 0 < th_updatedAtMs t) l ->
  sorted l = pre ++ rest -> List.filter (past cursor) (sorted l) = rest -> (length rest < n)%nat ->
  exists pages, follow n (fun c => Some (thread_page locale_lt limit c l)) cursor = Some pages /\ List.concat pages = rest /\
    Forall (fun page => (length page <= safeLimit limit)%nat) pages.
Proof using collation_asym collation_trans.
  induction n as [|n IH]; intros cursor pre rest Hn Hpos E Hrest Hlen; [lia|]. cbn [follow]. cbv beta.
  pose proof (safeLimit_pos limit) as HL.
    destruct (page_step l limit cursor pre rest Hn Hpos E Hrest) as [[Hle ->]|(c & -> & Hc & Hlt)]; simpl.
  - exists [rest]. split_and!; [done|by simpl; rewrite app_nil_r|by repeat constructor].
  - destruct (IH (Some c) (pre ++ take (safeLimit limit) rest) (drop (safeLimit limit) rest))
      as (pages & Hf & Hcat & Hall); try done.
    { by rewrite <- app_assoc, take_drop. }
    { rewrite length_drop. lia. }
    exists (take (safeLimit limit) rest :: pages). split_and!; [by rewrite Hf|simpl; by rewrite Hcat, take_drop|].
    constructor; [rewrite length_take; lia|done].
Qed.

Lemma find_rest l limit tid k : forall cursor pre rest,
  NoDup (th_updatedAtMs <$> l) -> Forall (fun t => 0 < th_updatedAtMs t) l ->
  sorted l = pre ++ rest -> List.filter (past cursor) (sorted l) = rest ->
  find_pages k (fun c => Some (thread_page locale_lt limit c l)) tid cursor =
  Some (List.find (fun t => th_id t === tid) (take (k * safeLimit limit) rest)).
Proof using collation_asym collation_trans.
  induction k as [|k IH]; intros cursor pre rest Hn Hpos E Hrest; [done|]. cbn [find_pages]. cbv beta.
  destruct (page_step l limit cursor pre rest Hn Hpos E Hrest) as [[Hle ->]|(c & -> & Hc & Hlt)]; simpl.
  - rewrite take_ge by lia. by destruct (List.find _ rest).
  - rewrite (IH (Some c) (pre ++ take (safeLimit limit) rest) (drop (safeLimit limit) rest)); try done.
    2:{ by rewrite <- app_assoc, take_drop. }
    replace (take (safeLimit limit + k * safeLimit limit) rest)
      with (take (safeLimit limit) rest ++ take (k * safeLimit limit) (drop (safeLimit limit) rest))
      by (by rewrite take_take_drop).
    rewrite find_app. by destruct (List.find _ (take (safeLimit limit) rest)).
Qed.
End pages.

Lemma find_pages_ext n f g tid cursor :
  (forall c, f c = g c) -> find_pages n f tid cursor = find_pages n g tid cursor.
Proof.
  intros H. revert cursor. induction n as [|n IH]; intros cursor; simpl; [done|]. rewrite H.
  destruct (g cursor) as [[data [c|]]|]; simpl; [|done..]. by rewrite IH.
Qed.

Lemma follow_ext n f g cursor : (forall c, f c = g c) -> follow n f cursor = follow n g cursor.
Proof.
  intros H. revert cursor. induction n as [|n IH]; intros cursor; simpl; [done|]. rewrite H.
  destruct (g cursor) as [[data [c|]]|]; simpl; [|done..]. by rewrite IH.
Qed.

(** C32: the pages of the thread list read from the session index. When no two
    threads were updated in the same millisecond and every time is positive
    (ties are lost: [tied_threads_skipped]), a client that follows
    [nextCursor] comes to an end, within one page per thread and one more, and
    has then seen every thread of the index exactly once, newest first, in
    pages within the limit; and the lookup of a thread by id over the index
    finds exactly those among the thousand newest. *)
Theorem thread_pages_complete locale_lt rollout now l limit threads
    (collation_asym : forall a b, locale_lt a b = true -> locale_lt b a = false)
    (collation_trans : forall a b c, locale_lt a b = false -> locale_lt b c = false -> locale_lt a c = false)
    (Hindex : index_threads rollout now l = Some threads)
    (Hdistinct : NoDup (th_updatedAtMs <$> threads))
    (Hpositive : Forall (fun t => 0 < th_updatedAtMs t) threads) :
  (exists pages,
     follow (S (length threads)) (listThreadsFromIndex locale_lt rollout now (Some l) limit) None = Some pages /\
     List.concat pages ≡ₚ threads /\
     StronglySorted (fun x y => th_updatedAtMs y <= th_updatedAtMs x) (List.concat pages) /\
     Forall (fun page => (length page <= safeLimit limit <= 100)%nat) pages) /\
  (forall threadId,
     findThreadSummary (listThreadsFromIndex locale_lt rollout now (Some l) 100) threadId None =
     Some (List.find (fun t => th_id t === threadId) (take 1000 (isort (before locale_lt) threads)))).
Proof.
  assert (forall limit c, listThreadsFromIndex locale_lt rollout now (Some l) limit c =
      Some (thread_page locale_lt limit c threads)) as Hlist.
  { intros limit' c. unfold listThreadsFromIndex. simpl. by rewrite Hindex. }
  assert (List.filter (past None) (isort (before locale_lt) threads) = isort (before locale_lt) threads) as Hall
    by (by apply filter_everything).
  split.
  - destruct (follow_rest locale_lt collation_asym collation_trans threads limit (S (length threads)) None []
      (isort (before locale_lt) threads)) as (pages & Hf & Hcat & Hlen); try done.
    { rewrite isort_perm. lia. }
    exists pages. split; [by rewrite (follow_ext _ _ _ None (Hlist limit))|]. rewrite Hcat.
    split; [apply isort_perm|]. split; [by apply sorted_newest|].
    eapply Forall_impl; [exact Hlen|]. simpl. intros page Hp. pose proof (safeLimit_pos limit). lia.
  - intros tid. unfold findThreadSummary. rewrite (find_pages_ext _ _ _ tid None (Hlist 100)).
    exact (find_rest locale_lt collation_asym collation_trans threads 100 tid 10 None [] _
      Hdistinct Hpositive eq_refl Hall).
Qed.

Definition demo_row (id time : string) : option val :=
  Some (VObj [("id", VStr id); ("thread_name", VStr "t"); ("updated_at", VStr time)]).

Definition demo_index : lines :=
  [demo_row "a" "2024-01-01T00:00:00Z"; None; demo_row "b" "2024-01-03T00:00:00Z";
   demo_row "c" "2024-01-02T00:00:00Z"].

Definition demo_threads : list ThreadSummary := default [] (index_threads (fun _ => None) 1 demo_index).

Definition no_collation (a b : string) : bool := false.

Lemma thread_pages_complete_witness :
  length demo_threads = 3%nat /\
  exists pages,
    follow 4 (listThreadsFromIndex no_collation (fun _ => None) 1 (Some demo_index) 1) None = Some pages /\
    map (map th_id) pages = [["b"]; ["c"]; ["a"]] /\ List.concat pages ≡ₚ demo_threads.
Proof.
  split; [vm_compute; reflexivity|].
  destruct (thread_pages_complete no_collation (fun _ => None) 1 demo_index 1 demo_threads) as [H _].
  - done.
  - done.
  - vm_compute. reflexivity.
  - vm_compute. repeat constructor; set_solver.
  - vm_compute. repeat constructor.
  - destruct H as (pages & Hf & Hp & _). exists pages. split; [exact Hf|]. split; [|exact Hp].
    vm_compute in Hf. injection Hf as <-. reflexivity.
Defined.

(** Threads updated in the same millisecond can fall between pages: the cursor
    that ends a page excludes the rest of them. *)
Lemma tied_threads_skipped :
  let tied := [demo_row "a" "2024-01-01T00:00:00Z"; demo_row "b" "2024-01-01T00:00:00Z"] in
  (map (map th_id)) <$> follow 5 (listThreadsFromIndex no_collation (fun _ => None) 1 (Some tied) 1) None =
    Some [["a"]; []].
Proof. vm_compute. reflexivity. Qed.
