(* ===== verification/Aggregator.v ===== *)
(** * The timeline of the app

    app/src/aggregator.ts: how a client folds gateway events into the turns it
    shows. A turn is mutated in place in the source; here an operation finds the
    index of a turn and updates the list there.

    Events are values of [JsValue]; properties the protocol defines as strings
    are read as strings, and elements of arrays are objects or strings. The
    clock and the random suffix of an event, and [JSON.parse], are arguments. *)

From S2P Require Import Prelude JsValue JsDate CodexEvents.

Local Open Scope Z_scope.

(** ** Data *)

Inductive assistant_status := st_idle | st_streaming | st_waiting_approval | st_completed | st_cancelled | st_failed.
Inductive approval_status := ap_pending | ap_approved | ap_denied | ap_expired.
Inductive approval_decision := Approve | Deny.

#[global] Instance assistant_status_eq_dec : EqDecision assistant_status.
Proof. solve_decision. Defined.

Record ApprovalRequest := mkApproval {
  ar_requestId : string;
  ar_sessionId : string;
  ar_requestMethod : string;
  ar_turnId : option string;
  ar_itemId : option string;
  ar_summary : option string;
  ar_command : option string;
  ar_cwd : option string;
  ar_expiresAt : option string;
  ar_proposedExecpolicyAmendment : option (list string);
  ar_status : approval_status;
  ar_createdAt : string;
  ar_rawParams : val;
  ar_decision : option approval_decision;
  ar_resolvedAt : option string
}.

Definition with_ar_requestId (v : string) (r : ApprovalRequest) : ApprovalRequest :=
  mkApproval v (ar_sessionId r) (ar_requestMethod r) (ar_turnId r) (ar_itemId r) (ar_summary r)
    (ar_command r) (ar_cwd r) (ar_expiresAt r) (ar_proposedExecpolicyAmendment r) (ar_status r)
    (ar_createdAt r) (ar_rawParams r) (ar_decision r) (ar_resolvedAt r).
Definition with_ar_sessionId (v : string) (r : ApprovalRequest) : ApprovalRequest :=
  mkApproval (ar_requestId r) v (ar_requestMethod r) (ar_turnId r) (ar_itemId r) (ar_summary r)
    (ar_command r) (ar_cwd r) (ar_expiresAt r) (ar_proposedExecpolicyAmendment r) (ar_status r)
    (ar_createdAt r) (ar_rawParams r) (ar_decision r) (ar_resolvedAt r).
Definition with_ar_requestMethod (v : string) (r : ApprovalRequest) : ApprovalRequest :=
  mkApproval (ar_requestId r) (ar_sessionId r) v (ar_turnId r) (ar_itemId r) (ar_summary r)
    (ar_command r) (ar_cwd r) (ar_expiresAt r) (ar_proposedExecpolicyAmendment r) (ar_status r)
    (ar_createdAt r) (ar_rawParams r) (ar_decision r) (ar_resolvedAt r).
Definition with_ar_turnId (v : option string) (r : ApprovalRequest) : ApprovalRequest :=
  mkApproval (ar_requestId r) (ar_sessionId r) (ar_requestMethod r) v (ar_itemId r) (ar_summary r)
    (ar_command r) (ar_cwd r) (ar_expiresAt r) (ar_proposedExecpolicyAmendment r) (ar_status r)
    (ar_createdAt r) (ar_rawParams r) (ar_decision r) (ar_resolvedAt r).
Definition with_ar_itemId (v : option string) (r : ApprovalRequest) : ApprovalRequest :=
  mkApproval (ar_requestId r) (ar_sessionId r) (ar_requestMethod r) (ar_turnId r) v (ar_summary r)
    (ar_command r) (ar_cwd r) (ar_expiresAt r) (ar_proposedExecpolicyAmendment r) (ar_status r)
    (ar_createdAt r) (ar_rawParams r) (ar_decision r) (ar_resolvedAt r).
Definition with_ar_summary (v : option string) (r : ApprovalRequest) : ApprovalRequest :=
  mkApproval (ar_requestId r) (ar_sessionId r) (ar_requestMethod r) (ar_turnId r) (ar_itemId r) v
    (ar_command r) (ar_cwd r) (ar_expiresAt r) (ar_proposedExecpolicyAmendment r) (ar_status r)
    (ar_createdAt r) (ar_rawParams r) (ar_decision r) (ar_resolvedAt r).
Definition with_ar_command (v : option string) (r : ApprovalRequest) : ApprovalRequest :=
  mkApproval (ar_requestId r) (ar_sessionId r) (ar_requestMethod r) (ar_turnId r) (ar_itemId r)
    (ar_summary r) v (ar_cwd r) (ar_expiresAt r) (ar_proposedExecpolicyAmendment r) (ar_status r)
    (ar_createdAt r) (ar_rawParams r) (ar_decision r) (ar_resolvedAt r).
Definition with_ar_cwd (v : option string) (r : ApprovalRequest) : ApprovalRequest :=
  mkApproval (ar_requestId r) (ar_sessionId r) (ar_requestMethod r) (ar_turnId r) (ar_itemId r)
    (ar_summary r) (ar_command r) v (ar_expiresAt r) (ar_proposedExecpolicyAmendment r) (ar_status
    r) (ar_createdAt r) (ar_rawParams r) (ar_decision r) (ar_resolvedAt r).
Definition with_ar_expiresAt (v : option string) (r : ApprovalRequest) : ApprovalRequest :=
  mkApproval (ar_requestId r) (ar_sessionId r) (ar_requestMethod r) (ar_turnId r) (ar_itemId r)
    (ar_summary r) (ar_command r) (ar_cwd r) v (ar_proposedExecpolicyAmendment r) (ar_status r)
    (ar_createdAt r) (ar_rawParams r) (ar_decision r) (ar_resolvedAt r).
Definition with_ar_proposedExecpolicyAmendment (v : option (list string)) (r : ApprovalRequest) : ApprovalRequest :=
  mkApproval (ar_requestId r) (ar_sessionId r) (ar_requestMethod r) (ar_turnId r) (ar_itemId r)
    (ar_summary r) (ar_command r) (ar_cwd r) (ar_expiresAt r) v (ar_status r) (ar_createdAt r)
    (ar_rawParams r) (ar_decision r) (ar_resolvedAt r).
Definition with_ar_status (v : approval_status) (r : ApprovalRequest) : ApprovalRequest :=
  mkApproval (ar_requestId r) (ar_sessionId r) (ar_requestMethod r) (ar_turnId r) (ar_itemId r)
    (ar_summary r) (ar_command r) (ar_cwd r) (ar_expiresAt r) (ar_proposedExecpolicyAmendment r) v
    (ar_createdAt r) (ar_rawParams r) (ar_decision r) (ar_resolvedAt r).
Definition with_ar_createdAt (v : string) (r : ApprovalRequest) : ApprovalRequest :=
  mkApproval (ar_requestId r) (ar_sessionId r) (ar_requestMethod r) (ar_turnId r) (ar_itemId r)
    (ar_summary r) (ar_command r) (ar_cwd r) (ar_expiresAt r) (ar_proposedExecpolicyAmendment r)
    (ar_status r) v (ar_rawParams r) (ar_decision r) (ar_resolvedAt r).
Definition with_ar_rawParams (v : val) (r : ApprovalRequest) : ApprovalRequest :=
  mkApproval (ar_requestId r) (ar_sessionId r) (ar_requestMethod r) (ar_turnId r) (ar_itemId r)
    (ar_summary r) (ar_command r) (ar_cwd r) (ar_expiresAt r) (ar_proposedExecpolicyAmendment r)
    (ar_status r) (ar_createdAt r) v (ar_decision r) (ar_resolvedAt r).
Definition with_ar_decision (v : option approval_decision) (r : ApprovalRequest) : ApprovalRequest :=
  mkApproval (ar_requestId r) (ar_sessionId r) (ar_requestMethod r) (ar_turnId r) (ar_itemId r)
    (ar_summary r) (ar_command r) (ar_cwd r) (ar_expiresAt r) (ar_proposedExecpolicyAmendment r)
    (ar_status r) (ar_createdAt r) (ar_rawParams r) v (ar_resolvedAt r).
Definition with_ar_resolvedAt (v : option string) (r : ApprovalRequest) : ApprovalRequest :=
  mkApproval (ar_requestId r) (ar_sessionId r) (ar_requestMethod r) (ar_turnId r) (ar_itemId r)
    (ar_summary r) (ar_command r) (ar_cwd r) (ar_expiresAt r) (ar_proposedExecpolicyAmendment r)
    (ar_status r) (ar_createdAt r) (ar_rawParams r) (ar_decision r) v.

Record ToolCommandExecution := mkCommand {
  tc_id : string;
  tc_command : string;
  tc_cwd : option string;
  tc_aggregatedOutput : option string;
  tc_exitCode : val;
  tc_status : string;
  tc_durationMs : val
}.

Definition with_tc_id (v : string) (r : ToolCommandExecution) : ToolCommandExecution :=
  mkCommand v (tc_command r) (tc_cwd r) (tc_aggregatedOutput r) (tc_exitCode r) (tc_status r)
    (tc_durationMs r).
Definition with_tc_command (v : string) (r : ToolCommandExecution) : ToolCommandExecution :=
  mkCommand (tc_id r) v (tc_cwd r) (tc_aggregatedOutput r) (tc_exitCode r) (tc_status r)
    (tc_durationMs r).
Definition with_tc_cwd (v : option string) (r : ToolCommandExecution) : ToolCommandExecution :=
  mkCommand (tc_id r) (tc_command r) v (tc_aggregatedOutput r) (tc_exitCode r) (tc_status r)
    (tc_durationMs r).
Definition with_tc_aggregatedOutput (v : option string) (r : ToolCommandExecution) : ToolCommandExecution :=
  mkCommand (tc_id r) (tc_command r) (tc_cwd r) v (tc_exitCode r) (tc_status r) (tc_durationMs r).
Definition with_tc_exitCode (v : val) (r : ToolCommandExecution) : ToolCommandExecution :=
  mkCommand (tc_id r) (tc_command r) (tc_cwd r) (tc_aggregatedOutput r) v (tc_status r)
    (tc_durationMs r).
Definition with_tc_status (v : string) (r : ToolCommandExecution) : ToolCommandExecution :=
  mkCommand (tc_id r) (tc_command r) (tc_cwd r) (tc_aggregatedOutput r) (tc_exitCode r) v
    (tc_durationMs r).
Definition with_tc_durationMs (v : val) (r : ToolCommandExecution) : ToolCommandExecution :=
  mkCommand (tc_id r) (tc_command r) (tc_cwd r) (tc_aggregatedOutput r) (tc_exitCode r) (tc_status
    r) v.

Record ToolFileChange := mkFile {
  tf_id : string;
  tf_path : string;
  tf_kind : string;
  tf_diff : string;
  tf_status : string
}.


Record SubAgentActivity := mkSubAgent {
  ts_agentThreadId : option string;
  ts_agentPath : option string;
  ts_kind : string;
  ts_status : string;
  ts_toolCall : val
}.

Definition with_ts_agentThreadId (v : option string) (r : SubAgentActivity) : SubAgentActivity :=
  mkSubAgent v (ts_agentPath r) (ts_kind r) (ts_status r) (ts_toolCall r).
Definition with_ts_agentPath (v : option string) (r : SubAgentActivity) : SubAgentActivity :=
  mkSubAgent (ts_agentThreadId r) v (ts_kind r) (ts_status r) (ts_toolCall r).
Definition with_ts_kind (v : string) (r : SubAgentActivity) : SubAgentActivity :=
  mkSubAgent (ts_agentThreadId r) (ts_agentPath r) v (ts_status r) (ts_toolCall r).
Definition with_ts_status (v : string) (r : SubAgentActivity) : SubAgentActivity :=
  mkSubAgent (ts_agentThreadId r) (ts_agentPath r) (ts_kind r) v (ts_toolCall r).
Definition with_ts_toolCall (v : val) (r : SubAgentActivity) : SubAgentActivity :=
  mkSubAgent (ts_agentThreadId r) (ts_agentPath r) (ts_kind r) (ts_status r) v.

Inductive ToolItem :=
| CommandExecution (c : ToolCommandExecution)
| FileChange (f : ToolFileChange)
| SubAgent (a : SubAgentActivity).

Record TurnMessage := mkTurn {
  u_turnId : string;
  u_sessionId : string;
  u_clientRequestId : option string;
  u_userPrompt : string;
  u_userAttachments : list val;
  u_userTime : option string;
  u_isInterjection : bool;
  u_assistantStatus : assistant_status;
  u_reasoning : string;
  u_reasoningSummary : list string;
  u_reasoningCompleted : bool;
  u_text : string;
  u_tools : list ToolItem;
  u_diffs : list string;
  u_tokenUsage : option val;
  u_approvals : list ApprovalRequest;
  u_startedAt : string;
  u_completedAt : option string
}.

Definition with_u_turnId (v : string) (r : TurnMessage) : TurnMessage :=
  mkTurn v (u_sessionId r) (u_clientRequestId r) (u_userPrompt r) (u_userAttachments r) (u_userTime
    r) (u_isInterjection r) (u_assistantStatus r) (u_reasoning r) (u_reasoningSummary r)
    (u_reasoningCompleted r) (u_text r) (u_tools r) (u_diffs r) (u_tokenUsage r) (u_approvals r)
    (u_startedAt r) (u_completedAt r).
Definition with_u_sessionId (v : string) (r : TurnMessage) : TurnMessage :=
  mkTurn (u_turnId r) v (u_clientRequestId r) (u_userPrompt r) (u_userAttachments r) (u_userTime r)
    (u_isInterjection r) (u_assistantStatus r) (u_reasoning r) (u_reasoningSummary r)
    (u_reasoningCompleted r) (u_text r) (u_tools r) (u_diffs r) (u_tokenUsage r) (u_approvals r)
    (u_startedAt r) (u_completedAt r).
Definition with_u_clientRequestId (v : option string) (r : TurnMessage) : TurnMessage :=
  mkTurn (u_turnId r) (u_sessionId r) v (u_userPrompt r) (u_userAttachments r) (u_userTime r)
    (u_isInterjection r) (u_assistantStatus r) (u_reasoning r) (u_reasoningSummary r)
    (u_reasoningCompleted r) (u_text r) (u_tools r) (u_diffs r) (u_tokenUsage r) (u_approvals r)
    (u_startedAt r) (u_completedAt r).
Definition with_u_userPrompt (v : string) (r : TurnMessage) : TurnMessage :=
  mkTurn (u_turnId r) (u_sessionId r) (u_clientRequestId r) v (u_userAttachments r) (u_userTime r)
    (u_isInterjection r) (u_assistantStatus r) (u_reasoning r) (u_reasoningSummary r)
    (u_reasoningCompleted r) (u_text r) (u_tools r) (u_diffs r) (u_tokenUsage r) (u_approvals r)
    (u_startedAt r) (u_completedAt r).
Definition with_u_userAttachments (v : list val) (r : TurnMessage) : TurnMessage :=
  mkTurn (u_turnId r) (u_sessionId r) (u_clientRequestId r) (u_userPrompt r) v (u_userTime r)
    (u_isInterjection r) (u_assistantStatus r) (u_reasoning r) (u_reasoningSummary r)
    (u_reasoningCompleted r) (u_text r) (u_tools r) (u_diffs r) (u_tokenUsage r) (u_approvals r)
    (u_startedAt r) (u_completedAt r).
Definition with_u_userTime (v : option string) (r : TurnMessage) : TurnMessage :=
  mkTurn (u_turnId r) (u_sessionId r) (u_clientRequestId r) (u_userPrompt r) (u_userAttachments r) v
    (u_isInterjection r) (u_assistantStatus r) (u_reasoning r) (u_reasoningSummary r)
    (u_reasoningCompleted r) (u_text r) (u_tools r) (u_diffs r) (u_tokenUsage r) (u_approvals r)
    (u_startedAt r) (u_completedAt r).
Definition with_u_isInterjection (v : bool) (r : TurnMessage) : TurnMessage :=
  mkTurn (u_turnId r) (u_sessionId r) (u_clientRequestId r) (u_userPrompt r) (u_userAttachments r)
    (u_userTime r) v (u_assistantStatus r) (u_reasoning r) (u_reasoningSummary r)
    (u_reasoningCompleted r) (u_text r) (u_tools r) (u_diffs r) (u_tokenUsage r) (u_approvals r)
    (u_startedAt r) (u_completedAt r).
Definition with_u_assistantStatus (v : assistant_status) (r : TurnMessage) : TurnMessage :=
  mkTurn (u_turnId r) (u_sessionId r) (u_clientRequestId r) (u_userPrompt r) (u_userAttachments r)
    (u_userTime r) (u_isInterjection r) v (u_reasoning r) (u_reasoningSummary r)
    (u_reasoningCompleted r) (u_text r) (u_tools r) (u_diffs r) (u_tokenUsage r) (u_approvals r)
    (u_startedAt r) (u_completedAt r).
Definition with_u_reasoning (v : string) (r : TurnMessage) : TurnMessage :=
  mkTurn (u_turnId r) (u_sessionId r) (u_clientRequestId r) (u_userPrompt r) (u_userAttachments r)
    (u_userTime r) (u_isInterjection r) (u_assistantStatus r) v (u_reasoningSummary r)
    (u_reasoningCompleted r) (u_text r) (u_tools r) (u_diffs r) (u_tokenUsage r) (u_approvals r)
    (u_startedAt r) (u_completedAt r).
Definition with_u_reasoningSummary (v : list string) (r : TurnMessage) : TurnMessage :=
  mkTurn (u_turnId r) (u_sessionId r) (u_clientRequestId r) (u_userPrompt r) (u_userAttachments r)
    (u_userTime r) (u_isInterjection r) (u_assistantStatus r) (u_reasoning r) v
    (u_reasoningCompleted r) (u_text r) (u_tools r) (u_diffs r) (u_tokenUsage r) (u_approvals r)
    (u_startedAt r) (u_completedAt r).
Definition with_u_reasoningCompleted (v : bool) (r : TurnMessage) : TurnMessage :=
  mkTurn (u_turnId r) (u_sessionId r) (u_clientRequestId r) (u_userPrompt r) (u_userAttachments r)
    (u_userTime r) (u_isInterjection r) (u_assistantStatus r) (u_reasoning r) (u_reasoningSummary r)
    v (u_text r) (u_tools r) (u_diffs r) (u_tokenUsage r) (u_approvals r) (u_startedAt r)
    (u_completedAt r).
Definition with_u_text (v : string) (r : TurnMessage) : TurnMessage :=
  mkTurn (u_turnId r) (u_sessionId r) (u_clientRequestId r) (u_userPrompt r) (u_userAttachments r)
    (u_userTime r) (u_isInterjection r) (u_assistantStatus r) (u_reasoning r) (u_reasoningSummary r)
    (u_reasoningCompleted r) v (u_tools r) (u_diffs r) (u_tokenUsage r) (u_approvals r) (u_startedAt
    r) (u_completedAt r).
Definition with_u_tools (v : list ToolItem) (r : TurnMessage) : TurnMessage :=
  mkTurn (u_turnId r) (u_sessionId r) (u_clientRequestId r) (u_userPrompt r) (u_userAttachments r)
    (u_userTime r) (u_isInterjection r) (u_assistantStatus r) (u_reasoning r) (u_reasoningSummary r)
    (u_reasoningCompleted r) (u_text r) v (u_diffs r) (u_tokenUsage r) (u_approvals r) (u_startedAt
    r) (u_completedAt r).
Definition with_u_diffs (v : list string) (r : TurnMessage) : TurnMessage :=
  mkTurn (u_turnId r) (u_sessionId r) (u_clientRequestId r) (u_userPrompt r) (u_userAttachments r)
    (u_userTime r) (u_isInterjection r) (u_assistantStatus r) (u_reasoning r) (u_reasoningSummary r)
    (u_reasoningCompleted r) (u_text r) (u_tools r) v (u_tokenUsage r) (u_approvals r) (u_startedAt
    r) (u_completedAt r).
Definition with_u_tokenUsage (v : option val) (r : TurnMessage) : TurnMessage :=
  mkTurn (u_turnId r) (u_sessionId r) (u_clientRequestId r) (u_userPrompt r) (u_userAttachments r)
    (u_userTime r) (u_isInterjection r) (u_assistantStatus r) (u_reasoning r) (u_reasoningSummary r)
    (u_reasoningCompleted r) (u_text r) (u_tools r) (u_diffs r) v (u_approvals r) (u_startedAt r)
    (u_completedAt r).
Definition with_u_approvals (v : list ApprovalRequest) (r : TurnMessage) : TurnMessage :=
  mkTurn (u_turnId r) (u_sessionId r) (u_clientRequestId r) (u_userPrompt r) (u_userAttachments r)
    (u_userTime r) (u_isInterjection r) (u_assistantStatus r) (u_reasoning r) (u_reasoningSummary r)
    (u_reasoningCompleted r) (u_text r) (u_tools r) (u_diffs r) (u_tokenUsage r) v (u_startedAt r)
    (u_completedAt r).
Definition with_u_startedAt (v : string) (r : TurnMessage) : TurnMessage :=
  mkTurn (u_turnId r) (u_sessionId r) (u_clientRequestId r) (u_userPrompt r) (u_userAttachments r)
    (u_userTime r) (u_isInterjection r) (u_assistantStatus r) (u_reasoning r) (u_reasoningSummary r)
    (u_reasoningCompleted r) (u_text r) (u_tools r) (u_diffs r) (u_tokenUsage r) (u_approvals r) v
    (u_completedAt r).
Definition with_u_completedAt (v : option string) (r : TurnMessage) : TurnMessage :=
  mkTurn (u_turnId r) (u_sessionId r) (u_clientRequestId r) (u_userPrompt r) (u_userAttachments r)
    (u_userTime r) (u_isInterjection r) (u_assistantStatus r) (u_reasoning r) (u_reasoningSummary r)
    (u_reasoningCompleted r) (u_text r) (u_tools r) (u_diffs r) (u_tokenUsage r) (u_approvals r)
    (u_startedAt r) v.

Record EventMessage := mkEvent {
  ev_type : string; ev_sessionId : option string; ev_requestId : option string;
  ev_payload : val; ev_timestamp : option string
}.

(** What an event reads of the clock: [Date.now()], the ISO time and
    [Math.random().toString(36).slice(2, 6)]. *)
Record clock := { ck_ms : Z; ck_iso : string; ck_random : string }.

(** The session a timeline belongs to, as far as it is used. *)
Record SessionInfo := {
  si_id : string; si_prompt : option string; si_createdAt : option string;
  si_startedAt : option string; si_status : option string
}.

(** ** Reading events *)

Definition asRecord (value : val) : option val :=
  match value with VObj _ => Some value | _ => None end.

(** A non-empty string, or [undefined] where the source goes on with [||]. *)
Definition truthy_str (v : val) : option string :=
  match v with VStr s => if s === "" then None else Some s | _ => None end.

(** [a || b || ...] *)
Fixpoint first_some {A} (l : list (option A)) : option A :=
  match l with [] => None | Some a :: _ => Some a | None :: l => first_some l end.

(** [a?.key], [undefined] when there is no record. *)
Definition oprop (key : string) (o : option val) : val := match o with Some v => prop key v | None => VUndef end.

Fixpoint event_session (depth : nat) (value : val) : option string :=
  match depth with
  | O => None
  | S n =>
      match asRecord value with
      | None => None
      | Some record =>
          first_some [truthy_str (prop "sessionId" record); truthy_str (prop "threadId" record);
                      event_session n (prop "payload" record); event_session n (prop "params" record)]
      end
  end.

(** Depths 0 to 3. *)
Definition getEventSessionId (value : val) : option string := event_session 4 value.

Definition normalizedApprovalDecision (value : val) : approval_decision :=
  let decision := match value with VStr s => to_lower s | _ => "" end in
  if bool_decide (decision ∈ ["approve"; "approved"; "accept"; "accepted"; "allow"; "allowed"; "approved_for_session"])
  then Approve else Deny.

Definition createEmptyTurn (now : clock) (turnId sessionId prompt : string) : TurnMessage :=
  mkTurn turnId sessionId None prompt [] None false st_idle "" [] false "" [] [] None [] (ck_iso now) None.

(** The first and the last index an element satisfies [p] at. *)
Fixpoint find_index {A} (p : A -> bool) (l : list A) : option nat :=
  match l with [] => None | x :: l => if p x then Some O else S <$> find_index p l end.

Fixpoint find_last_index {A} (p : A -> bool) (l : list A) : option nat :=
  match l with
  | [] => None
  | x :: l => match find_last_index p l with
              | Some i => Some (S i)
              | None => if p x then Some O else None
              end
  end.

Section aggregator.
(** [JSON.parse], [None] when it throws. *)
Context (json_parse : string -> option val).

Definition tryParseJson (value : val) : val :=
  match value with
  | VStr s => if s === "" then value else default VNull (json_parse s)
  | _ => value
  end.

(** [asRecord(v) || asRecord(tryParseJson(v))] *)
Definition record_or_json (v : val) : option val := first_some [asRecord v; asRecord (tryParseJson v)].

Definition payloadParams (payload : val) : option val := record_or_json (prop "params" payload).
Definition payloadInnerParams (payload : val) : option val :=
  match payloadParams payload with Some p => record_or_json (prop "params" p) | None => None end.

(** [read] of [approvalEnvelope]: the first of payload, params and inner params
    that defines the key. *)
Definition read (payload : val) (key : string) : val :=
  match prop key payload with
  | VUndef => match oprop key (payloadParams payload) with
              | VUndef => oprop key (payloadInnerParams payload)
              | v => v
              end
  | v => v
  end.

Section event.
Context (now : clock) (event : EventMessage) (session : option SessionInfo).

Definition payload : val := v_or (ev_payload event) (VObj []).

Definition str_field (o : option string) : option string := match o with Some s => truthy_str (VStr s) | None => None end.

Definition currentSessionId : string :=
  let params := payloadParams payload in
  let inner := payloadInnerParams payload in
  default "" (first_some
    [str_field (ev_sessionId event); truthy_str (prop "sessionId" payload); truthy_str (prop "threadId" payload);
     truthy_str (oprop "sessionId" params); truthy_str (oprop "threadId" params);
     truthy_str (oprop "sessionId" inner); truthy_str (oprop "threadId" inner);
     str_field (si_id <$> session)]).

(** [event.timestamp || new Date().toISOString()] *)
Definition event_time : string := default (ck_iso now) (str_field (ev_timestamp event)).

Definition adopt (tid fallbackPrompt : string) (t : TurnMessage) : TurnMessage :=
  let t := with_u_turnId tid t in
  if (fallbackPrompt !== "") && (u_userPrompt t === "") then with_u_userPrompt fallbackPrompt t else t.

Definition no_tools (t : TurnMessage) : bool := match u_tools t with [] => true | _ => false end.

(** The index of the turn, and the turns. *)
Definition getOrCreateTurn (targetTurnId : option string) (fallbackPrompt : string) (turns : list TurnMessage)
    : nat * list TurnMessage :=
  let tid := match targetTurnId with
             | Some tid => tid
             | None => match last turns with Some t => u_turnId t | None => "turn-" ^^ zstr (ck_ms now) end
             end in
  let placeholder := match turns with
                     | [t] => ((u_turnId t === "turn-0") || (u_turnId t === "initial-turn"))
                              && (u_text t === "") && no_tools t
                     | _ => false
                     end in
  if placeholder then (O, alter (adopt tid fallbackPrompt) 0%nat turns)
  else
    match find_index (fun t => u_turnId t === tid) turns with
    | Some i => (i, turns)
    | None =>
        let pending candidate :=
          (u_sessionId candidate === currentSessionId)
          && (bool_decide (u_assistantStatus candidate = st_streaming)
              || bool_decide (u_assistantStatus candidate = st_waiting_approval))
          && (u_text candidate === "") && no_tools candidate
          && ((u_userPrompt candidate !== "") || (fallbackPrompt !== "")) in
        match find_last_index pending turns with
        | Some i => (i, alter (adopt tid fallbackPrompt) i turns)
        | None => (length turns, turns ++ [createEmptyTurn now tid currentSessionId fallbackPrompt])
        end
    end.

(** [const turn = getOrCreateTurn(...); ...] with what follows as [f]. *)
Definition on_turn (targetTurnId : option string) (f : TurnMessage -> TurnMessage) (turns : list TurnMessage)
    : list TurnMessage :=
  let '(i, turns) := getOrCreateTurn targetTurnId "" turns in alter f i turns.

(** [const last = turns[turns.length - 1]] *)
Definition on_last (f : TurnMessage -> TurnMessage) (turns : list TurnMessage) : list TurnMessage :=
  alter f (length turns - 1)%nat turns.

(** ** Lifecycle events *)

Definition sessionStarted (turns : list TurnMessage) : list TurnMessage :=
  let sess := v_or (prop "session" payload) (VObj []) in
  match truthy_str (prop "prompt" sess), turns with
  | Some prompt, [] =>
      let '(i, turns) := getOrCreateTurn (Some "turn-0") prompt turns in
      alter (fun t => with_u_assistantStatus st_streaming
        (with_u_userTime (first_some [str_field (ev_timestamp event); str_prop "createdAt" sess]) t)) i turns
  | _, _ => turns
  end.

Definition duplicate_input (clientRequestId : option string) (prompt : string) (candidate : TurnMessage) : bool :=
  match clientRequestId with
  | Some id => opt_str_eqb (u_clientRequestId candidate) (Some id)
  | None => (u_userPrompt candidate === prompt) && bool_decide (u_assistantStatus candidate = st_streaming)
            && (u_sessionId candidate === currentSessionId)
  end.

Definition sessionUserInput (turns : list TurnMessage) : list TurnMessage :=
  let given := str_prop "clientRequestId" payload in
  let clientRequestId := str_field given in
  let prompt := default "" (str_prop "prompt" payload) in
  match find_index (duplicate_input clientRequestId prompt) turns with
  | Some i =>
      alter (fun t =>
        let t := match clientRequestId with Some id => with_u_clientRequestId (Some id) t | None => t end in
        let t := if (u_userPrompt t === "") && (prompt !== "") then with_u_userPrompt prompt t else t in
        match prop "attachments" payload, u_userAttachments t with
        | VArr l, [] => with_u_userAttachments l t
        | _, _ => t
        end) i turns
  | None =>
      let turnId := default ("turn-" ^^ zstr (ck_ms now) ^^ "-" ^^ ck_random now) (truthy_str (prop "turnId" payload)) in
      let turn := createEmptyTurn now turnId currentSessionId prompt in
      let turn := with_u_clientRequestId given turn in
      let turn := with_u_userAttachments (default [] (as_array (prop "attachments" payload))) turn in
      let turn := with_u_userTime (Some event_time) turn in
      let turn := with_u_isInterjection (opt_str_eqb (str_prop "kind" payload) (Some "interjection")) turn in
      turns ++ [with_u_assistantStatus st_streaming turn]
  end.

Definition finish (status : assistant_status) (t : TurnMessage) : TurnMessage :=
  with_u_completedAt (Some event_time) (with_u_assistantStatus status t).

Definition sessionStatus (turns : list TurnMessage) : list TurnMessage :=
  let st := default "" (first_some [truthy_str (prop "status" payload);
                                    truthy_str (prop "status" (prop "turn" payload))]) in
  on_last (fun t =>
    if st === "running" then
      (if bool_decide (u_assistantStatus t = st_idle) then with_u_assistantStatus st_streaming t else t)
    else if st === "waiting-approval" then with_u_assistantStatus st_waiting_approval t
    else if st === "completed" then finish st_completed t
    else if st === "cancelled" then finish st_cancelled t
    else if st === "failed" then finish st_failed t
    else t) turns.

Definition sessionFinished (turns : list TurnMessage) : list TurnMessage :=
  let status := default "" (first_some [truthy_str (prop "status" (prop "turn" payload));
                                        truthy_str (prop "status" payload)]) in
  on_last (fun t =>
    let t := finish (if status === "cancelled" then st_cancelled
                     else if status === "failed" then st_failed else st_completed) t in
    foldl (fun t item =>
      match truthy_str (prop "text" item) with
      | Some text =>
          if opt_str_eqb (str_prop "type" item) (Some "agentMessage") && (u_text t === "")
          then with_u_text text t else t
      | None => t
      end) t (default [] (as_array (prop "items" (prop "turn" payload))))) turns.

(** ** Approvals *)

Definition approval_amendment : option (list string) :=
  let amendment := nullish (read payload "proposedExecpolicyAmendment") (read payload "execpolicyAmendment") in
  let value := match amendment with VStr _ => tryParseJson amendment | _ => amendment end in
  match as_array value with Some l => Some (omap as_str l) | None => None end.

Definition approvalRequested (turns : list TurnMessage) : list TurnMessage :=
  let str key := as_str (read payload key) in
  let turnId := str "turnId" in
  let reqId := default (default (zstr (ck_ms now)) (str "requestId")) (str_field (ev_requestId event)) in
  let approvalReq := mkApproval reqId currentSessionId
    (default "item/commandExecution/requestApproval" (str "requestMethod")) turnId (str "itemId") (str "summary")
    (str "command") (str "cwd") (str "expiresAt") approval_amendment ap_pending event_time
    (default payload (payloadParams payload)) None None in
  on_turn (match turnId with Some s => truthy_str (VStr s) | None => None end) (fun turn =>
    let approvals := match find_index (fun a => ar_requestId a === reqId) (u_approvals turn) with
                     | None => u_approvals turn ++ [approvalReq]
                     | Some i => alter (fun old =>
                         with_ar_resolvedAt (ar_resolvedAt old) (with_ar_decision (ar_decision old) approvalReq))
                         i (u_approvals turn)
                     end in
    with_u_assistantStatus st_waiting_approval (with_u_approvals approvals turn)) turns.

Definition resume_waiting (t : TurnMessage) : TurnMessage :=
  if bool_decide (u_assistantStatus t = st_waiting_approval) then with_u_assistantStatus st_streaming t else t.

(** [for (const turn of turns) { const req = turn.approvals.find(...); if (req) ... }] *)
Definition settle_approval (reqId : string) (f : ApprovalRequest -> ApprovalRequest) (turns : list TurnMessage)
    : list TurnMessage :=
  map (fun turn =>
    match find_index (fun a => ar_requestId a === reqId) (u_approvals turn) with
    | Some i => resume_waiting (with_u_approvals (alter f i (u_approvals turn)) turn)
    | None => turn
    end) turns.

Definition approvalResolved (turns : list TurnMessage) : list TurnMessage :=
  let approvalRecord := asRecord (prop "approval" payload) in
  let reqId := first_some [as_str (read payload "requestId"); as_str (oprop "requestId" approvalRecord);
                           as_str (oprop "id" approvalRecord)] in
  match str_field reqId with
  | None => turns
  | Some reqId =>
      let decision := normalizedApprovalDecision
        (nullish (nullish (prop "decision" payload) (read payload "decision")) (oprop "decision" approvalRecord)) in
      settle_approval reqId (fun a =>
        with_ar_resolvedAt (Some event_time)
          (with_ar_decision (Some decision)
            (with_ar_status (match decision with Approve => ap_approved | Deny => ap_denied end) a))) turns
  end.

Definition approvalExpired (turns : list TurnMessage) : list TurnMessage :=
  match first_some [str_field (ev_requestId event); as_str (read payload "requestId")] with
  | None => turns
  | Some reqId =>
      settle_approval reqId (fun a => with_ar_resolvedAt (Some event_time) (with_ar_status ap_expired a)) turns
  end.

(** ** Subagents *)

Definition target : option string := truthy_str (prop "turnId" payload).

Definition same_agent (id : option string) (tool : ToolItem) : bool :=
  match tool with SubAgent a => opt_str_eqb (ts_agentThreadId a) id | _ => false end.

Definition on_agent (f : SubAgentActivity -> SubAgentActivity) (tool : ToolItem) : ToolItem :=
  match tool with SubAgent a => SubAgent (f a) | _ => tool end.

(** [existing ? mutate : push] *)
Definition upsert_tool (found : option nat) (f : ToolItem -> ToolItem) (new : ToolItem) (turn : TurnMessage)
    : TurnMessage :=
  with_u_tools (match found with Some i => alter f i (u_tools turn) | None => u_tools turn ++ [new] end) turn.

Definition subagentStarted (turns : list TurnMessage) : list TurnMessage :=
  let activity := v_or (prop "activity" payload) (VObj []) in
  let agentThreadId := first_some [truthy_str (prop "agentThreadId" activity); str_prop "threadId" payload] in
  on_turn target (fun turn =>
    upsert_tool (find_index (same_agent agentThreadId) (u_tools turn))
      (on_agent (fun a => mkSubAgent (ts_agentThreadId a)
        (first_some [truthy_str (prop "agentPath" activity); ts_agentPath a]) "started" "running" (ts_toolCall a)))
      (SubAgent (mkSubAgent agentThreadId (str_prop "agentPath" activity) "started" "running" VUndef)) turn) turns.

Definition subagentTool (turns : list TurnMessage) : list TurnMessage :=
  let toolCall := v_or (prop "toolCall" payload) (VObj []) in
  let agentThreadId := first_some [truthy_str (prop "senderThreadId" toolCall); str_prop "threadId" payload] in
  let toolCallId := first_some [truthy_str (prop "id" toolCall); str_prop "callId" toolCall] in
  let same tool :=
    same_agent agentThreadId tool &&
    match tool, str_field toolCallId with
    | SubAgent a, Some id =>
        opt_str_eqb (str_prop "id" (ts_toolCall a)) (Some id) || opt_str_eqb (str_prop "callId" (ts_toolCall a)) (Some id)
    | _, _ => false
    end in
  on_turn target (fun turn =>
    upsert_tool (find_index same (u_tools turn))
      (on_agent (fun a => with_ts_status (default (ts_status a) (truthy_str (prop "status" toolCall)))
                            (with_ts_toolCall toolCall a)))
      (SubAgent (mkSubAgent agentThreadId None "toolCall" "running" toolCall)) turn) turns.

Definition subagentFinished (turns : list TurnMessage) : list TurnMessage :=
  let childThreadId := first_some [truthy_str (prop "childThreadId" payload);
                                   str_prop "agentThreadId" (prop "activity" payload)] in
  on_turn target (fun turn =>
    with_u_tools (map (fun tool =>
      if same_agent childThreadId tool
      then on_agent (fun a => with_ts_status (default "completed" (truthy_str (prop "status" payload)))
                                (with_ts_kind "completed" a)) tool
      else tool) (u_tools turn)) turn) turns.

(** ** Output *)

Definition jsonPayload : val :=
  v_or (prop "jsonPayload" payload) (v_or (tryParseJson (prop "chunk" payload)) (VObj [])).

Definition agentMessageDelta (turn : TurnMessage) : TurnMessage :=
  match prop "chunk" payload with
  | VStr chunk => with_u_assistantStatus st_streaming (with_u_text (u_text turn ^^ chunk) turn)
  | _ => turn
  end.

Definition is_command (p : ToolCommandExecution -> bool) (tool : ToolItem) : bool :=
  match tool with CommandExecution c => p c | _ => false end.

Definition on_command (f : ToolCommandExecution -> ToolCommandExecution) (tool : ToolItem) : ToolItem :=
  match tool with CommandExecution c => CommandExecution (f c) | _ => tool end.

Definition running_command : ToolItem -> bool := is_command (fun c => tc_status c === "running").

Definition outputDelta (turn : TurnMessage) : TurnMessage :=
  let chunk := default "" (str_prop "chunk" payload) in
  let itemId := first_some [str_prop "itemId" payload; str_prop "itemId" jsonPayload] in
  let byId := match str_field itemId with
              | Some id => find_index (is_command (fun c => tc_id c === id)) (u_tools turn)
              | None => None
              end in
  let lastCmd := first_some [byId; find_last_index running_command (u_tools turn)] in
  let id := default (default ("cmd-" ^^ zstr (ck_ms now)) (str_prop "id" (prop "item" jsonPayload)))
              (str_prop "itemId" payload) in
  upsert_tool lastCmd
    (on_command (fun c => with_tc_status "running"
      (with_tc_aggregatedOutput (Some (default "" (tc_aggregatedOutput c) ^^ chunk)) c)))
    (CommandExecution (mkCommand id "正在执行命令..." None (Some chunk) VUndef "running" VUndef)) turn.

(** [list.map(c => typeof c === "string" ? c : c?.text || "").filter(Boolean)] *)
Definition texts (l : list val) : list string :=
  List.filter (fun s => s !== "")
    (map (fun c => match c with VStr s => s | _ => default "" (truthy_str (prop "text" c)) end) l).

Definition NL : string := String (Ascii.ascii_of_nat 10) "".

Definition item_status (item : val) : string :=
  default (match prop "exitCode" item with VNum (NInt 0) => "completed" | _ => "failed" end)
    (truthy_str (prop "status" item)).

Definition userMessage (item : val) (turn : TurnMessage) : TurnMessage :=
  let userText := match prop "content" item with
                  | VArr l => join NL (texts l)
                  | _ => default "" (str_prop "text" item)
                  end in
  if (userText !== "") && (u_userPrompt turn === "") then with_u_userPrompt userText turn else turn.

Definition reasoningItem (item : val) (turn : TurnMessage) : TurnMessage :=
  let turn := with_u_reasoningCompleted true turn in
  let turn := match prop "summary" item with VArr l => with_u_reasoningSummary (texts l) turn | _ => turn end in
  match prop "content" item with
  | VArr l => if join NL (texts l) === "" then turn else with_u_reasoning (join NL (texts l)) turn
  | _ => turn
  end.

Definition commandItem (item : val) (turn : TurnMessage) : TurnMessage :=
  let byId := match str_prop "id" item with
              | Some id => find_index (is_command (fun c => tc_id c === id)) (u_tools turn)
              | None => None
              end in
  let existing := first_some [byId; match truthy_str (prop "id" item) with
                                    | Some _ => None
                                    | None => find_last_index running_command (u_tools turn)
                                    end] in
  upsert_tool existing
    (on_command (fun c => mkCommand (tc_id c) (default (tc_command c) (truthy_str (prop "command" item)))
      (first_some [truthy_str (prop "cwd" item); tc_cwd c])
      (first_some [str_prop "aggregatedOutput" item; tc_aggregatedOutput c])
      (prop "exitCode" item) (item_status item) (prop "durationMs" item)))
    (CommandExecution (mkCommand (default ("cmd-" ^^ zstr (ck_ms now)) (truthy_str (prop "id" item)))
      (default "" (str_prop "command" item)) (str_prop "cwd" item)
      (Some (default "" (str_prop "aggregatedOutput" item))) (prop "exitCode" item) (item_status item)
      (prop "durationMs" item))) turn.

(** Change [changeIndex] of a file-change item. *)
Definition file_change (item : val) (changeIndex : nat) (ch : val) : ToolFileChange :=
  mkFile (default ("file-" ^^ zstr (ck_ms now)) (truthy_str (prop "id" item)) ^^ ":" ^^ zstr (Z.of_nat changeIndex))
    (default "" (str_prop "path" ch))
    (match prop "kind" ch with
     | VObj _ | VArr _ => default "modify" (truthy_str (prop "type" (prop "kind" ch)))
     | VNull => "modify"
     | k => default "modify" (truthy_str k)
     end)
    (default "" (str_prop "diff" ch)) (default "completed" (truthy_str (prop "status" item))).

Fixpoint file_changes (item : val) (changeIndex : nat) (l : list val) (turn : TurnMessage) : TurnMessage :=
  match l with
  | [] => turn
  | ch :: l =>
      let next := file_change item changeIndex ch in
      let same tool := match tool with FileChange f => tf_id f === tf_id next | _ => false end in
      file_changes item (S changeIndex) l
        (upsert_tool (find_index same (u_tools turn)) (fun _ => FileChange next) (FileChange next) turn)
  end.

Definition itemCompleted (turn : TurnMessage) : TurnMessage :=
  let item := v_or (prop "item" jsonPayload) (VObj []) in
  let typed t := opt_str_eqb (str_prop "type" item) (Some t) in
  if typed "userMessage" then userMessage item turn
  else if typed "reasoning" then reasoningItem item turn
  else if typed "commandExecution" then commandItem item turn
  else if typed "fileChange" then
    match prop "changes" item with VArr l => file_changes item 0 l turn | _ => turn end
  else if typed "agentMessage" then
    match truthy_str (prop "text" item) with
    | Some text => if u_text turn === "" then with_u_text text turn else turn
    | None => turn
    end
  else turn.

Definition diffUpdated (turn : TurnMessage) : TurnMessage :=
  match prop "diff" jsonPayload with
  | VStr diffText =>
      if (trim diffText !== "") && negb (bool_decide (diffText ∈ u_diffs turn))
      then with_u_diffs (u_diffs turn ++ [diffText]) turn else turn
  | _ => turn
  end.

Definition tokenUsageUpdated (turn : TurnMessage) : TurnMessage :=
  let usage := prop "tokenUsage" jsonPayload in
  if truthy usage then
    let total key := (key, prop key (prop "total" usage)) in
    with_u_tokenUsage (Some (VObj [total "totalTokens"; total "inputTokens"; total "outputTokens";
                                   total "reasoningOutputTokens"])) turn
  else turn.

Definition sessionOutput (turns : list TurnMessage) : list TurnMessage :=
  let typed t := opt_str_eqb (str_prop "eventType" payload) (Some t) in
  on_turn target (fun turn =>
    if typed "item/agentMessage/delta" then agentMessageDelta turn
    else if typed "item/commandExecution/outputDelta" then outputDelta turn
    else if typed "item/completed" then itemCompleted turn
    else if typed "turn/diff/updated" then diffUpdated turn
    else if typed "thread/tokenUsage/updated" then tokenUsageUpdated turn
    else turn) turns.

(** ** One event *)

Definition applyLiveEventToTurns (turns : list TurnMessage) : list TurnMessage :=
  let typed t := ev_type event === t in
  if typed "session-started" then sessionStarted turns
  else if typed "session-user-input" then sessionUserInput turns
  else if typed "session-status" then sessionStatus turns
  else if typed "session-finished" then sessionFinished turns
  else if typed "approval-requested" then approvalRequested turns
  else if typed "approval-resolved" then approvalResolved turns
  else if typed "approval-expired" then approvalExpired turns
  else if typed "subagent-started" then subagentStarted turns
  else if typed "subagent-tool" then subagentTool turns
  else if typed "subagent-finished" then subagentFinished turns
  else if typed "session-output" then sessionOutput turns
  else turns.
End event.

Definition is_user_input (event : EventMessage) : bool :=
  (ev_type event === "session-user-input") ||
  ((ev_type event === "session-output") &&
   opt_str_eqb (str_prop "eventType" (ev_payload event)) (Some "item/completed") &&
   opt_str_eqb (str_prop "type" (prop "item" (prop "jsonPayload" (ev_payload event)))) (Some "userMessage")).

(** Each event comes with the clock at its application. *)
Definition aggregateEventsToTurns (now : clock) (events : list (clock * EventMessage)) (session : option SessionInfo)
    : list TurnMessage :=
  let initial :=
    match session with
    | Some s =>
        match str_field (si_prompt s) with
        | Some prompt =>
            if existsb (fun e => is_user_input e.2) events then []
            else
              let t := createEmptyTurn now "initial-turn" (si_id s) prompt in
              let t := with_u_userTime (first_some [str_field (si_createdAt s); si_startedAt s]) t in
              [with_u_assistantStatus
                 (if opt_str_eqb (si_status s) (Some "running") then st_streaming
                  else if opt_str_eqb (si_status s) (Some "cancelled") then st_cancelled else st_completed) t]
        | None => []
        end
    | None => []
    end in
  foldl (fun turns '(now, event) => applyLiveEventToTurns now event session turns) initial events.
End aggregator.
