(* ===== verification/Timeline.v ===== *)
(** * Properties of the timeline

    No event makes the client lose what it shows: turns stay, in order, and
    each of them only grows. Streamed chunks concatenate. *)

From S2P Require Import Prelude JsValue JsDate CodexEvents Aggregator.

(** ** Lists *)

Lemma find_index_spec {A} (p : A -> bool) l i :
  find_index p l = Some i -> exists x, l !! i = Some x /\ p x = true.
Proof.
  revert i. induction l as [|x l IH]; intros i; simpl; [done|]. destruct (p x) eqn:E.
  - intros [= <-]. by exists x.
  - destruct (find_index p l) as [j|]; [|done]. intros [= <-]. by apply IH.
Qed.

Lemma find_last_index_spec {A} (p : A -> bool) l i :
  find_last_index p l = Some i -> exists x, l !! i = Some x /\ p x = true.
Proof.
  revert i. induction l as [|x l IH]; intros i; simpl; [done|].
  destruct (find_last_index p l) as [j|].
  - intros [= <-]. by apply IH.
  - destruct (p x) eqn:E; [|done]. intros [= <-]. by exists x.
Qed.

Lemma map_alter {A B} (key : A -> B) f i (l : list A) :
  (forall x, l !! i = Some x -> key (f x) = key x) -> map key (alter f i l) = map key l.
Proof.
  intros H. apply list_eq. intros j. change (map key) with (fmap (M := list) key).
  rewrite !list_lookup_fmap, list_lookup_alter. case_decide; [subst|done].
  destruct (l !! j) as [x|] eqn:E; simpl; [|done]. by rewrite H.
Qed.

(** ** Growth of a turn *)

(** What identifies a tool row. *)
Definition tool_key (t : ToolItem) : nat * option string :=
  match t with
  | CommandExecution c => (0, Some (tc_id c))
  | FileChange f => (1, Some (tf_id f))
  | SubAgent a => (2, ts_agentThreadId a)
  end.

Record grows (t t' : TurnMessage) : Prop := {
  g_session : u_sessionId t' = u_sessionId t;
  g_started : u_startedAt t' = u_startedAt t;
  g_client : u_clientRequestId t' = u_clientRequestId t;
  g_prompt : u_userPrompt t <> "" -> u_userPrompt t' = u_userPrompt t;
  g_attachments : u_userAttachments t <> [] -> u_userAttachments t' = u_userAttachments t;
  g_text : exists more, u_text t' = u_text t ^^ more;
  g_diffs : u_diffs t `prefix_of` u_diffs t';
  g_tools : map tool_key (u_tools t) `prefix_of` map tool_key (u_tools t');
  g_approvals : map ar_requestId (u_approvals t) `prefix_of` map ar_requestId (u_approvals t')
}.

Lemma grows_refl t : grows t t.
Proof. split; try done. exists "". by rewrite sapp_nil_r. Qed.

Lemma grows_trans t1 t2 t3 : grows t1 t2 -> grows t2 t3 -> grows t1 t3.
Proof.
  intros [] []. split; try (etrans; eassumption); try congruence.
  - intros H. rewrite g_prompt1; [auto|]. by rewrite g_prompt0.
  - intros H. rewrite g_attachments1; [auto|]. by rewrite g_attachments0.
  - destruct g_text0 as [x Hx], g_text1 as [y Hy]. exists (x ^^ y). by rewrite Hy, Hx, sapp_assoc.
Qed.

#[export] Instance grows_preorder : PreOrder grows.
Proof. split; [exact grows_refl|exact grows_trans]. Qed.

(** Updates of fields that are not listed. *)
Ltac grow := split; simpl; try done; try (exists ""; by rewrite sapp_nil_r).

Lemma grows_text x t : grows t (with_u_text (u_text t ^^ x) t).
Proof. split; simpl; try done. by exists x. Qed.

Lemma grows_text_empty x t : u_text t = "" -> grows t (with_u_text x t).
Proof. intros E. split; simpl; try done. exists x. by rewrite E. Qed.

Lemma grows_prompt p t : u_userPrompt t = "" -> grows t (with_u_userPrompt p t).
Proof. intros E. grow. Qed.

Lemma grows_tools l t :
  map tool_key (u_tools t) `prefix_of` map tool_key l -> grows t (with_u_tools l t).
Proof. intros H. grow. Qed.

Lemma grows_approvals l t :
  map ar_requestId (u_approvals t) `prefix_of` map ar_requestId l -> grows t (with_u_approvals l t).
Proof. intros H. grow. Qed.

Lemma grows_status s t : grows t (with_u_assistantStatus s t).
Proof. grow. Qed.

Lemma grows_upsert found f new t :
  (forall i x, found = Some i -> u_tools t !! i = Some x -> tool_key (f x) = tool_key x) ->
  grows t (upsert_tool found f new t).
Proof.
  intros H. apply grows_tools. destruct found as [i|].
  - rewrite map_alter; [done|]. eauto.
  - rewrite List.map_app. by apply prefix_app_r.
Qed.

Lemma on_agent_key f t :
  (forall a, ts_agentThreadId (f a) = ts_agentThreadId a) -> tool_key (on_agent f t) = tool_key t.
Proof. intros H. destruct t; simpl; by rewrite ?H. Qed.

Lemma on_command_key f t : (forall c, tc_id (f c) = tc_id c) -> tool_key (on_command f t) = tool_key t.
Proof. intros H. destruct t; simpl; by rewrite ?H. Qed.

(** ** Growth of a timeline *)

Record widens (n : nat) (l l' : list TurnMessage) : Prop := {
  w_length : length l <= length l' <= n + length l;
  w_turns : forall i t, l !! i = Some t -> exists t', l' !! i = Some t' /\ grows t t'
}.

Lemma widens_refl l : widens 0 l l.
Proof. split; [lia|]. eauto using grows_refl. Qed.

Lemma widens_more n m l l' : n <= m -> widens n l l' -> widens m l l'.
Proof. intros ? []. split; [lia|done]. Qed.

Lemma widens_trans n m l1 l2 l3 : widens n l1 l2 -> widens m l2 l3 -> widens (n + m) l1 l3.
Proof.
  intros [] []. split; [lia|]. intros i t Ht. destruct (w_turns0 i t Ht) as (t2 & H2 & G2).
  destruct (w_turns1 i t2 H2) as (t3 & H3 & G3). exists t3. split; [done|by etrans].
Qed.

Lemma widens_alter f i l : (forall t, l !! i = Some t -> grows t (f t)) -> widens 0 l (alter f i l).
Proof.
  intros H. split; [rewrite length_alter; lia|]. intros j t Ht. rewrite list_lookup_alter.
  case_decide; [subst; rewrite Ht; eauto|eauto using grows_refl].
Qed.

Lemma widens_map f l : (forall t, grows t (f t)) -> widens 0 l (map f l).
Proof.
  intros H. split; [rewrite length_map; lia|]. intros j t Ht. exists (f t). split; [|done].
  change (map f l) with (f <$> l). by rewrite list_lookup_fmap, Ht.
Qed.

Lemma widens_snoc t l : widens 1 l (l ++ [t]).
Proof.
  split; [rewrite length_app; simpl; lia|]. intros i x Hx. exists x. split; [|apply grows_refl].
  by apply lookup_app_l_Some.
Qed.

Lemma grows_adopt tid p t : grows t (adopt tid p t).
Proof.
  unfold adopt. destruct (_ && _) eqn:E; [|grow]. apply andb_true_iff in E as [_ E%String.eqb_eq].
  split; simpl; try done. exists "". by rewrite sapp_nil_r.
Qed.

Section events.
Context (json_parse : string -> option val) (now : clock) (event : EventMessage) (session : option SessionInfo).

#[local] Abbreviation apply_event := (applyLiveEventToTurns json_parse now event session).

Lemma getOrCreate_widens target p l :
  let r := getOrCreateTurn json_parse now event session target p l in widens 1 l r.2.
Proof.
  unfold getOrCreateTurn. cbv zeta. set (tid := match target with Some _ => _ | None => _ end).
  match goal with |- context [if ?b then (0, _) else _] => destruct b end; simpl.
  - eapply (widens_more 0); [lia|]. apply widens_alter. auto using grows_adopt.
  - destruct (find_index _ l); simpl; [eapply (widens_more 0); [lia|apply widens_refl]|].
    destruct (find_last_index _ l); simpl; [|apply widens_snoc].
    eapply (widens_more 0); [lia|]. apply widens_alter. auto using grows_adopt.
Qed.

Lemma on_turn_widens target f l :
  (forall t, grows t (f t)) -> widens 1 l (on_turn json_parse now event session target f l).
Proof.
  intros Hf. unfold on_turn. pose proof (getOrCreate_widens target "" l) as H.
  destruct (getOrCreateTurn _ _ _ _ _ _ _) as [i l']. simpl in H.
  apply (widens_trans 1 0 _ _ _ H). by apply widens_alter.
Qed.

Lemma on_last_widens f l : (forall t, grows t (f t)) -> widens 1 l (on_last f l).
Proof. intros Hf. eapply (widens_more 0); [lia|]. by apply widens_alter. Qed.

Lemma started_widens l : widens 1 l (sessionStarted json_parse now event session l).
Proof.
  unfold sessionStarted. cbv zeta. destruct (truthy_str _) as [p|], l as [|t l];
    try (eapply (widens_more 0); [lia|apply widens_refl]).
  pose proof (getOrCreate_widens (Some "turn-0") p []) as H.
  destruct (getOrCreateTurn _ _ _ _ _ _ _) as [i l']. simpl in H.
  apply (widens_trans 1 0 _ _ _ H). apply widens_alter. intros t _. grow.
Qed.

Lemma input_widens l : widens 1 l (sessionUserInput json_parse now event session l).
Proof.
  unfold sessionUserInput. cbv zeta. destruct (find_index _ l) as [i|] eqn:Ei; [|apply widens_snoc].
  apply find_index_spec in Ei as (t0 & Ht0 & Hdup).
  eapply (widens_more 0); [lia|]. apply widens_alter. intros t Ht. assert (t0 = t) as -> by congruence.
  set (t1 := match str_field _ with Some _ => _ | None => _ end).
  assert (grows t t1) as G1.
  { unfold t1. destruct (str_field _) as [id|]; [|apply grows_refl].
    unfold duplicate_input, opt_str_eqb in Hdup. destruct (u_clientRequestId t) as [c|] eqn:Ec; [|done].
    apply String.eqb_eq in Hdup as ->. split; simpl; try done. exists "". by rewrite sapp_nil_r. }
  etrans; [exact G1|]. clearbody t1. clear.
  set (prompt := default "" _). clearbody prompt.
  apply (grows_trans _ (if (u_userPrompt t1 === "") && (prompt !== "") then with_u_userPrompt prompt t1 else t1)).
  - destruct (String.eqb_spec (u_userPrompt t1) ""); simpl; [|apply grows_refl].
    destruct (prompt !== ""); [by apply grows_prompt|apply grows_refl].
  - generalize (if (u_userPrompt t1 === "") && (prompt !== "") then with_u_userPrompt prompt t1 else t1). intros t2.
    destruct (prop "attachments" (payload event)); try apply grows_refl.
    destruct (u_userAttachments t2) eqn:E; [|apply grows_refl]. grow.
Qed.

Lemma grows_finish s t : grows t (finish now event s t).
Proof. grow. Qed.

Lemma status_widens l : widens 1 l (sessionStatus now event l).
Proof.
  apply on_last_widens. intros t. repeat case_match; auto using grows_refl, grows_status, grows_finish.
Qed.

Lemma grows_foldl {A} (f : TurnMessage -> A -> TurnMessage) l t : (forall t x, grows t (f t x)) -> grows t (foldl f t l).
Proof. intros H. revert t. induction l as [|x l IH]; intros t; simpl; [apply grows_refl|]. etrans; [apply H|apply IH]. Qed.

Lemma finished_widens l : widens 1 l (sessionFinished now event l).
Proof.
  apply on_last_widens. intros t. cbv zeta. etrans; [|apply grows_foldl].
  - apply grows_finish.
  - intros t' item. destruct (truthy_str _) as [text|]; [|apply grows_refl].
    destruct (_ && _) eqn:E; [|apply grows_refl]. apply andb_true_iff in E as [_ E%String.eqb_eq].
    by apply grows_text_empty.
Qed.

Lemma requested_widens l : widens 1 l (approvalRequested json_parse now event session l).
Proof.
  apply on_turn_widens. intros t. etrans; [|apply grows_status]. apply grows_approvals.
  destruct (find_index _ (u_approvals t)) as [i|] eqn:E.
  - apply find_index_spec in E as (a & Ha & Heq%String.eqb_eq).
    rewrite map_alter; [done|]. intros x Hx. simpl. congruence.
  - rewrite List.map_app. by apply prefix_app_r.
Qed.

Lemma settle_widens reqId f l :
  (forall a, ar_requestId (f a) = ar_requestId a) -> widens 1 l (settle_approval reqId f l).
Proof.
  intros Hf. eapply (widens_more 0); [lia|]. apply widens_map. intros t.
  destruct (find_index _ (u_approvals t)) as [i|]; [|apply grows_refl].
  etrans; [apply (grows_approvals (alter f i (u_approvals t)))|].
  - rewrite map_alter; auto.
  - unfold resume_waiting. case_bool_decide; [apply grows_status|apply grows_refl].
Qed.

Lemma resolved_widens l : widens 1 l (approvalResolved json_parse now event l).
Proof.
  unfold approvalResolved. destruct (str_field _); [by apply settle_widens|].
  eapply (widens_more 0); [lia|apply widens_refl].
Qed.

Lemma expired_widens l : widens 1 l (approvalExpired json_parse now event l).
Proof.
  unfold approvalExpired. destruct (first_some _); [by apply settle_widens|].
  eapply (widens_more 0); [lia|apply widens_refl].
Qed.

Lemma agentStarted_widens l : widens 1 l (subagentStarted json_parse now event session l).
Proof. apply on_turn_widens. intros t. apply grows_upsert. intros i x _ _. by apply on_agent_key. Qed.

Lemma agentTool_widens l : widens 1 l (subagentTool json_parse now event session l).
Proof. apply on_turn_widens. intros t. apply grows_upsert. intros i x _ _. by apply on_agent_key. Qed.

Lemma agentFinished_widens l : widens 1 l (subagentFinished json_parse now event session l).
Proof.
  apply on_turn_widens. intros t. apply grows_tools. rewrite List.map_map.
  erewrite List.map_ext; [done|]. intros x. simpl. destruct (same_agent _ x); [|done]. symmetry. by apply on_agent_key.
Qed.

(** ** Output *)

Lemma grows_outputDelta t : grows t (outputDelta json_parse now event t).
Proof. apply grows_upsert. intros i x _ _. by apply on_command_key. Qed.

Lemma grows_files item k l t : grows t (file_changes now item k l t).
Proof.
  revert k t. induction l as [|ch l IH]; intros k t; simpl; [apply grows_refl|].
  etrans; [|apply IH]. apply grows_upsert. intros i x Hi Hx. simpl.
  apply find_index_spec in Hi as (y & Hy & Hsame). assert (y = x) as -> by congruence.
  destruct x; try done. apply String.eqb_eq in Hsame. simpl. congruence.
Qed.

Lemma grows_item t : grows t (itemCompleted json_parse now event t).
Proof.
  unfold itemCompleted. cbv zeta. set (item := v_or _ _). clearbody item.
  repeat match goal with |- grows _ (if opt_str_eqb ?a ?b then _ else _) => destruct (opt_str_eqb a b) end.
  - unfold userMessage. destruct (_ && _) eqn:E; [|apply grows_refl].
    apply andb_true_iff in E as [_ E%String.eqb_eq]. by apply grows_prompt.
  - unfold reasoningItem. repeat case_match; grow.
  - apply grows_upsert. intros i x _ _. by apply on_command_key.
  - destruct (prop "changes" item); auto using grows_refl, grows_files.
  - destruct (truthy_str _) as [text|]; [|apply grows_refl].
    destruct (String.eqb_spec (u_text t) ""); [by apply grows_text_empty|apply grows_refl].
  - apply grows_refl.
Qed.

Lemma output_widens l : widens 1 l (sessionOutput json_parse now event session l).
Proof.
  apply on_turn_widens. intros t. cbv zeta.
  repeat match goal with |- grows _ (if opt_str_eqb ?a ?b then _ else _) => destruct (opt_str_eqb a b) end.
  - unfold agentMessageDelta. destruct (prop "chunk" _); try apply grows_refl.
    etrans; [apply grows_text|apply grows_status].
  - apply grows_outputDelta.
  - apply grows_item.
  - unfold diffUpdated. destruct (prop "diff" _); try apply grows_refl. destruct (_ && _); [|apply grows_refl].
    grow. by apply prefix_app_r.
  - unfold tokenUsageUpdated. cbv zeta. destruct (truthy _); grow.
  - apply grows_refl.
Qed.

Lemma apply_widens l : widens 1 l (apply_event l).
Proof.
  unfold applyLiveEventToTurns. cbv zeta.
  repeat match goal with |- widens _ _ (if ?b then _ else _) => destruct b end;
    auto using started_widens, input_widens, status_widens, finished_widens, requested_widens, resolved_widens,
      expired_widens, agentStarted_widens, agentTool_widens, agentFinished_widens, output_widens.
  eapply (widens_more 0); [lia|apply widens_refl].
Qed.
End events.

(** ** Streams of events *)

Definition apply_all (json_parse : string -> option val) (session : option SessionInfo)
    (events : list (clock * EventMessage)) (turns : list TurnMessage) : list TurnMessage :=
  foldl (fun turns '(now, event) => applyLiveEventToTurns json_parse now event session turns) turns events.

Lemma apply_all_cons json_parse session now event events turns :
  apply_all json_parse session ((now, event) :: events) turns =
  apply_all json_parse session events (applyLiveEventToTurns json_parse now event session turns).
Proof. done. Qed.

Lemma apply_all_widens json_parse session events turns :
  widens (length events) turns (apply_all json_parse session events turns).
Proof.
  revert turns. induction events as [|[now event] events IH]; intros turns; simpl; [apply widens_refl|].
  apply (widens_trans 1 (length events) _ _ _ (apply_widens json_parse now event session turns)). apply IH.
Qed.

(** One chunk of the assistant's message for turn [tid]. *)
Definition delta_event (sessionId : option string) (timestamp : option string) (tid chunk : string) : EventMessage :=
  mkEvent "session-output" sessionId None
    (VObj [("turnId", VStr tid); ("eventType", VStr "item/agentMessage/delta"); ("chunk", VStr chunk)]) timestamp.

Definition streamed (text : string) (t : TurnMessage) : TurnMessage :=
  with_u_assistantStatus st_streaming (with_u_text (u_text t ^^ text) t).

(** The turn with the wanted id is used, a placeholder of that id included. *)
Lemma getOrCreate_existing json_parse now event session tid i turns :
  find_index (fun t => u_turnId t === tid) turns = Some i ->
  getOrCreateTurn json_parse now event session (Some tid) "" turns = (i, turns).
Proof.
  intros Hi. unfold getOrCreateTurn. cbv zeta.
  match goal with |- (if ?b then _ else _) = _ => destruct b eqn:E end; [|by rewrite Hi].
  destruct turns as [|t [|]]; try done. simpl in Hi.
  destruct (String.eqb_spec (u_turnId t) tid) as [Ht|]; [|done]. injection Hi as <-.
  f_equal. simpl. f_equal. unfold adopt. simpl. destruct t; simpl in *. by subst.
Qed.

Lemma delta_step json_parse now session sid ts tid chunk i turns :
  tid <> "" -> find_index (fun t => u_turnId t === tid) turns = Some i ->
  applyLiveEventToTurns json_parse now (delta_event sid ts tid chunk) session turns = alter (streamed chunk) i turns.
Proof.
  intros Hne Hi. unfold applyLiveEventToTurns. simpl.
  unfold sessionOutput, on_turn, target, payload. simpl.
  destruct (String.eqb_spec tid "") as [|_]; [done|].
  by rewrite (getOrCreate_existing _ _ _ _ tid i turns Hi).
Qed.

Lemma find_index_alter f i tid turns :
  (forall t, u_turnId (f t) = u_turnId t) ->
  find_index (fun t => u_turnId t === tid) (alter f i turns) = find_index (fun t => u_turnId t === tid) turns.
Proof.
  intros Hf. revert i. induction turns as [|t turns IH]; intros i; [done|].
  destruct i as [|i]; simpl; rewrite ?Hf; [done|]. destruct (u_turnId t === tid); [done|]. f_equal. apply IH.
Qed.

Lemma deltas_concatenate json_parse session tid i chunks : forall turns,
  tid <> "" -> chunks <> [] -> find_index (fun t => u_turnId t === tid) turns = Some i ->
  apply_all json_parse session (map (fun '(now, sid, ts, chunk) => (now, delta_event sid ts tid chunk)) chunks) turns =
  alter (streamed (foldr sapp "" (map snd chunks))) i turns.
Proof.
  induction chunks as [|[[[now sid] ts] chunk] chunks IH]; intros turns Hne Hc Hi; [done|].
  rewrite List.map_cons, apply_all_cons, (delta_step _ _ _ _ _ _ _ i) by done. destruct chunks as [|c chunks].
  - simpl. by rewrite sapp_nil_r.
  - rewrite IH; [|done|done|by rewrite find_index_alter].
    rewrite list_alter_alter_eq. apply list_alter_ext; [|done]. intros t _.
    unfold compose, streamed. simpl. by rewrite sapp_assoc.
Qed.

(** C33: the timeline of a client. Whatever events arrive, in whatever order,
    every turn shown stays at its place and only grows: its session, start,
    client request id, prompt and attachments once set stay, its text is only
    extended, its diffs stay, and its tool rows and approvals keep their keys
    and places, while what such a row says, the reasoning, the token usage and
    the fields of an approval may be replaced by later events; an event adds
    at most one turn. A run of message chunks for a turn appends their
    concatenation to its text and changes nothing else but its status. *)
Theorem timeline_grows json_parse session turns events :
  (let turns' := apply_all json_parse session events turns in
   (length turns <= length turns' <= length events + length turns) /\
   (forall i t, turns !! i = Some t -> exists t', turns' !! i = Some t' /\ grows t t')) /\
  (forall tid i chunks,
     tid <> "" -> chunks <> [] -> find_index (fun t => u_turnId t === tid) turns = Some i ->
     apply_all json_parse session (map (fun '(now, sid, ts, chunk) => (now, delta_event sid ts tid chunk)) chunks) turns =
     alter (streamed (foldr sapp "" (map snd chunks))) i turns).
Proof.
  split.
  - destruct (apply_all_widens json_parse session events turns) as [Hl Ht]. by split.
  - intros tid i chunks. apply deltas_concatenate.
Qed.

Definition demo_clock : clock := {| ck_ms := 1; ck_iso := "1970-01-01T00:00:00.001Z"; ck_random := "abcd" |}.

Definition demo_turns : list TurnMessage :=
  applyLiveEventToTurns (fun _ => None) demo_clock
    (mkEvent "session-user-input" (Some "s") None
      (VObj [("prompt", VStr "fix"); ("clientRequestId", VStr "c1"); ("turnId", VStr "t1")]) None) None [].

Lemma timeline_grows_witness :
  exists t', apply_all (fun _ => None) None
    [(demo_clock, delta_event None None "t1" "Hel"); (demo_clock, delta_event None None "t1" "lo")] demo_turns = [t'] /\
    u_text t' = "Hello" /\ u_userPrompt t' = "fix" /\ u_clientRequestId t' = Some "c1".
Proof.
  destruct (timeline_grows (fun _ => None) None demo_turns []) as [_ H].
  pose proof (H "t1" 0 [(demo_clock, None, None, "Hel"); (demo_clock, None, None, "lo")]
    ltac:(discriminate) ltac:(discriminate) ltac:(vm_compute; reflexivity)) as E.
  cbn [map] in E. rewrite E. eexists. split; [vm_compute; reflexivity|]. vm_compute. done.
Defined.

(** The same prompt delivered twice with its client request id is one turn. *)
Lemma duplicate_input_once json_parse now event session turns :
  ev_type event = "session-user-input" ->
  (exists id t, str_prop "clientRequestId" (payload event) = Some id /\ id <> "" /\ t ∈ turns /\
     u_clientRequestId t = Some id) ->
  length (applyLiveEventToTurns json_parse now event session turns) = length turns.
Proof.
  intros Ht (id & t & Hid & Hne & Hin & Hc). unfold applyLiveEventToTurns. rewrite Ht. simpl.
  unfold sessionUserInput. cbv zeta. rewrite Hid. simpl. destruct (String.eqb_spec id "") as [|_]; [done|].
  destruct (find_index _ turns) as [i|] eqn:E; [by rewrite length_alter|]. exfalso. revert E.
  induction turns as [|x turns IH]; [by apply elem_of_nil in Hin|]. simpl.
  apply elem_of_cons in Hin as [<-|Hin].
  - rewrite Hc. simpl. by rewrite String.eqb_refl.
  - destruct (opt_str_eqb _ _); [done|]. destruct (find_index _ turns); [done|]. intros _. by apply IH.
Qed.
