(* ===== verification/Client.v ===== *)
(** * The client's connection

    app/src/hooks/useCodeHarbor.ts: how the app keeps, for each session, the
    sequence number it has seen, accepts the frames of its WebSocket, recovers
    from gaps and loads history. The refs and states of the hook are one record;
    a state update takes effect at once. Sequence numbers are integers, and
    session ids are those of Codex threads, never the name of a property every
    object inherits, which a plain object would read as set. Replies
    to proxied requests, sockets and the user's own actions are in [AppHook]. *)

From S2P Require Import Prelude JsValue JsDate CodexEvents Aggregator.

Local Open Scope Z_scope.

(** ** State *)

(** [gp_timer] is the delay of the running timer, if any. *)
Record gap := mkGap { gp_expectedSeq : Z; gp_attempt : Z; gp_timer : option Z }.

(** A run of [loadSessionEvents] waiting for a page. *)
Record load := mkLoad {
  ld_session : string; ld_revision : nat; ld_list : list val; ld_after : Z; ld_page : nat
}.

Record AppClient := mkClient {
  cl_cursors : jmap string Z;
  cl_seenEventKeys : list string;
  cl_gapRecovery : jmap string gap;
  cl_resumeAttempts : nat;
  cl_liveRevision : nat;
  cl_rawEvents : list val;
  cl_turns : list TurnMessage;
  cl_sessions : list val;
  cl_selected : option string;
  cl_loads : list load;
  cl_sent : list val;
  cl_storage : option (jmap string Z);
  cl_storage_ok : bool
}.

Definition with_cl_cursors (v : jmap string Z) (r : AppClient) : AppClient :=
  mkClient v (cl_seenEventKeys r) (cl_gapRecovery r) (cl_resumeAttempts r) (cl_liveRevision r)
    (cl_rawEvents r) (cl_turns r) (cl_sessions r) (cl_selected r) (cl_loads r) (cl_sent r)
    (cl_storage r) (cl_storage_ok r).
Definition with_cl_seenEventKeys (v : list string) (r : AppClient) : AppClient :=
  mkClient (cl_cursors r) v (cl_gapRecovery r) (cl_resumeAttempts r) (cl_liveRevision r)
    (cl_rawEvents r) (cl_turns r) (cl_sessions r) (cl_selected r) (cl_loads r) (cl_sent r)
    (cl_storage r) (cl_storage_ok r).
Definition with_cl_gapRecovery (v : jmap string gap) (r : AppClient) : AppClient :=
  mkClient (cl_cursors r) (cl_seenEventKeys r) v (cl_resumeAttempts r) (cl_liveRevision r)
    (cl_rawEvents r) (cl_turns r) (cl_sessions r) (cl_selected r) (cl_loads r) (cl_sent r)
    (cl_storage r) (cl_storage_ok r).
Definition with_cl_resumeAttempts (v : nat) (r : AppClient) : AppClient :=
  mkClient (cl_cursors r) (cl_seenEventKeys r) (cl_gapRecovery r) v (cl_liveRevision r)
    (cl_rawEvents r) (cl_turns r) (cl_sessions r) (cl_selected r) (cl_loads r) (cl_sent r)
    (cl_storage r) (cl_storage_ok r).
Definition with_cl_liveRevision (v : nat) (r : AppClient) : AppClient :=
  mkClient (cl_cursors r) (cl_seenEventKeys r) (cl_gapRecovery r) (cl_resumeAttempts r) v
    (cl_rawEvents r) (cl_turns r) (cl_sessions r) (cl_selected r) (cl_loads r) (cl_sent r)
    (cl_storage r) (cl_storage_ok r).
Definition with_cl_rawEvents (v : list val) (r : AppClient) : AppClient :=
  mkClient (cl_cursors r) (cl_seenEventKeys r) (cl_gapRecovery r) (cl_resumeAttempts r)
    (cl_liveRevision r) v (cl_turns r) (cl_sessions r) (cl_selected r) (cl_loads r) (cl_sent r)
    (cl_storage r) (cl_storage_ok r).
Definition with_cl_turns (v : list TurnMessage) (r : AppClient) : AppClient :=
  mkClient (cl_cursors r) (cl_seenEventKeys r) (cl_gapRecovery r) (cl_resumeAttempts r)
    (cl_liveRevision r) (cl_rawEvents r) v (cl_sessions r) (cl_selected r) (cl_loads r) (cl_sent r)
    (cl_storage r) (cl_storage_ok r).
Definition with_cl_sessions (v : list val) (r : AppClient) : AppClient :=
  mkClient (cl_cursors r) (cl_seenEventKeys r) (cl_gapRecovery r) (cl_resumeAttempts r)
    (cl_liveRevision r) (cl_rawEvents r) (cl_turns r) v (cl_selected r) (cl_loads r) (cl_sent r)
    (cl_storage r) (cl_storage_ok r).
Definition with_cl_selected (v : option string) (r : AppClient) : AppClient :=
  mkClient (cl_cursors r) (cl_seenEventKeys r) (cl_gapRecovery r) (cl_resumeAttempts r)
    (cl_liveRevision r) (cl_rawEvents r) (cl_turns r) (cl_sessions r) v (cl_loads r) (cl_sent r)
    (cl_storage r) (cl_storage_ok r).
Definition with_cl_loads (v : list load) (r : AppClient) : AppClient :=
  mkClient (cl_cursors r) (cl_seenEventKeys r) (cl_gapRecovery r) (cl_resumeAttempts r)
    (cl_liveRevision r) (cl_rawEvents r) (cl_turns r) (cl_sessions r) (cl_selected r) v (cl_sent r)
    (cl_storage r) (cl_storage_ok r).
Definition with_cl_sent (v : list val) (r : AppClient) : AppClient :=
  mkClient (cl_cursors r) (cl_seenEventKeys r) (cl_gapRecovery r) (cl_resumeAttempts r)
    (cl_liveRevision r) (cl_rawEvents r) (cl_turns r) (cl_sessions r) (cl_selected r) (cl_loads r) v
    (cl_storage r) (cl_storage_ok r).
Definition with_cl_storage (v : option (jmap string Z)) (r : AppClient) : AppClient :=
  mkClient (cl_cursors r) (cl_seenEventKeys r) (cl_gapRecovery r) (cl_resumeAttempts r)
    (cl_liveRevision r) (cl_rawEvents r) (cl_turns r) (cl_sessions r) (cl_selected r) (cl_loads r)
    (cl_sent r) v (cl_storage_ok r).
Definition with_cl_storage_ok (v : bool) (r : AppClient) : AppClient :=
  mkClient (cl_cursors r) (cl_seenEventKeys r) (cl_gapRecovery r) (cl_resumeAttempts r)
    (cl_liveRevision r) (cl_rawEvents r) (cl_turns r) (cl_sessions r) (cl_selected r) (cl_loads r)
    (cl_sent r) (cl_storage r) v.

Definition cursor_of (sessionId : string) (c : AppClient) : Z := default 0 (mget sessionId (cl_cursors c)).

(** [localStorage.setItem(CURSORS_KEY, JSON.stringify(cursors))], whose failure
    is ignored. *)
Definition persist_cursors (c : AppClient) : AppClient :=
  if cl_storage_ok c then with_cl_storage (Some (cl_cursors c)) c else c.

Definition saveCursor (sessionId : string) (seq : Z) (c : AppClient) : AppClient :=
  if (sessionId === "") || (seq =? 0) then c
  else if cursor_of sessionId c <? seq then
    let cursors := mset sessionId seq (cl_cursors c) in
    let cursors := if (Z.to_nat 10000 <? length cursors)%nat then lastn (Z.to_nat 8000) cursors else cursors in
    persist_cursors (with_cl_cursors cursors c)
  else c.

Definition resetCursor (sessionId : string) (seq : Z) (c : AppClient) : AppClient :=
  if (sessionId === "") || negb (is_safe_integer seq) || (seq <? 0) then c
  else persist_cursors (with_cl_cursors (mset sessionId seq (cl_cursors c)) c).

(** The cursors read back when the app starts; [saved] is the parsed text. *)
Definition restore_cursors (saved : option val) : jmap string Z :=
  match saved with
  | Some (VObj fs) =>
      lastn (Z.to_nat 8000) (omap (fun '(sessionId, value) =>
        match safe_integer value with
        | Some z => if (slen sessionId <=? 256)%nat && (0 <=? z) then Some (sessionId, z) else None
        | None => None
        end) fs)
  | _ => []
  end.

(** [Math.min(2000, 100 * 2 ** (attempt - 1))] *)
Definition gap_delay (attempt : Z) : Z := Z.min 2000 (100 * 2 ^ (attempt - 1)).

Definition scheduleGapRecovery (sessionId : string) (expectedSeq : Z) (c : AppClient) : AppClient :=
  let current := mget sessionId (cl_gapRecovery c) in
  if match current with
     | Some g => negb (gp_expectedSeq g =? 0) && (expectedSeq <=? gp_expectedSeq g)
     | None => false
     end then c
  else
    let attempt := Z.min (default 0 (gp_attempt <$> current) + 1) 5 in
    with_cl_gapRecovery (mset sessionId (mkGap expectedSeq attempt (Some (gap_delay attempt))) (cl_gapRecovery c)) c.

(** The start of [loadSessionEvents]; the token is the environment's. *)
Definition loadSessionEvents (sessionId : string) (c : AppClient) : AppClient :=
  if sessionId === "" then c
  else with_cl_loads (cl_loads c ++ [mkLoad sessionId (cl_liveRevision c) [] 0 0]) c.

(** The timer of a gap fires. *)
Definition gapTimerFires (sessionId : string) (c : AppClient) : AppClient :=
  match mget sessionId (cl_gapRecovery c) with
  | Some (mkGap expectedSeq attempt (Some _)) =>
      loadSessionEvents sessionId
        (with_cl_gapRecovery (mset sessionId (mkGap expectedSeq attempt None) (cl_gapRecovery c)) c)
  | _ => c
  end.

(** ** Sessions and events as objects *)

Definition session_id (s : val) : option string := str_prop "id" s.

(** [{ ...a, ...b }] *)
Definition obj_spread (a b : val) : val :=
  match a, b with
  | VObj fs, VObj gs => VObj (foldl (fun acc '(k, v) => mset k v acc) fs gs)
  | VObj fs, _ => a
  | _, VObj gs => b
  | _, _ => VObj []
  end.

Definition session_info (s : val) : SessionInfo := {|
  si_id := default "" (session_id s); si_prompt := str_prop "prompt" s; si_createdAt := str_prop "createdAt" s;
  si_startedAt := str_prop "startedAt" s; si_status := str_prop "status" s |}.

Definition find_session (id : string) (c : AppClient) : option val :=
  List.find (fun s => opt_str_eqb (session_id s) (Some id)) (cl_sessions c).

Definition event_of (msg : val) : EventMessage :=
  mkEvent (default "" (str_prop "type" msg)) (str_prop "sessionId" msg) (str_prop "requestId" msg)
    (prop "payload" msg) (str_prop "timestamp" msg).

(** [typeof msg.eventSeq === "number"] *)
Definition event_seq (msg : val) : option Z :=
  match prop "eventSeq" msg with VNum (NInt z) => Some z | _ => None end.

(** [msg.sessionId || msg.payload?.sessionId || msg.payload?.threadId] *)
Definition event_session_id (msg : val) : option string :=
  first_some [truthy_str (prop "sessionId" msg); truthy_str (prop "sessionId" (prop "payload" msg));
              truthy_str (prop "threadId" (prop "payload" msg))].

Definition max_seq (l : list val) : Z := foldl (fun m e => Z.max m (default 0 (event_seq e))) 0 l.

Section client.
Context (json_parse : string -> option val).

(** ** History *)

Definition aggregate (now : clock) (l : list val) (sid : string) (c : AppClient) : list TurnMessage :=
  aggregateEventsToTurns json_parse now (map (fun e => (now, event_of e)) l) (session_info <$> find_session sid c).

(** The gap of a session once its history is loaded up to [maxSeq]. *)
Definition settle_gap (sid : string) (maxSeq : Z) (c : AppClient) : AppClient :=
  match mget sid (cl_gapRecovery c) with
  | Some recovery =>
      if (gp_expectedSeq recovery <=? maxSeq) || (5 <=? gp_attempt recovery)
      then with_cl_gapRecovery (mdelete sid (cl_gapRecovery c)) c
      else scheduleGapRecovery sid (gp_expectedSeq recovery) c
  | None => c
  end.

(** The load is over, with the events of its pages or ([None]) an exception;
    its result counts only if the session is still shown and no live event
    arrived in between. *)
Definition historyLoaded (now : clock) (sid : string) (revisionAtStart : nat) (result : option (list val))
    (c : AppClient) : AppClient :=
  if negb (opt_str_eqb (cl_selected c) (Some sid)) || negb (cl_liveRevision c =? revisionAtStart)%nat then c
  else
    match result with
    | None => with_cl_turns (aggregate now [] sid c) c
    | Some [] => settle_gap sid 0 (with_cl_turns (aggregate now [] sid c) c)
    | Some l =>
        let raw := List.filter (fun e => negb (opt_str_eqb (str_prop "sessionId" e) (Some sid))) (cl_rawEvents c) in
        let c := with_cl_rawEvents (lastn 500 (raw ++ l)) c in
        let c := with_cl_turns (aggregate now l sid c) c in
        let maxSeq := max_seq l in
        settle_gap sid maxSeq (if 0 <? maxSeq then saveCursor sid maxSeq c else c)
    end.

Inductive page_answer :=
| PageFailed
| PageBody (data : option val).

(** One page of a load. [inl]: the next request; [inr]: the load is over. *)
Definition page_loaded (answer : page_answer) (ld : load) : load + option (list val) :=
  match answer with
  | PageFailed => inr (if (ld_page ld =? 0)%nat then None else Some (ld_list ld))
  | PageBody None => inr None
  | PageBody (Some data) =>
      let pageEvents := default [] (as_array (prop "events" data)) in
      let after :=
        match prop "historyGap" data, safe_integer (prop "availableFrom" data) with
        | VBool true, Some from => if 0 <? from then Z.max (ld_after ld) (from - 1) else ld_after ld
        | _, _ => ld_after ld
        end in
      let l := ld_list ld ++ pageEvents in
      let nextCursor := match prop "nextCursor" data with
                        | VNum (NInt z) => z
                        | _ => Z.max after (max_seq pageEvents)
                        end in
      let truncated := match prop "truncated" data with VBool true => after <? nextCursor | _ => false end in
      match pageEvents with
      | [] => inr (Some l)
      | _ => if truncated && (S (ld_page ld) <? 100)%nat
             then inl (mkLoad (ld_session ld) (ld_revision ld) l nextCursor (S (ld_page ld)))
             else inr (Some l)
      end
  end.

Definition pageAnswered (now : clock) (i : nat) (answer : page_answer) (c : AppClient) : AppClient :=
  match cl_loads c !! i with
  | None => c
  | Some ld =>
      match page_loaded answer ld with
      | inl ld' => with_cl_loads (<[i := ld']> (cl_loads c)) c
      | inr result =>
          historyLoaded now (ld_session ld) (ld_revision ld) result
            (with_cl_loads (take i (cl_loads c) ++ drop (S i) (cl_loads c)) c)
      end
  end.

(** ** Frames *)

Definition resumeComplete (open : bool) (msg : val) (c : AppClient) : AppClient :=
  if truthy (prop "truncated" (prop "payload" msg)) && open && (cl_resumeAttempts c <? 10)%nat then
    let before := cl_cursors c in
    let c := match prop "cursors" (prop "payload" msg) with
             | VObj returned =>
                 foldl (fun c '(sessionId, value) =>
                   match safe_integer value with
                   | Some z => if (0 <=? z) && (cursor_of sessionId c <? z) then saveCursor sessionId z c else c
                   | None => c
                   end) c returned
             | _ => c
             end in
    let advanced := existsb (fun '(sessionId, value) => default 0 (mget sessionId before) <? value) (cl_cursors c) in
    if advanced then
      with_cl_sent (cl_sent c ++ [VObj [("type", VStr "resume");
          ("cursors", VObj (map (fun e => (e.1, vint e.2)) (cl_cursors c)))]])
        (with_cl_resumeAttempts (S (cl_resumeAttempts c)) c)
    else c
  else c.

Definition historyGap (msg : val) (c : AppClient) : AppClient :=
  match str_prop "sessionId" (prop "payload" msg), safe_integer (prop "availableFrom" (prop "payload" msg)) with
  | Some sessionId, Some from => if 0 <? from then resetCursor sessionId (from - 1) c else c
  | _, _ => c
  end.

Definition request_key (msg : val) : string :=
  match prop "clientRequestId" (prop "payload" msg) with VStr id => "request:" ^^ id | _ => "" end.

Definition event_key (msg : val) : string :=
  match event_seq msg, event_session_id msg with
  | Some seq, Some sid => sid ^^ ":" ^^ zstr seq
  | _, _ => request_key msg
  end.

(** What becomes of a timeline frame: an old number is dropped, a number past
    the next one starts a recovery, a key already seen only moves the cursor. *)
Inductive verdict := Stale | Gap (sid : string) (seq : Z) | Seen | Fresh.

Definition classify (msg : val) (c : AppClient) : verdict :=
  let numbered := match event_seq msg, event_session_id msg with
                  | Some seq, Some sid => Some (sid, seq)
                  | _, _ => None
                  end in
  match numbered with
  | Some (sid, seq) =>
      if seq <=? cursor_of sid c then Stale
      else if cursor_of sid c + 1 <? seq then Gap sid seq
      else if shas (request_key msg) (cl_seenEventKeys c) && (request_key msg !== "") then Seen
      else if shas (event_key msg) (cl_seenEventKeys c) then Seen
      else Fresh
  | None =>
      if shas (request_key msg) (cl_seenEventKeys c) && (request_key msg !== "") then Seen else Fresh
  end.

Definition advance (msg : val) (c : AppClient) : AppClient :=
  match event_seq msg, event_session_id msg with
  | Some seq, Some sid => saveCursor sid seq c
  | _, _ => c
  end.

Definition mark_seen (msg : val) (c : AppClient) : AppClient :=
  if event_key msg === "" then c
  else
    let seen := sadd (event_key msg) (cl_seenEventKeys c) in
    with_cl_seenEventKeys (if (2000 <? length seen)%nat then lastn 1000 seen else seen) c.

(** The list of sessions shown beside the timeline. *)
Definition upsert_session (s : val) (l : list val) : list val :=
  match find_index (fun x => opt_str_eqb (session_id x) (session_id s)) l with
  | Some i => alter (fun old => obj_spread old s) i l
  | None => s :: l
  end.

Definition update_sessions (id : string) (f : val -> val) (l : list val) : list val :=
  map (fun s => if opt_str_eqb (session_id s) (Some id) then f s else s) l.

Definition session_news (msg : val) (l : list val) : list val :=
  let payload := prop "payload" msg in
  let typed t := opt_str_eqb (str_prop "type" msg) (Some t) in
  if (typed "session-started" || typed "session-forked") && truthy (prop "session" payload)
  then upsert_session (prop "session" payload) l
  else if typed "session-policy-changed" then
    match first_some [truthy_str (prop "sessionId" msg); truthy_str (prop "sessionId" payload)],
          str_prop "sessionPolicyMode" payload with
    | Some id, Some mode =>
        if (mode === "confirm") || (mode === "full-access")
        then update_sessions id (fun s => obj_spread s (VObj [("sessionPolicyMode", VStr mode)])) l else l
    | _, _ => l
    end
  else if typed "session-status" || typed "session-finished" then
    match first_some [truthy_str (prop "sessionId" msg); truthy_str (prop "threadId" payload)],
          first_some [truthy_str (prop "status" payload); truthy_str (prop "status" (prop "turn" payload))] with
    | Some id, Some status => update_sessions id (fun s => obj_spread s (VObj [("status", VStr status)])) l
    | _, _ => l
    end
  else l.

Definition timelineEvent (now : clock) (msg : val) (c : AppClient) : AppClient :=
  match classify msg c with
  | Stale => c
  | Gap sid seq => scheduleGapRecovery sid seq c
  | Seen => advance msg c
  | Fresh =>
      let c := mark_seen msg c in
      let c := with_cl_liveRevision (S (cl_liveRevision c)) c in
      let c := with_cl_rawEvents (lastn 499 (cl_rawEvents c) ++ [msg]) c in
      let c := advance msg c in
      let c := with_cl_sessions (session_news msg (cl_sessions c)) c in
      let shown := match event_session_id msg with
                   | Some sid => opt_str_eqb (cl_selected c) (Some sid)
                   | None => true
                   end in
      if shown then
        let session := match cl_selected c with Some id => find_session id c | None => None end in
        with_cl_turns (applyLiveEventToTurns json_parse now (event_of msg) (session_info <$> session) (cl_turns c)) c
      else c
  end.

(** [ws.onmessage] on the parsed frame; a [null] frame throws and is ignored.
    Replies to proxied requests are left to the promises that wait for them. *)
Definition onmessage (now : clock) (open : bool) (rawMsg : val) (c : AppClient) : AppClient :=
  let msg := if opt_str_eqb (str_prop "type" rawMsg) (Some "gateway-event") && truthy (prop "payload" rawMsg)
             then prop "payload" rawMsg else rawMsg in
  let typed t := opt_str_eqb (str_prop "type" msg) (Some t) in
  match msg with
  | VNull | VUndef => c
  | _ =>
      if typed "gateway-proxy-response" then c
      else if typed "resume-complete" then resumeComplete open msg c
      else if typed "history-gap" then historyGap msg c
      else if typed "pong" || typed "cloud-ready" then c
      else timelineEvent now msg c
  end.

(** [ws.onopen], as far as it concerns events. *)
Definition onopen (c : AppClient) : AppClient :=
  let c := with_cl_resumeAttempts 0 c in
  let c := match cl_cursors c with
           | [] => c
           | cursors => with_cl_sent (cl_sent c ++ [VObj [("type", VStr "resume");
               ("cursors", VObj (map (fun e => (e.1, vint e.2)) cursors))]]) c
           end in
  match cl_selected c with Some sid => loadSessionEvents sid c | None => c end.
End client.
