(* ===== verification/Delivery.v ===== *)
(** * Delivery of events to a client

    Each session's events are consumed once and in order, whatever the
    WebSocket repeats, reorders or loses, as long as no frame of the server moves
    the cursors itself. *)

From S2P Require Import Prelude JsValue JsDate CodexEvents Aggregator Client.

Local Open Scope Z_scope.

(** The message inside a frame. *)
Definition unwrap (rawMsg : val) : val :=
  if opt_str_eqb (str_prop "type" rawMsg) (Some "gateway-event") && truthy (prop "payload" rawMsg)
  then prop "payload" rawMsg else rawMsg.

Definition has_type (t : string) (msg : val) : bool := opt_str_eqb (str_prop "type" msg) (Some t).

(** Whether the frame may move cursors itself, over numbers the client has not
    seen: the end of a truncated replay, or a gap in the history. *)
Definition cursor_frame (rawMsg : val) : bool :=
  has_type "resume-complete" (unwrap rawMsg) && truthy (prop "truncated" (prop "payload" (unwrap rawMsg)))
  || has_type "history-gap" (unwrap rawMsg).

Definition timeline_frame (rawMsg : val) : bool :=
  match unwrap rawMsg with
  | VNull | VUndef => false
  | msg => negb (has_type "gateway-proxy-response" msg || has_type "resume-complete" msg || has_type "history-gap" msg
                 || has_type "pong" msg || has_type "cloud-ready" msg)
  end.

(** The sequence number a frame has in session [sid]. *)
Definition number (sid : string) (rawMsg : val) : option Z :=
  if timeline_frame rawMsg && opt_str_eqb (event_session_id (unwrap rawMsg)) (Some sid)
  then event_seq (unwrap rawMsg) else None.

Section delivery.
Context (json_parse : string -> option val).

Abbreviation step := (fun c '(now, open, rawMsg) => onmessage json_parse now open rawMsg c).

Definition receive (frames : list (clock * bool * val)) (c : AppClient) : AppClient := foldl step c frames.

Lemma onmessage_timeline now open raw c :
  cursor_frame raw = false ->
  onmessage json_parse now open raw c =
    if timeline_frame raw then timelineEvent json_parse now (unwrap raw) c else c.
Proof.
  unfold onmessage, timeline_frame, cursor_frame, has_type. fold (unwrap raw). cbv zeta.
  rewrite orb_false_iff. intros [H1 H2]. unfold resumeComplete. rewrite H2.
  destruct (unwrap raw); try done;
    repeat match goal with |- context [opt_str_eqb ?a ?b] => destruct (opt_str_eqb a b) eqn:? end; try done;
    cbn [andb] in H1; rewrite H1; done.
Qed.

(** ** Cursors *)

Lemma persist_same c : cl_cursors (persist_cursors c) = cl_cursors c.
Proof. unfold persist_cursors. by destruct (cl_storage_ok c). Qed.

Lemma saveCursor_cursors sid q c :
  Z.of_nat (length (cl_cursors c)) < 10000 ->
  cl_cursors (saveCursor sid q c) =
    if negb (sid === "") && negb (q =? 0) && (cursor_of sid c <? q) then mset sid q (cl_cursors c) else cl_cursors c.
Proof.
  intros Hlen. unfold saveCursor. destruct (sid === ""); simpl; [done|]. destruct (q =? 0); simpl; [done|].
  destruct (cursor_of sid c <? q); [|done].
  assert ((Z.to_nat 10000 <? length (mset sid q (cl_cursors c)))%nat = false) as ->.
  { apply Nat.ltb_ge. rewrite mset_length. destruct (mhas _ _); lia. }
  by rewrite persist_same.
Qed.

Lemma saveCursor_ext sid q c1 c :
  cl_cursors c1 = cl_cursors c -> cl_cursors (saveCursor sid q c1) = cl_cursors (saveCursor sid q c).
Proof.
  intros E. unfold saveCursor, cursor_of. rewrite E. repeat case_match; rewrite ?persist_same; done.
Qed.

(** A fresh or seen frame moves the cursors as [advance] does. *)
Lemma timeline_cursors now msg c :
  cl_cursors (timelineEvent json_parse now msg c) =
    match classify msg c with
    | Stale | Gap _ _ => cl_cursors c
    | Seen | Fresh => cl_cursors (advance msg c)
    end.
Proof.
  unfold timelineEvent. destruct (classify msg c) as [|sid q| |]; try done.
  - unfold scheduleGapRecovery. by case_match.
  - cbv zeta. set (c1 := with_cl_rawEvents _ _).
    assert (cl_cursors c1 = cl_cursors c) as E1 by (unfold c1, mark_seen; by destruct (event_key msg === "")).
    clearbody c1. assert (cl_cursors (advance msg c1) = cl_cursors (advance msg c)) as E.
    { unfold advance. destruct (event_seq msg), (event_session_id msg); try done. by apply saveCursor_ext. }
    rewrite <- E. by case_match.
Qed.

Lemma cursor_mset sid sid' q c m :
  m = mset sid' q (cl_cursors c) ->
  default 0 (mget sid m) = if decide (sid' = sid) then q else cursor_of sid c.
Proof. intros ->. rewrite mget_mset. by case_decide. Qed.

(** One frame: the cursor of [sid] moves by one, exactly when the frame carries
    the next number; the map grows by at most one entry. *)
Lemma step_cursor sid now open raw c :
  sid <> "" -> cursor_frame raw = false -> Z.of_nat (length (cl_cursors c)) < 10000 -> 0 <= cursor_of sid c ->
  let c' := onmessage json_parse now open raw c in
  cursor_of sid c' = (if bool_decide (number sid raw = Some (cursor_of sid c + 1))
                      then cursor_of sid c + 1 else cursor_of sid c) /\
  (length (cl_cursors c') <= S (length (cl_cursors c)))%nat.
Proof.
  intros Hsid Hcf Hlen Hpos c'. unfold c'. rewrite onmessage_timeline by done.
  unfold number. destruct (timeline_frame raw); simpl; [|split; [done|lia]].
  set (msg := unwrap raw). unfold cursor_of. rewrite timeline_cursors.
  assert (forall m, (length (cl_cursors (advance m c)) <= S (length (cl_cursors c)))%nat) as Hadv.
  { intros m. unfold advance. destruct (event_seq m), (event_session_id m); try lia.
    rewrite saveCursor_cursors by done. case_match; [|lia]. rewrite mset_length. destruct (mhas _ _); lia. }
  split; [|destruct (classify msg c); try lia; apply Hadv].
  unfold classify, advance. destruct (event_seq msg) as [q|], (event_session_id msg) as [sid'|]; simpl;
    try (repeat case_match; try done; case_bool_decide; done).
  destruct (Z.leb_spec q (cursor_of sid' c)) as [Hle|Hgt].
  { destruct (String.eqb_spec sid' sid) as [->|]; case_bool_decide as B; try done.
    exfalso. injection B as B. unfold cursor_of in *. lia. }
  destruct (Z.ltb_spec (cursor_of sid' c + 1) q) as [Hlt|Hge].
  { destruct (String.eqb_spec sid' sid) as [->|]; case_bool_decide as B; try done.
    exfalso. injection B as B. unfold cursor_of in *. lia. }
  assert (q = cursor_of sid' c + 1) as Hq by lia.
  assert (forall v, v = Seen \/ v = Fresh ->
    match v with Stale | Gap _ _ => cl_cursors c | _ => cl_cursors (saveCursor sid' q c) end =
    cl_cursors (saveCursor sid' q c)) as Hv by (by intros v [->| ->]).
  rewrite Hv by (repeat case_match; auto). rewrite saveCursor_cursors by done.
  destruct (String.eqb_spec sid' sid) as [->|Hne].
  - rewrite bool_decide_true by (by rewrite Hq).
    destruct (String.eqb_spec sid ""); [done|]. destruct (Z.eqb_spec q 0); [lia|].
    destruct (Z.ltb_spec (cursor_of sid c) q); [|lia]. simpl. rewrite mget_mset_eq. simpl. exact Hq.
  - rewrite bool_decide_false by done. case_match; [|done]. by rewrite mget_mset_ne.
Qed.

(** The number of [sid] a client accepts with a frame. *)
Definition accepted (sid : string) (raw : val) (c : AppClient) : option Z :=
  match classify (unwrap raw) c with
  | Seen | Fresh => number sid raw
  | _ => None
  end.

(** The numbers of [sid] it accepts from a run of frames, in that order. *)
Fixpoint consumed (sid : string) (frames : list (clock * bool * val)) (c : AppClient) : list Z :=
  match frames with
  | [] => []
  | f :: fs => option_list (accepted sid f.2 c) ++ consumed sid fs (step c f)
  end.

Lemma number_spec sid raw q :
  number sid raw = Some q ->
  timeline_frame raw = true /\ event_session_id (unwrap raw) = Some sid /\ event_seq (unwrap raw) = Some q.
Proof.
  unfold number. destruct (timeline_frame raw); [|done]. simpl. unfold opt_str_eqb.
  destruct (event_session_id (unwrap raw)) as [s|]; [|done]. destruct (String.eqb_spec s sid) as [->|]; done.
Qed.

Lemma accepted_next sid raw c :
  accepted sid raw c =
    if bool_decide (number sid raw = Some (cursor_of sid c + 1)) then Some (cursor_of sid c + 1) else None.
Proof.
  unfold accepted. destruct (number sid raw) as [q|] eqn:E; [|by destruct (classify _ _)].
  destruct (number_spec _ _ _ E) as (_ & Hs & Hq). unfold classify. rewrite Hs, Hq.
  destruct (Z.leb_spec q (cursor_of sid c)); [case_bool_decide as B; [injection B; lia|done]|].
  destruct (Z.ltb_spec (cursor_of sid c + 1) q); [case_bool_decide as B; [injection B; lia|done]|].
  rewrite bool_decide_true by (f_equal; lia). replace (cursor_of sid c + 1) with q by lia.
  by repeat case_match.
Qed.

(** A numbered frame that is not accepted leaves what is shown alone. *)
Lemma refused_invisible sid now open raw c q :
  number sid raw = Some q -> q <> cursor_of sid c + 1 ->
  let c' := onmessage json_parse now open raw c in
  cl_turns c' = cl_turns c /\ cl_sessions c' = cl_sessions c /\ cl_rawEvents c' = cl_rawEvents c.
Proof.
  intros E Hne. destruct (number_spec _ _ _ E) as (Ht & Hs & Hq). cbv zeta.
  assert (cursor_frame raw = false) as Hcf.
  { unfold timeline_frame in Ht. unfold cursor_frame. destruct (unwrap raw); try done;
      rewrite negb_true_iff, !orb_false_iff in Ht; destruct Ht as [[[[_ H1] H2] _] _]; rewrite H1, H2; done. }
  rewrite onmessage_timeline by done. rewrite Ht. unfold timelineEvent, classify. rewrite Hs, Hq.
  destruct (Z.leb_spec q (cursor_of sid c)); [done|].
  destruct (Z.ltb_spec (cursor_of sid c + 1) q); [|lia].
  unfold scheduleGapRecovery. by case_match.
Qed.

Lemma receive_cursor sid frames : forall c,
  sid <> "" -> Forall (fun f => cursor_frame f.2 = false) frames ->
  Z.of_nat (length (cl_cursors c) + length frames) <= 10000 -> 0 <= cursor_of sid c ->
  consumed sid frames c = seqZ (cursor_of sid c + 1) (Z.of_nat (length (consumed sid frames c))) /\
  cursor_of sid (receive frames c) = cursor_of sid c + Z.of_nat (length (consumed sid frames c)) /\
  forall n, seqZ (cursor_of sid c + 1) (Z.of_nat n) `sublist_of` omap (fun f => number sid f.2) frames ->
    (n <= length (consumed sid frames c))%nat.
Proof.
  induction frames as [|[[now open] raw] frames IH]; intros c Hsid Hf Hlen Hpos.
  { simpl. split_and!; [done|unfold receive; simpl; lia|]. intros n Hn%sublist_nil_r.
    destruct n; [lia|]. rewrite seqZ_cons in Hn by lia. done. }
  apply Forall_cons in Hf as [Hcf Hf]. simpl in Hcf, Hlen. cbn [consumed receive foldl].
  destruct (step_cursor sid now open raw c Hsid Hcf ltac:(lia) Hpos) as [Hcur Hgrow].
  cbv zeta in Hcur, Hgrow.
  set (c1 := onmessage json_parse now open raw c) in *. change (step c (now, open, raw)) with c1.
  cbn [snd]. rewrite accepted_next.
  destruct (IH c1 Hsid Hf ltac:(lia) ltac:(case_bool_decide; lia)) as (Hseq & Hend & Hmax).
  fold (receive frames c1). set (rest := consumed sid frames c1) in *.
  case_bool_decide as B; rewrite Hcur in *;
    [change (option_list (Some ?x) ++ rest) with (x :: rest)|change (option_list None ++ rest) with rest].
  - split; [|split].
    + cbn [length]. rewrite seqZ_cons by lia. f_equal. rewrite Hseq at 1. apply (f_equal2 seqZ); lia.
    + rewrite Hend. simpl. lia.
    + intros n Hn. destruct n as [|n]; [simpl; lia|]. simpl. rewrite seqZ_cons in Hn by lia.
      apply le_n_S. apply Hmax. replace (Z.of_nat n) with (Z.pred (Z.of_nat (S n))) by lia.
      replace (cursor_of sid c + 1 + 1) with (Z.succ (cursor_of sid c + 1)) by lia.
      cbn [omap list_omap] in Hn. simpl in Hn. rewrite B in Hn. inversion Hn; subst; [done|].
      etrans; [|eassumption]. by apply sublist_cons.
  - split; [done|]. split; [done|]. intros n Hn. apply Hmax.
    simpl in Hn. destruct (number sid raw) as [q|]; [|done].
    destruct n as [|n]; [apply sublist_nil_l|]. rewrite seqZ_cons in * by lia.
    inversion Hn; subst; [|done]. congruence.
Qed.

Lemma consumed_sublist sid frames : forall c,
  consumed sid frames c `sublist_of` omap (fun f => number sid f.2) frames.
Proof.
  induction frames as [|f frames IH]; intros c; [done|]. simpl. rewrite accepted_next.
  match goal with |- context [consumed sid frames ?c'] => specialize (IH c') end.
  case_bool_decide as B; [rewrite B; by apply sublist_skip|].
  destruct (number sid f.2); [by apply sublist_cons|done].
Qed.

(** When the frames carry exactly the next [n] numbers, they are all consumed. *)
Lemma receive_run sid frames c n :
  sid <> "" -> Forall (fun f => cursor_frame f.2 = false) frames ->
  Z.of_nat (length (cl_cursors c) + length frames) <= 10000 -> 0 <= cursor_of sid c ->
  omap (fun f => number sid f.2) frames = seqZ (cursor_of sid c + 1) (Z.of_nat n) ->
  consumed sid frames c = seqZ (cursor_of sid c + 1) (Z.of_nat n) /\
  cursor_of sid (receive frames c) = cursor_of sid c + Z.of_nat n.
Proof.
  intros Hs Hf Hlen Hpos E. destruct (receive_cursor sid frames c Hs Hf Hlen Hpos) as (H1 & H2 & H3).
  pose proof (sublist_length _ _ (consumed_sublist sid frames c)) as Hle.
  rewrite E, length_seqZ, Nat2Z.id in Hle. specialize (H3 n). rewrite E in H3. specialize (H3 (reflexivity _)).
  assert (length (consumed sid frames c) = n) as Hn by lia. rewrite Hn in *. done.
Qed.

Lemma saveCursor_NoDup sid q c : NoDup (cl_cursors c).*1 -> NoDup (cl_cursors (saveCursor sid q c)).*1.
Proof.
  intros H. unfold saveCursor. repeat case_match; rewrite ?persist_same; simpl; try done;
    [unfold lastn; rewrite fmap_drop, <- (length_fmap fst); apply NoDup_lastn|]; by apply mset_NoDup.
Qed.

Lemma receive_NoDup frames : forall c,
  Forall (fun f => cursor_frame f.2 = false) frames ->
  NoDup (cl_cursors c).*1 -> NoDup (cl_cursors (receive frames c)).*1.
Proof.
  induction frames as [|[[now open] raw] frames IH]; intros c Hf H; [done|].
  apply Forall_cons in Hf as [Hcf Hf]. cbn [receive foldl]. apply IH; [done|]. simpl in Hcf.
  rewrite onmessage_timeline by done. case_match; [|done]. rewrite timeline_cursors.
  case_match; try done; unfold advance; repeat case_match; try done; by apply saveCursor_NoDup.
Qed.

Lemma saveCursor_sent sid q c : cl_sent (saveCursor sid q c) = cl_sent c.
Proof. unfold saveCursor, persist_cursors. repeat case_match; done. Qed.

Lemma advance_sent msg c : cl_sent (advance msg c) = cl_sent c.
Proof. unfold advance. destruct (event_seq msg), (event_session_id msg); try done. apply saveCursor_sent. Qed.

Lemma timeline_sent now msg c : cl_sent (timelineEvent json_parse now msg c) = cl_sent c.
Proof.
  unfold timelineEvent. destruct (classify msg c); [done| |apply advance_sent|].
  - unfold scheduleGapRecovery. by case_match.
  - cbv zeta. set (c1 := with_cl_rawEvents _ _).
    assert (cl_sent c1 = cl_sent c) as <- by (unfold c1, mark_seen; by destruct (event_key msg === "")).
    clearbody c1. rewrite <- (advance_sent msg c1). by case_match.
Qed.

Lemma receive_sent frames : forall c,
  Forall (fun f => cursor_frame f.2 = false) frames -> cl_sent (receive frames c) = cl_sent c.
Proof.
  induction frames as [|[[now open] raw] frames IH]; intros c Hf; [done|].
  apply Forall_cons in Hf as [Hcf Hf]. change (cl_sent (receive frames (onmessage json_parse now open raw c)) = cl_sent c).
  rewrite IH by done. simpl in Hcf. rewrite onmessage_timeline by done. case_match; [apply timeline_sent|done].
Qed.
End delivery.

(** ** Recovery from gaps

    [settle_gap] asks for the same number again, which [scheduleGapRecovery]
    refuses: a load that does not reach the gap is not retried, and frames up to
    that number start no further recovery. *)
Lemma gap_retry_never_scheduled sid maxSeq c g :
  mget sid (cl_gapRecovery c) = Some g -> 0 < gp_expectedSeq g -> maxSeq < gp_expectedSeq g -> gp_attempt g < 5 ->
  settle_gap sid maxSeq c = c /\
  forall q, q <= gp_expectedSeq g -> scheduleGapRecovery sid q c = c.
Proof.
  intros E Hpos Hlt Ha.
  assert (forall q, q <= gp_expectedSeq g -> scheduleGapRecovery sid q c = c) as Hs.
  { intros q Hq. unfold scheduleGapRecovery. rewrite E.
    rewrite (proj2 (Z.eqb_neq (gp_expectedSeq g) 0)), (proj2 (Z.leb_le q (gp_expectedSeq g))) by lia. done. }
  split; [|exact Hs]. unfold settle_gap. rewrite E.
  rewrite (proj2 (Z.leb_gt (gp_expectedSeq g) maxSeq)), (proj2 (Z.leb_gt 5 (gp_attempt g))) by lia. by apply Hs.
Qed.

(** A control frame the client does not know (the server's [gateway-ready] and
    [resume-rate-limited]) counts as a live event: a history load that was
    waiting when it arrived is thrown away. *)
Lemma control_frame_discards_history json_parse now now' msg result sid c :
  prop "eventSeq" msg = VUndef -> prop "clientRequestId" (prop "payload" msg) = VUndef ->
  let c' := timelineEvent json_parse now msg c in
  historyLoaded json_parse now' sid (cl_liveRevision c) result c' = c'.
Proof.
  intros Hq Hr c'.
  assert (cl_liveRevision c' = S (cl_liveRevision c)) as E.
  { unfold c', timelineEvent, classify, mark_seen, event_key, request_key, advance, event_seq.
    rewrite Hq, Hr. simpl. rewrite andb_false_r. by case_match. }
  unfold historyLoaded. rewrite E.
  rewrite (proj2 (Nat.eqb_neq (S (cl_liveRevision c)) (cl_liveRevision c))) by lia. by rewrite orb_true_r.
Qed.

(** C8: events are consumed once and in order: on a stretch of frames in which
    the server moves no cursor itself (no end of a truncated replay, no
    [history-gap]) and as long as cursors and frames are at most 10,000 together,
    however frames are repeated, reordered or lost, the numbers of a session the
    client consumes are consecutive from its cursor, every such number present
    in order among the frames is consumed, and the cursor counts them; a
    numbered frame that is not the next one changes nothing the client shows.
    [truncated_resume_skips] shows what a frame that moves cursors does. *)
Theorem in_order_delivery json_parse sid frames c :
  sid <> "" -> Forall (fun f => cursor_frame f.2 = false) frames ->
  Z.of_nat (length (cl_cursors c) + length frames) <= 10000 -> 0 <= cursor_of sid c ->
  (exists n, consumed json_parse sid frames c = seqZ (cursor_of sid c + 1) (Z.of_nat n) /\
     cursor_of sid (receive json_parse frames c) = cursor_of sid c + Z.of_nat n /\
     forall k, seqZ (cursor_of sid c + 1) (Z.of_nat k) `sublist_of` omap (fun f => number sid f.2) frames -> (k <= n)%nat) /\
  (forall now open raw q, number sid raw = Some q -> q <> cursor_of sid c + 1 ->
     let c' := onmessage json_parse now open raw c in
     cl_turns c' = cl_turns c /\ cl_sessions c' = cl_sessions c /\ cl_rawEvents c' = cl_rawEvents c).
Proof.
  intros Hs Hf Hl Hp. split; [|intros; by eapply refused_invisible].
  eexists. by apply receive_cursor.
Qed.

Definition numbered_frame (q : Z) : clock * bool * val :=
  ({| ck_ms := 1; ck_iso := "1970-01-01T00:00:00.001Z"; ck_random := "abcd" |}, true,
   VObj [("type", VStr "session-output"); ("sessionId", VStr "s"); ("payload", VObj []); ("eventSeq", vint q)]).

Lemma in_order_delivery_witness :
  let c := mkClient [("s", 1)] [] [] 0 0 [] [] [] None [] [] None true in
  let frames := map numbered_frame [1; 2; 2; 4; 3; 1; 4] in
  cursor_of "s" (receive (fun _ => None) frames c) = 4 /\
  cl_rawEvents (onmessage (fun _ => None) (numbered_frame 4).1.1 true (numbered_frame 4).2 c) = [].
Proof.
  destruct (in_order_delivery (fun _ => None) "s" (map numbered_frame [1; 2; 2; 4; 3; 1; 4])
    (mkClient [("s", 1)] [] [] 0 0 [] [] [] None [] [] None true)) as [(n & H1 & H2 & _) H3];
    [discriminate | repeat constructor | vm_compute; discriminate | vm_compute; discriminate |].
  split.
  - etrans; [exact H2|]. apply (f_equal length) in H1. rewrite length_seqZ, Nat2Z.id in H1. rewrite <- H1. vm_compute. done.
  - apply (H3 (numbered_frame 4).1.1 true (numbered_frame 4).2 4); vm_compute; [reflexivity|discriminate].
Defined.

(** The end of a truncated replay that arrives while one of its events is lost
    moves the cursor past it: event 2 is not consumed, no recovery is started,
    and when it arrives after all it is dropped as old. *)
Example truncated_resume_skips :
  let c := mkClient [("s", 1)] [] [] 0 0 [] [] [] None [] [] None true in
  let complete := ((numbered_frame 0).1, VObj [("type", VStr "resume-complete");
        ("payload", VObj [("truncated", VBool true); ("cursors", VObj [("s", vint 3)])])]) in
  let c' := receive (fun _ => None) [complete; numbered_frame 2; numbered_frame 4] c in
  consumed (fun _ => None) "s" [complete; numbered_frame 2; numbered_frame 4] c = [4] /\
  cursor_of "s" c' = 4 /\ cl_gapRecovery c' = [] /\ length (cl_rawEvents c') = 1%nat.
Proof. by vm_compute. Qed.
