(* ===== verification/WebSocketServer.v ===== *)
(** * The event socket of the gateway

    The [/ws] route of server/src/index.ts with [sendClient] and [broadcast]: a
    client is admitted with a token, told the state of the gateway, answered
    pings, and replayed the events it missed. Each use of the socket (a send or
    a ping) finds it in a state the environment chooses ([moment]); after the
    gateway closes it, it is no longer open. *)

From S2P Require Import Prelude JsValue JsDate Json GatewayStore Auth CodexEvents.

Local Open Scope Z_scope.

(** ** State *)

Record moment := mkMoment { sk_open : bool; sk_bufferedAmount : Z; sk_throws : bool }.

Inductive closing :=
| Close (code : Z)
| Terminate.

Record Client := mkWsClient {
  ws_socket : nat -> moment;
  ws_uses : nat;
  ws_closing : option closing;
  ws_sent : list val;
  ws_authedAt : Z;
  ws_isAlive : bool;
  ws_lastResumeAt : Z
}.

Definition with_ws_closing (v : option closing) (c : Client) : Client :=
  mkWsClient (ws_socket c) (ws_uses c) v (ws_sent c) (ws_authedAt c) (ws_isAlive c) (ws_lastResumeAt c).
Definition with_ws_isAlive (v : bool) (c : Client) : Client :=
  mkWsClient (ws_socket c) (ws_uses c) (ws_closing c) (ws_sent c) (ws_authedAt c) v (ws_lastResumeAt c).
Definition with_ws_lastResumeAt (v : Z) (c : Client) : Client :=
  mkWsClient (ws_socket c) (ws_uses c) (ws_closing c) (ws_sent c) (ws_authedAt c) (ws_isAlive c) v.

(** The next use of the socket. *)
Definition use (c : Client) : moment * Client :=
  (ws_socket c (ws_uses c),
   mkWsClient (ws_socket c) (S (ws_uses c)) (ws_closing c) (ws_sent c) (ws_authedAt c) (ws_isAlive c)
     (ws_lastResumeAt c)).

Definition ws_open (k : moment) (c : Client) : bool :=
  sk_open k && match ws_closing c with None => true | Some _ => false end.

Definition add_sent (v : val) (c : Client) : Client :=
  mkWsClient (ws_socket c) (ws_uses c) (ws_closing c) (ws_sent c ++ [v]) (ws_authedAt c) (ws_isAlive c)
    (ws_lastResumeAt c).

Definition maxClientBufferedBytes : Z := 32 * 1024 * 1024.
Definition maxResumeEvents : nat := Z.to_nat 5000.
Definition maxResumeBytes : Z := 32 * 1024 * 1024.
Definition maxResumeSessions : nat := 512.

(** [Buffer.byteLength(JSON.stringify(message))] *)
Definition text_bytes (message : val) : Z := Z.of_nat (byte_length (stringify message)).

(** [sendClient(client, JSON.stringify(message))] *)
Definition sendClient (message : val) (c : Client) : bool * Client :=
  let '(k, c) := use c in
  if negb (ws_open k c) then (false, c)
  else if maxClientBufferedBytes <? sk_bufferedAmount k + text_bytes message
  then (false, with_ws_closing (Some (Close 1013)) c)
  else if sk_throws k then (false, with_ws_closing (Some (Close 1005)) c)
  else (true, add_sent message c).

(** [broadcast(payload)] over the set of clients. *)
Definition broadcast (payload : val) (clients : list Client) : list Client :=
  map (fun c => (sendClient payload c).2) clients.

(** The interval timer of a client, and the answer to its ping. *)
Definition heartbeat (c : Client) : Client :=
  let '(k, c) := use c in
  if negb (ws_open k c) then c
  else if negb (ws_isAlive c) then with_ws_closing (Some Terminate) c
  else
    let c := with_ws_isAlive false c in
    if sk_throws k then with_ws_closing (Some Terminate) c else c.

Definition onpong (c : Client) : Client := with_ws_isAlive true c.

(** ** Replay *)

(** The finite number a cursor stands for, and its integer part. *)
Definition raw_cursor (rawCursor : val) : num :=
  match rawCursor with
  | VNum n => if is_finite n then n else NInt 0
  | _ => NInt 0
  end.

Definition num_floor (n : num) : Z := match n with NInt z => z | NFrac f _ => f | _ => 0 end.

Record replay_state := mkReplay {
  rp_latest : jmap string num;
  rp_events : nat;
  rp_bytes : Z;
  rp_truncated : bool;
  rp_client : Client
}.

Definition rp_truncate (r : replay_state) : replay_state :=
  mkReplay (rp_latest r) (rp_events r) (rp_bytes r) true (rp_client r).

(** [if (typeof seq === "number" && seq > (latest[sessionId] ?? 0)) latest[sessionId] = seq] *)
Definition note_seq (sessionId : string) (seq : option Z) (latest : jmap string num) : jmap string num :=
  match seq with
  | Some q => if num_floor (default (NInt 0) (mget sessionId latest)) <? q
              then mset sessionId (NInt q) latest else latest
  | None => latest
  end.

(** The events of one session. *)
Fixpoint replay_events (sessionId : string) (l : list GatewayMessage) (r : replay_state) : replay_state :=
  match l with
  | [] => r
  | m :: l' =>
      let bytes := text_bytes (message_val m) in
      if (maxResumeEvents <=? rp_events r)%nat || (maxResumeBytes <? rp_bytes r + bytes) then rp_truncate r
      else
        let '(ok, c) := sendClient (message_val m) (rp_client r) in
        if ok then
          replay_events sessionId l'
            (mkReplay (note_seq sessionId (m_eventSeq m) (rp_latest r)) (S (rp_events r)) (rp_bytes r + bytes)
               (rp_truncated r) c)
        else mkReplay (rp_latest r) (rp_events r) (rp_bytes r) (rp_truncated r) c
  end.

(** The sessions of the request, in order; [n] have been processed. *)
Fixpoint replay_sessions (n : nat) (cursors : list (string * val)) (r : replay_state) (st : GatewayStore)
    : replay_state * GatewayStore :=
  match cursors with
  | [] => (r, st)
  | (sessionId, rawCursor) :: rest =>
      if (maxResumeSessions <=? n)%nat then (rp_truncate r, st)
      else if (sessionId === "") || (256 <? slen sessionId)%nat
      then replay_sessions (S n) rest (rp_truncate r) st
      else
        let cursor := raw_cursor rawCursor in
        let '(l, st) := listEventsAfter sessionId (num_floor cursor) st in
        let r := replay_events sessionId l
                   (mkReplay (mset sessionId cursor (rp_latest r)) (rp_events r) (rp_bytes r) (rp_truncated r)
                      (rp_client r)) in
        if rp_truncated r then (r, st) else replay_sessions (S n) rest r st
  end.

(** [Object.entries] of the requested cursors. *)
Definition requested_cursors (message : val) : list (string * val) :=
  match prop "cursors" message with
  | VObj fs => fs
  | VArr l => imap (fun i v => (zstr (Z.of_nat i), v)) l
  | _ => []
  end.

Definition resume_complete (timestamp : string) (latest : jmap string num) (truncated : bool) : val :=
  VObj [("type", VStr "resume-complete"); ("timestamp", VStr timestamp);
        ("payload", VObj [("cursors", VObj (map (fun e => (e.1, VNum e.2)) latest)); ("truncated", VBool truncated)])].

Definition resume_rate_limited : val :=
  VObj [("type", VStr "resume-rate-limited"); ("retryAfterMs", vint 1000)].

Definition onresume (now : Z) (message : val) (c : Client) (st : GatewayStore) : Client * GatewayStore :=
  if now - ws_lastResumeAt c <? 1000 then ((sendClient resume_rate_limited c).2, st)
  else
    let c := with_ws_lastResumeAt now c in
    let '(r, st) := replay_sessions 0 (requested_cursors message) (mkReplay [] 0 0 false c) st in
    ((sendClient (resume_complete (toISOString now) (rp_latest r) (rp_truncated r)) (rp_client r)).2, st).

Definition pong_frame (now : Z) (gatewayName : string) (message : val) : val :=
  VObj [("type", VStr "pong");
        ("requestId", opt_val VStr (str_prop "requestId" message));
        ("sessionId", opt_val VStr (str_prop "sessionId" message));
        ("timestamp", VStr (toISOString now));
        ("payload", VObj [("gatewayName", VStr gatewayName)])].

(** A frame of the client, [None] when it is not JSON. *)
Definition onclientmessage (now : Z) (gatewayName : string) (frame : option val) (c : Client) (st : GatewayStore)
    : Client * GatewayStore :=
  match frame with
  | None => (c, st)
  | Some message =>
      if opt_str_eqb (str_prop "type" message) (Some "ping")
      then ((sendClient (pong_frame now gatewayName message) c).2, st)
      else if opt_str_eqb (str_prop "type" message) (Some "resume") then onresume now message c st
      else (c, st)
  end.

(** ** Admission *)

Definition gateway_ready (now : Z) (gatewayName : string) (eventCursor : jmap string Z) (codex : val) : val :=
  VObj [("type", VStr "gateway-ready"); ("timestamp", VStr (toISOString now));
        ("payload", VObj [("gatewayName", VStr gatewayName);
                          ("supportedMessages", VArr [VStr "ping"; VStr "resume"]);
                          ("eventCursor", VObj (map (fun e => (e.1, vint e.2)) eventCursor))]);
        ("codex", codex)].

(** The route: an unauthorized socket is closed and never joins the set. *)
Definition onconnection (hmac : string -> string) (config : AuthConfig) (now : Z) (protocols queryTokens : list string)
    (gatewayName : string) (codex : val) (socket : nat -> moment) (clients : list Client) (auth : AuthState)
    (st : GatewayStore) : list Client * AuthState * GatewayStore :=
  let '(ok, auth) := verifySession hmac config now (ws_token config protocols queryTokens) auth in
  if ok then
    let '(cursors, st) := latestCursors st in
    let c := mkWsClient socket 0 None [] now true 0 in
    (clients ++ [(sendClient (gateway_ready now gatewayName cursors codex) c).2], auth, st)
  else (clients, auth, st).

(** The socket of the [i]-th client is closed: [clients.delete(client)], and
    with it goes its interval timer. *)
Definition onclose (i : nat) (clients : list Client) : list Client := take i clients ++ drop (S i) clients.

(** Nobody joins without an accepted token. *)
Lemma unauthorized_not_admitted hmac config now protocols queryTokens name codex socket clients auth st :
  (verifySession hmac config now (ws_token config protocols queryTokens) auth).1 = false ->
  (onconnection hmac config now protocols queryTokens name codex socket clients auth st).1.1 = clients.
Proof. unfold onconnection. destruct (verifySession _ _ _ _ _) as [ok a]. simpl. by intros ->. Qed.

(** A silent peer is dropped by the second heartbeat after its last pong. *)
Lemma silent_peer_dropped c :
  (forall i, sk_open (ws_socket c i) = true) -> ws_closing (heartbeat (heartbeat c)) <> None.
Proof.
  intros Ho. unfold heartbeat, use, ws_open. simpl. rewrite Ho.
  destruct (ws_closing c) eqn:E1, (ws_isAlive c) eqn:E2, (sk_throws (ws_socket c (ws_uses c))) eqn:E3; simpl;
    rewrite ?E1, ?E2, ?Ho; simpl; rewrite ?E1; done.
Qed.
