(* ===== verification/Replay.v ===== *)
(** * Reconnection: the log, the server and the client together

    A client that reconnects sends its cursors ([Client.onopen]); the server
    replays the logs after them ([WebSocketServer.onresume]); the client receives
    the frames ([Delivery.receive]). With the logs at rest the frames carry, for
    every session, the numbers that follow its cursor. *)

From S2P Require Import Prelude JsValue JsDate Json GatewayStore StoreInv EventLog CodexEvents Aggregator.
From S2P Require Import WebSocketServer Client Delivery.

Local Open Scope Z_scope.

(** ** Sending *)

(** The peer keeps the connection open. *)
Definition steady (c : Client) : Prop := forall i, sk_open (ws_socket c i) = true.

Definition last_use (c c' : Client) : Prop :=
  ws_socket c' = ws_socket c /\ (ws_closing c' = None -> ws_closing c = None).

Lemma sendClient_use v c : last_use c (sendClient v c).2.
Proof. unfold sendClient, last_use. simpl. repeat case_match; simpl; try done; split; done. Qed.

Lemma sendClient_steady v c :
  steady c -> ws_closing (sendClient v c).2 = None ->
  (sendClient v c).1 = true /\ ws_sent (sendClient v c).2 = ws_sent c ++ [v].
Proof.
  intros Hs. unfold sendClient, ws_open. simpl. rewrite Hs. simpl.
  destruct (ws_closing c) eqn:E; simpl; [congruence|]. repeat case_match; simpl; done.
Qed.

Lemma last_use_trans a b c : last_use a b -> last_use b c -> last_use a c.
Proof. intros [E1 H1] [E2 H2]. split; [congruence|auto]. Qed.

Lemma last_use_steady a b : last_use a b -> steady a -> steady b.
Proof. intros [E _] H i. rewrite E. apply H. Qed.

(** ** The events of one session *)

Lemma replay_events_use sid l : forall r, last_use (rp_client r) (rp_client (replay_events sid l r)).
Proof.
  induction l as [|m l IH]; intros r; [by split|]. cbn [replay_events].
  case_match; [by split|]. pose proof (sendClient_use (message_val m) (rp_client r)) as Hu.
  destruct (sendClient _ _) as [ok c]. destruct ok; [|done].
  eapply last_use_trans; [exact Hu|]. apply (IH (mkReplay _ _ _ _ c)).
Qed.

Definition total_bytes (l : list GatewayMessage) : Z := foldr (fun m z => text_bytes (message_val m) + z) 0 l.

Lemma text_bytes_nonneg v : 0 <= text_bytes v.
Proof. unfold text_bytes. lia. Qed.

Lemma total_bytes_nonneg l : 0 <= total_bytes l.
Proof. induction l as [|m l IH]; simpl; [lia|]. pose proof (text_bytes_nonneg (message_val m)). lia. Qed.

Definition note_all (sid : string) (l : list GatewayMessage) (latest : jmap string num) : jmap string num :=
  foldl (fun latest m => note_seq sid (m_eventSeq m) latest) latest l.

(** A prefix of the events is sent, all of them within the limits, and the
    reply is marked truncated when some are left out. *)
Lemma replay_events_spec sid l : forall r,
  let r' := replay_events sid l r in
  steady (rp_client r) -> ws_closing (rp_client r') = None ->
  exists k, (k <= length l)%nat /\
    ws_sent (rp_client r') = ws_sent (rp_client r) ++ (message_val <$> take k l) /\
    rp_latest r' = note_all sid (take k l) (rp_latest r) /\
    rp_events r' = (rp_events r + k)%nat /\ rp_bytes r' = rp_bytes r + total_bytes (take k l) /\
    (rp_events r <= maxResumeEvents -> rp_events r' <= maxResumeEvents)%nat /\
    rp_truncated r' = rp_truncated r || negb (k =? length l)%nat /\
    ((rp_events r + length l <= maxResumeEvents)%nat -> rp_bytes r + total_bytes l <= maxResumeBytes -> k = length l).
Proof.
  induction l as [|m l IH]; intros r r' Hs Hc; unfold r' in *; clear r'.
  { exists 0%nat. simpl. rewrite app_nil_r, orb_false_r. split_and!; try done; lia. }
  pose proof (text_bytes_nonneg (message_val m)) as Hb. pose proof (total_bytes_nonneg l) as Hbs.
  cbn [replay_events] in *.
  destruct ((maxResumeEvents <=? rp_events r)%nat || (maxResumeBytes <? rp_bytes r + text_bytes (message_val m))) eqn:E.
  { exists 0%nat. simpl. rewrite app_nil_r, orb_true_r. split_and!; try done; try lia.
    intros H1 H2. exfalso. apply orb_true_iff in E as [E|E]; [apply Nat.leb_le in E; lia|apply Z.ltb_lt in E; lia]. }
  apply orb_false_iff in E as [E1%Nat.leb_gt E2%Z.ltb_ge].
  pose proof (sendClient_use (message_val m) (rp_client r)) as Hu.
  pose proof (sendClient_steady (message_val m) (rp_client r) Hs) as Hsend.
  destruct (sendClient (message_val m) (rp_client r)) as [ok c]. cbn [fst snd] in *.
  destruct ok; [|exfalso; by destruct (Hsend Hc)].
  set (r1 := mkReplay _ _ _ _ c) in *.
  assert (ws_closing c = None) as Hc1 by (by apply (replay_events_use sid l r1)).
  destruct (Hsend Hc1) as [_ Hsent]. clear Hsend.
  destruct (IH r1) as (k & Hk & Q1 & Q2 & Q3 & Q4 & Q5 & Q6 & Q7); [by eapply last_use_steady|done|].
  exists (S k). cbn [take length]. split_and!.
  - lia.
  - rewrite Q1. cbn [rp_client r1]. rewrite Hsent, <- app_assoc. done.
  - rewrite Q2. done.
  - rewrite Q3. simpl. lia.
  - rewrite Q4. simpl. lia.
  - intros _. apply Q5. simpl. lia.
  - rewrite Q6. done.
  - intros H1 H2. simpl in H2. f_equal. apply Q7; simpl; lia.
Qed.

Lemma note_all_cons sid m l latest :
  note_all sid (m :: l) latest = note_all sid l (note_seq sid (m_eventSeq m) latest).
Proof. done. Qed.

Lemma note_all_other sid sid' l : forall latest,
  sid' <> sid -> mget sid (note_all sid' l latest) = mget sid latest.
Proof.
  induction l as [|m l IH]; intros latest Hne; [done|]. rewrite note_all_cons, IH by done. unfold note_seq. repeat case_match; try done. by apply mget_mset_ne.
Qed.

Lemma note_all_NoDup sid l : forall latest, NoDup latest.*1 -> NoDup (note_all sid l latest).*1.
Proof.
  induction l as [|m l IH]; intros latest H; [done|]. apply IH. unfold note_seq.
  repeat case_match; try done. by apply mset_NoDup.
Qed.

(** The cursor reported for a run of consecutive numbers. *)
Lemma note_all_run sid n : forall l cursor latest,
  seq_of <$> l = seqZ (cursor + 1) (Z.of_nat n) -> Forall (fun m => is_Some (m_eventSeq m)) l ->
  mget sid latest = Some (NInt cursor) ->
  mget sid (note_all sid l latest) = Some (NInt (cursor + Z.of_nat n)).
Proof.
  induction n as [|n IH]; intros l cursor latest E Hs H.
  { destruct l; [|done]. simpl. rewrite H. do 2 f_equal. lia. }
  rewrite seqZ_cons in E by lia. destruct l as [|m l]; [done|]. injection E as E1 E2.
  apply Forall_cons in Hs as [[q Hq] Hs]. unfold seq_of in E1. rewrite Hq in E1. simpl in E1. subst q.
  rewrite note_all_cons, Hq. simpl. rewrite H. simpl.
  rewrite (proj2 (Z.ltb_lt _ _)) by lia.
  rewrite (IH l (cursor + 1)); [do 2 f_equal; lia| |done|apply mget_mset_eq].
  etrans; [exact E2|]. f_equal; lia.
Qed.

(** ** Frames and numbers *)

(** The types a client does not take for control frames. *)
Definition timeline_type (t : string) : bool :=
  negb (shas t ["gateway-event"; "gateway-proxy-response"; "resume-complete"; "history-gap"; "pong"; "cloud-ready"]).

Lemma timeline_type_spec t :
  timeline_type t = true ->
  t <> "gateway-event" /\ t <> "gateway-proxy-response" /\ t <> "resume-complete" /\ t <> "history-gap" /\
  t <> "pong" /\ t <> "cloud-ready".
Proof. unfold timeline_type. intros H. split_and!; intros ->; vm_compute in H; discriminate. Qed.

Definition frame_of (m : GatewayMessage) : val := json_clone (message_val m).

Lemma frame_props m :
  str_prop "type" (frame_of m) = Some (m_type m) /\
  prop "sessionId" (frame_of m) = opt_val VStr (m_sessionId m) /\
  prop "eventSeq" (frame_of m) = opt_val (fun q => vint q) (m_eventSeq m).
Proof.
  unfold frame_of, message_val. destruct m as [t [r|] [s|] ts p [q|]]; simpl;
    destruct p as [| | |n| | |]; simpl; repeat split; try done; by destruct (is_finite n).
Qed.

Lemma opt_str_eqb_ne (a b : string) : a <> b -> opt_str_eqb (Some a) (Some b) = false.
Proof. intros. simpl. by apply String.eqb_neq. Qed.

Lemma frame_number sid m s q :
  timeline_type (m_type m) = true -> m_sessionId m = Some s -> s <> "" -> m_eventSeq m = Some q ->
  cursor_frame (frame_of m) = false /\
  number sid (frame_of m) = if decide (s = sid) then Some q else None.
Proof.
  intros Ht Hs Hne Hq. destruct (frame_props m) as (E1 & E2 & E3). rewrite Hs in E2. rewrite Hq in E3.
  destruct (timeline_type_spec _ Ht) as (? & ? & ? & ? & ? & ?).
  assert (exists fs, frame_of m = VObj fs) as [fs Efs] by (unfold frame_of, message_val; simpl; eauto).
  assert (unwrap (frame_of m) = frame_of m) as Hu by (unfold unwrap; by rewrite E1, opt_str_eqb_ne).
  unfold cursor_frame, number, timeline_frame, has_type. rewrite Hu, E1, !opt_str_eqb_ne by done.
  split; [done|]. unfold event_session_id, event_seq. rewrite E2, E3, Efs.
  cbn [opt_val truthy_str truthy]. unfold truthy_str. simpl.
  destruct (String.eqb_spec s ""); [done|]. simpl.
  rewrite <- Efs, E1, !opt_str_eqb_ne by done. simpl.
  destruct (String.eqb_spec s sid), (decide (s = sid)); done.
Qed.

(** ** Logs numbered from one *)

Definition numbered (log : list GatewayMessage) : Prop :=
  m_eventSeq <$> log = Some <$> seqZ 1 (Z.of_nat (length log)) /\
  Forall (fun m => timeline_type (m_type m) = true) log.

Lemma numbered_current log : numbered log -> current_seq log = Z.of_nat (length log).
Proof.
  intros [H _]. unfold current_seq, last_seq. destruct log as [|m log _] using rev_ind; [done|].
  rewrite length_app, Nat.add_1_r, seqZ_S, !fmap_app in H. apply app_inj_2 in H as [_ H]; [|done].
  injection H as H. rewrite last_snoc. simpl. rewrite H, length_app. simpl. lia.
Qed.

Lemma numbered_append m log :
  numbered log -> m_eventSeq m = None -> timeline_type (m_type m) = true -> numbered (abs_append m log).
Proof.
  intros H Hm Ht. pose proof (numbered_current log H) as Hc. destruct H as [H1 H2]. unfold abs_append. split.
  - rewrite length_app, Nat.add_1_r, seqZ_S, !fmap_app, H1. f_equal. simpl. rewrite Hm. simpl. do 2 f_equal. lia.
  - apply Forall_app. split; [done|]. by constructor.
Qed.

(** The gateway numbers its messages itself. *)
Definition plain (o : op) : bool :=
  match o with
  | AppendEvent m => match m_eventSeq m with None => timeline_type (m_type m) | Some _ => false end
  | _ => true
  end.

Lemma plain_append m : plain (AppendEvent m) = true -> m_eventSeq m = None /\ timeline_type (m_type m) = true.
Proof. simpl. by destruct (m_eventSeq m). Qed.

Lemma numbered_run sid os : forall log, forallb plain os = true -> numbered log -> numbered (abs_run sid os log).
Proof.
  induction os as [|o os IH]; intros log Hp H; [done|]. simpl in Hp. apply andb_true_iff in Hp as [Ho Hp].
  apply IH; [done|]. destruct o; try done. apply plain_append in Ho as [? ?]. simpl.
  case_match; [|done]. by apply numbered_append.
Qed.

Lemma filter_seqZ cursor n : forall a,
  List.filter (fun q => cursor <? q) (seqZ a (Z.of_nat n)) =
    seqZ (Z.max a (cursor + 1)) (a + Z.of_nat n - Z.max a (cursor + 1)).
Proof.
  induction n as [|n IH]; intros a.
  { simpl. symmetry. apply seqZ_nil. lia. }
  rewrite seqZ_cons by lia. simpl. replace (Z.pred (Z.of_nat (S n))) with (Z.of_nat n) by lia. rewrite IH.
  destruct (Z.ltb_spec cursor a).
  - rewrite (seqZ_cons (Z.max a (cursor + 1))) by lia. f_equal; [lia|]. f_equal; lia.
  - f_equal; lia.
Qed.

Lemma after_numbered log cursor :
  numbered log -> 0 <= cursor ->
  m_eventSeq <$> after cursor log = Some <$> seqZ (cursor + 1) (Z.of_nat (length log) - cursor).
Proof.
  intros [H _] Hc.
  assert (m_eventSeq <$> after cursor log =
          Some <$> List.filter (fun q => cursor <? q) (seqZ 1 (Z.of_nat (length log)))) as E.
  { revert H. generalize (seqZ 1 (Z.of_nat (length log))). unfold after.
    induction log as [|m log IH]; intros l H; destruct l as [|q l]; try done.
    injection H as Hm H. cbn [List.filter]. unfold seq_of at 1. rewrite Hm. simpl.
    destruct (cursor <? q); [|by apply IH]. csimpl. rewrite Hm. f_equal. by apply IH. }
  rewrite E, filter_seqZ. f_equal. f_equal; lia.
Qed.

(** ** One session of the request *)

Definition nums (sid : string) (sent : list val) : list Z := omap (fun v => number sid (json_clone v)) sent.

Lemma nums_app sid a b : nums sid (a ++ b) = nums sid a ++ nums sid b.
Proof. apply omap_app. Qed.

Lemma frame_clone m : frame_of (clone_message m) = frame_of m.
Proof.
  unfold frame_of, message_val. destruct m as [t [r|] [s|] ts p [q|]]; simpl;
    destruct p as [| | |n| | |]; try done; try (by destruct n);
    match goal with |- context [json_clone ?v] => pose proof (json_clone_idem v) as E end;
    simpl in E; simpl; rewrite E; done.
Qed.

Lemma text_bytes_clone v : text_bytes (json_clone v) = text_bytes v.
Proof. unfold text_bytes. by rewrite stringify_clone. Qed.

Lemma total_bytes_clone l : total_bytes (clone_message <$> l) = total_bytes l.
Proof.
  induction l as [|m l IH]; [done|]. csimpl. rewrite IH. f_equal.
  rewrite <- (text_bytes_clone (message_val (clone_message m))), <- (text_bytes_clone (message_val m)).
  f_equal. apply frame_clone.
Qed.

Lemma nums_cons sid m l :
  nums sid (message_val <$> m :: l) = option_list (number sid (frame_of m)) ++ nums sid (message_val <$> l).
Proof.
  unfold nums, frame_of. cbn [fmap list_fmap omap list_omap]. by destruct (number sid (json_clone (message_val m))).
Qed.

(** The frames of events of one session: they carry its numbers only. *)
Lemma session_frames s l a n :
  s <> "" -> m_eventSeq <$> l = Some <$> seqZ a n ->
  Forall (fun m => m_sessionId m = Some s /\ timeline_type (m_type m) = true) l ->
  Forall (fun v => cursor_frame (json_clone v) = false) (message_val <$> l) /\
  nums s (message_val <$> l) = seqZ a n /\
  forall sid, sid <> s -> nums sid (message_val <$> l) = [].
Proof.
  intros Hs E H. revert E. generalize (seqZ a n).
  induction H as [|m l [Hm Ht] _ IH]; intros qs E; destruct qs as [|q qs]; try done.
  injection E as Eq E. destruct (IH qs E) as (I1 & I2 & I3).
  split_and!.
  - csimpl. constructor; [|done]. by destruct (frame_number s m s q Ht Hm Hs Eq) as [? _].
  - rewrite nums_cons. destruct (frame_number s m s q Ht Hm Hs Eq) as [_ ->].
    rewrite decide_True by done. simpl. by f_equal.
  - intros sid Hne. rewrite nums_cons.
    destruct (frame_number sid m s q Ht Hm Hs Eq) as [_ ->]. rewrite decide_False by done. by apply I3.
Qed.

(** The store at rest: every session [P] asks for has its log, and no write is
    pending, so that listing one session does not disturb another. *)
Record resting (logs : string -> list GatewayMessage) (P : string -> Prop) (st : GatewayStore) : Prop := {
  rest_wf : wf st;
  rest_tasks : tasks st = [];
  rest_logs : forall s, P s -> refines s (logs s) st /\ numbered (logs s)
}.

Lemma rest_drained sid st : tasks st = [] -> drained sid st = true.
Proof. intros E. unfold drained. rewrite E. simpl. case_match; [|done]. by rewrite orb_true_r. Qed.

Lemma resting_list logs P s st :
  resting logs P st -> P s -> resting logs P (listEvents s st).2.
Proof.
  intros [H1 H2 H3] Hs. pose proof (frames_listEvents s st) as (c & q & F). split.
  - by apply wf_listEvents.
  - by rewrite F.
  - intros s' Hs'. destruct (H3 s' Hs') as [Hr Hn]. split; [|done].
    destruct (decide (s = s')) as [<-|Hne]; [|by apply listEvents_other].
    by apply (listEvents_refines s (logs s) st H1 Hr (rest_drained s st H2)).
Qed.

(** What listing gives for a session at rest. *)
Lemma resting_after logs P s cursor st :
  resting logs P st -> P s -> 0 <= cursor ->
  let l := (listEventsAfter s cursor st).1 in
  m_eventSeq <$> l = Some <$> seqZ (cursor + 1) (Z.of_nat (length (logs s)) - cursor) /\
  Forall (fun m => m_sessionId m = Some s /\ timeline_type (m_type m) = true) l /\
  total_bytes l = total_bytes (after cursor (logs s)) /\ length l = length (after cursor (logs s)).
Proof.
  intros [H1 H2 H3] Hs Hc. destruct (H3 s Hs) as [Hr Hn].
  pose proof (timeline_log s (logs s) st Hr (rest_drained s st H2)) as T.
  pose proof (listEvents_fst s st) as E. unfold listEventsAfter. destruct (listEvents s st) as [l st1].
  simpl in E. subst l. simpl. fold (after cursor (timeline s st)).
  assert (clone_message <$> after cursor (timeline s st) = after cursor (logs s)) as T' by (by rewrite after_clone, T).
  pose proof (rf_log _ _ _ Hr) as [_ Hown]. split_and!.
  - rewrite <- after_numbered, <- T' by done. by rewrite <- list_fmap_compose.
  - assert (Forall (fun m => m_sessionId m = Some s /\ timeline_type (m_type m) = true)
              (clone_message <$> after cursor (timeline s st))) as HF.
    { rewrite T'. apply List.Forall_forall. intros m [Hm _]%filter_In. destruct Hn as [_ Ht].
      rewrite List.Forall_forall in Hown, Ht. split; [by apply Hown|by apply Ht]. }
    rewrite Forall_fmap in HF. exact HF.
  - by rewrite <- T', total_bytes_clone.
  - by rewrite <- T', length_fmap.
Qed.

Lemma take_seqZ k a n : Z.of_nat k <= n -> take k (seqZ a n) = seqZ a (Z.of_nat k).
Proof.
  intros H. replace n with (Z.of_nat k + (n - Z.of_nat k)) by lia. rewrite seqZ_app by lia.
  apply take_app_length'. by rewrite length_seqZ, Nat2Z.id.
Qed.

Lemma seqs_of l qs : m_eventSeq <$> l = Some <$> qs -> seq_of <$> l = qs /\ Forall (fun m => is_Some (m_eventSeq m)) l.
Proof.
  revert qs. induction l as [|m l IH]; intros [|q qs] H; try done. injection H as Hm H.
  destruct (IH qs H) as [E F]. split; [|by constructor].
  change (seq_of m :: (seq_of <$> l) = q :: qs). unfold seq_of at 1. by rewrite Hm, E.
Qed.

(** [new] are the frames sent for [s] while [r] becomes [r']. *)
Record served (log : list GatewayMessage) (s : string) (cursor : Z) (r r' : replay_state) (new : list val) (k : nat)
    : Prop := {
  sv_sent : ws_sent (rp_client r') = ws_sent (rp_client r) ++ new;
  sv_frames : Forall (fun v => cursor_frame (json_clone v) = false) new;
  sv_length : length new = k;
  sv_count : (k <= length (after cursor log))%nat;
  sv_nums : nums s new = seqZ (cursor + 1) (Z.of_nat k);
  sv_others : forall sid, sid <> s -> nums sid new = [] /\ mget sid (rp_latest r') = mget sid (rp_latest r);
  sv_latest : mget s (rp_latest r') = Some (NInt (cursor + Z.of_nat k));
  sv_NoDup : NoDup (rp_latest r).*1 -> NoDup (rp_latest r').*1;
  sv_events : rp_events r' = (rp_events r + k)%nat;
  sv_bounded : (rp_events r <= maxResumeEvents -> rp_events r' <= maxResumeEvents)%nat;
  sv_truncated : rp_truncated r' = rp_truncated r || negb (k =? length (after cursor log))%nat;
  sv_budget : (rp_events r + length (after cursor log) <= maxResumeEvents)%nat ->
    rp_bytes r + total_bytes (after cursor log) <= maxResumeBytes ->
    k = length (after cursor log) /\ rp_bytes r' = rp_bytes r + total_bytes (after cursor log)
}.

(** The state in which the events of a session are replayed. *)
Definition start_session (s : string) (cursor : Z) (r : replay_state) : replay_state :=
  mkReplay (mset s (NInt cursor) (rp_latest r)) (rp_events r) (rp_bytes r) (rp_truncated r) (rp_client r).

Lemma replay_one logs P s cursor st r :
  let r' := replay_events s (listEventsAfter s cursor st).1 (start_session s cursor r) in
  resting logs P st -> P s -> s <> "" -> 0 <= cursor -> steady (rp_client r) -> ws_closing (rp_client r') = None ->
  exists new k, served (logs s) s cursor r r' new k.
Proof.
  intros r' Hrest HP Hs Hc Hsteady Hclosing.
  destruct (resting_after logs P s cursor st Hrest HP Hc) as (E & Hm & Eb & El).
  set (l := (listEventsAfter s cursor st).1) in *.
  destruct (replay_events_spec s l (start_session s cursor r) Hsteady Hclosing)
    as (k & Hk & Q1 & Q2 & Q3 & Q4 & Q5 & Q6 & Q7).
  fold r' in Q1, Q2, Q3, Q4, Q5, Q6. rewrite El in *. rewrite Eb in Q7.
  assert (Z.of_nat k <= Z.of_nat (length (logs s)) - cursor \/ k = 0%nat) as Hkn.
  { apply (f_equal length) in E. rewrite !length_fmap, length_seqZ, El in E. lia. }
  assert (m_eventSeq <$> take k l = Some <$> seqZ (cursor + 1) (Z.of_nat k)) as Ek.
  { destruct Hkn as [Hkn| ->]; [|done]. by rewrite fmap_take, E, <- fmap_take, take_seqZ. }
  destruct (session_frames s (take k l) _ _ Hs Ek (Forall_take _ _ _ Hm)) as (S1 & S2 & S3).
  destruct (seqs_of _ _ Ek) as [Hseq Hsome].
  exists (message_val <$> take k l), k. split; try done.
  - rewrite length_fmap, length_take. lia.
  - intros sid Hne. split; [by apply S3|]. rewrite Q2, note_all_other by done. by apply mget_mset_ne.
  - rewrite Q2. apply note_all_run; [done..|]. apply mget_mset_eq.
  - intros Hnd. rewrite Q2. by apply note_all_NoDup, mset_NoDup.
  - intros H1 H2. assert (k = length (after cursor (logs s))) as Hk' by (by apply Q7). split; [done|].
    rewrite Q4, <- Eb. cbn [rp_bytes start_session]. rewrite take_ge by lia. done.
Qed.

(** ** The whole request *)

Definition cursor_entries (cursors : jmap string Z) : list (string * val) := map (fun e => (e.1, vint e.2)) cursors.

Lemma replay_sessions_use cursors : forall n r st,
  last_use (rp_client r) (rp_client (replay_sessions n cursors r st).1).
Proof.
  induction cursors as [|[s v] cursors IH]; intros n r st; [by split|]. cbn [replay_sessions].
  case_match; [by split|]. case_match; [apply (IH _ (rp_truncate r))|].
  destruct (listEventsAfter _ _ st) as [l st1].
  pose proof (replay_events_use s l (mkReplay (mset s (raw_cursor v) (rp_latest r)) (rp_events r) (rp_bytes r)
    (rp_truncated r) (rp_client r))) as Hu.
  case_match; [done|]. eapply last_use_trans; [exact Hu|apply IH].
Qed.

Lemma sendClient_keeps v c : ws_lastResumeAt (sendClient v c).2 = ws_lastResumeAt c.
Proof. unfold sendClient. simpl. repeat case_match; done. Qed.

Lemma replay_events_keeps s l : forall r,
  ws_lastResumeAt (rp_client (replay_events s l r)) = ws_lastResumeAt (rp_client r).
Proof.
  induction l as [|m l IH]; intros r; [done|]. cbn [replay_events]. case_match; [done|].
  pose proof (sendClient_keeps (message_val m) (rp_client r)) as E. destruct (sendClient _ _) as [ok c].
  destruct ok; [rewrite IH|]; exact E.
Qed.

Lemma replay_sessions_keeps cursors : forall n r st,
  ws_lastResumeAt (rp_client (replay_sessions n cursors r st).1) = ws_lastResumeAt (rp_client r).
Proof.
  induction cursors as [|[s v] cursors IH]; intros n r st; [done|]. cbn [replay_sessions].
  case_match; [done|]. case_match; [by rewrite IH|]. destruct (listEventsAfter _ _ st) as [l st1].
  case_match; [|rewrite IH]; cbn [fst]; by rewrite replay_events_keeps.
Qed.

(** What a session of the request gets: nothing, in a truncated reply; or a run
    of the numbers after its cursor, with the cursor it reached. *)
Definition outcome (log : list GatewayMessage) (cursor : option Z) (sid : string) (r r' : replay_state) (new : list val)
    : Prop :=
  let unserved := nums sid new = [] /\ mget sid (rp_latest r') = mget sid (rp_latest r) in
  match cursor with
  | None => unserved
  | Some cursor =>
      unserved /\ rp_truncated r' = true \/
      exists k, (k <= length (after cursor log))%nat /\ nums sid new = seqZ (cursor + 1) (Z.of_nat k) /\
        mget sid (rp_latest r') = Some (NInt (cursor + Z.of_nat k)) /\
        (rp_truncated r' = false -> k = length (after cursor log))
  end.

Fixpoint missed_events (logs : string -> list GatewayMessage) (cursors : jmap string Z) : nat :=
  match cursors with
  | [] => 0
  | (s, cursor) :: rest => length (after cursor (logs s)) + missed_events logs rest
  end.

Fixpoint missed_bytes (logs : string -> list GatewayMessage) (cursors : jmap string Z) : Z :=
  match cursors with
  | [] => 0
  | (s, cursor) :: rest => total_bytes (after cursor (logs s)) + missed_bytes logs rest
  end.

Definition valid_key (s : string) : bool := (s !== "") && (slen s <=? 256)%nat.

Record replayed (logs : string -> list GatewayMessage) (n : nat) (cursors : jmap string Z) (r r' : replay_state)
    (new : list val) : Prop := {
  rd_sent : ws_sent (rp_client r') = ws_sent (rp_client r) ++ new;
  rd_frames : Forall (fun v => cursor_frame (json_clone v) = false) new;
  rd_events : rp_events r' = (rp_events r + length new)%nat;
  rd_bounded : (rp_events r <= maxResumeEvents -> rp_events r' <= maxResumeEvents)%nat;
  rd_NoDup : NoDup (rp_latest r).*1 -> NoDup (rp_latest r').*1;
  rd_monotone : rp_truncated r = true -> rp_truncated r' = true;
  rd_outcome : forall sid, outcome (logs sid) (mget sid cursors) sid r r' new;
  rd_budget : rp_truncated r = false -> (n + length cursors <= maxResumeSessions)%nat ->
    forallb valid_key cursors.*1 = true -> (rp_events r + missed_events logs cursors <= maxResumeEvents)%nat ->
    rp_bytes r + missed_bytes logs cursors <= maxResumeBytes -> rp_truncated r' = false
}.

(** The reply stops before the rest of the request. *)
Lemma replayed_stop logs n cursors r :
  ((maxResumeSessions <= n)%nat -> cursors <> []) ->
  (maxResumeSessions <= n)%nat -> replayed logs n cursors r (rp_truncate r) [].
Proof.
  intros Hne Hn. split; simpl; rewrite ?app_nil_r; try done; try lia.
  - intros sid. unfold outcome. destruct (mget sid cursors); [by left|done].
  - specialize (Hne Hn). destruct cursors; [done|]. simpl. lia.
Qed.

Lemma missed_bytes_nonneg logs cursors : 0 <= missed_bytes logs cursors.
Proof.
  induction cursors as [|[s z] cursors IH]; simpl; [lia|]. pose proof (total_bytes_nonneg (after z (logs s))). lia.
Qed.

Lemma served_stop logs n s cursor cursors r r1 new k :
  served (logs s) s cursor r r1 new k -> rp_truncated r1 = true ->
  replayed logs n ((s, cursor) :: cursors) r r1 new.
Proof.
  intros [] Ht. split; try done; [lia| |].
  - intros sid. cbn [mget]. case_decide as Hsid.
    + subst sid. right. exists k. split_and!; [done..|congruence].
    + destruct (sv_others0 sid) as [? ?]; [done|]. unfold outcome. destruct (mget sid cursors); [by left|done].
  - intros Hf _ _ He Hb. cbn [missed_events missed_bytes] in He, Hb.
    pose proof (missed_bytes_nonneg logs cursors).
    destruct sv_budget0 as [Hk _]; [lia..|]. rewrite sv_truncated0, Hf, Hk, Nat.eqb_refl. done.
Qed.

Lemma served_continue logs n s cursor cursors r r1 r' new1 new2 k :
  s ∉ cursors.*1 -> served (logs s) s cursor r r1 new1 k -> rp_truncated r1 = false ->
  replayed logs (S n) cursors r1 r' new2 -> replayed logs n ((s, cursor) :: cursors) r r' (new1 ++ new2).
Proof.
  intros Hnotin [] Ht []. split; auto.
  - by rewrite rd_sent0, sv_sent0, <- app_assoc.
  - by apply Forall_app.
  - rewrite rd_events0, sv_events0, length_app. lia.
  - intros Htr. rewrite sv_truncated0, Htr in Ht. done.
  - intros sid. specialize (rd_outcome0 sid). cbn [mget]. unfold outcome in *. rewrite nums_app. case_decide as Hsid.
    + subst sid. right. rewrite (proj2 (mget_None_keys s cursors)) in rd_outcome0 by done.
      destruct rd_outcome0 as [E1 E2]. exists k. rewrite E1, E2, app_nil_r. split_and!; try done.
      intros _. rewrite sv_truncated0 in Ht. apply orb_false_iff in Ht as [_ Ht].
      apply negb_false_iff, Nat.eqb_eq in Ht. done.
    + destruct (sv_others0 sid) as [E1 E2]; [done|]. rewrite E1, <- E2. done.
  - intros Hf Hl Hk He Hb. csimpl in Hl. csimpl in Hk. apply andb_true_iff in Hk as [_ Hk].
    cbn [missed_events missed_bytes] in He, Hb. pose proof (missed_bytes_nonneg logs cursors).
    destruct sv_budget0 as [Ek Eb]; [lia..|]. apply rd_budget0; try done; lia.
Qed.

Lemma replay_sessions_spec logs P cursors : forall n r st,
  let r' := (replay_sessions n (cursor_entries cursors) r st).1 in
  resting logs P st -> NoDup cursors.*1 -> Forall (fun e => (e.1 <> "" -> P e.1) /\ 0 <= e.2) cursors ->
  steady (rp_client r) -> ws_closing (rp_client r') = None ->
  exists new, replayed logs n cursors r r' new.
Proof.
  induction cursors as [|[s cursor] cursors IH]; intros n r st r' Hrest Hnd HP Hsteady Hclosing.
  { exists []. subst r'. split; simpl; rewrite ?app_nil_r; try done; lia. }
  csimpl in Hnd. apply NoDup_cons in Hnd as [Hnotin Hnd]. apply Forall_cons in HP as [[HPs Hpos] HP]. simpl in HPs, Hpos.
  unfold r' in *. clear r'. cbn [cursor_entries map replay_sessions fst snd] in *.
  fold (cursor_entries cursors) in *.
  destruct (Nat.leb_spec maxResumeSessions n) as [Hn|Hn]; [exists []; by apply replayed_stop|].
  destruct ((s === "") || (256 <? slen s)%nat) eqn:Ekey.
  - destruct (IH (S n) (rp_truncate r) st) as (new & []); try done. exists new.
    assert (valid_key s = false) as Hkey.
    { unfold valid_key. apply orb_true_iff in Ekey as [->|Hk%Nat.ltb_lt]; [done|].
      apply andb_false_iff. right. by apply Nat.leb_gt. }
    split; try done; [auto| |csimpl; by rewrite Hkey].
    intros sid. specialize (rd_outcome0 sid). cbn [mget]. case_decide as Hsid; [|exact rd_outcome0].
    subst sid. left. rewrite (proj2 (mget_None_keys s cursors)) in rd_outcome0 by done. split; [done|auto].
  - apply orb_false_iff in Ekey as [Hs%String.eqb_neq _].
    change (num_floor (raw_cursor (vint cursor))) with cursor in *.
    change (mkReplay (mset s (raw_cursor (vint cursor)) (rp_latest r)) (rp_events r) (rp_bytes r) (rp_truncated r)
      (rp_client r)) with (start_session s cursor r) in *.
    pose proof (replay_one logs P s cursor st r) as Hone. cbv zeta in Hone.
    pose proof (resting_list logs P s st Hrest (HPs Hs)) as Hrest1.
    assert ((listEventsAfter s cursor st).2 = (listEvents s st).2) as Est
      by (unfold listEventsAfter; by destruct (listEvents s st)).
    rewrite <- Est in Hrest1. destruct (listEventsAfter s cursor st) as [l st1]. cbn [fst snd] in *.
    pose proof (replay_events_use s l (start_session s cursor r)) as Hu. cbn [rp_client start_session] in Hu.
    set (r1 := replay_events s l (start_session s cursor r)) in *.
    destruct (rp_truncated r1) eqn:Et; cbn [fst] in *.
    + destruct (Hone Hrest (HPs Hs) Hs Hpos Hsteady Hclosing) as (new & k & Hsv). exists new. by eapply served_stop.
    + destruct (Hone Hrest (HPs Hs) Hs Hpos Hsteady) as (new & k & Hsv); [by apply (replay_sessions_use (cursor_entries cursors) (S n) r1 st1)|].
      destruct (IH (S n) r1 st1) as [new2 Hrd]; try done; [by eapply last_use_steady|].
      exists (new ++ new2). by eapply served_continue.
Qed.

(** ** The client's side *)

(** The frame [Client.onopen] sends. *)
Definition resume_request (c : AppClient) : val :=
  VObj [("type", VStr "resume"); ("cursors", VObj (cursor_entries (cl_cursors c)))].

Lemma onopen_requests c :
  cl_cursors c <> [] -> cl_sent (onopen c) = cl_sent c ++ [resume_request c].
Proof.
  intros Hne. unfold onopen, loadSessionEvents, resume_request, cursor_entries. destruct c as [cs]; simpl in *.
  destruct cs; [done|]. repeat case_match; done.
Qed.

Lemma clone_request c : json_clone (resume_request c) = resume_request c.
Proof.
  unfold resume_request. simpl. do 5 f_equal. unfold cursor_entries.
  induction (cl_cursors c) as [|[s z] l IH]; simpl; [done|]. by rewrite IH.
Qed.

Lemma clone_latest latest :
  exists fs, json_clone (VObj (map (fun e : string * num => (e.1, VNum e.2)) latest)) = VObj fs /\
    forall s v z, (s, v) ∈ fs -> safe_integer v = Some z -> (s, NInt z) ∈ latest.
Proof.
  exists (map (fun e : string * num => (e.1, json_clone (VNum e.2))) latest). split.
  - simpl. f_equal. induction latest as [|[s n] l IH]; simpl; [done|]. by rewrite IH.
  - intros s v z Hin Hz. apply list_elem_of_In, in_map_iff in Hin as ([s' n] & E & Hin). injection E as <- <-.
    apply list_elem_of_In in Hin. simpl in Hz. destruct n; simpl in Hz; try done. unfold safe_integer in Hz.
    case_match; [|done]. by injection Hz as <-.
Qed.

Section reconnection.
Context (json_parse : string -> option val).

(** A reply whose cursors the client has reached leaves it as it is. *)
Lemma resumeComplete_idle open msg c :
  NoDup (cl_cursors c).*1 ->
  (forall fs s v z, prop "cursors" (prop "payload" msg) = VObj fs -> (s, v) ∈ fs -> safe_integer v = Some z ->
     z <= cursor_of s c) ->
  resumeComplete open msg c = c.
Proof.
  intros Hnd H. unfold resumeComplete. case_match; [|done].
  set (c1 := match prop "cursors" (prop "payload" msg) with VObj _ => _ | _ => _ end).
  assert (c1 = c) as ->.
  { unfold c1. destruct (prop "cursors" (prop "payload" msg)) as [| | | | | |fs] eqn:E; try done.
    assert (forall s v z, (s, v) ∈ fs -> safe_integer v = Some z -> z <= cursor_of s c) as Hf
      by (intros; by eapply H).
    clear E H c1. induction fs as [|[s v] fs IH]; [done|]. cbn [foldl].
    assert ((match safe_integer v with
             | Some z => if (0 <=? z) && (cursor_of s c <? z) then saveCursor s z c else c
             | None => c end) = c) as ->; [|apply IH; intros; eapply Hf; [by right|done]].
    destruct (safe_integer v) as [z|] eqn:Ez; [|done].
    rewrite (proj2 (Z.ltb_ge (cursor_of s c) z)) by (eapply Hf; [by left|done]). by rewrite andb_false_r. }
  assert (existsb (fun '(s, value) => default 0 (mget s (cl_cursors c)) <? value) (cl_cursors c) = false) as ->; [|done].
  apply not_true_iff_false. intros ([s z] & Hin & Hlt)%existsb_exists. apply list_elem_of_In in Hin.
  rewrite (elem_mget _ _ _ Hnd Hin) in Hlt. simpl in Hlt. apply Z.ltb_lt in Hlt. lia.
Qed.

Lemma onmessage_complete now open ts latest truncated c :
  onmessage json_parse now open (json_clone (resume_complete ts latest truncated)) c =
    resumeComplete open (json_clone (resume_complete ts latest truncated)) c.
Proof. reflexivity. Qed.

Lemma complete_numberless sid ts latest truncated :
  number sid (json_clone (resume_complete ts latest truncated)) = None.
Proof. reflexivity. Qed.

Lemma consumed_app sid frames frames' : forall c,
  consumed json_parse sid (frames ++ frames') c =
    consumed json_parse sid frames c ++ consumed json_parse sid frames' (receive json_parse frames c).
Proof.
  induction frames as [|f frames IH]; intros c; [done|]. cbn [app consumed]. rewrite IH, <- app_assoc. done.
Qed.

Context (started : Z) (disk : fs_answers).
Abbreviation st0 := (fresh started disk).

(** The situation: every write of the log has reached the disk, the client's
    cursors form a map of natural numbers, and its socket stays open. *)
Record reconnecting (os : list op) (c : AppClient) (client : Client) (t : Z) : Prop := {
  rc_plain : forallb plain os = true;
  rc_rest : tasks (run os st0) = [];
  rc_tame : forallb (fun s => (s !== "") && tame s os [] st0) (cl_cursors c).*1 = true;
  rc_cursors : NoDup (cl_cursors c).*1 /\ forallb (fun e => 0 <=? e.2) (cl_cursors c) = true;
  rc_length : Z.of_nat (length (cl_cursors c)) <= 5000;
  rc_steady : steady client;
  rc_pause : 1000 <= t - ws_lastResumeAt client;
  rc_open : ws_closing (onresume t (resume_request c) client (run os st0)).1 = None
}.

(** The frames the server sends in answer, as the client reads them. *)
Definition answer (os : list op) (c : AppClient) (client : Client) (t : Z) : list val :=
  json_clone <$> drop (length (ws_sent client)) (ws_sent (onresume t (resume_request c) client (run os st0)).1).

Lemma answer_spec os c client t :
  reconnecting os c client t ->
  exists new r', let r := mkReplay [] 0 0 false (with_ws_lastResumeAt t client) in
    replayed (fun s => abs_run s os []) 0 (cl_cursors c) r r' new /\
    answer os c client t =
      (json_clone <$> new) ++ [json_clone (resume_complete (toISOString t) (rp_latest r') (rp_truncated r'))].
Proof.
  intros [Hplain Hrest Htame [Hnd Hpos] _ Hsteady Hpause Hopen]. unfold answer, onresume in *.
  rewrite (proj2 (Z.ltb_ge _ _)) in * by lia.
  change (requested_cursors (resume_request c)) with (cursor_entries (cl_cursors c)) in *.
  set (r := mkReplay [] 0 0 false (with_ws_lastResumeAt t client)) in *.
  rewrite forallb_forall in Htame, Hpos.
  set (P := fun s => s <> "" /\ tame s os [] st0 = true).
  assert (resting (fun s => abs_run s os []) P (run os st0)) as HR.
  { split; [apply wf_run, wf_fresh|done|]. intros s [Hs Ht].
    split; [by apply (run_fresh_refines s os started disk Hs Ht)|by apply numbered_run]. }
  pose proof (replay_sessions_use (cursor_entries (cl_cursors c)) 0 r (run os st0)) as Huse.
  pose proof (replay_sessions_spec (fun s => abs_run s os []) P (cl_cursors c) 0 r (run os st0)) as Sp. cbv zeta in Sp.
  destruct (replay_sessions 0 (cursor_entries (cl_cursors c)) r (run os st0)) as [r' st'].
  cbn [fst snd] in *. set (last := resume_complete _ _ _) in *.
  pose proof (sendClient_use last (rp_client r')) as [_ Hclosing].
  destruct Sp as [new Hrd]; try done.
  { apply List.Forall_forall. intros [s z] Hin. simpl. split; [|apply Hpos in Hin; simpl in Hin; lia].
    intros Hs. split; [done|]. assert (In s (cl_cursors c).*1) as Hk by (apply in_map_iff; by exists (s, z)).
    by apply Htame, andb_true_iff in Hk as [_ ?]. }
  { by apply Hclosing. }
  exists new, r'. split; [done|].
  assert (steady (rp_client r')) as Hst' by (by eapply last_use_steady; [exact Huse|]).
  destruct (sendClient_steady last (rp_client r') Hst' Hopen) as [_ ->].
  rewrite (rd_sent _ _ _ _ _ _ Hrd), <- app_assoc. cbn [rp_client r with_ws_lastResumeAt ws_sent].
  rewrite drop_app_length, fmap_app. done.
Qed.

Lemma omap_list_fmap {A B C} (f : A -> B) (g : B -> option C) (l : list A) : omap g (f <$> l) = omap (fun x => g (f x)) l.
Proof. induction l as [|x l IH]; [done|]. csimpl. by rewrite IH. Qed.

Lemma answer_frames (frames : list (clock * bool * val)) (vs : list val) v :
  frames.*2 = vs ++ [v] -> exists evs now open, frames = evs ++ [(now, open, v)] /\ evs.*2 = vs.
Proof.
  intros E. destruct frames as [|f frames _] using rev_ind; [by destruct vs|].
  rewrite fmap_app in E. apply app_inj_2 in E as [E1 E2]; [|done]. injection E2 as E2.
  destruct f as [[now open] v']. simpl in E2. subst v'. by exists frames, now, open.
Qed.

(** What the client has after the events of the answer. *)
Lemma reconnect_events os c client t new r' evs :
  reconnecting os c client t ->
  replayed (fun s => abs_run s os []) 0 (cl_cursors c) (mkReplay [] 0 0 false (with_ws_lastResumeAt t client)) r' new ->
  evs.*2 = json_clone <$> new ->
  Forall (fun f => cursor_frame f.2 = false) evs /\
  forall sid cursor, mget sid (cl_cursors c) = Some cursor -> exists k,
    (k <= length (after cursor (abs_run sid os [])))%nat /\
    consumed json_parse sid evs c = seqZ (cursor + 1) (Z.of_nat k) /\
    cursor_of sid (receive json_parse evs c) = cursor + Z.of_nat k /\
    (forall n, mget sid (rp_latest r') = Some n -> n = NInt (cursor + Z.of_nat k)) /\
    (rp_truncated r' = false -> k = length (after cursor (abs_run sid os []))).
Proof.
  intros Hrc [] Hevs. destruct Hrc as [_ _ Htame [Hnd Hpos] Hlen _ _ _]. rewrite forallb_forall in Htame, Hpos.
  assert (Forall (fun f => cursor_frame f.2 = false) evs) as Hf.
  { rewrite <- (Forall_fmap snd (fun v => cursor_frame v = false)), Hevs, Forall_fmap. done. }
  split; [done|]. intros sid cursor Hcur. pose proof (mget_Some_elem _ _ _ Hcur) as Hin.
  assert (sid <> "" /\ 0 <= cursor) as [Hsid Hc].
  { apply list_elem_of_In in Hin. split; [|apply Hpos in Hin; simpl in Hin; lia].
    assert (In sid (cl_cursors c).*1) as Hk by (apply in_map_iff; by exists (sid, cursor)).
    apply Htame, andb_true_iff in Hk as [Hk _]. intros ->. done. }
  assert (cursor_of sid c = cursor) as Hof by (unfold cursor_of; by rewrite Hcur).
  assert (omap (fun f => number sid f.2) evs = nums sid new) as Enum.
  { unfold nums. transitivity (omap (number sid) evs.*2); [by rewrite omap_list_fmap|].
    by rewrite Hevs, omap_list_fmap. }
  assert (length evs = length new) as El by (rewrite <- (length_fmap snd), Hevs, length_fmap; done).
  assert (length new <= maxResumeEvents)%nat as Hmax by (rewrite rd_events0 in rd_bounded0; simpl in rd_bounded0; lia).
  assert (exists k, (k <= length (after cursor (abs_run sid os [])))%nat /\ nums sid new = seqZ (cursor + 1) (Z.of_nat k) /\
    (forall n, mget sid (rp_latest r') = Some n -> n = NInt (cursor + Z.of_nat k)) /\
    (rp_truncated r' = false -> k = length (after cursor (abs_run sid os [])))) as (k & Hk & Hnum & Hlat & Hfull).
  { specialize (rd_outcome0 sid). rewrite Hcur in rd_outcome0.
    destruct rd_outcome0 as [[[E1 E2] Ht]|(k & K1 & K2 & K3 & K4)].
    - exists 0%nat. rewrite E1, E2. split_and!; [lia|done|done|congruence].
    - exists k. split_and!; try done. intros n Hn. congruence. }
  exists k. rewrite <- Hof in Hnum |- *. rewrite <- Enum in Hnum.
  destruct (receive_run json_parse sid evs c k) as [R1 R2]; try done; try lia.
  { unfold maxResumeEvents in Hmax. lia. }
  rewrite Hof in *. done.
Qed.

Lemma receive_snoc frames now open v c :
  receive json_parse (frames ++ [(now, open, v)]) c = onmessage json_parse now open v (receive json_parse frames c).
Proof. unfold receive. by rewrite foldl_app. Qed.

(** The last frame of the answer changes nothing. *)
Lemma reconnect_result os c client t frames :
  reconnecting os c client t -> frames.*2 = answer os c client t ->
  exists new r' evs,
    replayed (fun s => abs_run s os []) 0 (cl_cursors c) (mkReplay [] 0 0 false (with_ws_lastResumeAt t client)) r' new /\
    evs.*2 = json_clone <$> new /\ receive json_parse frames c = receive json_parse evs c /\
    forall sid, consumed json_parse sid frames c = consumed json_parse sid evs c.
Proof.
  intros Hrc E. destruct (answer_spec os c client t Hrc) as (new & r' & Hrd & Ea). rewrite Ea in E.
  destruct (answer_frames _ _ _ E) as (evs & now & open & -> & Hevs).
  exists new, r', evs. split_and!; [done..| |].
  - destruct (reconnect_events os c client t new r' evs Hrc Hrd Hevs) as [Hf Hk].
    rewrite receive_snoc, onmessage_complete. apply resumeComplete_idle.
    { apply receive_NoDup; [done|]. apply Hrc. }
    intros fs s v z Efs Hin Hz. destruct (clone_latest (rp_latest r')) as (fs' & Efs' & Hfs').
    assert (prop "cursors" (prop "payload" (json_clone (resume_complete (toISOString t) (rp_latest r') (rp_truncated r'))))
            = json_clone (VObj (map (fun e : string * num => (e.1, VNum e.2)) (rp_latest r')))) as Ep by done.
    rewrite Ep, Efs' in Efs. injection Efs as <-. pose proof (Hfs' s v z Hin Hz) as Hl.
    apply elem_mget in Hl; [|apply Hrd; by constructor].
    destruct (mget s (cl_cursors c)) as [cursor|] eqn:Ec.
    + destruct (Hk s cursor Ec) as (k & _ & _ & Hcur & Hlat & _). specialize (Hlat _ Hl). injection Hlat as ->. lia.
    + pose proof (rd_outcome _ _ _ _ _ _ Hrd s) as Ho. rewrite Ec in Ho. destruct Ho as [_ Ho]. by rewrite Hl in Ho.
  - intros sid. rewrite consumed_app. cbn [consumed snd]. unfold accepted.
    rewrite complete_numberless. destruct (classify _ _); by rewrite app_nil_r.
Qed.

(** C7: a client that reconnects catches up: when the events it missed fit in
    one reply (at most [maxResumeSessions] cursors, [maxResumeEvents] events
    and [maxResumeBytes] bytes), it receives every event after its cursor
    exactly once and in order, for every session it follows, and its cursors
    end at the end of the logs. The situation is [reconnecting]: the store was
    filled by plain operations whose logs are [tame] for the sessions
    followed, no write is pending, the cursors are at most 5000 natural
    numbers under distinct and valid session ids, the client's last resume is
    a second or more ago and its socket does not close under the reply. A
    reply cut by a limit is the subject of [truncated_resume_stalls]. *)
Theorem resume_catches_up os c client t frames :
  reconnecting os c client t -> frames.*2 = answer os c client t ->
  (length (cl_cursors c) <= maxResumeSessions)%nat -> forallb valid_key (cl_cursors c).*1 = true ->
  (missed_events (fun s => abs_run s os []) (cl_cursors c) <= maxResumeEvents)%nat ->
  missed_bytes (fun s => abs_run s os []) (cl_cursors c) <= maxResumeBytes ->
  forall sid cursor, mget sid (cl_cursors c) = Some cursor ->
    let log := abs_run sid os [] in
    consumed json_parse sid frames c = seqZ (cursor + 1) (Z.of_nat (length log) - cursor) /\
    cursor_of sid (receive json_parse frames c) = Z.max cursor (Z.of_nat (length log)).
Proof.
  intros Hrc E Hl Hv He Hb sid cursor Hcur log.
  destruct (reconnect_result os c client t frames Hrc E) as (new & r' & evs & Hrd & Hevs & -> & ->).
  destruct (reconnect_events os c client t new r' evs Hrc Hrd Hevs) as [_ Hk].
  destruct (Hk sid cursor Hcur) as (k & _ & Hcons & Hof & _ & Hfull).
  assert (rp_truncated r' = false) as Ht by (apply Hrd; done). specialize (Hfull Ht).
  assert (0 <= cursor) as Hpos.
  { apply mget_Some_elem, list_elem_of_In in Hcur. destruct (rc_cursors _ _ _ _ Hrc) as [_ Hp].
    rewrite forallb_forall in Hp. apply Hp in Hcur. simpl in Hcur. lia. }
  assert (Z.of_nat k = Z.max 0 (Z.of_nat (length log) - cursor)) as Ek.
  { pose proof (after_numbered log cursor (numbered_run sid os [] (rc_plain _ _ _ _ Hrc) ltac:(done)) Hpos) as Ea.
    apply (f_equal length) in Ea. rewrite !length_fmap, length_seqZ in Ea. fold log in Hfull. lia. }
  rewrite Hcons, Hof, Ek. split; [|lia].
  destruct (Z.le_ge_cases (Z.of_nat (length log)) cursor); [rewrite !seqZ_nil by lia; done|f_equal; lia].
Qed.

(** a truncated reply ends the recovery: whatever the server leaves out,
    the client has already moved its cursors to the ones the reply names, finds
    no progress in it and asks for nothing more; its cursors stay where the
    reply stopped. *)
Theorem truncated_resume_stalls os c client t frames :
  reconnecting os c client t -> frames.*2 = answer os c client t ->
  cl_sent (receive json_parse frames c) = cl_sent c /\
  forall sid cursor, mget sid (cl_cursors c) = Some cursor -> exists k,
    (k <= length (after cursor (abs_run sid os [])))%nat /\
    consumed json_parse sid frames c = seqZ (cursor + 1) (Z.of_nat k) /\
    cursor_of sid (receive json_parse frames c) = cursor + Z.of_nat k.
Proof.
  intros Hrc E. destruct (reconnect_result os c client t frames Hrc E) as (new & r' & evs & Hrd & Hevs & -> & Hco).
  destruct (reconnect_events os c client t new r' evs Hrc Hrd Hevs) as [Hf Hk].
  split; [by apply receive_sent|]. intros sid cursor Hcur.
  destruct (Hk sid cursor Hcur) as (k & K1 & K2 & K3 & _). exists k. by rewrite Hco.
Qed.
End reconnection.

(** A second request within a second of the first is refused without reading
    the store. *)
Lemma resume_too_soon t t' message message' c st :
  1000 <= t - ws_lastResumeAt c -> t' - t < 1000 ->
  let c1 := (onresume t message c st).1 in
  forall st', onresume t' message' c1 st' = ((sendClient resume_rate_limited c1).2, st').
Proof.
  intros H1 H2 c1 st'. assert (ws_lastResumeAt c1 = t) as E.
  { unfold c1, onresume. rewrite (proj2 (Z.ltb_ge _ _)) by lia.
    set (r := mkReplay [] 0 0 false (with_ws_lastResumeAt t c)).
    assert (ws_lastResumeAt (rp_client (replay_sessions 0 (requested_cursors message) r st).1) = t) as E
      by apply (replay_sessions_keeps (requested_cursors message) 0 r st).
    destruct (replay_sessions 0 (requested_cursors message) r st) as [r' st1]. simpl in *.
    by rewrite sendClient_keeps. }
  unfold onresume. by rewrite E, (proj2 (Z.ltb_lt _ _)).
Qed.

(** *** Concrete reconnections *)

Definition good_socket (i : nat) : moment := mkMoment true 0 false.

Definition demo_client : Client := mkWsClient good_socket 0 None [] 0 true 0.

Definition demo_app (cursors : jmap string Z) : AppClient :=
  mkClient cursors [] [] 0 0 [] [] [] None [] [] None true.

Definition demo_time : clock := {| ck_ms := 1; ck_iso := "1970-01-01T00:00:00.001Z"; ck_random := "abcd" |}.

Definition demo_frames (os : list op) (c : AppClient) : list (clock * bool * val) :=
  map (fun v => (demo_time, true, v)) (answer 0 fs_good os c demo_client 5000).

Ltac reconnects :=
  split; [vm_compute; reflexivity | vm_compute; reflexivity | vm_compute; reflexivity
         | split; [apply (bool_decide_unpack _); vm_compute; exact I | vm_compute; reflexivity]
         | vm_compute; discriminate | intros ?; reflexivity | vm_compute; discriminate | vm_compute; reflexivity].

Definition demo_ops : list op :=
  [AppendEvent (event "s" "a"); AppendEvent (event "t" "x"); AppendEvent (event "s" "b"); AppendEvent (event "s" "c");
   Settle 0 true ""; Settle 0 true ""; Settle 0 true ""; Settle 0 true ""].

Lemma resume_catches_up_witness :
  let c := demo_app [("s", 1); ("t", 0)] in
  consumed (fun _ => None) "s" (demo_frames demo_ops c) c = [2; 3] /\
  cursor_of "s" (receive (fun _ => None) (demo_frames demo_ops c) c) = 3.
Proof.
  set (c := demo_app [("s", 1); ("t", 0)]).
  assert (reconnecting 0 fs_good demo_ops c demo_client 5000) as H by reconnects.
  destruct (resume_catches_up (fun _ => None) 0 fs_good demo_ops c demo_client 5000 (demo_frames demo_ops c) H)
    with (sid := "s") (cursor := 1) as [H1 H2];
    [vm_compute; reflexivity | vm_compute; lia | vm_compute; reflexivity | vm_compute; lia | vm_compute; discriminate
    | reflexivity |].
  split; [exact H1|exact H2].
Defined.

(** A session whose id the server does not take, with one event the client
    lacks, beside one it serves. *)
Definition long_id : string := foldr (fun _ s => "k" ^^ s) "" (seq 0 257).

Definition long_ops : list op :=
  [AppendEvent (event long_id "x"); AppendEvent (event "s" "a"); Settle 0 true ""; Settle 0 true ""].

Lemma truncated_resume_stalls_witness :
  let c := demo_app [(long_id, 0); ("s", 0)] in
  let c' := receive (fun _ => None) (demo_frames long_ops c) c in
  length (abs_run long_id long_ops []) = 1%nat /\
  (v ← last (answer 0 fs_good long_ops c demo_client 5000); Some (prop "truncated" (prop "payload" v))) =
    Some (VBool true) /\
  cl_sent c' = [] /\ cursor_of "s" c' = 1 /\ cursor_of long_id c' = 0.
Proof.
  split; [vm_compute; reflexivity|]. split; [vm_compute; reflexivity|].
  assert (reconnecting 0 fs_good long_ops (demo_app [(long_id, 0); ("s", 0)]) demo_client 5000) as H by reconnects.
  destruct (truncated_resume_stalls (fun _ => None) 0 fs_good long_ops (demo_app [(long_id, 0); ("s", 0)]) demo_client
    5000 (demo_frames long_ops (demo_app [(long_id, 0); ("s", 0)])) H) as [H1 _]; [vm_compute; reflexivity|].
  split; [exact H1|]. split; vm_compute; reflexivity.
Defined.
