(* ===== verification/EnvFile.v ===== *)
(** * The configuration file

    The [.env] file shared by the launcher (server/src/cli.ts: [readEnvFile],
    [writeEnvFile]) and the server (server/src/config.ts: [loadDotenv]): lines
    [KEY=value], with one optional quote stripped at each end of a value. *)

From Stdlib Require Import Ascii.
From S2P Require Import Prelude JsValue GatewayStore Sessions Paths.

(** ** Lines *)

Definition LF : ascii := ascii_of_nat 10.
Definition CR : ascii := ascii_of_nat 13.
Definition EQUALS : ascii := ascii_of_nat 61.

Definition chop_cr (s : string) : string :=
  match srev s with
  | String c r => if Ascii.eqb c CR then srev r else s
  | "" => s
  end.

Fixpoint chop_all (ls : list string) : list string :=
  match ls with
  | [] => []
  | [l] => [l]
  | l :: ls' => chop_cr l :: chop_all ls'
  end.

(** [text.split(/\r?\n/)] *)
Definition file_lines (text : string) : list string := chop_all (split_char LF text).

Definition between (a n b : nat) : bool := (a <=? n) && (n <=? b).

Definition ident_start (c : ascii) : bool :=
  let n := code c in between 65 n 90 || between 97 n 122 || (n =? 95).

Definition ident_char (c : ascii) : bool := ident_start c || between 48 (code c) 57.

Fixpoint span (f : ascii -> bool) (s : string) : string * string :=
  match s with
  | "" => ("", "")
  | String c s' => if f c then let '(a, b) := span f s' in (String c a, b) else ("", s)
  end.

Definition one_line (c : ascii) : bool := negb (Ascii.eqb c LF || Ascii.eqb c CR).

(** The regular expression of a binding: an identifier, an equals sign, and the
    rest of the line, which holds no line terminator. *)
Definition match_binding (line : string) : option (string * string) :=
  match line with
  | "" => None
  | String c _ =>
      if ident_start c then
        let '(key, rest) := span ident_char line in
        match rest with
        | String d value => if Ascii.eqb d EQUALS && sforall one_line value then Some (key, value) else None
        | "" => None
        end
      else None
  end.

Definition is_quote (c : ascii) : bool := (code c =? 34) || (code c =? 39).

Definition strip_first (s : string) : string :=
  match s with String c s' => if is_quote c then s' else s | "" => s end.

(** One quote is removed at the start and one at the end. *)
Definition strip_quotes (s : string) : string := srev (strip_first (srev (strip_first s))).

(** The binding of a line, its value as written. *)
Definition binding (line : string) : option (string * string) := match_binding (trim line).

(** ** The two readers *)

(** [object[key] = value] with a string: [__proto__] is not an own property. *)
Definition obj_set {V} (key : string) (v : V) (m : jmap string V) : jmap string V :=
  if key === "__proto__" then m else mset key v m.

(** cli.ts; the file's text, [None] when it does not exist. *)
Definition readEnvFile (text : option string) : jmap string string :=
  match text with
  | None => []
  | Some text =>
      foldl (fun env line =>
        match binding line with
        | Some (key, value) => obj_set key (strip_quotes value) env
        | None => env
        end) [] (file_lines text)
  end.

(** config.ts; [env] is the environment of the process. *)
Definition loadDotenv (text : option string) (env : jmap string string) : jmap string string :=
  match text with
  | None => env
  | Some text =>
      foldl (fun env line =>
        let trimmed := trim line in
        if (trimmed === "") || starts_with "#" trimmed then env
        else
          match match_binding trimmed with
          | Some (key, rawValue) =>
              if mhas key env || (key === "__proto__") then env else mset key (strip_quotes rawValue) env
          | None => env
          end) env (file_lines text)
  end.

(** ** The writer *)

Definition key_order : list string :=
  ["HOST"; "PORT"; "PUBLIC_ORIGIN"; "ADMIN_TOKEN"; "SESSION_SECRET"; "CODEX_BIN"; "CODEX_HOME";
   "CODEX_APP_SERVER_PORT"; "SESSION_TTL_HOURS"; "APP_UPDATE_VERSION_CODE"; "APP_UPDATE_VERSION_NAME";
   "APP_UPDATE_NOTES"; "APP_UPDATE_APK_PATH"; "APP_UPDATE_PUBLIC_DOWNLOAD"; "RELAY_URL"; "RELAY_ORIGIN";
   "RELAY_ACCOUNT_TOKEN"; "RELAY_ACCOUNT_USERNAME"; "RELAY_ACCOUNT_PASSWORD"; "RELAY_SERVER_TOKEN";
   "RELAY_DEVICE_NAME"].

Definition env_line (key value : string) : string := key ^^ String EQUALS value.

(** The bindings in the order they are written. *)
Definition written (env : jmap string string) : list (string * string) :=
  omap (fun key => (fun v => (key, v)) <$> mget key env) key_order
  ++ List.filter (fun e => negb (shas e.1 key_order)) env.

Definition writeEnvFile (env : jmap string string) : string :=
  join (String LF "") (map (fun e => env_line e.1 e.2) (written env)) ^^ String LF "".

(** ** Strings *)

Lemma srev_onto_eq s acc : srev_onto s acc = srev s ^^ acc.
Proof.
  revert acc. induction s as [|c s IH]; intros acc; [done|]. unfold srev. cbn [srev_onto].
  rewrite IH, (IH (String c "")), sapp_assoc. done.
Qed.

Lemma srev_cons c s : srev (String c s) = srev s ^^ String c "".
Proof. unfold srev. cbn [srev_onto]. by rewrite srev_onto_eq. Qed.

Lemma srev_app a b : srev (a ^^ b) = srev b ^^ srev a.
Proof.
  induction a as [|c a IH]; simpl; [by rewrite sapp_nil_r|]. by rewrite !srev_cons, IH, sapp_assoc.
Qed.

Lemma srev_involutive s : srev (srev s) = s.
Proof. induction s as [|c s IH]; [done|]. by rewrite srev_cons, srev_app, IH. Qed.

(** Trimming the end leaves everything up to a character that is not blank. *)
Lemma trim_end_app a c b : is_space c = false -> trim_end (a ^^ String c b) = a ^^ String c (trim_end b).
Proof.
  intros Hc. unfold trim_end. rewrite srev_app, srev_cons.
  assert (forall r x, trim_start (r ^^ String c x) = trim_start r ^^ String c x) as E.
  { intros r x. induction r as [|d r IH]; simpl; [by rewrite Hc|]. destruct (is_space d); [exact IH|done]. }
  rewrite sapp_assoc. simpl. rewrite E, srev_app, srev_cons, srev_involutive, sapp_assoc. done.
Qed.

Lemma trim_start_solid c s : is_space c = false -> trim_start (String c s) = String c s.
Proof. intros H. simpl. by rewrite H. Qed.

(** ** Round trip *)

Definition ident (key : string) : bool :=
  match key with
  | "" => false
  | String c _ => ident_start c && sforall ident_char key && (key !== "__proto__")
  end.

(** Every binding has an identifier as its key and a value on one line. *)
Definition writable_env (env : jmap string string) : bool :=
  forallb (fun e => ident e.1 && sforall one_line e.2) env.

(** What a value becomes when it is written and read back. *)
Definition reread (value : string) : string := strip_quotes (trim_end value).

Lemma ident_char_solid c : ident_char c = true -> is_space c = false /\ one_line c = true /\ Ascii.eqb c EQUALS = false.
Proof. by destruct c as [[] [] [] [] [] [] [] []]. Qed.

Lemma span_all f s c b : sforall f s = true -> f c = false -> span f (s ^^ String c b) = (s, String c b).
Proof.
  intros Hs Hc. induction s as [|d s IH]; simpl; [by rewrite Hc|]. simpl in Hs.
  apply andb_true_iff in Hs as [-> Hs]. by rewrite IH.
Qed.

Lemma one_line_trim_end s : sforall one_line s = true -> sforall one_line (trim_end s) = true.
Proof.
  assert (forall x, sforall one_line (srev x) = sforall one_line x) as Hrev.
  { induction x as [|c x IH]; [done|]. rewrite srev_cons, sforall_sapp, IH. simpl. by rewrite andb_true_r, andb_comm. }
  intros H. unfold trim_end. rewrite Hrev. rewrite <- Hrev in H. revert H. generalize (srev s).
  induction s0 as [|c x IH]; simpl; [done|]. intros [Hc Hx]%andb_true_iff.
  destruct (is_space c); [by apply IH|]. simpl. by rewrite Hc, Hx.
Qed.

Lemma ident_cons key : ident key = true ->
  exists c k, key = String c k /\ ident_start c = true /\ sforall ident_char key = true /\ key <> "__proto__".
Proof.
  destruct key as [|c k]; [done|]. unfold ident. intros [[H1 H2]%andb_true_iff H3]%andb_true_iff.
  exists c, k. split_and!; try done. by apply negb_true_iff, String.eqb_neq in H3.
Qed.

Lemma binding_env_line key value :
  ident key = true -> sforall one_line value = true -> binding (env_line key value) = Some (key, trim_end value).
Proof.
  intros Hk Hv. destruct (ident_cons key Hk) as (c & k & E & Hc & Hall & _).
  assert (is_space c = false) as Hsp by (apply ident_char_solid; unfold ident_char; by rewrite Hc).
  assert (trim (env_line key value) = env_line key (trim_end value)) as Et.
  { unfold trim, env_line. rewrite E at 1. simpl. rewrite Hsp.
    change (String c (k ^^ String EQUALS value)) with (String c k ^^ String EQUALS value). rewrite <- E.
    by rewrite trim_end_app. }
  unfold binding. rewrite Et. unfold match_binding. unfold env_line. rewrite E at 1. simpl (String c k ^^ _).
  cbv iota. rewrite Hc, span_all by done. rewrite Ascii.eqb_refl, one_line_trim_end by done. done.
Qed.

Lemma env_line_plain key value :
  ident key = true -> sforall one_line value = true -> sforall one_line (env_line key value) = true.
Proof.
  intros Hk Hv. destruct (ident_cons key Hk) as (_ & _ & _ & _ & Hall & _). unfold env_line.
  rewrite sforall_sapp. simpl. rewrite Hv, andb_true_r.
  assert (sforall one_line key = true) as ->; [|done].
  induction key as [|c k IH]; [done|]. simpl in *. apply andb_true_iff in Hall as [Hc Hall].
  apply ident_char_solid in Hc as (_ & -> & _). simpl. clear IH Hk.
  induction k as [|d k IH]; [done|]. simpl in *. apply andb_true_iff in Hall as [Hd Hall].
  apply ident_char_solid in Hd as (_ & -> & _). by apply IH.
Qed.

Lemma chop_cr_plain s : sforall one_line s = true -> chop_cr s = s.
Proof.
  intros H. unfold chop_cr. destruct (srev s) as [|c r] eqn:E; [done|].
  assert (one_line c = true) as Hc.
  { apply (f_equal srev) in E. rewrite srev_involutive in E. rewrite E, srev_cons, sforall_sapp in H.
    apply andb_true_iff in H as [_ H]. simpl in H. by rewrite andb_true_r in H. }
  unfold one_line in Hc. apply negb_true_iff, orb_false_iff in Hc as [_ ->]. done.
Qed.

Lemma no_lf s : sforall one_line s = true -> sforall (fun c => negb (Ascii.eqb c LF)) s = true.
Proof.
  induction s as [|c s IH]; [done|]. simpl. intros [Hc Hs]%andb_true_iff. rewrite IH by done.
  unfold one_line in Hc. apply negb_true_iff, orb_false_iff in Hc as [-> _]. done.
Qed.

Lemma file_lines_join ls :
  ls <> [] -> Forall (fun l => sforall one_line l = true) ls ->
  file_lines (join (String LF "") ls ^^ String LF "") = ls ++ [""].
Proof.
  intros Hne H. unfold file_lines. assert (split_char LF (join (String LF "") ls ^^ String LF "") = ls ++ [""]) as ->.
  { induction H as [|l ls Hl H IH]; [done|]. destruct ls as [|l' ls].
    - simpl. rewrite split_sapp by (by apply no_lf). done.
    - cbn [join]. rewrite !sapp_assoc. simpl ((String LF "") ^^ _). rewrite split_sapp by (by apply no_lf).
      change ((l :: l' :: ls) ++ [EmptyString]) with (l :: ((l' :: ls) ++ [EmptyString])). f_equal. by apply IH. }
  clear Hne. induction H as [|l ls Hl H IH]; [done|]. cbn [app chop_all].
  destruct (ls ++ [""]) as [|x xs] eqn:E; [by destruct ls|]. rewrite chop_cr_plain by done. by rewrite IH.
Qed.

(** Bindings assigned one after the other. *)
Definition assign (f : string -> string) (env : jmap string string) (e : string * string) : jmap string string :=
  obj_set e.1 (f e.2) env.

Lemma mget_assign f k l : forall env,
  NoDup l.*1 -> "__proto__" ∉ l.*1 ->
  mget k (foldl (assign f) env l) = match mget k l with Some v => Some (f v) | None => mget k env end.
Proof.
  induction l as [|[key v] l IH]; intros env Hnd Hp; [done|]. csimpl in *.
  apply NoDup_cons in Hnd as [Hnotin Hnd]. apply not_elem_of_cons in Hp as [Hne Hp].
  rewrite IH by done. unfold assign, obj_set. simpl. rewrite (proj2 (String.eqb_neq key "__proto__")) by done.
  case_decide as E; [subst k; rewrite (proj2 (mget_None_keys key l)) by done; apply mget_mset_eq|].
  case_match; [done|]. by apply mget_mset_ne.
Qed.

Lemma mget_omap_keys (m : jmap string string) k keys :
  mget k (omap (fun key => (fun v => (key, v)) <$> mget key m) keys) = if shas k keys then mget k m else None.
Proof.
  induction keys as [|key keys IH]; [done|]. unfold shas in *.
  assert (bool_decide (k ∈ key :: keys) = bool_decide (key = k) || bool_decide (k ∈ keys)) as ->
    by (repeat case_bool_decide; set_solver).
  cbn [omap list_omap]. destruct (mget key m) as [v|] eqn:E; simpl.
  - destruct (decide (key = k)) as [D|D]; [|rewrite bool_decide_false by done; exact IH]. rewrite bool_decide_true by done. simpl. by rewrite <- D.
  - rewrite IH. destruct (decide (key = k)) as [D|D]; [|by rewrite (bool_decide_false (key = k))].
    rewrite (bool_decide_true (key = k)) by done. simpl. rewrite <- D, E. destruct (bool_decide (key ∈ keys)); reflexivity.
Qed.

Lemma mget_written k env : NoDup env.*1 -> mget k (written env) = mget k env.
Proof.
  intros Hnd. unfold written.
  assert (forall l1 l2 : jmap string string,
    mget k (l1 ++ l2) = match mget k l1 with Some v => Some v | None => mget k l2 end) as Happ.
  { induction l1 as [|[k' v'] l1 IH]; intros l2; simpl; [done|]. by case_decide. }
  rewrite Happ, mget_omap_keys.
  change (List.filter (fun e : string * string => negb (shas e.1 key_order)) env)
    with (mfilter (fun key _ => negb (shas key key_order)) env).
  rewrite mget_mfilter by done. destruct (shas k key_order); simpl; destruct (mget k env); done.
Qed.

Lemma written_incl env e : e ∈ written env -> e ∈ env.
Proof.
  unfold written. rewrite elem_of_app. intros [H|H].
  - apply list_elem_of_omap in H as (key & _ & H). destruct (mget key env) as [v|] eqn:E; [|done].
    injection H as <-. by apply mget_Some_elem.
  - apply list_elem_of_In, filter_In in H as [H _]. by apply list_elem_of_In.
Qed.

Lemma written_NoDup env : NoDup env.*1 -> NoDup (written env).*1.
Proof.
  intros Hnd. unfold written. rewrite fmap_app. apply NoDup_app. split_and!.
  - assert (forall keys, (omap (fun key => (fun v => (key, v)) <$> mget key env) keys).*1 `sublist_of` keys) as Hsub.
    { induction keys as [|key keys IH]; [done|]. csimpl. destruct (mget key env); csimpl;
        [by apply sublist_skip|by apply sublist_cons]. }
    eapply sublist_NoDup; [|apply Hsub]. apply (bool_decide_unpack _). vm_compute. exact I.
  - intros k Hk Hk'. apply list_elem_of_fmap in Hk as ([k1 v] & -> & Hk), Hk' as ([k2 v2] & E & Hk').
    simpl in E. subst k2. apply list_elem_of_omap in Hk as (key & Hin & Hk). destruct (mget key env); [|done].
    injection Hk as -> _. apply list_elem_of_In, filter_In in Hk' as [_ Hk']. simpl in Hk'.
    unfold shas in Hk'. by rewrite bool_decide_true in Hk'.
  - assert (forall l : jmap string string, (List.filter (fun e => negb (shas e.1 key_order)) l).*1 `sublist_of` l.*1) as Hsub.
    { induction l as [|e l IH]; [done|]. csimpl. destruct (negb _); csimpl; [by apply sublist_skip|by apply sublist_cons]. }
    by eapply sublist_NoDup; [|apply Hsub].
Qed.

Lemma writable_written env e : writable_env env = true -> e ∈ written env -> ident e.1 = true /\ sforall one_line e.2 = true.
Proof.
  intros H Hin%written_incl. unfold writable_env in H. rewrite forallb_forall in H.
  apply list_elem_of_In, H, andb_true_iff in Hin. done.
Qed.

(** Reading the bindings of a written file. *)
Lemma read_written env :
  writable_env env = true ->
  readEnvFile (Some (writeEnvFile env)) = foldl (assign reread) [] (written env).
Proof.
  intros H. unfold readEnvFile, writeEnvFile.
  pose proof (fun e => writable_written env e H) as Hw. revert Hw. generalize (written env). intros l Hw.
  destruct l as [|e l]; [done|]. set (w := e :: l) in *.
  assert (Forall (fun e => ident e.1 = true /\ sforall one_line e.2 = true) w) as HF by (apply Forall_forall; intros; by apply Hw).
  rewrite file_lines_join; [|done|].
  2:{ apply Forall_fmap. eapply Forall_impl; [exact HF|]. intros x [? ?]. by apply env_line_plain. }
  rewrite foldl_app. cbn [foldl]. clearbody w. clear Hw e l.
  generalize (@nil (string * string)). induction HF as [|[k v] w [Hk Hv] HF IH]; intros acc; [done|].
  cbn [map foldl]. rewrite binding_env_line by done. apply IH.
Qed.

(** A value that survives being written and read: no quote at either end and no
    blank at the end. *)
Definition settled (value : string) : bool :=
  match value with
  | "" => true
  | String c _ =>
      negb (is_quote c) &&
      match srev value with
      | String d _ => negb (is_quote d) && negb (is_space d)
      | "" => true
      end
  end.

Lemma settled_reread value : settled value = true -> reread value = value.
Proof.
  unfold settled, reread, strip_quotes. destruct value as [|c v]; [done|].
  intros [Hc Hd]%andb_true_iff. apply negb_true_iff in Hc. set (s := String c v) in *.
  assert (strip_first s = s) as Hf by (unfold s; simpl; by rewrite Hc).
  destruct (srev s) as [|d r] eqn:E.
  { apply (f_equal srev) in E. rewrite srev_involutive in E. done. }
  apply andb_true_iff in Hd as [Hq Hsp]. apply negb_true_iff in Hq, Hsp.
  assert (trim_end s = s) as Ht.
  { unfold trim_end. rewrite E, trim_start_solid, <- E, srev_involutive by done. done. }
  rewrite Ht, Hf, E. simpl. rewrite Hq, <- E, srev_involutive. done.
Qed.

Lemma env_file_reread env key :
  NoDup env.*1 -> writable_env env = true ->
  mget key (readEnvFile (Some (writeEnvFile env))) = reread <$> mget key env.
Proof.
  intros Hnd Hw. rewrite read_written, mget_assign, mget_written; try done.
  - by apply written_NoDup.
  - intros Hin. apply list_elem_of_fmap in Hin as (e & E & Hin).
    destruct (writable_written env e Hw Hin) as [Hi _]. destruct (ident_cons _ Hi) as (? & ? & _ & _ & _ & Hne).
    by rewrite <- E in Hne.
Qed.

Lemma env_file_settled env key :
  NoDup env.*1 -> writable_env env = true -> forallb (fun e => settled e.2) env = true ->
  mget key (readEnvFile (Some (writeEnvFile env))) = mget key env.
Proof.
  intros Hnd Hw Hs. rewrite env_file_reread by done. destruct (mget key env) as [v|] eqn:E; [|done]. simpl. f_equal.
  apply settled_reread. rewrite forallb_forall in Hs. apply mget_Some_elem, list_elem_of_In in E. by apply Hs in E.
Qed.

(** the configuration file round-trips: whatever bindings the launcher writes,
    reading the file gives every key its value again, except for a quote at
    either end and blanks at the end of a value; no other key appears. *)
Theorem env_file_roundtrip env :
  NoDup env.*1 -> writable_env env = true ->
  (forall key, mget key (readEnvFile (Some (writeEnvFile env))) = reread <$> mget key env) /\
  (forallb (fun e => settled e.2) env = true ->
   forall key, mget key (readEnvFile (Some (writeEnvFile env))) = mget key env).
Proof. intros Hnd Hw. split; intros; [by apply env_file_reread|by apply env_file_settled]. Qed.

Lemma env_file_roundtrip_witness :
  let env := [("ADMIN_TOKEN", "00ff"); ("EXTRA", "a=b c"); ("PORT", "8787"); ("NOTES", "'tis ")] in
  mget "EXTRA" (readEnvFile (Some (writeEnvFile env))) = Some "a=b c" /\
  mget "NOTES" (readEnvFile (Some (writeEnvFile env))) = Some "tis".
Proof.
  destruct (env_file_roundtrip [("ADMIN_TOKEN", "00ff"); ("EXTRA", "a=b c"); ("PORT", "8787"); ("NOTES", "'tis ")])
    as [H _]; [apply (bool_decide_unpack _); vm_compute; exact I | vm_compute; reflexivity |].
  split; rewrite H; vm_compute; reflexivity.
Defined.

(** ** The launcher and the server read the same file *)

(** The assignments of a file, in order. *)
Definition bindings (text : string) : list (string * string) :=
  omap (fun line =>
    match binding line with
    | Some (key, value) => if key === "__proto__" then None else Some (key, strip_quotes value)
    | None => None
    end) (file_lines text).

Lemma read_bindings text :
  readEnvFile (Some text) = foldl (fun env e => mset e.1 e.2 env) [] (bindings text).
Proof.
  unfold readEnvFile, bindings. generalize (@nil (string * string)).
  induction (file_lines text) as [|line ls IH]; intros acc; [done|]. cbn [foldl omap list_omap]. rewrite IH.
  destruct (binding line) as [[key value]|]; [|done]. unfold obj_set. by destruct (key === "__proto__").
Qed.

Lemma load_bindings text env :
  loadDotenv (Some text) env = foldl (fun env e => if mhas e.1 env then env else mset e.1 e.2 env) env (bindings text).
Proof.
  unfold loadDotenv, bindings. revert env. induction (file_lines text) as [|line ls IH]; intros env; [done|].
  cbn [foldl omap list_omap]. rewrite IH. unfold binding. cbv zeta.
  destruct (trim line) as [|c s] eqn:E; [done|].
  assert (starts_with "#" (String c s) = true -> match_binding (String c s) = None) as Hc.
  { cbn [starts_with]. rewrite andb_true_r. intros H%Ascii.eqb_eq. by rewrite <- H. }
  cbn [String.eqb]. rewrite orb_false_l. destruct (starts_with "#" (String c s)); [by rewrite Hc|].
  destruct (match_binding (String c s)) as [[key value]|]; [|done].
  destruct (key === "__proto__"); simpl; [by rewrite orb_true_r|]. by rewrite orb_false_r.
Qed.

Lemma mget_load (k : string) (l : list (string * string)) : forall env : jmap string string,
  mget k (foldl (fun env e => if mhas e.1 env then env else mset e.1 e.2 env) env l) =
    match mget k env with Some v => Some v | None => mget k l end.
Proof.
  induction l as [|[key v] l IH]; intros env; simpl; [by destruct (mget k env)|]. rewrite IH.
  unfold mhas. destruct (mget key env) as [v'|] eqn:E.
  - destruct (mget k env) as [x|] eqn:E2; [done|]. rewrite decide_False; [done|congruence].
  - rewrite mget_mset. destruct (decide (key = k)) as [D|D]; [|done]. subst k. by rewrite E.
Qed.

Lemma mget_read {V} (k : string) (l : list (string * V)) : forall env : jmap string V,
  mget k (foldl (fun env e => mset e.1 e.2 env) env l) =
    match mget k (rev l) with Some v => Some v | None => mget k env end.
Proof.
  induction l as [|[key v] l IH]; intros env; simpl; [done|]. rewrite IH.
  assert (forall l1 l2 : jmap string V,
    mget k (l1 ++ l2) = match mget k l1 with Some v => Some v | None => mget k l2 end) as Happ.
  { induction l1 as [|[k' v'] l1 IH1]; intros l2; simpl; [done|]. by case_decide. }
  rewrite Happ. destruct (mget k (rev l)); [done|]. simpl. rewrite mget_mset. by case_decide.
Qed.

(** launcher and server agree on the configuration file: with distinct keys
    the server's environment is its own, completed by what the launcher reads;
    with repeated keys the server takes the first assignment and the launcher
    the last. *)
Theorem loaders_agree text env key :
  mget key (loadDotenv (Some text) env) =
    match mget key env with Some v => Some v | None => mget key (bindings text) end /\
  mget key (readEnvFile (Some text)) = mget key (rev (bindings text)) /\
  (NoDup (bindings text).*1 -> mget key env = None ->
   mget key (loadDotenv (Some text) env) = mget key (readEnvFile (Some text))).
Proof.
  assert (mget key (loadDotenv (Some text) env) =
    match mget key env with Some v => Some v | None => mget key (bindings text) end) as H1
    by (by rewrite load_bindings, mget_load).
  assert (mget key (readEnvFile (Some text)) = mget key (rev (bindings text))) as H2
    by (rewrite read_bindings, mget_read; by destruct (mget key (rev (bindings text)))).
  split_and!; [done..|]. intros Hnd Hk. rewrite H1, H2, Hk.
  assert (bindings text ≡ₚ rev (bindings text)) as Hp by apply Permutation_rev.
  assert (NoDup (rev (bindings text)).*1) as Hnd' by (by rewrite <- Hp).
  apply option_eq. intros v. by rewrite !mget_elem_iff, <- Hp.
Qed.

Lemma loaders_agree_witness :
  let text := "# comment" ^^ String LF "PORT=9000" ^^ String LF "ADMIN_TOKEN='abc'" in
  mget "PORT" (loadDotenv (Some text) [("HOST", "::")]) = Some "9000" /\
  mget "ADMIN_TOKEN" (loadDotenv (Some text) [("HOST", "::")]) = mget "ADMIN_TOKEN" (readEnvFile (Some text)).
Proof.
  set (text := "# comment" ^^ String LF "PORT=9000" ^^ String LF "ADMIN_TOKEN='abc'").
  destruct (loaders_agree text [("HOST", "::")] "PORT") as (H1 & _ & _).
  destruct (loaders_agree text [("HOST", "::")] "ADMIN_TOKEN") as (_ & _ & H2).
  split; [rewrite H1; vm_compute; reflexivity|].
  apply H2; [apply (bool_decide_unpack _); vm_compute; exact I | vm_compute; reflexivity].
Defined.
