(* ===== verification/RelayIdentity.v ===== *)
(** * The relay client's address and identity

    The helpers of server/src/relayClient.ts that [RelayClient] takes as given:
    the addresses it connects to, the identity a machine has before it is
    enrolled, the name it shows and how an answer of the relay is read. The
    SHA-256 digest is a parameter; the rest is computed. *)

From Stdlib Require Import Ascii.
From S2P Require Import Prelude JsValue Sessions EnvFile.

(** ** Addresses *)

(** [basePath.replace(/\/+$/, "")] *)
Fixpoint drop_slashes (s : string) : string :=
  match s with String c s' => if Ascii.eqb c "/" then drop_slashes s' else s | "" => "" end.
Definition strip_slashes (s : string) : string := srev (drop_slashes (srev s)).

Definition relayPath (basePath suffix : string) : string :=
  str_or (strip_slashes basePath ^^ (if starts_with "/" suffix then suffix else "/" ^^ suffix)) "/".

(** The parts of a URL the helpers change. *)
Record url := mkUrl { url_protocol : string; url_host : string; url_pathname : string; url_search : string; url_hash : string }.

Definition relaySocketUrl (relayUrl : url) : url :=
  mkUrl (if url_protocol relayUrl === "https:" then "wss:" else "ws:") (url_host relayUrl)
    (relayPath (url_pathname relayUrl) "/relay/device") "" "".

Definition relayHttpUrl (relayUrl : url) (pathname : string) : url :=
  mkUrl (url_protocol relayUrl) (url_host relayUrl) (relayPath (url_pathname relayUrl) pathname) "" "".

Definition localWsUrl (port : Z) : string := "ws://127.0.0.1:" ^^ zstr port ^^ "/ws".
Definition localHttpOrigin (port : Z) : string := "http://127.0.0.1:" ^^ zstr port.

(** ** Identity *)

Definition hex_digits : list ascii := String.list_ascii_of_string "0123456789abcdef".

Definition is_hex (c : ascii) : bool := bool_decide (c ∈ hex_digits).

(** [Number.parseInt(c, 16)] of a hexadecimal digit, and [toString(16)] below 16. *)
Definition hex_value (c : ascii) : Z :=
  Z.of_nat (default 0%nat (fst <$> list_find (fun d => d = c) hex_digits)).
Definition hex_digit (z : Z) : ascii := default "0"%char (hex_digits !! Z.to_nat z).

Section identity.
(** [createHash("sha256").update(seed).digest("hex")] *)
Context (sha256_hex : string -> string).

(** [hex.slice(i, j).join("")] *)
Definition segment (i j : nat) (hex : list ascii) : string := String.string_of_list_ascii (take (j - i) (drop i hex)).

Definition stableUuid (seed : string) : string :=
  let hex := take 32 (String.list_ascii_of_string (sha256_hex seed)) in
  let hex := <[12%nat := "5"%char]> hex in
  let hex := <[16%nat := hex_digit (Z.lor (Z.land (hex_value (default "0"%char (hex !! 16%nat))) 3) 8)]> hex in
  segment 0 8 hex ^^ "-" ^^ segment 8 12 hex ^^ "-" ^^ segment 12 16 hex ^^ "-" ^^ segment 16 20 hex
  ^^ "-" ^^ segment 20 32 hex.

(** What names the machine: the environment's and the system's answers. *)
Record machine_names := mkNames {
  mn_computername : string; mn_hostname : string; mn_os_hostname : string; mn_userdomain : string;
  mn_username : string; mn_homedir : string
}.

Definition stableFallbackIdentity (n : machine_names) : string :=
  stableUuid (join "|" (List.filter (fun s => s !== "")
    ["acode-official-relay"; mn_computername n; mn_hostname n; mn_os_hostname n; mn_userdomain n; mn_username n;
     mn_homedir n])).

Definition deviceName (relayDeviceName : string) (n : machine_names) : string :=
  str_or relayDeviceName (str_or (mn_computername n) (str_or (mn_hostname n) "aCode Gateway")).
End identity.

(** [responseBody]: the object of an answer, or an empty one. *)
Definition responseBody (body : option val) : val :=
  match body with Some v => if is_object v then v else VObj [] | None => VObj [] end.

(** ** Properties *)

(** A UUID of version 5 and the standard variant. *)
Definition uuid_v5 (s : string) : Prop :=
  exists a b c v d e,
    s = a ^^ "-" ^^ b ^^ "-5" ^^ c ^^ "-" ^^ String v d ^^ "-" ^^ e
    /\ slen a = 8%nat /\ slen b = 4%nat /\ slen c = 3%nat /\ slen d = 3%nat /\ slen e = 12%nat
    /\ v ∈ ["8"; "9"; "a"; "b"]%char /\ sforall is_hex (a ^^ b ^^ c ^^ d ^^ e) = true.

Lemma string_take (n : nat) s :
  (n <= slen s)%nat -> exists l, length l = n /\ take n (String.list_ascii_of_string s) = l
    /\ (sforall is_hex s = true -> Forall (fun c => is_hex c = true) l).
Proof.
  revert s. induction n as [|n IH]; intros s H; [by exists []|].
  destruct s as [|c s]; [by unfold slen in H; cbn in H; lia|].
  destruct (IH s) as (l & Hl & E & Hf); [unfold slen in *; cbn in H; lia|].
  exists (c :: l). cbn. rewrite Hl, E. repeat split; try done. intros [Hc Hs]%andb_true_iff. auto.
Qed.

Lemma variant_digit c : hex_digit (Z.lor (Z.land (hex_value c) 3) 8) ∈ ["8"; "9"; "a"; "b"]%char.
Proof.
  assert (0 <= Z.land (hex_value c) 3 < 4)%Z as H.
  { change 3%Z with (Z.ones 2). rewrite Z.land_ones by lia. apply Z.mod_pos_bound. lia. }
  revert H. generalize (Z.land (hex_value c) 3). intros z H.
  assert (z = 0 \/ z = 1 \/ z = 2 \/ z = 3)%Z as [-> | [-> | [-> | ->]]] by lia; vm_compute; repeat constructor.
Qed.

(** The identity of a machine is a well-formed version-5 UUID, whatever the
    digest. *)
Theorem fallback_identity_uuid sha256_hex n :
  (forall s, (32 <= slen (sha256_hex s))%nat /\ sforall is_hex (sha256_hex s) = true) ->
  uuid_v5 (stableFallbackIdentity sha256_hex n).
Proof.
  intros Hsha. unfold stableFallbackIdentity, stableUuid. generalize (join "|" (List.filter (fun s => s !== "")
    ["acode-official-relay"; mn_computername n; mn_hostname n; mn_os_hostname n; mn_userdomain n; mn_username n;
     mn_homedir n])). intros seed. destruct (Hsha seed) as [Hlen Hhex]. revert Hlen Hhex. generalize (sha256_hex seed).
  clear. intros s Hlen Hhex.
  destruct (string_take 32 s Hlen) as (l & Hl & -> & Hf). specialize (Hf Hhex). clear Hlen Hhex.
  destruct l as [|c0 [|c1 [|c2 [|c3 [|c4 [|c5 [|c6 [|c7 [|c8 [|c9 [|c10 [|c11 [|c12 [|c13 [|c14 [|c15 [|c16 [|c17 [|c18 [|c19 [|c20 [|c21 [|c22 [|c23 [|c24 [|c25 [|c26 [|c27 [|c28 [|c29 [|c30 [|c31 s0]]]]]]]]]]]]]]]]]]]]]]]]]]]]]]]]; try done. destruct s0; [|done]. clear Hl.
  rewrite !Forall_cons in Hf.
  exists (String c0 (String c1 (String c2 (String c3 (String c4 (String c5 (String c6 (String c7 "")))))))), (String c8 (String c9 (String c10 (String c11 "")))), (String c13 (String c14 (String c15 ""))), (hex_digit (Z.lor (Z.land (hex_value c16) 3) 8)), (String c17 (String c18 (String c19 ""))), (String c20 (String c21 (String c22 (String c23 (String c24 (String c25 (String c26 (String c27 (String c28 (String c29 (String c30 (String c31 "")))))))))))).
  split; [done|]. do 5 (split; [done|]). split; [apply variant_digit|]. cbn [sapp sforall].
  destruct_and! Hf. repeat match goal with H : is_hex _ = true |- _ => rewrite H; clear H end. done.
Qed.

(** The path of a relay below a prefix: exactly one slash joins the two. *)
Lemma relay_path_joined base suffix :
  exists b s, relayPath base suffix = b ^^ s /\ ends_with "/" b = false /\ starts_with "/" s = true.
Proof.
  exists (strip_slashes base), (if starts_with "/" suffix then suffix else "/" ^^ suffix).
  assert (starts_with "/" (if starts_with "/" suffix then suffix else "/" ^^ suffix) = true) as Hs
    by (by destruct (starts_with "/" suffix) eqn:E).
  split; [|split; [|done]].
  - unfold relayPath. revert Hs. generalize (if starts_with "/" suffix then suffix else "/" ^^ suffix).
    intros t Hs. unfold str_or. destruct (String.eqb_spec (strip_slashes base ^^ t) "") as [E|]; [|done].
    destruct (strip_slashes base); [|done]. change (t = "") in E. by rewrite E in Hs.
  - unfold ends_with, strip_slashes. assert (forall x, starts_with "/" (drop_slashes x) = false) as Hd.
    { induction x as [|c x IH]; [done|]. cbn [drop_slashes]. destruct (Ascii.eqb c "/") eqn:E; [done|].
      cbn [starts_with]. by rewrite Ascii.eqb_sym, E. }
    rewrite srev_involutive. apply Hd.
Qed.
