(* ===== verification/CodexPath.v ===== *)
(** * Finding the Codex executable

    server/src/codexPath.ts. [exists] is [existsSync], [lookup] runs [which] or
    [where.exe], and [node_path] is the node:path module of the host. *)

From Stdlib Require Import Ascii.
From S2P Require Import Prelude JsValue GatewayStore Sessions Paths EnvFile.

Record node_path := mkNodePath {
  np_join : list string -> string;
  np_resolve : string -> string;
  np_dirname : string -> string;
  np_basename : string -> string;
  np_extname : string -> string
}.

Record lookup_result := mkLookup { lk_status : option Z; lk_stdout : option string }.

Definition is_letter (c : ascii) : bool := between 65 (code c) 90 || between 97 (code c) 122.

Definition WIN_SEPARATOR : string := String (ascii_of_nat 92) "".

Definition looksLikePath (command : string) : bool :=
  includes "/" command || includes WIN_SEPARATOR command ||
  match command with
  | String c (String d _) => is_letter c && Ascii.eqb d ":"%char
  | _ => false
  end.

Section codex_path.
Context (P : node_path) (win32 : bool) (exists_ : string -> bool) (lookup : string -> list string -> lookup_result).

Definition normalizeCodexCommand (command : string) : string :=
  let value := trim command in
  if negb win32 || negb (looksLikePath value) then value
  else
    let candidates := if np_extname P value === ""
                      then List.filter exists_ (map (fun extension => value ^^ extension) [".cmd"; ".bat"; ".exe"])
                      else [] in
    match candidates with candidate :: _ => candidate | [] => value end.

(** The non-empty trimmed lines of the output of a lookup. *)
Definition lookup_lines (stdout : option string) : list string :=
  List.filter (fun s => s !== "") (map trim (file_lines (default "" stdout))).

Definition resolveCodexCommand (command : string) : option string :=
  if command === "" then None
  else
    let normalized := normalizeCodexCommand command in
    if looksLikePath normalized then (if exists_ normalized then Some normalized else None)
    else
      let result := lookup (if win32 then "where.exe" else "which") [normalized] in
      match lk_status result with
      | Some 0%Z =>
          let matches := lookup_lines (lk_stdout result) in
          match List.find exists_ (map normalizeCodexCommand matches) with
          | Some candidate => Some candidate
          | None => normalizeCodexCommand <$> head matches
          end
      | _ => None
      end.

Definition codex_candidates (homedir : string) : list string :=
  if win32 then
    ["codex.cmd"; "codex.exe"; np_join P [homedir; "AppData"; "Roaming"; "npm"; "codex.cmd"];
     np_join P [homedir; "AppData"; "Roaming"; "npm"; "codex.exe"]; "codex"]
  else
    ["codex"; np_join P [homedir; ".local"; "bin"; "codex"]; np_join P [homedir; ".bun"; "bin"; "codex"];
     np_join P [homedir; ".npm-global"; "bin"; "codex"]; "/opt/homebrew/bin/codex"; "/usr/local/bin/codex"].

Definition detectCodexBin (homedir : string) (env : jmap string string) : string :=
  let explicit := match mget "CODEX_BIN" env with
                  | Some bin => resolveCodexCommand bin
                  | None => None
                  end in
  match explicit with
  | Some bin => if bin === "" then default "codex" (head (omap resolveCodexCommand (codex_candidates homedir))) else bin
  | None => default "codex" (head (omap resolveCodexCommand (codex_candidates homedir)))
  end.

(** A path is only accepted when it exists; a name without separators only
    when the system's lookup finds it. *)
Lemma resolved_command command bin :
  resolveCodexCommand command = Some bin ->
  command <> "" /\
  (looksLikePath (normalizeCodexCommand command) = true -> bin = normalizeCodexCommand command /\ exists_ bin = true) /\
  (looksLikePath (normalizeCodexCommand command) = false ->
   lk_status (lookup (if win32 then "where.exe" else "which") [normalizeCodexCommand command]) = Some 0%Z /\
   exists line, line ∈ lookup_lines (lk_stdout (lookup (if win32 then "where.exe" else "which")
     [normalizeCodexCommand command])) /\ bin = normalizeCodexCommand line).
Proof.
  unfold resolveCodexCommand. destruct (String.eqb_spec command "") as [|Hne]; [done|]. cbv zeta.
  destruct (looksLikePath (normalizeCodexCommand command)) eqn:E.
  { destruct (exists_ _) eqn:F; [|done]. intros [= <-]. by split_and!. }
  set (r := lookup _ _). destruct (lk_status r) as [[| |]|] eqn:F; try done. intros H. split_and!; try done.
  intros _. split; [done|]. destruct (List.find _ _) as [c|] eqn:G.
  - injection H as <-. apply find_some in G as [G _]. apply in_map_iff in G as (line & <- & G).
    exists line. split; [by apply list_elem_of_In|done].
  - destruct (lookup_lines (lk_stdout r)) as [|line ls]; [done|]. injection H as <-. exists line. split; [by left|done].
Qed.
End codex_path.
