(* ===== verification/CodexLink.v ===== *)
(** * The connection to the Codex app-server

    The rest of server/src/codexBridge.ts: [ensureReady], [connect],
    [ensureServerProcess], [initialize], [request], [status], [shutdown] and the
    handlers of the child's events. [CodexBridge] has one child that is there or
    not; here every process the bridge ever spawned has a number, and its events
    (output, a failed write, an error, its exit) name the process they come from,
    as in the source, whose handlers are attached to a process and act on
    [this.child].

    A step is a macrotask with the microtasks it causes: the continuations of the
    handshake, and of the calls that wait for it, run before the next event. *)

From S2P Require Import Prelude JsValue GatewayStore CodexEvents CodexBridge CodexPath.

Local Open Scope Z_scope.

(** ** State *)

(** A spawned process: how it was started, whether it was signalled and whether
    it has exited, and the messages written to it. *)
Record app_server := mkServer {
  as_command : string; as_shell : bool; as_env : jmap string string;
  as_killed : bool; as_exited : bool; as_stdin : list val
}.

(** A call of [request] by some part of the gateway. *)
Record caller := mkCaller { ca_id : nat; ca_method : string; ca_params : val }.

(** [lk_connecting] is the id of the [initialize] request the promise
    [this.connecting] waits for; [lk_waiting] are the calls that wait for that
    promise; [lk_outcomes] says of each call whether its request was sent (and
    under which id) or what it was rejected with. *)
Record link := mkLink {
  lk_bridge : CodexBridge;
  lk_current : option nat;
  lk_servers : list app_server;
  lk_connecting : option Z;
  lk_waiting : list caller;
  lk_outcomes : list (nat * (bridge_error + Z))
}.

Definition with_lk_bridge (v : CodexBridge) (l : link) : link :=
  mkLink v (lk_current l) (lk_servers l) (lk_connecting l) (lk_waiting l) (lk_outcomes l).
Definition with_lk_current (v : option nat) (l : link) : link :=
  mkLink (lk_bridge l) v (lk_servers l) (lk_connecting l) (lk_waiting l) (lk_outcomes l).
Definition with_lk_servers (v : list app_server) (l : link) : link :=
  mkLink (lk_bridge l) (lk_current l) v (lk_connecting l) (lk_waiting l) (lk_outcomes l).
Definition with_lk_waits (c : option Z) (v : list caller) (l : link) : link :=
  mkLink (lk_bridge l) (lk_current l) (lk_servers l) c v (lk_outcomes l).
Definition with_lk_outcomes (v : list (nat * (bridge_error + Z))) (l : link) : link :=
  mkLink (lk_bridge l) (lk_current l) (lk_servers l) (lk_connecting l) (lk_waiting l) v.

(** What [spawn] depends on: the configured command and what it resolves to, the
    platform and the gateway's environment. *)
Record host := mkHost {
  ho_codexBin : string;
  ho_resolve : string -> option string;
  ho_win32 : bool;
  ho_delimiter : string;
  ho_env : jmap string string
}.

Section link.
Context (JSON_parse : string -> option val) (H : host).

(** ** The child process *)

(** [this.child && !this.child.killed] *)
Definition child_up (b : CodexBridge) : bool :=
  match child b with Some c => negb (killed c) | None => false end.

Record Status := mkStatus { st_childRunning : bool; st_connected : bool; st_ready : bool }.

Definition status (b : CodexBridge) : Status := mkStatus (child_up b) (child_up b) (ready b).

Definition receive (killed_now : bool) (messages : list val) (s : app_server) : app_server :=
  mkServer (as_command s) (as_shell s) (as_env s) (as_killed s || killed_now) (as_exited s) (as_stdin s ++ messages).

(** Code of the bridge that runs between two events: what it writes goes to the
    current child, and a signal it sends too. *)
Definition on_bridge (f : CodexBridge -> CodexBridge) (l : link) : link :=
  let b := lk_bridge l in
  let b' := f b in
  let signalled := match child b' with Some c => killed c | None => false end in
  let servers := match lk_current l with
                 | Some i => alter (receive signalled (drop (length (written b)) (written b'))) i (lk_servers l)
                 | None => lk_servers l
                 end in
  with_lk_bridge b' (with_lk_servers servers l).

Definition new_server : app_server :=
  let command := default (ho_codexBin H) (ho_resolve H (ho_codexBin H)) in
  mkServer command (shouldUseShell (ho_win32 H) command) (processEnvWithToolPath (ho_delimiter H) (ho_env H))
    false false [].

Definition ensureServerProcess (l : link) : link :=
  if child_up (lk_bridge l) then l
  else with_lk_current (Some (length (lk_servers l)))
         (with_lk_servers (lk_servers l ++ [new_server]) (with_lk_bridge (spawned (lk_bridge l)) l)).

(** ** Requests and the handshake *)

Definition outcome (c : caller) (r : bridge_error + Z) (l : link) : link :=
  with_lk_outcomes (lk_outcomes l ++ [(ca_id c, r)]) l.

Definition result_of (r : send_result) : bridge_error + Z :=
  match r with Sent i => inr i | SendThrew e => inl e end.

(** [this.sendRequest(method, params)] of a caller whose connection is ready. *)
Definition send (c : caller) (l : link) : link :=
  let r := (sendRequest (ca_method c) (ca_params c) (lk_bridge l)).1 in
  outcome c (result_of r) (on_bridge (fun b => (sendRequest (ca_method c) (ca_params c) b).2) l).

Definition initialize_params : val :=
  VObj [("clientInfo", VObj [("name", VStr "codex-remote-control"); ("title", VStr "Codex Remote Control");
                             ("version", VStr "0.1.0")]);
        ("capabilities", VObj [("experimentalApi", VBool true)])].

Definition initialized_message : val := VObj [("method", VStr "initialized")].

(** [this.connecting] settles: with an error for everyone who waits, or as done. *)
Definition connection_failed (e : bridge_error) (l : link) : link :=
  foldl (fun l c => outcome c (inl e) l) (with_lk_waits None [] l) (lk_waiting l).

Definition connection_made (l : link) : link :=
  foldl (fun l c => send c l) (with_lk_waits None [] l) (lk_waiting l).

(** [connect] with [c] the call that started it, up to the answer to [initialize]. *)
Definition connect (c : caller) (l : link) : link :=
  let l := ensureServerProcess (on_bridge (with_ready false) l) in
  match (sendRequest "initialize" initialize_params (lk_bridge l)).1 with
  | Sent i => with_lk_waits (Some i) [c] (on_bridge (fun b => (sendRequest "initialize" initialize_params b).2) l)
  | SendThrew e => outcome c (inl e) l
  end.

(** [initialize] after the answer, and the end of [connect]. *)
Definition initialized (l : link) : link :=
  match writeMessage initialized_message (lk_bridge l) with
  | None => connection_failed (Error "Codex app-server stdio is not open") l
  | Some _ =>
      connection_made (on_bridge (with_ready true)
        (on_bridge (fun b => default b (writeMessage initialized_message b)) l))
  end.

(** What the request with this id was settled with. *)
Definition settled_with (i : Z) (b : CodexBridge) : option rpc_result :=
  snd <$> List.find (fun e => bool_decide (e.1 = IdNum i)) (settled b).

(** The microtasks after an event. *)
Definition progress (l : link) : link :=
  match lk_connecting l with
  | None => l
  | Some i =>
      match settled_with i (lk_bridge l) with
      | None => l
      | Some (Rejected e) => connection_failed e l
      | Some (Resolved _) => initialized l
      end
  end.

(** [request], with [ensureReady]. *)
Definition request (c : caller) (l : link) : link :=
  if ready (lk_bridge l) && child_up (lk_bridge l) then send c l
  else match lk_connecting l with
       | Some i => with_lk_waits (Some i) (lk_waiting l ++ [c]) l
       | None => connect c l
       end.

(** The calls of the interface that are a request and nothing else. *)
Definition listThreads (id : nat) (limit : Z) (cursor : option string) : caller :=
  mkCaller id "thread/list"
    (VObj [("limit", vint limit); ("cursor", match cursor with Some s => VStr s | None => VNull end);
           ("sortKey", VStr "updated_at"); ("sortDirection", VStr "desc"); ("archived", VBool false);
           ("useStateDbOnly", VBool true)]).

Definition readThread (id : nat) (threadId : string) : caller :=
  mkCaller id "thread/read" (VObj [("threadId", VStr threadId); ("includeTurns", VBool true)]).

Definition listModels (id : nat) : caller := mkCaller id "model/list" (VObj []).

(** ** Events *)

Definition mark_exited (s : app_server) : app_server :=
  mkServer (as_command s) (as_shell s) (as_env s) (as_killed s) true (as_stdin s).

(** The handlers of [exit] and [error] of process [p]: both forget [this.child],
    whichever process that is. *)
Definition server_gone (p : nat) (f : CodexBridge -> CodexBridge) (l : link) : link :=
  with_lk_current None (on_bridge f (with_lk_servers (alter mark_exited p (lk_servers l)) l)).

Definition link_shutdown (l : link) : link :=
  let servers := match lk_current l with
                 | Some i => alter (receive true []) i (lk_servers l)
                 | None => lk_servers l
                 end in
  with_lk_current None (with_lk_servers servers (with_lk_bridge (shutdown (lk_bridge l)) l)).

Inductive link_event :=
| Call (c : caller)
| Output (p : nat) (chunk : string)
| StdinFailed (p : nat) (message : string)
| Failed (p : nat) (message : string)
| Exited (p : nat) (message : string) (params : list (string * val))
| Close
| TimedOut (i : rpc_id) (timeoutMs : Z)
| Decided (requestId : string) (decision : Decision) (threadId turnId : option string)
    (amendment : option (list string))
| Expired (n : nat)
| AuditDone (i : nat) (ok : bool) (error : string) (now : Z)
| Policy (threadId : string) (mode : SessionPolicyMode).

Definition command_of (p : nat) (l : link) : string :=
  match lk_servers l !! p with Some s => as_command s | None => "" end.

Definition handle (l : link) (e : link_event) : link :=
  match e with
  | Call c => request c l
  | Output p chunk => on_bridge (handleStdoutChunk JSON_parse chunk) l
  | StdinFailed p m => on_bridge (stdinError m) l
  | Failed p m => server_gone p (childError m (command_of p l)) l
  | Exited p m ps => server_gone p (childExit m ps) l
  | Close => link_shutdown l
  | TimedOut i ms => on_bridge (requestTimeout i ms) l
  | Decided r d t u a => on_bridge (fun b => (resolveApproval r d t u a b).2) l
  | Expired n => on_bridge (approvalTimeout n) l
  | AuditDone i ok e now => on_bridge (audited i ok e now) l
  | Policy t m => on_bridge (setPolicyMode t m) l
  end.

Definition link_step (l : link) (e : link_event) : link := progress (handle l e).

Definition link_run (es : list link_event) : link := foldl link_step (mkLink initial None [] None [] []) es.

End link.

(** ** What the bridge's own code leaves alone *)

(** A message that is a request of the gateway other than the handshake. *)
Definition client_call (m : val) : bool :=
  match prop "method" m with
  | VStr s => (s !== "initialize") && (s !== "initialized")
  | _ => false
  end.

(** A request is pending or was settled. *)
Definition outstanding (i : Z) (b : CodexBridge) : Prop :=
  is_Some (mget (IdNum i) (pending b)) \/ is_Some (settled_with i b).

(** No request is written, the bridge does not become ready, and no request is
    forgotten. *)
Record hushed (b b' : CodexBridge) : Prop := {
  hu_written : exists ms, written b' = written b ++ ms /\ Forall (fun m => client_call m = false) ms;
  hu_ready : ready b' = true -> ready b = true;
  hu_kept : forall i, outstanding i b -> outstanding i b'
}.

(** The child is the same, or it was signalled. *)
Definition child_le (b b' : CodexBridge) : Prop :=
  child b' = child b \/ child b' = (fun c => {| killed := true; writable := writable c |}) <$> child b.

Definition calm (b b' : CodexBridge) : Prop := hushed b b' /\ child_le b b'.

#[global] Instance hushed_preorder : PreOrder hushed.
Proof.
  split.
  - intros b. split; [|done..]. exists []. by rewrite app_nil_r.
  - intros b1 b2 b3 [(m1 & E1 & H1) R1 K1] [(m2 & E2 & H2) R2 K2]. split; [|auto..].
    exists (m1 ++ m2). rewrite E2, E1, app_assoc. split; [done|]. by apply Forall_app.
Qed.

#[global] Instance child_le_preorder : PreOrder child_le.
Proof.
  split; [by left|]. intros b1 b2 b3 [E1|E1] [E2|E2]; rewrite E1 in E2; try (by left); right; try done.
  rewrite E2. by destruct (child b1).
Qed.

#[global] Instance calm_preorder : PreOrder calm.
Proof. split; [done|]. intros ??? [] []. split; by etrans. Qed.

Lemma settled_with_more i b b' x :
  settled b' = settled b ++ x -> is_Some (settled_with i b) -> is_Some (settled_with i b').
Proof.
  unfold settled_with. intros ->. induction (settled b) as [|e l IH]; simpl; [by intros []|].
  case_bool_decide; simpl; eauto.
Qed.

Lemma settled_in i r b : (IdNum i, r) ∈ settled b -> is_Some (settled_with i b).
Proof.
  unfold settled_with. induction (settled b) as [|e l IH]; intros Hin; [by apply not_elem_of_nil in Hin|].
  apply elem_of_cons in Hin as [<-|Hin]; simpl; [by rewrite bool_decide_true|].
  case_bool_decide; simpl; eauto.
Qed.

Lemma calm_same b b' :
  written b' = written b -> ready b' = ready b -> pending b' = pending b -> settled b' = settled b ->
  child b' = child b -> calm b b'.
Proof.
  intros Ew Er Ep Es Ec. split; [split|by left].
  - exists []. by rewrite app_nil_r.
  - by rewrite Er.
  - intros i. unfold outstanding, settled_with. by rewrite Ep, Es.
Qed.

Ltac calm_by tac := etrans; [|tac]; by apply calm_same.

Lemma calm_write m b : client_call m = false -> calm b (default b (writeMessage m b)).
Proof.
  intros Hm. unfold writeMessage. destruct (child_open b); [|reflexivity]. split; [split|by left]; try done.
  exists [m]. split; [done|by repeat constructor].
Qed.

Lemma calm_failed req m msg b : calm b (request_failed req m msg b).
Proof. unfold request_failed. calm_by ltac:(by apply calm_write). Qed.

Lemma calm_reply req m r b : calm b (reply req m r b).
Proof.
  unfold reply. pose proof (calm_write (VObj [("id", req); ("result", r)]) b eq_refl) as Hc.
  destruct (writeMessage _ b); [exact Hc|apply calm_failed].
Qed.

Lemma calm_deny_all (l : jmap string PendingApproval) b :
  calm b (foldl (fun b x => decide_approval (pa_request x.2) (pa_method x.2) DENY b) b l).
Proof.
  revert b. induction l as [|x l IH]; intros b; [reflexivity|]. simpl. etrans; [apply calm_reply|apply IH].
Qed.

(** [rejectAll] is quiet before and after what its caller does. *)
Lemma calm_rejectAll e rest b :
  exists x, calm b x /\ ready x = ready b /\ child x = child b /\ pending x = []
    /\ calm (rest x) (rejectAll e rest b).
Proof.
  unfold rejectAll. cbv zeta. eexists. split; [|split; [|split; [|split; [|apply calm_deny_all]]]]; try done.
  split; [split|by left]; [by exists []; rewrite app_nil_r|done|].
  intros i [[m Hm]|Hs]; right.
  - simpl. apply (settled_in i (Rejected e)). simpl. apply elem_of_app. right.
    apply list_elem_of_fmap. exists (IdNum i, m). split; [done|]. by apply mget_Some_elem.
  - by eapply settled_with_more; [|exact Hs].
Qed.

Lemma calm_settle i r b :
  calm b (settle i r (with_pending (mdelete i (pending b)) b)).
Proof.
  split; [split|by left]; [by exists []; rewrite app_nil_r|done|].
  intros j [Hj|Hj]; [|right; by eapply settled_with_more; [|exact Hj]].
  destruct (decide (i = IdNum j)) as [->|Hne].
  - right. apply (settled_in j r). simpl. apply elem_of_app. right. by apply list_elem_of_singleton.
  - left. simpl. by rewrite mget_mdelete_ne.
Qed.

Lemma calm_message parse raw b : calm b (handleMessage parse raw b).
Proof.
  unfold handleMessage. destruct (parse raw) as [v|]; [|by apply calm_same].
  destruct (is_object v); [|reflexivity]. cbn [negb].
  assert (calm b match prop "method" v with
    | VStr method => match prop "id" v with
                     | VUndef => emit {| e_method := method; e_params := prop "params" v |} b
                     | i => with_serving (serving b ++ [Received i method (prop "params" v)]) b
                     end
    | _ => b end) as Hrest.
  { destruct (prop "method" v); try reflexivity. destruct (prop "id" v); by apply calm_same. }
  destruct (id_of (prop "id" v)) as [i|]; cbn [mbind option_bind]; [|exact Hrest].
  destruct (mget i (pending b)); [apply calm_settle|exact Hrest].
Qed.

Lemma calm_stdout parse c b : calm b (handleStdoutChunk parse c b).
Proof.
  unfold handleStdoutChunk. case_match.
  - unfold output_limit. etrans; [|].
    2: { destruct (calm_rejectAll (Error "Codex app-server output exceeded the safety limit")
           (fun b => emit (event "codex/app-server/output-limit" [("maxBytes", vint maxStdoutBufferBytes)]) (kill_child b))
           (with_stdoutBuffer "" b)) as (x & Hx & _ & _ & _ & Hr).
         etrans; [exact Hx|]. etrans; [|exact Hr]. unfold kill_child. destruct (child x) as [c'|] eqn:E.
         - split; [|right; simpl; by rewrite E]. split; [by exists []; rewrite app_nil_r|done|done].
         - by apply calm_same. }
    by apply calm_same.
  - destruct (split_lines _) as [ls rest].
    transitivity (foldl (handle_line parse) b ls); [|by apply calm_same].
    clear. revert b. induction ls as [|l ls IH]; intros b; [reflexivity|]. simpl.
    etrans; [|apply IH]. unfold handle_line. case_match; [reflexivity|apply calm_message].
Qed.

Lemma calm_timeout i ms b : calm b (requestTimeout i ms b).
Proof. unfold requestTimeout. case_match; [apply calm_settle|reflexivity]. Qed.

Lemma calm_resolve r d t u a b : calm b (resolveApproval r d t u a b).2.
Proof. unfold resolveApproval. repeat (case_match; try reflexivity). cbn [snd]. calm_by ltac:(apply calm_reply). Qed.

Lemma calm_expire n b : calm b (approvalTimeout n b).
Proof. unfold approvalTimeout. case_match; [|reflexivity]. calm_by ltac:(apply calm_reply). Qed.

Lemma calm_ask now req m ps t b : calm b (ask now req m ps t b).
Proof. unfold ask. cbv zeta. case_match; [calm_by ltac:(apply calm_reply)|by apply calm_same]. Qed.

Lemma calm_serve req m ps b : calm b (serve req m ps b).
Proof.
  unfold serve. cbv zeta. repeat case_match; try apply calm_reply; try (by apply calm_same);
    calm_by ltac:(apply calm_reply).
Qed.

Lemma calm_audited i ok e now b : calm b (audited i ok e now b).
Proof.
  unfold audited. destruct (serving b !! i) as [[]|]; [destruct ok..|reflexivity];
    calm_by ltac:(first [apply calm_serve | apply calm_failed | apply calm_ask]).
Qed.

Lemma calm_policy t m b : calm b (setPolicyMode t m b).
Proof. by apply calm_same. Qed.

Lemma calm_stdinError m b : calm b (stdinError m b).
Proof.
  unfold stdinError. destruct (calm_rejectAll (Error m) (fun b => b) (with_ready false b)) as (x & Hx & _ & _ & _ & Hr).
  etrans; [|exact Hr]. etrans; [|exact Hx]. split; [|by left].
  split; [by exists []; rewrite app_nil_r|done|done].
Qed.

(** The handlers that forget the child. *)
Lemma gone_rejectAll e ev b :
  let b' := rejectAll e (emit ev) (with_child None (with_ready false b)) in
  hushed b b' /\ child b' = None /\ ready b' = false.
Proof.
  intros b'. destruct (calm_rejectAll e (emit ev) (with_child None (with_ready false b)))
    as (x & Hx & Er & Ec & _ & Hr). fold b' in Hr.
  assert (hushed b x) as Hbx.
  { transitivity (with_child None (with_ready false b)); [|apply Hx].
    split; [by exists []; rewrite app_nil_r|done|done]. }
  assert (calm x b') as Hxb by (etrans; [|exact Hr]; by apply calm_same).
  destruct Hxb as [Hh Hc]. split; [by etrans|]. split.
  - destruct Hc as [->| ->]; rewrite Ec; done.
  - apply not_true_iff_false. intros Hb. apply (hu_ready _ _ Hh) in Hb. rewrite Er in Hb. done.
Qed.

Lemma gone_shutdown b : hushed b (shutdown b) /\ child (shutdown b) = None /\ ready (shutdown b) = false.
Proof.
  unfold shutdown. set (e := Error _).
  destruct (calm_rejectAll e (with_child None) (with_ready false b)) as (x & Hx & Er & Ec & _ & [Hr Hc]).
  split; [|split].
  - transitivity (with_ready false b); [split; [by exists []; rewrite app_nil_r|done|done]|].
    etrans; [apply Hx|]. etrans; [|exact Hr]. split; [by exists []; rewrite app_nil_r|done|done].
  - by destruct Hc as [-> | ->].
  - apply not_true_iff_false. intros Hb. apply (hu_ready _ _ Hr) in Hb. simpl in Hb. rewrite Er in Hb. done.
Qed.

(** What [sendRequest] does, sent or not. *)
Lemma sendRequest_effect m p b :
  let b' := (sendRequest m p b).2 in
  exists ms, written b' = written b ++ ms /\ Forall (fun x => prop "method" x = VStr m) ms
    /\ child b' = child b /\ ready b' = ready b /\ settled b' = settled b
    /\ (forall i, outstanding i b -> outstanding i b')
    /\ forall i, (sendRequest m p b).1 = Sent i -> is_Some (mget (IdNum i) (pending b')).
Proof.
  assert (exists ms, written b = written b ++ ms /\ Forall (fun x => prop "method" x = VStr m) ms) as Hnone
    by (exists []; by rewrite app_nil_r).
  unfold sendRequest. destruct (child_open b) eqn:Eo; cbn [negb].
  2: { destruct Hnone as (ms & ? & ?). by exists ms. }
  destruct (_ <=? _)%nat. { destruct Hnone as (ms & ? & ?). by exists ms. }
  cbv zeta. unfold writeMessage. change (child_open (with_pending _ _)) with (child_open b). rewrite Eo.
  cbn. eexists [_]. split; [done|]. split; [by repeat constructor|]. do 3 (split; [done|]). split.
  - intros i [[x Hi]|Hs]; [left|by right]. cbn. rewrite mget_mset. case_decide; eauto.
  - intros i [= <-]. rewrite mget_mset_eq. eauto.
Qed.

(** ** The invariant of the connection *)

(** Requests other than [initialize] come after [initialized]. *)
Definition handshake_first (ms : list val) : Prop :=
  forall k m, ms !! k = Some m -> client_call m = true ->
  exists j, (j < k)%nat /\ ms !! j = Some initialized_message.

Lemma handshake_first_nil : handshake_first [].
Proof. intros k m Hk. by rewrite lookup_nil in Hk. Qed.

Lemma handshake_first_app ms ms' :
  handshake_first ms -> Forall (fun m => client_call m = false) ms' \/ initialized_message ∈ ms ->
  handshake_first (ms ++ ms').
Proof.
  intros Hms Hor k m Hk Hc. apply lookup_app_Some in Hk as [Hk|[Hl Hk]].
  - destruct (Hms _ _ Hk Hc) as (j & Hj & E). exists j. split; [done|]. by apply lookup_app_l_Some.
  - destruct Hor as [Hf|Hi].
    + rewrite Forall_lookup in Hf. rewrite (Hf _ _ Hk) in Hc. done.
    + apply list_elem_of_lookup_1 in Hi as [j Hj]. exists j. split; [|by apply lookup_app_l_Some].
      apply lookup_lt_Some in Hj. lia.
Qed.

Record wf_link (l : link) : Prop := {
  wl_child : match lk_current l with
             | None => child (lk_bridge l) = None
             | Some i => exists c s, child (lk_bridge l) = Some c /\ lk_servers l !! i = Some s /\ killed c = as_killed s
             end;
  wl_ready : ready (lk_bridge l) = true ->
    lk_connecting l = None
    /\ forall i s, lk_current l = Some i -> lk_servers l !! i = Some s -> initialized_message ∈ as_stdin s;
  wl_order : Forall (fun s => handshake_first (as_stdin s)) (lk_servers l);
  wl_waits : match lk_connecting l with
             | Some i => outstanding i (lk_bridge l)
             | None => lk_waiting l = []
             end
}.

Lemma alter_Forall {A} (P : A -> Prop) f i (l : list A) :
  Forall P l -> (forall x, l !! i = Some x -> P x -> P (f x)) -> Forall P (alter f i l).
Proof.
  rewrite !Forall_lookup. intros Hl Hf j x. destruct (decide (i = j)) as [<-|Hne].
  - rewrite list_lookup_alter_eq. intros (y & E & ->)%fmap_Some. eauto.
  - rewrite list_lookup_alter_ne by done. eauto.
Qed.

Lemma as_stdin_initialized l i s :
  wf_link l -> ready (lk_bridge l) = true -> lk_current l = Some i -> lk_servers l !! i = Some s ->
  initialized_message ∈ as_stdin s.
Proof. intros W Hr. by apply (wl_ready l W Hr). Qed.

(** Code of the bridge that writes no request, or runs while it is ready. *)
Lemma wf_on_bridge f l ms :
  let b := lk_bridge l in
  wf_link l -> written (f b) = written b ++ ms ->
  Forall (fun m => client_call m = false) ms \/ ready b = true ->
  child_le b (f b) -> (ready (f b) = true -> ready b = true) ->
  (forall i, outstanding i b -> outstanding i (f b)) -> wf_link (on_bridge f l).
Proof.
  intros b W Ew Hm Hc Hr Hk. unfold on_bridge. fold b. rewrite Ew, drop_app_length.
  pose proof W as [Wc Wr Wo Ww]. fold b in Wc, Wr, Ww.
  destruct l as [b0 cur servers conn wait outs]; cbn in b, Wc, Wr, Wo, Ww |- *. subst b. rename b0 into b.
  split; cbn.
  - destruct cur as [i|].
    + destruct Wc as (c & s & E1 & E2 & E3). destruct Hc as [Hc|Hc]; rewrite Hc, E1; cbn;
        (eexists _, _; split; [done|]; rewrite list_lookup_alter_eq, E2; split; [done|]; cbn; rewrite <- E3).
      * by destruct (killed c).
      * by rewrite orb_true_r.
    + destruct Hc as [-> | ->]; by rewrite Wc.
  - intros Hr'. destruct (Wr (Hr Hr')) as [E Hs]. split; [done|]. intros i s -> Hi.
    rewrite list_lookup_alter_eq in Hi. apply fmap_Some in Hi as (s0 & Es & ->). cbn. apply elem_of_app. left. by eapply Hs.
  - destruct cur as [i|]; [|done]. apply alter_Forall; [done|]. intros s Es Hs. cbn.
    apply handshake_first_app; [done|]. destruct Hm as [Hm|Hm]; [by left|]. right.
    destruct (Wr Hm) as [_ Hi]. by apply (Hi i).
  - destruct conn; [by apply Hk|done].
Qed.

Lemma wf_calm f l : calm (lk_bridge l) (f (lk_bridge l)) -> wf_link l -> wf_link (on_bridge f l).
Proof.
  intros [[(ms & Ew & Hm) Hr Hk] Hc] W. by apply (wf_on_bridge f l ms); auto.
Qed.

Lemma client_call_method m x :
  prop "method" x = VStr m -> client_call x = (m !== "initialize") && (m !== "initialized").
Proof. unfold client_call. by intros ->. Qed.

Lemma wf_outcome c r l : wf_link l -> wf_link (outcome c r l).
Proof. by intros [? ? ? ?]. Qed.

Lemma wf_send c l : wf_link l -> ready (lk_bridge l) = true -> wf_link (send c l) /\ ready (lk_bridge (send c l)) = true.
Proof.
  intros W Hr. destruct (sendRequest_effect (ca_method c) (ca_params c) (lk_bridge l))
    as (ms & Ew & _ & Ec & Er & _ & Hk & _). split; [|cbn; by rewrite Er].
  apply wf_outcome. apply (wf_on_bridge _ l ms); auto. by left.
Qed.

Lemma wf_sends cs l : wf_link l -> ready (lk_bridge l) = true -> wf_link (foldl (fun l c => send c l) l cs).
Proof.
  revert l. induction cs as [|c cs IH]; intros l W Hr; [done|]. simpl.
  destruct (wf_send c l W Hr). by apply IH.
Qed.

Lemma wf_no_waits l : wf_link l -> wf_link (with_lk_waits None [] l).
Proof. intros [Wc Wr Wo Ww]. split; cbn; try done. intros Hr. split; [done|]. by apply Wr. Qed.

Lemma wf_failed e l : wf_link l -> wf_link (connection_failed e l).
Proof.
  intros W. unfold connection_failed. apply wf_no_waits in W. revert W.
  generalize (with_lk_waits None [] l). induction (lk_waiting l) as [|c cs IH]; intros l' W; [done|].
  simpl. by apply IH, wf_outcome.
Qed.

Lemma wf_initialized l : wf_link l -> wf_link (initialized l).
Proof.
  intros W. unfold initialized, connection_made. destruct (writeMessage _ _) as [b'|] eqn:Ew; [|by apply wf_failed].
  set (w := fun b => default b (writeMessage initialized_message b)).
  apply wf_sends; [|done]. 
  assert (wf_link (on_bridge w l)) as W1 by (apply wf_calm; [by apply calm_write|done]).
  pose proof W1 as [Wc Wr Wo Ww].
  assert (written (w (lk_bridge l)) = written (lk_bridge l) ++ [initialized_message]) as Es.
  { unfold w, writeMessage in *. by destruct (child_open _). }
  assert (child (w (lk_bridge l)) = child (lk_bridge l)) as Ec.
  { unfold w, writeMessage. by destruct (child_open _). }
  destruct l as [b cur servers conn wait outs]. unfold on_bridge in Wc, Wo, W1 |- *. cbn in *.
  rewrite drop_ge by done. rewrite Es, drop_app_length in *. split; cbn; [| | |done].
  - destruct cur as [i|]; [|done]. destruct Wc as (c & s & E1 & E2 & E3). exists c.
    rewrite list_lookup_alter_eq, E2. rewrite E1. eexists. do 2 (split; [done|]). cbn. rewrite E3. by destruct (as_killed s).
  - intros _. split; [done|]. intros i s -> Hi. rewrite !list_lookup_alter_eq in Hi.
    apply fmap_Some in Hi as (s1 & (s0 & _ & ->)%fmap_Some & ->). cbn.
    rewrite app_nil_r. apply elem_of_app. right. by apply list_elem_of_singleton.
  - destruct cur as [i|]; [|done]. apply alter_Forall; [done|]. intros s _ Hs. cbn. by rewrite app_nil_r.
Qed.

Lemma wf_progress l : wf_link l -> wf_link (progress l).
Proof.
  intros W. unfold progress. repeat case_match; auto using wf_initialized, wf_failed.
Qed.

Lemma spawned_effect b :
  child_up b = false ->
  child (spawned b) = Some {| killed := false; writable := true |} /\ ready (spawned b) = ready b
  /\ (forall i, outstanding i b -> outstanding i (spawned b)).
Proof.
  unfold child_up, spawned. destruct (child b) as [c|]; [|done].
  intros ->%negb_false_iff. done.
Qed.

Lemma wf_ensureServerProcess H l :
  wf_link l -> ready (lk_bridge l) = false -> wf_link (ensureServerProcess H l)
    /\ ready (lk_bridge (ensureServerProcess H l)) = false
    /\ lk_connecting (ensureServerProcess H l) = lk_connecting l /\ lk_waiting (ensureServerProcess H l) = lk_waiting l.
Proof.
  intros W Hr. unfold ensureServerProcess. destruct (child_up _) eqn:E; [done|].
  destruct (spawned_effect _ E) as (Ec & Er & Hk). split; [|by cbn; rewrite Er].
  destruct W as [Wc Wr Wo Ww]. split; cbn.
  - exists {| killed := false; writable := true |}, (new_server H). split; [done|].
    rewrite lookup_app_r, Nat.sub_diag by lia. done.
  - rewrite Er, Hr. done.
  - apply Forall_app. split; [done|]. repeat constructor. apply handshake_first_nil.
  - destruct (lk_connecting l); [by apply Hk|done].
Qed.

Lemma wf_connect H c l : wf_link l -> lk_connecting l = None -> wf_link (connect H c l).
Proof.
  intros W En. unfold connect.
  assert (wf_link (on_bridge (with_ready false) l)) as W1.
  { apply wf_calm; [|done]. split; [|by left]. split; [by exists []; rewrite app_nil_r|done|done]. }
  destruct (wf_ensureServerProcess H _ W1 eq_refl) as (W2 & Hr2 & En2 & _).
  set (l2 := ensureServerProcess H _) in *. change (lk_connecting (on_bridge _ l)) with (lk_connecting l) in En2.
  destruct (sendRequest_effect "initialize" initialize_params (lk_bridge l2)) as (ms & Ew & Hm & Ec & Er & _ & Hk & Hs).
  destruct (sendRequest _ _ (lk_bridge l2)).1 as [i|e] eqn:E; [|by apply wf_outcome].
  assert (wf_link (on_bridge (fun b => (sendRequest "initialize" initialize_params b).2) l2)) as W3.
  { apply (wf_on_bridge _ l2 ms); auto; [|by left|by rewrite Er].
    left. eapply Forall_impl; [exact Hm|]. intros x Hx. by rewrite (client_call_method _ _ Hx). }
  destruct W3 as [Wc Wr Wo Ww]. split; cbn; try done.
  - intros Hb. cbn in Er. rewrite Er, Hr2 in Hb. done.
  - left. by apply Hs.
Qed.

Lemma wf_request H c l : wf_link l -> wf_link (request H c l).
Proof.
  intros W. unfold request. destruct (ready _ && _) eqn:Er.
  - apply andb_true_iff in Er as [Er _]. by apply wf_send.
  - destruct (lk_connecting l) as [i|] eqn:En; [|by apply wf_connect].
    destruct W as [Wc Wr Wo Ww]. rewrite En in Ww. split; cbn; try done.
    intros Hr. destruct (Wr Hr). congruence.
Qed.

(** The child is forgotten, with a last change to some processes. *)
Lemma wf_forget b servers l :
  wf_link l -> hushed (lk_bridge l) b -> child b = None -> ready b = false ->
  Forall (fun s => handshake_first (as_stdin s)) servers ->
  wf_link (with_lk_current None (with_lk_bridge b (with_lk_servers servers l))).
Proof.
  intros [Wc Wr Wo Ww] Hh Ec Er Ho. split; cbn; try done.
  - by rewrite Er.
  - destruct (lk_connecting l); [by apply (hu_kept _ _ Hh)|done].
Qed.

Lemma order_receive k ms i servers :
  Forall (fun s => handshake_first (as_stdin s)) servers -> Forall (fun m => client_call m = false) ms ->
  Forall (fun s => handshake_first (as_stdin s)) (alter (receive k ms) i servers).
Proof. intros Ho Hm. apply alter_Forall; [done|]. intros s _ Hs. apply handshake_first_app; auto. Qed.

Lemma wf_gone p f l :
  wf_link l -> hushed (lk_bridge l) (f (lk_bridge l)) /\ child (f (lk_bridge l)) = None /\ ready (f (lk_bridge l)) = false ->
  wf_link (server_gone p f l).
Proof.
  intros W (Hh & Ec & Er). unfold server_gone, on_bridge. cbn [lk_bridge lk_current with_lk_servers lk_servers].
  pose proof (hu_written _ _ Hh) as (ms & Ew & Hm). rewrite Ew, drop_app_length.
  apply (wf_forget _ _ l); try done.
  assert (Forall (fun s => handshake_first (as_stdin s)) (alter mark_exited p (lk_servers l))) as Ho
    by (apply alter_Forall; [apply W|done]).
  destruct (lk_current l); [|done]. by apply order_receive.
Qed.

Lemma wf_shutdown l : wf_link l -> wf_link (link_shutdown l).
Proof.
  intros W. destruct (gone_shutdown (lk_bridge l)) as (Hh & Ec & Er). apply (wf_forget _ _ l); try done.
  pose proof (wl_order l W). destruct (lk_current l); [|done]. by apply order_receive.
Qed.

#[export] Hint Resolve wf_calm wf_request wf_gone wf_shutdown wf_progress : js.
#[export] Hint Resolve calm_stdout calm_stdinError calm_timeout calm_resolve calm_expire calm_audited calm_policy : js.
#[export] Hint Resolve gone_rejectAll : js.

Lemma wf_handle parse H l e : wf_link l -> wf_link (handle parse H l e).
Proof.
  intros W. destruct e; cbn [handle];
    try (apply wf_calm; [|done]); auto with js; apply wf_gone; auto; apply gone_rejectAll.
Qed.

Lemma wf_link_run parse H es : wf_link (link_run parse H es).
Proof.
  unfold link_run. assert (wf_link (mkLink initial None [] None [] [])) as W by by split.
  revert W. generalize (mkLink initial None [] None [] []).
  induction es as [|e es IH]; intros l W; [done|]. simpl. apply IH. by apply wf_progress, wf_handle.
Qed.

(** C19: Every request reaches an app-server that has finished the handshake:
    over any run (calls, output in any pieces, time-outs, failed writes, crashes,
    exits, restarts), in what is written to each process, a request other than
    [initialize] is preceded by the [initialized] notification. *)
Theorem handshake_before_requests parse H es p s :
  lk_servers (link_run parse H es) !! p = Some s -> handshake_first (as_stdin s).
Proof.
  intros Hp. pose proof (wl_order _ (wf_link_run parse H es)) as Ho. rewrite Forall_lookup in Ho. by eapply Ho.
Qed.

(** ** Every call gets one outcome *)

Definition issued (es : list link_event) : list nat :=
  omap (fun e => match e with Call c => Some (ca_id c) | _ => None end) es.

Definition accounted (l : link) : list nat := (lk_outcomes l).*1 ++ map ca_id (lk_waiting l).

Lemma outcomes_foldl (f : caller -> link -> bridge_error + Z) (g : caller -> link -> link) cs l :
  (forall c l, lk_outcomes (g c l) = lk_outcomes l ++ [(ca_id c, f c l)] /\ lk_waiting (g c l) = lk_waiting l
     /\ lk_connecting (g c l) = lk_connecting l) ->
  let l' := foldl (fun l c => g c l) l cs in
  (lk_outcomes l').*1 = (lk_outcomes l).*1 ++ map ca_id cs /\ lk_waiting l' = lk_waiting l
  /\ lk_connecting l' = lk_connecting l.
Proof.
  intros Hg. revert l. induction cs as [|c cs IH]; intros l; simpl; [by rewrite app_nil_r|].
  destruct (Hg c l) as (Eo & Ew & Ec). destruct (IH (g c l)) as (-> & -> & ->).
  rewrite Eo, Ew, Ec, fmap_app, <- app_assoc. done.
Qed.

Lemma failed_accounted e l :
  accounted (connection_failed e l) = accounted l /\ lk_connecting (connection_failed e l) = None
  /\ lk_waiting (connection_failed e l) = [].
Proof.
  unfold accounted, connection_failed.
  destruct (outcomes_foldl (fun _ _ => inl e) (fun c => outcome c (inl e)) (lk_waiting l) (with_lk_waits None [] l))
    as (-> & -> & ->); [done|]. cbn. by rewrite app_nil_r.
Qed.

Lemma made_accounted l : accounted (connection_made l) = accounted l /\ lk_connecting (connection_made l) = None.
Proof.
  unfold accounted, connection_made.
  destruct (outcomes_foldl (fun c l => result_of (sendRequest (ca_method c) (ca_params c) (lk_bridge l)).1)
    send (lk_waiting l) (with_lk_waits None [] l)) as (-> & -> & ->); [done|]. cbn. by rewrite app_nil_r.
Qed.

Lemma progress_accounted l :
  accounted (progress l) = accounted l
  /\ forall i, lk_connecting (progress l) = Some i -> settled_with i (lk_bridge (progress l)) = None.
Proof.
  unfold progress, initialized. destruct (lk_connecting l) as [i|] eqn:E; [|by rewrite E].
  destruct (settled_with i (lk_bridge l)) as [[v|e]|] eqn:Es.
  - destruct (writeMessage _ _).
    + set (l1 := on_bridge _ (on_bridge _ l)). destruct (made_accounted l1) as [-> ->]. done.
    + set (e := Error _). destruct (failed_accounted e l) as (-> & -> & _). done.
  - destruct (failed_accounted e l) as (-> & -> & _). done.
  - split; [done|]. intros j Hj. congruence.
Qed.

Lemma request_accounted H c l : wf_link l -> accounted (request H c l) ≡ₚ accounted l ++ [ca_id c].
Proof.
  intros W. pose proof (wl_waits l W) as Ww. unfold request. destruct (_ && _).
  - unfold accounted. cbn. rewrite fmap_app. cbn. solve_Permutation.
  - destruct (lk_connecting l) as [i|] eqn:E.
    + unfold accounted. cbn. rewrite map_app. by rewrite app_assoc.
    + unfold connect. set (l2 := ensureServerProcess H _).
      assert (lk_outcomes l2 = lk_outcomes l /\ lk_waiting l2 = lk_waiting l) as [Eo Ew].
      { unfold l2, ensureServerProcess. by destruct (child_up _). }
      unfold accounted. rewrite Ww. destruct (sendRequest _ _ _).1; cbn; rewrite Eo; [by rewrite app_nil_r|].
      rewrite Ew, Ww, fmap_app. cbn. by rewrite !app_nil_r.
Qed.

Lemma handle_accounted parse H l e : wf_link l -> accounted (handle parse H l e) ≡ₚ accounted l ++ issued [e].
Proof.
  intros W. destruct e; cbn [handle]; [by apply request_accounted|..]; cbn; by rewrite app_nil_r.
Qed.

Lemma run_accounted parse H es :
  let l := link_run parse H es in
  accounted l ≡ₚ issued es /\ forall i, lk_connecting l = Some i -> settled_with i (lk_bridge l) = None.
Proof.
  induction es as [|e es IH] using rev_ind; [done|]. unfold link_run in *. rewrite foldl_app. simpl.
  set (l := foldl _ _ es) in *. unfold link_step.
  destruct (progress_accounted (handle parse H l e)) as [Ea Hs]. split; [|done].
  rewrite Ea, (handle_accounted parse H l e (wf_link_run parse H es)). destruct IH as [-> _].
  unfold issued. by rewrite omap_app.
Qed.

Lemma settled_with_new i r b b' :
  settled b' = settled b ++ [(IdNum i, r)] -> settled_with i b = None -> settled_with i b' = Some r.
Proof.
  unfold settled_with. intros ->. induction (settled b) as [|e l IH]; simpl; [by rewrite bool_decide_true|].
  case_bool_decide; simpl; [done|auto].
Qed.

(** C20: No call is lost and none is answered twice: over any run the calls made
    are, as a multiset, those with an outcome and those that wait for the
    connection. Calls wait only while [initialize] is a pending request, whose
    timer ends the wait of all of them. *)
Theorem calls_settle parse H es :
  let l := link_run parse H es in
  (lk_outcomes l).*1 ++ map ca_id (lk_waiting l) ≡ₚ issued es
  /\ (lk_waiting l = [] \/ exists i, lk_connecting l = Some i
        /\ is_Some (mget (IdNum i) (pending (lk_bridge l)))
        /\ forall ms, lk_waiting (link_step parse H l (TimedOut (IdNum i) ms)) = []
                   /\ lk_connecting (link_step parse H l (TimedOut (IdNum i) ms)) = None).
Proof.
  intros l. destruct (run_accounted parse H es) as [Ha Hn]. fold l in Ha, Hn. split; [exact Ha|].
  pose proof (wl_waits l (wf_link_run parse H es)) as Ww. destruct (lk_connecting l) as [i|] eqn:E; [|by left].
  right. exists i. split; [done|]. destruct Ww as [[m Hm]|[r Hr]]; [|by rewrite (Hn i eq_refl) in Hr].
  split; [eauto|]. intros ms. unfold link_step. cbn [handle]. set (l' := on_bridge _ l).
  assert (lk_connecting l' = Some i) as E' by done. unfold progress. rewrite E'.
  assert (exists e, settled_with i (lk_bridge l') = Some (Rejected e)) as [e ->].
  { eexists. cbn. eapply settled_with_new; [|by apply Hn]. unfold requestTimeout. rewrite Hm. done. }
  destruct (failed_accounted e l') as (_ & -> & ->). done.
Qed.

(** ** One app-server at a time *)

Definition live (s : app_server) : bool := negb (as_killed s) && negb (as_exited s).

Definition only_current (l : link) : Prop :=
  forall i s, lk_servers l !! i = Some s -> live s = true -> lk_current l = Some i.

(** No process comes to life. *)
Definition tamed (l l' : link) : Prop :=
  lk_current l' = lk_current l
  /\ forall i s', lk_servers l' !! i = Some s' -> live s' = true ->
     exists s, lk_servers l !! i = Some s /\ live s = true.

#[global] Instance tamed_preorder : PreOrder tamed.
Proof.
  split; [split; eauto|]. intros l1 l2 l3 [E1 H1] [E2 H2]. split; [congruence|].
  intros i s Hs Hl. destruct (H2 _ _ Hs Hl) as (s2 & Hs2 & Hl2). eauto.
Qed.

Lemma tamed_only_current l l' : tamed l l' -> only_current l -> only_current l'.
Proof. intros [E Hl] Ho i s Hs Hv. destruct (Hl _ _ Hs Hv) as (s0 & Hs0 & Hv0). rewrite E. eauto. Qed.

Lemma lookup_alter_live f i j (servers : list app_server) s' :
  (forall s, live (f s) = true -> live s = true) ->
  alter f i servers !! j = Some s' -> live s' = true -> exists s, servers !! j = Some s /\ live s = true.
Proof.
  intros Hf. destruct (decide (i = j)) as [<-|Hne].
  - rewrite list_lookup_alter_eq. intros (s & Hs & ->)%fmap_Some Hl. eauto.
  - rewrite list_lookup_alter_ne by done. eauto.
Qed.

Lemma receive_live k ms s : live (receive k ms s) = true -> live s = true.
Proof. unfold live. cbn. destruct (as_killed s), k; done. Qed.

Lemma mark_exited_dead s : live (mark_exited s) = false.
Proof. unfold live. cbn. by rewrite andb_false_r. Qed.

Lemma tamed_on_bridge f l : tamed l (on_bridge f l).
Proof.
  split; [done|]. intros i s'. unfold on_bridge. cbn. destruct (lk_current l) as [c|]; [|eauto].
  apply lookup_alter_live, receive_live.
Qed.

Lemma tamed_send c l : tamed l (send c l).
Proof. apply tamed_on_bridge. Qed.

Lemma tamed_foldl (g : caller -> link -> link) cs l :
  (forall c l, tamed l (g c l)) -> tamed l (foldl (fun l c => g c l) l cs).
Proof.
  intros Hg. revert l. induction cs as [|c cs IH]; intros l; [reflexivity|]. simpl. etrans; [apply Hg|apply IH].
Qed.

Lemma tamed_failed e l : tamed l (connection_failed e l).
Proof.
  unfold connection_failed. etrans; [|apply (tamed_foldl (fun c => outcome c (inl e))); by split; eauto].
  split; [done|eauto].
Qed.

Lemma tamed_progress l : tamed l (progress l).
Proof.
  unfold progress, initialized, connection_made. repeat case_match; try reflexivity; try apply tamed_failed.
  etrans; [|apply (tamed_foldl send), tamed_send].
  transitivity (on_bridge (fun b => default b (writeMessage initialized_message b)) l); [apply tamed_on_bridge|].
  exact (tamed_on_bridge (with_ready true) _).
Qed.

Lemma ensureServerProcess_only H l :
  wf_link l -> only_current l -> only_current (ensureServerProcess H l).
Proof.
  intros W Ho. unfold ensureServerProcess. destruct (child_up _) eqn:E; [done|].
  intros i s. cbn. intros [Hs|[Hl Hs]]%lookup_app_Some Hv.
  - pose proof (wl_child l W) as Wc. rewrite (Ho _ _ Hs Hv) in Wc. destruct Wc as (c & s0 & Ec & Es & Ek).
    simplify_eq. unfold child_up in E. rewrite Ec, Ek in E. unfold live in Hv. by destruct (as_killed _).
  - apply list_lookup_singleton_Some in Hs as [Hi _]. f_equal. lia.
Qed.

Lemma request_only H c l : wf_link l -> only_current l -> only_current (request H c l).
Proof.
  intros W Ho. unfold request. destruct (_ && _); [by eapply tamed_only_current; [apply tamed_send|]|].
  destruct (lk_connecting l); [done|]. unfold connect. set (l1 := on_bridge (with_ready false) l).
  assert (wf_link l1) as W1.
  { apply wf_calm; [|done]. split; [|by left]. split; [by exists []; rewrite app_nil_r|done|done]. }
  pose proof (ensureServerProcess_only H l1 W1 (tamed_only_current _ _ (tamed_on_bridge _ l) Ho)) as Ho2.
  destruct (sendRequest _ _ _).1; [|exact Ho2].
  eapply tamed_only_current; [apply (tamed_on_bridge _ (ensureServerProcess H l1))|exact Ho2].
Qed.

(** The processes that end are the current one, or none is current. *)
Definition timely (l : link) (e : link_event) : bool :=
  match e with
  | Exited p _ _ | Failed p _ => match lk_current l with Some i => (i =? p)%nat | None => true end
  | _ => true
  end.

Fixpoint timely_run parse H (l : link) (es : list link_event) : bool :=
  match es with [] => true | e :: es' => timely l e && timely_run parse H (link_step parse H l e) es' end.

Lemma gone_only p f l :
  only_current l -> match lk_current l with Some i => (i =? p)%nat | None => true end = true ->
  only_current (server_gone p f l).
Proof.
  intros Ho Ht i s Hs Hv. exfalso. unfold server_gone, on_bridge in Hs. cbn in Hs.
  assert (exists s0, alter mark_exited p (lk_servers l) !! i = Some s0 /\ live s0 = true) as (s0 & Hs0 & Hv0).
  { destruct (lk_current l); [|eauto]. by eapply lookup_alter_live; [apply receive_live|..]. }
  destruct (decide (p = i)) as [<-|Hne].
  - rewrite list_lookup_alter_eq in Hs0. apply fmap_Some in Hs0 as (s1 & _ & ->). by rewrite mark_exited_dead in Hv0.
  - rewrite list_lookup_alter_ne in Hs0 by done. rewrite (Ho _ _ Hs0 Hv0) in Ht.
    by apply Nat.eqb_eq in Ht.
Qed.

Lemma shutdown_only l : only_current l -> only_current (link_shutdown l).
Proof.
  intros Ho i s Hs Hv. exfalso. unfold link_shutdown in Hs. cbn in Hs.
  destruct (lk_current l) as [c|] eqn:E; [|by rewrite (Ho _ _ Hs Hv) in E].
  destruct (decide (c = i)) as [<-|Hne].
  - rewrite list_lookup_alter_eq in Hs. apply fmap_Some in Hs as (s1 & _ & ->).
    unfold live in Hv. cbn in Hv. by rewrite orb_true_r in Hv.
  - rewrite list_lookup_alter_ne in Hs by done. pose proof (Ho _ _ Hs Hv). congruence.
Qed.

Lemma step_only parse H l e :
  wf_link l -> only_current l -> timely l e = true -> only_current (link_step parse H l e).
Proof.
  intros W Ho Ht. unfold link_step. eapply tamed_only_current; [apply tamed_progress|].
  destruct e; cbn [handle timely] in *; try (by eapply tamed_only_current; [apply tamed_on_bridge|]);
    auto using request_only, gone_only, shutdown_only.
Qed.

(** As long as a process that ends is the current child (or there is none),
    at most one app-server is running, whatever else happens, and it is the one
    the bridge talks to. *)
Theorem one_app_server parse H es i s :
  timely_run parse H (mkLink initial None [] None [] []) es = true ->
  lk_servers (link_run parse H es) !! i = Some s -> live s = true ->
  lk_current (link_run parse H es) = Some i.
Proof.
  unfold link_run. assert (wf_link (mkLink initial None [] None [] [])) as W by by split.
  assert (only_current (mkLink initial None [] None [] [])) as Ho by done.
  revert W Ho. generalize (mkLink initial None [] None [] []).
  induction es as [|e es IH]; intros l W Ho; cbn [foldl timely_run]; [intros _; apply Ho|].
  intros [Ht Hr]%andb_true_iff. apply IH; [|by apply step_only|done]. by apply wf_progress, wf_handle.
Qed.

(** The exit of a process that was replaced takes the bridge's child away from
    it: the new process keeps running with nobody to talk to it. *)
Lemma late_exit_orphans parse H l p m ps j s :
  wf_link l -> lk_current l = Some j -> p <> j -> lk_servers l !! j = Some s -> live s = true ->
  let l' := handle parse H l (Exited p m ps) in
  lk_current l' = None /\ exists s', lk_servers l' !! j = Some s' /\ live s' = true.
Proof.
  intros W Ec Hne Hs Hv l'. split; [done|]. unfold l', handle, server_gone, on_bridge.
  assert (child (childExit m ps (lk_bridge l)) = None) as En by apply gone_rejectAll.
  revert En. generalize (childExit m ps). intros f En. cbn. rewrite Ec, En.
  rewrite list_lookup_alter_eq, list_lookup_alter_ne, Hs by done. cbn. eexists. split; [done|].
  unfold live in *. cbn. by rewrite orb_false_r.
Qed.

(** ** Examples *)

Definition demo_host : host := mkHost "codex" (fun c => Some ("/usr/bin/" ^^ c)) false ":" [("PATH", "/x")].

Definition demo_call (n : nat) : caller := readThread n "t".

(** The app-server answers the first request of the bridge, the handshake. *)
Definition answers_first (text : string) : option val := Some (VObj [("id", vint 1); ("result", VObj [])]).

Definition demo_events : list link_event :=
  [Call (demo_call 1); Call (demo_call 2); Output 0 ("x" ^^ String NEWLINE ""); Exited 0 "gone" []; Call (demo_call 3)].

Lemma handshake_before_requests_witness :
  exists s, lk_servers (link_run answers_first demo_host demo_events) !! 0%nat = Some s
    /\ length (as_stdin s) = 4%nat /\ handshake_first (as_stdin s).
Proof.
  eexists. split; [vm_compute; reflexivity|]. split; [reflexivity|].
  refine (handshake_before_requests answers_first demo_host demo_events 0 _ _). vm_compute. reflexivity.
Defined.

Lemma one_app_server_witness :
  timely_run answers_first demo_host (mkLink initial None [] None [] []) demo_events = true
  /\ lk_current (link_run answers_first demo_host demo_events) = Some 1%nat.
Proof.
  split; [vm_compute; reflexivity|].
  refine (one_app_server answers_first demo_host demo_events 1 _ _ _ _); vm_compute; reflexivity.
Defined.

(** A late exit, and one more call: two app-servers run. *)
Example late_exit_leaks :
  let es := [Call (demo_call 1); Close; Call (demo_call 2); Exited 0 "gone" []; Call (demo_call 3)] in
  map live (lk_servers (link_run answers_first demo_host es)) = [false; true; true].
Proof. vm_compute. reflexivity. Qed.
