(* ===== verification/ServerConfig.v ===== *)
(** * The configuration of the server

    server/src/config.ts: where the file is, the environment it completes, and
    the record every other module reads. A missing or malformed value makes the
    module throw ([None]), and the process ends. *)

From Stdlib Require Import Ascii.
From S2P Require Import Prelude JsValue GatewayStore Sessions Paths EnvFile CodexPath.

Local Open Scope Z_scope.

(** ** [Number(text)] *)

Definition is_digit (c : ascii) : bool := between 48 (code c) 57.

Definition digit (c : ascii) : Z := Z.of_nat (code c) - 48.

Fixpoint digits_value (acc : Z) (s : string) : Z :=
  match s with "" => acc | String c s' => digits_value (10 * acc + digit c) s' end.

Definition unsigned (s : string) : option Z :=
  if (s !== "") && sforall is_digit s then Some (digits_value 0 s) else None.

Definition signed (s : string) : option Z :=
  match s with
  | String c s' => if Ascii.eqb c "-"%char then Z.opp <$> unsigned s'
                   else if Ascii.eqb c "+"%char then unsigned s' else unsigned s
  | "" => None
  end.

(** The characters of a numeric literal. *)
Definition numeric_char (c : ascii) : bool :=
  is_digit c || between 97 (code c) 102 || between 65 (code c) 70 || includes (String c "") "+-.xXoOInfity".

(** Decimal integers are converted here; [other] converts the notations with a
    fraction, an exponent or a radix, [Infinity], and integers past 2^53. *)
Definition to_number (other : string -> num) (text : string) : num :=
  let t := trim text in
  if t === "" then NInt 0
  else match signed t with
       | Some z => if is_safe_integer z then NInt z else other t
       | None => if sforall numeric_char t then other t else NNaN
       end.

(** ** Arguments of the process *)

Fixpoint index_of (x : string) (l : list string) : option nat :=
  match l with
  | [] => None
  | y :: l' => if y === x then Some 0%nat else S <$> index_of x l'
  end.

(** [argValue] of config.ts and cli.ts. *)
Definition argValue (argv : list string) (name : string) : option string :=
  let next := match index_of name argv with Some i => argv !! S i | None => None end in
  match next with
  | Some v => if v === "" then
                (fun arg => skip (S (slen name)) arg) <$> List.find (starts_with (name ^^ "=")) argv
              else Some v
  | None => (fun arg => skip (S (slen name)) arg) <$> List.find (starts_with (name ^^ "=")) argv
  end.

(** [a ?? b] on optional strings. *)
Definition or_else (a b : option string) : option string := match a with Some _ => a | None => b end.

Definition defaultConfigPath (P : node_path) (win32 : bool) (homedir : string) (env : jmap string string) : string :=
  if win32 then np_join P [default (np_join P [homedir; "AppData"; "Roaming"]) (mget "APPDATA" env); "aCode-server"; "config.env"]
  else np_join P [homedir; ".acode-server"; "config.env"].

(** [argValue("--config") ?? process.env.ACODE_CONFIG], if it is not empty. *)
Definition explicit_config (argv : list string) (env : jmap string string) : option string :=
  match or_else (argValue argv "--config") (mget "ACODE_CONFIG" env) with
  | Some p => if p === "" then None else Some p
  | None => None
  end.

Definition resolveConfigPath (P : node_path) (win32 : bool) (homedir cwd : string) (exists_ : string -> bool)
    (argv : list string) (env : jmap string string) : string :=
  match explicit_config argv env with
  | Some p => np_resolve P p
  | None =>
      let userConfigPath := defaultConfigPath P win32 homedir env in
      if exists_ userConfigPath then userConfigPath else np_join P [cwd; ".env"]
  end.

(** ** The record *)

Section config.
Context (other : string -> num).

Definition envNumber (env : jmap string string) (key : string) (fallback : Z) : option num :=
  match mget key env with
  | None => Some (NInt fallback)
  | Some value =>
      if value === "" then Some (NInt fallback)
      else let parsed := to_number other value in if is_finite parsed then Some parsed else None
  end.

Definition required (env : jmap string string) (key : string) : option string :=
  match mget key env with
  | Some value => if (value === "") || includes "replace-with-" value then None else Some value
  | None => None
  end.

(** [process.env[key]?.trim() || ""] *)
Definition trimmed_env (env : jmap string string) (key : string) : string := default "" (trim <$> mget key env).

Definition first_nonempty (a b : string) : string := if a === "" then b else a.

(** [text.split(/\s+/).filter(Boolean)] *)
Definition words (text : string) : list string := List.filter (fun s => s !== "") (split_char " "%char (collapse_spaces text)).

Record AppConfig := mkConfig {
  cf_host : string;
  cf_port : num;
  cf_publicOrigin : string;
  cf_gatewayName : string;
  cf_gatewayVersion : string;
  cf_gatewayAuthUsername : string;
  cf_gatewayAuthPassword : string;
  cf_gatewayAuthToken : string;
  cf_allowedFilesystemRoots : list string;
  cf_adminToken : string;
  cf_sessionSecret : string;
  cf_sessionTtlHours : num;
  cf_codexHome : string;
  cf_codexBin : string;
  cf_codexAppServerPort : num;
  cf_auditDir : string;
  cf_gatewayDataDir : string;
  cf_relayUrl : string;
  cf_relayAccountToken : string;
  cf_relayAccountUsername : string;
  cf_relayAccountPassword : string;
  cf_relayOrigin : string;
  cf_relayServerToken : string;
  cf_relayDeviceName : string;
  cf_appUpdateVersionCode : num;
  cf_appUpdateVersionName : string;
  cf_appUpdateNotes : option string;
  cf_appUpdateApkPath : string;
  cf_appUpdatePublicDownload : bool
}.

(** The default update notes, a Chinese text, are [None]. *)
Definition config (P : node_path) (homedir cwd : string) (env : jmap string string) : option AppConfig :=
  let get key fallback := default fallback (mget key env) in
  let codexHome := get "CODEX_HOME" (np_join P [homedir; ".codex"]) in
  port ← envNumber env "PORT" 8787;
  adminToken ← required env "ADMIN_TOKEN";
  sessionSecret ← required env "SESSION_SECRET";
  sessionTtlHours ← envNumber env "SESSION_TTL_HOURS" (30 * 24);
  codexAppServerPort ← envNumber env "CODEX_APP_SERVER_PORT" 8790;
  appUpdateVersionCode ← envNumber env "APP_UPDATE_VERSION_CODE" 1;
  Some (mkConfig
    (get "HOST" "127.0.0.1") port (get "PUBLIC_ORIGIN" ("http://127.0.0.1:" ^^ get "PORT" "8787"))
    (get "GATEWAY_NAME" "remote-vibecoding-gateway") (get "GATEWAY_VERSION" "1.1.37-compatible")
    (get "GATEWAY_AUTH_USERNAME" "") (get "GATEWAY_AUTH_PASSWORD" (get "ADMIN_TOKEN" ""))
    (get "GATEWAY_AUTH_TOKEN" (get "ADMIN_TOKEN" "")) (words (get "GATEWAY_ALLOWED_PATHS" cwd))
    adminToken sessionSecret sessionTtlHours codexHome (get "CODEX_BIN" "codex") codexAppServerPort
    (get "AUDIT_DIR" (np_join P [codexHome; "remote-control"]))
    (get "GATEWAY_DATA_DIR" (np_join P [codexHome; "remote-control"; "gateway-data"]))
    (trimmed_env env "RELAY_URL")
    (first_nonempty (trimmed_env env "RELAY_ACCOUNT_TOKEN") (trimmed_env env "CODEHARBOR_ACCOUNT_TOKEN"))
    (first_nonempty (trimmed_env env "RELAY_ACCOUNT_USERNAME") (trimmed_env env "CODEHARBOR_ACCOUNT_USERNAME"))
    (get "RELAY_ACCOUNT_PASSWORD" (get "CODEHARBOR_ACCOUNT_PASSWORD" ""))
    (trimmed_env env "RELAY_ORIGIN") (trimmed_env env "RELAY_SERVER_TOKEN") (trimmed_env env "RELAY_DEVICE_NAME")
    appUpdateVersionCode (get "APP_UPDATE_VERSION_NAME" "1.0") (mget "APP_UPDATE_NOTES" env)
    (np_resolve P (get "APP_UPDATE_APK_PATH" (np_join P [cwd; "aCode-debug.apk"])))
    (negb (opt_str_eqb (mget "APP_UPDATE_PUBLIC_DOWNLOAD" env) (Some "false")))).

(** The configuration depends on the bindings only. *)
Lemma config_ext P homedir cwd env env' :
  (forall key, mget key env = mget key env') -> config P homedir cwd env = config P homedir cwd env'.
Proof. intros H. unfold config, envNumber, required, trimmed_env. by rewrite !H. Qed.
End config.

(** ** Decimal numbers round-trip *)

Lemma pretty_N_char_digit x : (x < 10)%N -> is_digit (pretty_N_char x) = true /\ digit (pretty_N_char x) = Z.of_N x.
Proof.
  intros H. assert (x = 0 \/ x = 1 \/ x = 2 \/ x = 3 \/ x = 4 \/ x = 5 \/ x = 6 \/ x = 7 \/ x = 8 \/ x = 9)%N as Hx by lia.
  naive_solver.
Qed.

Lemma pretty_N_go_digits x : forall s,
  digits_value 0 (pretty_N_go x s) = digits_value (Z.of_N x) s /\
  (sforall is_digit s = true -> sforall is_digit (pretty_N_go x s) = true) /\
  ((0 < x)%N -> pretty_N_go x s <> "").
Proof.
  induction (N.lt_wf_0 x) as [x _ IH]; intros s.
  assert (x = 0 \/ 0 < x)%N as [->|Hx] by lia; [by rewrite pretty_N_go_0|].
  rewrite pretty_N_go_step by done.
  assert (x `mod` 10 < 10)%N as Hm by (apply N.mod_lt; lia).
  destruct (pretty_N_char_digit _ Hm) as [Hd Hv].
  destruct (IH (x `div` 10)%N ltac:(by apply N.div_lt) (String (pretty_N_char (x `mod` 10)) s)) as (H1 & H2 & H3).
  split_and!.
  - rewrite H1. cbn [digits_value]. rewrite Hv. f_equal. rewrite N2Z.inj_mod, N2Z.inj_div. pose proof (Z.div_mod (Z.of_N x) 10 ltac:(done)). lia.
  - intros Hs. apply H2. cbn [sforall]. by rewrite Hd, Hs.
  - intros _. destruct (N.eq_0_gt_0_cases (x / 10)) as [E|E]; [|by apply H3].
    rewrite E, pretty_N_go_0. done.
Qed.

Lemma zstr_digits z :
  0 <= z -> sforall is_digit (zstr z) = true /\ zstr z <> "" /\ digits_value 0 (zstr z) = z.
Proof.
  intros H. destruct z as [|p|p]; [done| |lia]. change (zstr (Z.pos p)) with (pretty_N_go (N.pos p) "").
  destruct (pretty_N_go_digits (N.pos p) "") as (H1 & H2 & H3).
  split_and!; [by apply H2|by apply H3|]. by rewrite H1.
Qed.

Lemma digit_char_solid c : is_digit c = true -> is_space c = false /\ Ascii.eqb c "-"%char = false /\
  Ascii.eqb c "+"%char = false /\ one_line c = true.
Proof. by destruct c as [[] [] [] [] [] [] [] []]. Qed.

Lemma solid_trim s : sforall (fun c => negb (is_space c)) s = true -> trim s = s.
Proof.
  intros H. assert (forall x, sforall (fun c => negb (is_space c)) x = true -> trim_start x = x) as Hs.
  { intros [|c x]; [done|]. simpl. intros [Hc _]%andb_true_iff. apply negb_true_iff in Hc. by rewrite Hc. }
  unfold trim. rewrite Hs by done. unfold trim_end. rewrite Hs, srev_involutive; [done|].
  clear Hs. induction s as [|c s IH]; [done|]. rewrite srev_cons, sforall_sapp. simpl in *.
  apply andb_true_iff in H as [-> H]. by rewrite IH.
Qed.

Lemma to_number_zstr other z : 0 <= z -> is_safe_integer z = true -> to_number other (zstr z) = NInt z.
Proof.
  intros H Hs. destruct (zstr_digits z H) as (H1 & H2 & H3). unfold to_number.
  rewrite solid_trim.
  2:{ eapply sforall_impl; [|exact H1]. intros c Hc. apply digit_char_solid in Hc as [-> _]. done. }
  rewrite (proj2 (String.eqb_neq _ _) H2).
  assert (signed (zstr z) = Some z) as ->; [|by rewrite Hs].
  assert (unsigned (zstr z) = Some z) as Hu.
  { unfold unsigned. rewrite (proj2 (String.eqb_neq _ _) H2), H1, H3. done. }
  unfold signed. destruct (zstr z) as [|c s] eqn:E; [done|]. simpl in H1. apply andb_true_iff in H1 as [Hc _].
  apply digit_char_solid in Hc as (_ & -> & -> & _). done.
Qed.
