(* ===== verification/Process.v ===== *)
(** * The server process

    What surrounds the gateway in its process: the audit log (server/src/audit.ts),
    the sqlite3 program (server/src/sqlite.ts) and the end of the process
    (server/src/main.ts). The disk, the program and the signals are arguments.

    The audit file holds one record per line whatever the records contain. One
    signal ends the process after the store was flushed; a second one ends it at
    once. *)

From Stdlib Require Import Ascii.
From S2P Require Import Prelude JsValue JsDate Json GatewayStore CodexBridge EnvFile CodexPath CodexLink ServerConfig.

Local Open Scope Z_scope.

(** ** The audit log *)

(** [{ ts, action, ...details }] *)
Definition audit_entry (now : Z) (action : string) (details : list (string * val)) : val :=
  VObj (foldl (fun m e => mset e.1 e.2 m) [("ts", VStr (toISOString now)); ("action", VStr action)] details).

(** The file after a call; nothing when the directory or the file cannot be
    written, and then the caller's [await] throws. *)
Definition audit (disk : bool) (now : Z) (action : string) (details : list (string * val)) (file : string)
    : option string :=
  if disk then Some (file ^^ stringify (audit_entry now action details) ^^ String LF "") else None.

(** Numbers print on one line. *)
Fixpoint plain_numbers (v : val) : bool :=
  match v with
  | VNum (NFrac _ repr) => sforall one_line repr
  | VArr l => forallb plain_numbers l
  | VObj fs => (fix go fs := match fs with [] => true | (_, x) :: fs' => plain_numbers x && go fs' end) fs
  | _ => true
  end.

Lemma json_char_line c : sforall one_line (json_char c) = true.
Proof. by destruct c as [[] [] [] [] [] [] [] []]. Qed.

Lemma json_string_line s : sforall one_line (json_string s) = true.
Proof.
  unfold json_string. cbn [sforall]. rewrite sforall_sapp. cbn. rewrite andb_true_r.
  induction s as [|c s IH]; cbn; [done|]. by rewrite sforall_sapp, json_char_line.
Qed.

Lemma join_line sep l :
  sforall one_line sep = true -> Forall (fun s => sforall one_line s = true) l -> sforall one_line (join sep l) = true.
Proof.
  intros Hs. induction 1 as [|x l Hx Hl IH]; [done|]. cbn. destruct l; [done|].
  by rewrite !sforall_sapp, Hx, Hs, IH.
Qed.

Lemma digits_line z : 0 <= z -> sforall one_line (zstr z) = true.
Proof.
  intros Hz. destruct (zstr_digits z Hz) as (Hd & _ & _). eapply sforall_impl; [|exact Hd].
  intros c Hc. by apply digit_char_solid.
Qed.

Lemma zstr_line z : sforall one_line (zstr z) = true.
Proof.
  destruct z as [|p|p]; [by apply digits_line..|].
  change (zstr (Z.neg p)) with (String "-" (zstr (Z.pos p))). cbn [sforall]. by rewrite digits_line.
Qed.

(** [JSON.stringify] never breaks a line. *)
Lemma stringify_line v : plain_numbers v = true -> sforall one_line (stringify v) = true.
Proof.
  induction v as [| |b|n|s|l IH|fs IH] using val_ind; intros Hp; cbn [stringify]; try done.
  - by destruct b.
  - destruct n as [z|? ?| |b]; cbn in *; [apply zstr_line|done|done|by destruct b].
  - apply json_string_line.
  - assert (sforall one_line (join "," (map stringify l)) = true) as E; [|by rewrite !sforall_sapp, E].
    apply join_line; [done|]. cbn in Hp. rewrite forallb_forall in Hp. apply Forall_forall. intros x Hx.
    apply list_elem_of_In, in_map_iff in Hx as (y & <- & Hy). rewrite List.Forall_forall in IH. auto.
  - match goal with |- context [join "," ?l] =>
      assert (sforall one_line (join "," l) = true) as E; [|by rewrite !sforall_sapp, E] end.
    apply join_line; [done|].
    induction IH as [|[k x] fs Hx _ IHfs]; [constructor|]. cbn in Hx, Hp. apply andb_true_iff in Hp as [Hpx Hpf].
    assert (sforall one_line (json_string k ^^ ":" ^^ stringify x) = true) as Hk
      by (rewrite !sforall_sapp, json_string_line, (Hx Hpx); done).
    destruct x; try (by apply IHfs); constructor; try exact Hk; by apply IHfs.
Qed.

Record audit_call := mkAudit { au_now : Z; au_action : string; au_details : list (string * val) }.

Definition call_entry (c : audit_call) : val := audit_entry (au_now c) (au_action c) (au_details c).

(** Calls whose appends succeed, in order, on a file. *)
Definition audit_all (cs : list audit_call) (file : string) : string :=
  foldl (fun file c => default file (audit true (au_now c) (au_action c) (au_details c) file)) file cs.

Lemma split_line x rest : sforall one_line x = true -> split_char LF (x ^^ String LF rest) = x :: split_char LF rest.
Proof.
  induction x as [|c x IH]; cbn [sapp split_char sforall]; [done|].
  intros [Hc Hx]%andb_true_iff. rewrite IH by done. unfold one_line in Hc.
  by destruct (Ascii.eqb c LF).
Qed.

(** The audit log is read back record by record: whatever texts the records
    carry (line breaks, quotes, control characters), the lines of the file are
    the serialized records, in the order of the calls. *)
Theorem audit_lines cs :
  Forall (fun c => plain_numbers (call_entry c) = true) cs ->
  split_char LF (audit_all cs "") = map (fun c => stringify (call_entry c)) cs ++ [""].
Proof.
  intros H. enough (forall file, audit_all cs file
    = file ^^ foldr (fun c rest => stringify (call_entry c) ^^ String LF rest) "" cs) as E.
  - rewrite E. cbn [sapp]. clear E. induction H as [|c cs Hc _ IH]; [done|]. cbn [foldr map app].
    rewrite split_line; [by rewrite IH|by apply stringify_line].
  - clear H. induction cs as [|c cs IH]; intros file; cbn [foldr]; [cbn; by rewrite sapp_nil_r|].
    change (audit_all (c :: cs) file) with (audit_all cs (file ^^ stringify (call_entry c) ^^ String LF "")).
    by rewrite IH, !sapp_assoc.
Qed.

Lemma audit_lines_witness :
  let cs := [mkAudit 0 "thread.read" [("threadId", VStr (String LF "x"))]; mkAudit 1 "ws.connect" []] in
  length (split_char LF (audit_all cs "")) = 3%nat
  /\ split_char LF (audit_all cs "") = map (fun c => stringify (call_entry c)) cs ++ [""].
Proof.
  intros cs. split; [vm_compute; reflexivity|].
  apply (audit_lines [mkAudit 0 "thread.read" [("threadId", VStr (String LF "x"))]; mkAudit 1 "ws.connect" []]).
  repeat constructor.
Defined.

(** A detail called [action] takes the place of the action of the record. *)
Lemma audit_action_overwritten now action other :
  prop "action" (audit_entry now action [("action", VStr other)]) = VStr other.
Proof. reflexivity. Qed.

(** ** The sqlite3 program *)

Definition packagedSqliteBin (P : node_path) (win32 : bool) (distDir : string) : string :=
  np_join P [np_resolve P (np_join P [distDir; ".."; ".."]); "runtime"; "sqlite"; if win32 then "sqlite3.exe" else "sqlite3"].

Definition sqliteBin (P : node_path) (win32 : bool) (distDir : string) (exists_ : string -> bool)
    (env : jmap string string) : string :=
  match mget "SQLITE_BIN" env with
  | Some bin => if bin === "" then (let packaged := packagedSqliteBin P win32 distDir in
                                    if (packaged !== "") && exists_ packaged then packaged else "sqlite3")
                else bin
  | None => let packaged := packagedSqliteBin P win32 distDir in
            if (packaged !== "") && exists_ packaged then packaged else "sqlite3"
  end.

(** The arguments the program is started with. *)
Definition sqlite_args (dbPath sql : string) : list string := ["-readonly"; "-json"; dbPath; sql].

(** What [execFile] gives the callback. *)
Record exec_answer := mkExec { ex_error : option string; ex_stdout : string; ex_stderr : string }.

Definition sqliteJson (JSON_parse : string -> option val) (a : exec_answer) : string + val :=
  match ex_error a with
  | Some message => inl (first_nonempty (trim (ex_stderr a)) message)
  | None =>
      if trim (ex_stdout a) === "" then inr (VArr [])
      else match JSON_parse (ex_stdout a) with
           | Some rows => inr rows
           | None => inl "invalid JSON"
           end
  end.

(** ** The end of the process *)

Inductive exit_stage := Serving | Closing | Flushing | Flushed.

Record main_state := mkMain { mn_store : GatewayStore; mn_bridge : CodexBridge; mn_stage : exit_stage; mn_exited : bool }.

(** [SIGINT] or [SIGTERM]; the server's [close] settled, either way; the writes
    [flush] waits for are done. *)
Inductive main_event := Signal | ServerClosed | WritesDone.

Definition main_step (s : main_state) (e : main_event) : main_state :=
  if mn_exited s then s
  else match e, mn_stage s with
       | Signal, Serving => mkMain (mn_store s) (shutdown (mn_bridge s)) Closing false
       | Signal, _ => mkMain (mn_store s) (mn_bridge s) (mn_stage s) true
       | ServerClosed, Closing => mkMain (flush (mn_store s)) (mn_bridge s) Flushing false
       | WritesDone, Flushing => mkMain (mn_store s) (mn_bridge s) Flushed true
       | _, _ => s
       end.

Definition main_run (st : GatewayStore) (b : CodexBridge) (es : list main_event) : main_state :=
  foldl main_step (mkMain st b Serving false) es.

Definition is_signal (e : main_event) : bool := match e with Signal => true | _ => false end.

(** Where the process can be after one signal. *)
Definition ending (st : GatewayStore) (b : CodexBridge) (s : main_state) : Prop :=
  s = mkMain st (shutdown b) Closing false \/ s = mkMain (flush st) (shutdown b) Flushing false
  \/ s = mkMain (flush st) (shutdown b) Flushed true.

Lemma ending_run st b es s :
  Forall (fun e => is_signal e = false) es -> ending st b s -> ending st b (foldl main_step s es).
Proof.
  intros H. revert s. induction H as [|e es He _ IH]; intros s Hs; [done|]. apply IH.
  destruct Hs as [-> |[-> | ->]], e; try done; unfold ending; cbn; auto.
Qed.

(** After one signal, the process ends only with its sessions flushed, its writes
    done and its app-server gone, whatever [close] did. *)
Lemma one_signal_flushes st b es :
  (length (List.filter is_signal es) <= 1)%nat ->
  let s := main_run st b es in
  mn_exited s = true -> mn_stage s = Flushed /\ mn_store s = flush st /\ child (mn_bridge s) = None.
Proof.
  intros Hl s. assert (s = mkMain st b Serving false \/ ending st b s) as [E|E].
  { unfold s, main_run. induction es as [|e es IH]; [by left|]. destruct e; cbn in Hl |- *; try (by apply IH).
    right. apply ending_run; [|by left]. apply List.Forall_forall. intros e He.
    destruct (is_signal e) eqn:Ee; [|done]. exfalso.
    destruct (List.filter is_signal es) eqn:Ef; [|cbn in Hl; lia].
    by eapply (in_nil (a := e)); rewrite <- Ef; apply filter_In. }
  - by rewrite E.
  - destruct (gone_shutdown b) as (_ & Ec & _). destruct E as [-> |[-> | ->]]; cbn; try done.
Qed.

(** A second signal ends it while the first is still closing the server: what
    was not yet written is lost. *)
Example second_signal_skips_flush st b :
  let s := main_run st b [Signal; Signal] in
  mn_exited s = true /\ mn_stage s = Closing /\ mn_store s = st.
Proof. done. Qed.
