(* ===== verification/Routes.v ===== *)
(** * Read-only routes and the error handler

    The parts of server/src/index.ts that describe the gateway rather than change
    it: the error and not-found handlers, the widget with the texts it shows,
    diagnostics, the list of importable threads, one thread's details, health,
    capabilities and protocol, and the download of the Android package. The stop
    route is here too, as the call of the shared interrupt handler it makes.

    The theorems: an error reveals its message only below status 500, and what
    the widget shows is bounded and consistent with the sessions it merges. *)

From S2P Require Import Prelude JsValue JsDate GatewayStore CodexEvents Sessions Gateway Paths Threads EnvFile CodexPath CodexBridge CodexLink ServerConfig.

Local Open Scope Z_scope.

(** ** Errors *)

(** What the error handler looks at: whether it is a validation error, the
    message when it is an [Error], and the properties [statusCode] and [code]. *)
Record thrown := mkThrown { tr_validation : bool; tr_message : option string; tr_statusCode : val; tr_code : val }.

Record error_reply := mkReply { er_status : num; er_error : string; er_code : string }.

(** [n >= z] *)
Definition num_geb (n : num) (z : Z) : bool := match n with NInt x => z <=? x | _ => num_gtb n z end.

(** The statuses the code attaches to errors are below 600; above that Fastify
    itself would refuse the reply. *)
Definition errorHandler (e : thrown) : error_reply :=
  let status :=
    if tr_validation e then NInt 400
    else if opt_str_eqb (as_str (tr_code e)) (Some "model_not_available") then NInt 400
    else match tr_statusCode e with
         | VNum n => if num_geb n 400 then n else NInt 500
         | _ => NInt 500
         end in
  mkReply status
    (if tr_validation e then "invalid_request"
     else if num_geb status 500 then "internal_error" else default "Request failed" (tr_message e))
    (if tr_validation e then "invalid_request" else default "internal_error" (as_str (tr_code e))).

Definition notFoundHandler : Z * string := (404, "not found").

(** ** The widget *)

Definition compactWidgetText (value : string) : string :=
  let text := trim (collapse_spaces value) in
  if (text === "") || starts_with "{" text || starts_with "diff --git " text then ""
  else if (160 <? slen text)%nat then slice0 157 text ^^ "..." else text.

Definition completedAgentFeedbackText (m : GatewayMessage) : string :=
  let payload := m_payload m in
  if default "" (str_prop "eventType" payload) !== "item/completed" then ""
  else
    let jsonPayload := prop "jsonPayload" payload in
    let item := prop "item" jsonPayload in
    if is_object jsonPayload && is_object item && opt_str_eqb (str_prop "type" item) (Some "agentMessage")
    then match str_prop "text" item with Some text => compactWidgetText text | None => "" end
    else "".

Definition promptFeedbackText (m : GatewayMessage) : string :=
  let payload := m_payload m in
  match str_prop "prompt" payload, str_prop "text" payload, str_prop "message" payload with
  | Some s, _, _ => compactWidgetText s
  | None, Some s, _ => compactWidgetText s
  | None, None, Some s => compactWidgetText s
  | None, None, None => ""
  end.

Definition first_text (l : list string) : option string := List.find (fun s => s !== "") l.

Definition delta_chunk (m : GatewayMessage) : option string :=
  if opt_str_eqb (str_prop "eventType" (m_payload m)) (Some "item/agentMessage/delta")
  then str_prop "chunk" (m_payload m) else None.

Definition latestWidgetFeedback (messages : list GatewayMessage) : option string :=
  match first_text (map completedAgentFeedbackText (rev messages)) with
  | Some text => Some text
  | None =>
      let compactDelta := compactWidgetText (join "" (omap delta_chunk messages)) in
      if compactDelta === "" then first_text (map promptFeedbackText (rev messages)) else Some compactDelta
  end.

Definition isLiveWidgetSession (now : Z) (s : GatewaySession) : bool :=
  if busy_status (s_status s) then now - parse_or (s_lastUpdatedAt s) 0 <=? 10 * 60 * 1000 else true.

(** Most recently updated first. *)
Definition newer (a b : GatewaySession) : bool := str_ltb (s_lastUpdatedAt b) (s_lastUpdatedAt a).

Definition mergeWidgetSessions (primary secondary : list GatewaySession) : list GatewaySession :=
  let put m (s : GatewaySession) := mset (s_id s) s m in
  isort newer (foldl put (foldl put [] secondary) primary).*2.

Definition active_session (s : GatewaySession) : bool :=
  match s_status s with running | starting => true | _ => false end.
Definition awaits_approval (s : GatewaySession) : bool :=
  match s_status s with waiting_approval => true | _ => false end.

(** [Math.max(1, Math.min(9, Math.round(ms / 60000) % 10))] *)
Definition trend_bar (now : Z) (s : GatewaySession) : Z :=
  let ms := parse_or (s_lastUpdatedAt s) now in
  Z.max 1 (Z.min 9 (Z.rem ((2 * ms + 60000) / 120000) 10)).

Record widget_reply := mkWidget {
  wi_status : string;
  wi_current : option GatewaySession;
  wi_feedback : string;
  wi_total : nat; wi_running : nat; wi_pendingApproval : nat;
  wi_trend : list Z
}.

Section routes.
Context (config : GatewayConfig) (w : world).

(** The threads of a list with the statuses the gateway knows. *)
Definition with_statuses (now : Z) (threads : list ThreadSummary) (g : Gateway) : list ThreadSummary * Gateway :=
  foldl (fun '(l, g) t => let '(t, g) := withGatewayThreadStatus now t g in (l ++ [t], g)) ([], g) threads.

(** [portable]: the answer of [listThreadsPortable(60)], nothing when it fails. *)
Definition widget (now : Z) (portable : option (list ThreadSummary)) (g : Gateway) : widget_reply * Gateway :=
  let sessions := listSessions (store g) in
  let '(threads, g) := with_statuses now (filterAllowedThreads w (default [] portable)) g in
  let threadSessions := map (fun t => threadToSession config t (Some (mapThreadStatus (th_status t)))) threads in
  let liveSessions := List.filter (isLiveWidgetSession now) (filterAllowedSessions w sessions) in
  let merged := mergeWidgetSessions liveSessions threadSessions in
  let running := List.filter active_session merged in
  let pendingApproval := List.filter awaits_approval merged in
  let current := match head running with Some s => Some s | None => head merged end in
  let '(recent, g) := match current with
                      | Some s => let '(l, st) := listEvents (s_id s) (store g) in (lastn 20 l, with_store st g)
                      | None => ([], g)
                      end in
  (mkWidget
     (match running, pendingApproval with _ :: _, _ => "running" | [], _ :: _ => "waiting-approval" | [], [] => "idle" end)
     current (default "暂无实时反馈" (latestWidgetFeedback recent))
     (length merged) (length running) (length pendingApproval) (map (trend_bar now) (take 10 merged)), g).

(** ** Diagnostics and threads *)

Record diagnostics_reply := mkDiagnostics {
  di_sessionCount : nat; di_runningCount : nat; di_pendingApprovalCount : nat; di_roots : list string; di_codex : Status
}.

Definition diagnostics (threads : list ThreadSummary) (b : CodexBridge) (g : Gateway) : diagnostics_reply :=
  let sessions := listSessions (store g) in
  mkDiagnostics (Nat.max (length threads) (length sessions)) (length (List.filter active_session sessions))
    (length (List.filter awaits_approval sessions)) (w_roots w) (status b).

Definition importable (t : ThreadSummary) : val :=
  VObj [("id", VStr (th_id t)); ("provider", VStr "codex"); ("title", VStr (th_title t));
        ("workspacePath", VStr (th_cwd t)); ("prompt", VStr (th_preview t));
        ("createdAt", VStr (toISOString (th_createdAtMs t))); ("updatedAt", VStr (toISOString (th_updatedAtMs t)));
        ("modelLabel", str_val (th_model t)); ("modelProvider", VStr (th_modelProvider t)); ("canImport", VBool true)].

Definition importableThreads (threads : list ThreadSummary) : list val := map importable (filterAllowedThreads w threads).

(** A route's answer: a body, or a refusal with its status and error. *)
Inductive route_answer := Body (v : val) | Refuse (status : Z) (error : string) | Throw (message : string).

(** [GET /api/threads/:id] once the caller's context, the audit record, Codex, the
    local history and the stored session have answered. *)
Definition getThread (context : option ThreadContext) (fromCodex : option val) (fallback : string + val)
    (session : option val) : route_answer :=
  match context with
  | None => Refuse 404 "session_not_found"
  | Some c =>
      if negb (str_truthy (x_workspacePath c)) then Refuse 403 "forbidden"
      else match fromCodex, fallback, session with
           | Some v, _, _ => Body v
           | None, inr v, _ => Body v
           | None, inl _, Some v => Body v
           | None, inl message, None => Throw message
           end
  end.

(** [GET /sessions/:id] *)
Definition getSessionRoute (context : option ThreadContext) : route_answer :=
  match context with
  | None => Refuse 404 "session_not_found"
  | Some c =>
      if negb (str_truthy (x_workspacePath c)) then Refuse 403 "forbidden"
      else match x_session c, x_thread c with
           | Some s, _ => Body (VObj [("session", session_val s)])
           | None, Some t => Body (VObj [("session", session_val (threadToSession config t None))])
           | None, None => Throw "session_not_found"
           end
  end.

(** [POST /api/threads/:id/stop]: no expiry, and the clients are told. *)
Definition postStop (id : string) (turnId : option string) (g : Gateway) : Gateway :=
  authorize id (ToInterrupt turnId true) g.

(** [GET /api/models] *)
Definition getModels (response : string + val) : route_answer :=
  match response with inr v => Body v | inl _ => Refuse 503 "model_list_unavailable" end.

(** ** Constant descriptions *)

Definition healthz (name version : string) (now : Z) : val :=
  VObj [("ok", VBool true); ("gatewayName", VStr name); ("gatewayVersion", VStr version); ("timestamp", VStr (toISOString now))].

Definition apiHealth (publicOrigin : string) : val := VObj [("ok", VBool true); ("publicOrigin", VStr publicOrigin)].

Definition capabilities : val :=
  VObj (map (fun k => (k, VBool true))
    ["turnStart"; "turnInterrupt"; "turnSteer"; "sameTurnInterjection"; "stopWithoutClientTurnId"]).

Definition httpRoutes : list string :=
  ["/healthz"; "/auth/login"; "/sessions"; "/sessions/import"; "/diagnostics"; "/importable-threads"; "/sessions/:id";
   "/sessions/:id/policy"; "/sessions/:id/events"; "/sessions/:id/turns"; "/sessions/:id/fork"; "/sessions/:id/interrupt";
   "/sessions/:id/approvals/:requestId"; "/filesystem/list"; "/files/download"; "/protocol"].

Definition protocol (gatewayName : string) : val :=
  VObj [("protocolVersion", VStr "codeharbor.gateway.v1"); ("protocolRevision", vint 2); ("gatewayName", VStr gatewayName);
        ("agentProviders", strs_val ["codex"]); ("sessionPolicyModes", strs_val ["confirm"; "full-access"]);
        ("defaultSessionPolicyMode", VStr "confirm");
        ("security", VObj [("fullAccessConfirmation", VBool true); ("confirmationField", VStr "confirmFullAccess")]);
        ("rawCodexEvents", VBool true); ("rawCodexEventTransport", VStr "websocket:type=codex");
        ("eventDelivery", VObj [("sequence", VStr "per-session-monotonic"); ("field", VStr "eventSeq");
           ("resumeMessage", VStr "resume"); ("completionEvent", VStr "resume-complete");
           ("storage", VStr "gateway-data/events/<session>.jsonl")]);
        ("threading", VObj [("forkRoute", VStr "/sessions/:id/fork"); ("forkedFromField", VStr "forkedFromId");
           ("childEvent", VStr "session-forked")]);
        ("approval", VObj [("requestEvent", VStr "approval-requested");
           ("decisionRoute", VStr "/sessions/:id/approvals/:requestId"); ("decisions", strs_val ["approve"; "deny"])]);
        ("httpRoutes", strs_val httpRoutes); ("websocketPath", VStr "/ws"); ("supportedEvents", strs_val supportedEvents)].

(** ** The Android package *)

Inductive apk_answer := ApkMissing (error : string) | ApkFile (path : string) (headers : list (string * string)).

Definition sendApk (cfg : AppConfig) (apk : option file_stat) : apk_answer :=
  match apk with
  | Some f =>
      if f_isFile f then
        ApkFile (cf_appUpdateApkPath cfg)
          [("content-type", "application/vnd.android.package-archive"); ("content-length", zstr (f_size f));
           ("content-disposition", "attachment; filename=" ^^ String Json.QUOTE ("aCode-" ^^ cf_appUpdateVersionName cfg ^^ ".apk" ^^ String Json.QUOTE ""))]
      else ApkMissing "apk_not_found"
  | None => ApkMissing "apk_not_found"
  end.

Definition publicApk (cfg : AppConfig) (apk : option file_stat) : apk_answer :=
  if cf_appUpdatePublicDownload cfg then sendApk cfg apk else ApkMissing "not_found".

(** [url path] is [new URL(path, config.publicOrigin).toString()]. *)
Definition appUpdate (cfg : AppConfig) (url : string -> string) (defaultNotes : string) (history : val) (apk : option file_stat) : val :=
  let size := match apk with Some f => if f_isFile f then Some (f_size f) else None | None => None end in
  VObj [("app", VStr "aCode"); ("platform", VStr "android"); ("versionCode", VNum (cf_appUpdateVersionCode cfg));
        ("versionName", VStr (cf_appUpdateVersionName cfg)); ("notes", VStr (default defaultNotes (cf_appUpdateNotes cfg)));
        ("minServerVersion", VStr "1.0.1"); ("compatibleClientVersionCode", vint 10000);
        ("apkAvailable", VBool (match size with Some _ => true | None => false end));
        ("apkSizeBytes", match size with Some n => vint n | None => VNull end);
        ("downloadUrl", VStr (url "/api/app/update/apk")); ("publicDownloadUrl", VStr (url "/download/aCode-latest.apk"));
        ("history", history)].

End routes.

(** ** Errors tell no more than they may *)

(** C26: The error handler answers with a status of at least 400; a validation error
    is always [400 invalid_request]; and at status 500 or above the answer does
    not depend on the error's message, which is replaced by [internal_error]. *)
Theorem error_reply_closed e message :
  let r := errorHandler e in
  num_geb (er_status r) 400 = true
  /\ (tr_validation e = true -> r = mkReply (NInt 400) "invalid_request" "invalid_request")
  /\ (num_geb (er_status r) 500 = true ->
      er_error r = "internal_error"
      /\ r = errorHandler (mkThrown (tr_validation e) message (tr_statusCode e) (tr_code e))).
Proof.
  intros r. subst r. unfold errorHandler. cbn [tr_validation tr_statusCode tr_code tr_message er_status er_error].
  destruct (tr_validation e); [done|]. destruct (opt_str_eqb _ _); [done|].
  destruct (tr_statusCode e) as [| | |n| | |]; try done.
  destruct (num_geb n 400) eqn:E; [|done]. split; [done|]. split; [done|].
  intros ->. done.
Qed.

(** ** The widget *)

Lemma compactWidgetText_length value : (slen (compactWidgetText value) <= 160)%nat.
Proof.
  unfold compactWidgetText. cbv zeta. set (text := trim _). destruct (_ || _ || _); [cbn; lia|].
  destruct (Nat.ltb_spec 160 (slen text)); [|done]. rewrite slen_sapp, slice0_le.
  change (slen "...") with 3%nat. pose proof (Nat.le_min_l 157 (slen text)). lia.
Qed.

Lemma first_text_in l s : first_text l = Some s -> s ∈ l.
Proof. intros [H _]%find_some. by apply list_elem_of_In. Qed.

Lemma feedback_length ms s : latestWidgetFeedback ms = Some s -> (slen s <= 160)%nat.
Proof.
  unfold latestWidgetFeedback. destruct (first_text (map completedAgentFeedbackText _)) as [t|] eqn:E.
  - intros [= <-]. apply first_text_in, list_elem_of_In, in_map_iff in E as (m & <- & _).
    unfold completedAgentFeedbackText. cbv zeta. repeat case_match; simpl; try lia; apply compactWidgetText_length.
  - case_match.
    + intros Hs%first_text_in%list_elem_of_In%in_map_iff. destruct Hs as (m & <- & _).
      unfold promptFeedbackText. repeat case_match; simpl; try lia; apply compactWidgetText_length.
    + intros [= <-]. apply compactWidgetText_length.
Qed.

Definition keyed_sessions (m : jmap string GatewaySession) : Prop := NoDup m.*1 /\ Forall (fun e => e.1 = s_id e.2) m.

Lemma put_keyed l m :
  keyed_sessions m -> keyed_sessions (foldl (fun m (s : GatewaySession) => mset (s_id s) s m) m l).
Proof.
  revert m. induction l as [|s l IH]; intros m [Hn Hk]; [done|]. apply IH. split; [auto with js|].
  induction Hk as [|[k v] m Hv Hk IHm]; cbn; [by repeat constructor|].
  case_decide; constructor; try done. apply IHm. by inversion Hn.
Qed.

Lemma keyed_ids m : keyed_sessions m -> map s_id m.*2 = m.*1.
Proof.
  intros [_ Hk]. induction Hk as [|e m He _ IH]; [done|]. cbn. by rewrite He, IH.
Qed.

Lemma merge_unique primary secondary : NoDup (map s_id (mergeWidgetSessions primary secondary)).
Proof.
  unfold mergeWidgetSessions. cbv zeta. set (m := foldl _ (foldl _ _ _) _).
  assert (keyed_sessions m) as K by (do 2 apply put_keyed; by split; constructor).
  change (map s_id) with (fmap (M := list) s_id). rewrite (isort_perm newer m.*2).
  change (fmap (M := list) s_id) with (map s_id). rewrite keyed_ids by done. apply K.
Qed.

Lemma filters_disjoint {A} (p q : A -> bool) l :
  (forall x, p x = true -> q x = false) ->
  (length (List.filter p l) + length (List.filter q l) <= length l)%nat.
Proof.
  intros H. induction l as [|x l IH]; simpl; [lia|]. specialize (H x).
  destruct (p x); [rewrite H by done|destruct (q x)]; simpl; lia.
Qed.

Lemma trend_range now s : 1 <= trend_bar now s <= 9.
Proof. unfold trend_bar. cbv zeta. lia. Qed.

(** What the widget shows is bounded and consistent: the running and the
    waiting sessions are disjoint parts of the total,
    the status says which there are, the current task is a running one if there
    is one, the feedback has at most 160 characters, and the trend at most ten
    bars between one and nine. *)
Theorem widget_consistent config w now portable g :
  let r := (widget config w now portable g).1 in
  (wi_running r + wi_pendingApproval r <= wi_total r)%nat
  /\ (wi_status r = "running" <-> (0 < wi_running r)%nat)
  /\ (wi_status r = "idle" <-> wi_running r = 0%nat /\ wi_pendingApproval r = 0%nat)
  /\ (match wi_current r with Some s => (0 < wi_running r)%nat -> active_session s = true | None => wi_total r = 0%nat end)
  /\ (slen (wi_feedback r) <= 160)%nat
  /\ (length (wi_trend r) <= 10)%nat /\ Forall (fun b => 1 <= b <= 9) (wi_trend r).
Proof.
  intros r. subst r. unfold widget. cbv zeta.
  destruct (with_statuses now _ g) as [threads g1].
  set (merged := mergeWidgetSessions _ _). set (run := List.filter active_session merged).
  set (wait := List.filter awaits_approval merged).
  set (current := match head run with Some s => Some s | None => head merged end).
  destruct (match current with Some s => _ | None => _ end) as [recent g2].
  cbn [fst wi_running wi_pendingApproval wi_total wi_status wi_current wi_feedback wi_trend].
  split_and!.
  - apply filters_disjoint. intros s. unfold active_session, awaits_approval. by destruct (s_status s).
  - destruct run; [destruct wait|]; simpl; split; intros; try done; lia.
  - destruct run; [destruct wait|]; simpl; split; intros; try done; by destruct_and?.
  - assert (Forall (fun s => active_session s = true) run) as Hr.
    { apply List.Forall_forall. by intros s [_ Hs]%filter_In. }
    unfold current. destruct run as [|s run'] eqn:Er; simpl.
    + destruct merged; simpl; [done|]. intros; lia.
    + intros _. by inversion Hr.
  - destruct (latestWidgetFeedback recent) as [t|] eqn:E; [by eapply feedback_length|vm_compute; lia].
  - rewrite length_map, length_take. lia.
  - apply List.Forall_forall. intros b (s & <- & _)%in_map_iff. apply trend_range.
Qed.

(** Events the gateway sends that its protocol does not announce. *)
Example unannounced_events :
  map (fun e => existsb (String.eqb e) supportedEvents) ["approval-expired"; "resume-rate-limited"] = [false; false].
Proof. reflexivity. Qed.

Lemma error_reply_closed_witness :
  let e := mkThrown false (Some "ENOENT: /secret") VUndef (VStr "ENOENT") in
  errorHandler e = mkReply (NInt 500) "internal_error" "ENOENT"
  /\ errorHandler e = errorHandler (mkThrown false None VUndef (VStr "ENOENT")).
Proof.
  intros e. split; [reflexivity|].
  refine (proj2 (proj2 (proj2 (error_reply_closed e None)) _)). reflexivity.
Defined.
