(* ===== verification/Markdown.v ===== *)
(** * Agent messages as Markdown

    Model of app/src/components/MarkdownView.tsx, which turns the text of a
    message into blocks and inline nodes: [renderInline] with its regular
    expression, [safeMarkdownHref], [parseBlocks] and the component itself. React
    keys and class names are left out. What the browser's [URL] makes of a link
    is a parameter.

    The theorems say which messages the block parser finishes on (it loops on a
    line that starts with a number sign and is no heading), that no link leaves
    the accepted schemes, and that inline rendering loses nothing but markers. *)

From Stdlib Require Import Ascii.
From S2P Require Import Prelude JsValue EnvFile ServerConfig.


Section Markdown.

(** [new URL(href, window.location.href).protocol], or nothing where the
    constructor throws. *)
Context (url_protocol : string -> option string).

(** ** Links *)

Definition scripting_schemes : list string := ["javascript:"; "data:"; "vbscript:"].
Definition link_schemes : list string := ["http:"; "https:"; "mailto:"].

Definition safeMarkdownHref (value : string) : option string :=
  let href := trim value in
  if (href === "") || existsb (fun p => starts_with p (to_lower href)) scripting_schemes then None
  else match url_protocol href with
       | Some protocol => if existsb (String.eqb protocol) link_schemes then Some href else None
       | None => None
       end.

(** ** Inline text *)

Inductive inline :=
| Text (s : string)
| Strong (s : string)
| Em (s : string)
| InlineCode (s : string)
| Link (href title : string).

(** [.*?] followed by [close]: what the dots match, and what follows [close]. *)
Fixpoint lazy_until (close s : string) : option (string * string) :=
  if starts_with close s then Some ("", skip (slen close) s)
  else match s with
       | "" => None
       | String c s' =>
           if one_line c then (fun m => (String c m.1, m.2)) <$> lazy_until close s' else None
       end.

(** [\]\(.*?\)] *)
Definition link_target (s : string) : option (string * string) :=
  if starts_with "](" s then lazy_until ")" (skip 2 s) else None.

(** [.*?\]\(.*?\)]: the title, the target, and what follows. *)
Fixpoint link_body (s : string) : option (string * string * string) :=
  match link_target s with
  | Some (target, rest) => Some ("", target, rest)
  | None =>
      match s with
      | "" => None
      | String c s' =>
          if one_line c then (fun m => (String c m.1.1, m.1.2, m.2)) <$> link_body s' else None
      end
  end.

Definition delimited (mark s : string) : option (string * string) :=
  if starts_with mark s then
    (fun m => (mark ^^ m.1 ^^ mark, m.2)) <$> lazy_until mark (skip (slen mark) s)
  else None.

Definition link_source (title target : string) : string := "[" ^^ title ^^ "](" ^^ target ^^ ")".

(** [token.match(/\[(.*?)\]\((.*?)\)/)] at the start of the token. *)
Definition titleMatch (s : string) : option (string * string * string) :=
  if starts_with "[" s then link_body (skip 1 s) else None.

Definition or_match {A} (a b : option A) : option A := match a with Some _ => a | None => b end.

(** The alternatives of the expression in their order, at one position: the
    token and what follows it. *)
Definition match_at (s : string) : option (string * string) :=
  or_match (delimited "**" s)
    (or_match (delimited "*" s)
      (or_match (delimited "`" s)
        ((fun m => (link_source m.1.1 m.1.2, m.2)) <$> titleMatch s))).

(** [regex.exec(text)] from [lastIndex] on: the text before the match, the
    token, and the text after it. *)
Fixpoint regex_exec (s : string) : option (string * string * string) :=
  match match_at s with
  | Some (token, rest) => Some ("", token, rest)
  | None =>
      match s with
      | "" => None
      | String c s' => (fun m => (String c m.1.1, m.1.2, m.2)) <$> regex_exec s'
      end
  end.

(** [token.slice(n, -n)] of a token of at least [2 * n] characters. *)
Definition inner (n : nat) (token : string) : string := srev (skip n (srev (skip n token))).

Definition token_node (token : string) : inline :=
  if starts_with "**" token && ends_with "**" token && (4 <=? slen token)%nat then Strong (inner 2 token)
  else if starts_with "*" token && ends_with "*" token && (2 <=? slen token)%nat then Em (inner 1 token)
  else if starts_with "`" token && ends_with "`" token && (2 <=? slen token)%nat then InlineCode (inner 1 token)
  else if starts_with "[" token && includes "](" token && ends_with ")" token then
    match titleMatch token with
    | Some (title, target, _) =>
        match safeMarkdownHref target with
        | None => Text title
        | Some href => Link href title
        end
    | None => Text token
    end
  else Text token.

Definition push_text (s : string) : list inline := if s === "" then [] else [Text s].

Fixpoint inline_loop (fuel : nat) (text : string) : option (list inline) :=
  match regex_exec text with
  | None => Some (push_text text)
  | Some (plain, token, rest) =>
      match fuel with
      | 0%nat => None
      | S f => (fun l => push_text plain ++ token_node token :: l) <$> inline_loop f rest
      end
  end.

(** A token has at least two characters, so one turn per character is enough
    ([inline_loop_enough]). *)
Definition renderInline (text : string) : list inline := default [] (inline_loop (slen text) text).

(** ** Blocks *)

Inductive block :=
| CodeBlock (code language : string)
| Heading (level : nat) (text : list inline)
| Blockquote (paragraphs : list (list inline))
| UnorderedList (items : list (list inline))
| OrderedList (items : list (list inline))
| HorizontalRule
| Table (header : list (list inline)) (rows : list (list (list inline)))
| Paragraph (text : list inline).

Definition fence (line : string) : bool := starts_with "```" (trim line).

(** [/^[-*+]\s+/]: what is left of the line without the match. *)
Definition bullet_item (line : string) : option string :=
  match line with
  | String c (String d _ as rest) =>
      if (Ascii.eqb c "-"%char || Ascii.eqb c "*"%char || Ascii.eqb c "+"%char) && is_space d
      then Some (trim_start rest) else None
  | _ => None
  end.

(** [/^\d+\.\s+/] *)
Definition numbered_item (line : string) : option string :=
  match span is_digit line with
  | (String _ _, String dot (String d _ as rest)) =>
      if Ascii.eqb dot "."%char && is_space d then Some (trim_start rest) else None
  | _ => None
  end.

Definition horizontal_rule (line : string) : bool :=
  existsb (String.eqb (trim line)) ["***"; "---"; "___"].

(** [/\|?\s*[-:]+[-| :]*\s*\|?/] is not anchored and all of it but one of the
    two characters is optional. *)
Definition divider (line : string) : bool := includes "-" line || includes ":" line.

Definition cells (line : string) : list string :=
  List.filter (fun c => c !== "") (map trim (split_char "|"%char line)).

(** Lines from the first while [p] holds, and the lines that are left. *)
Fixpoint lines_while (p : string -> bool) (lines : list string) : list string * list string :=
  match lines with
  | [] => ([], [])
  | l :: ls => if p l then let '(a, b) := lines_while p ls in (l :: a, b) else ([], lines)
  end.

Definition has_item (f : string -> option string) (line : string) : bool :=
  match f line with Some _ => true | None => false end.

Definition items (f : string -> option string) (lines : list string) : list (list inline) :=
  map (fun l => renderInline (default "" (f l))) lines.

Definition paragraph_line (line : string) : bool :=
  (trim line !== "") && negb (starts_with "```" line) && negb (starts_with "#" line)
  && negb (starts_with "> " line) && negb (has_item bullet_item line)
  && negb (has_item numbered_item line) && negb (horizontal_rule line).

Definition table_starts (line : string) (rest : list string) : bool :=
  includes "|" line && match rest with [] => false | next :: _ => (next !== "") && divider next end.

(** One turn of the loop of [parseBlocks] at [lines[i] = line]: the blocks it
    pushes and the lines from the new [i] on. *)
Definition parse_block (line : string) (rest : list string) : list block * list string :=
  if fence line then
    let language := trim (skip 3 (trim line)) in
    let '(body, after) := lines_while (fun l => negb (fence l)) rest in
    ([CodeBlock (join (String LF "") body) (if language === "" then "text" else language)], tail after)
  else if starts_with "# " line then ([Heading 1 (renderInline (skip 2 line))], rest)
  else if starts_with "## " line then ([Heading 2 (renderInline (skip 3 line))], rest)
  else if starts_with "### " line then ([Heading 3 (renderInline (skip 4 line))], rest)
  else if starts_with "#### " line then ([Heading 4 (renderInline (skip 5 line))], rest)
  else if starts_with "> " line then
    let '(quoted, after) := lines_while (starts_with "> ") (line :: rest) in
    ([Blockquote (map (fun l => renderInline (skip 2 l)) quoted)], after)
  else if has_item bullet_item line then
    let '(listed, after) := lines_while (has_item bullet_item) (line :: rest) in
    ([UnorderedList (items bullet_item listed)], after)
  else if has_item numbered_item line then
    let '(listed, after) := lines_while (has_item numbered_item) (line :: rest) in
    ([OrderedList (items numbered_item listed)], after)
  else if horizontal_rule line then ([HorizontalRule], rest)
  else if table_starts line rest then
    let '(rows, after) := lines_while (includes "|") (tail rest) in
    ([Table (map renderInline (cells line))
            (map (map renderInline) (List.filter (fun r => negb (bool_decide (r = []))) (map cells rows)))], after)
  else if trim line === "" then ([], rest)
  else
    let '(text, after) := lines_while paragraph_line (line :: rest) in
    ([Paragraph (renderInline (join " " text))], after).

Fixpoint block_loop (fuel : nat) (lines : list string) : option (list block) :=
  match lines with
  | [] => Some []
  | line :: rest =>
      match fuel with
      | 0%nat => None
      | S f =>
          let '(pushed, after) := parse_block line rest in
          (fun l => pushed ++ l) <$> block_loop f after
      end
  end.

Definition parseBlocks (fuel : nat) (raw : string) : option (list block) :=
  block_loop fuel (split_char LF raw).

(** ** The component *)

Inductive view := Nothing | Cursor | Body (blocks : list block) (cursor : bool).

Definition MarkdownView (fuel : nat) (content : string) (isStreaming : bool) : option view :=
  if content === "" then Some (if isStreaming then Cursor else Nothing)
  else (fun blocks => Body blocks isStreaming) <$> parseBlocks fuel content.



(** ** Strings *)

Lemma skip_sapp a b : skip (slen a) (a ^^ b) = b.
Proof. by induction a. Qed.

Lemma starts_with_skip p s : starts_with p s = true -> s = p ^^ skip (slen p) s.
Proof. intros [t ->]%starts_with_iff. by rewrite skip_sapp. Qed.

Lemma starts_with_more p a b : starts_with p a = true -> starts_with p (a ^^ b) = true.
Proof. intros [t ->]%starts_with_iff. rewrite sapp_assoc. apply starts_with_sapp. Qed.

Lemma ends_with_sapp a p : ends_with p (a ^^ p) = true.
Proof. unfold ends_with. rewrite srev_app. apply starts_with_sapp. Qed.

Lemma includes_sapp a p b : includes p (a ^^ p ^^ b) = true.
Proof.
  induction a as [|c a IH]; simpl.
  - by destruct (p ^^ b) eqn:E; simpl; rewrite <- ?E, starts_with_sapp.
  - by rewrite IH, orb_true_r.
Qed.

Lemma slen_srev s : slen (srev s) = slen s.
Proof.
  induction s as [|c s IH]; [done|]. rewrite srev_cons, slen_sapp, IH. simpl. lia.
Qed.

Lemma inner_sapp mark m : inner (slen mark) (mark ^^ m ^^ srev mark) = m.
Proof.
  unfold inner. rewrite skip_sapp, srev_app, srev_involutive, skip_sapp. apply srev_involutive.
Qed.

(** ** The expression *)

Lemma lazy_until_source close s m r : lazy_until close s = Some (m, r) -> s = m ^^ close ^^ r.
Proof.
  revert m r. induction s as [|c s IH]; intros m r; simpl.
  - destruct (starts_with close "") eqn:E; [|done]. intros [= <- <-]. by apply (starts_with_skip _ _ E).
  - destruct (starts_with close (String c s)) eqn:E.
    + intros [= <- <-]. by apply (starts_with_skip _ _ E).
    + destruct (one_line c); [|done]. intros ([m' r'] & E' & [= -> ->])%fmap_Some.
      simpl. by rewrite (IH _ _ E') at 1.
Qed.

Lemma link_target_source s v r : link_target s = Some (v, r) -> s = "](" ^^ v ^^ ")" ^^ r.
Proof.
  unfold link_target. destruct (starts_with "](" s) eqn:E; [|done].
  intros H%lazy_until_source. by rewrite (starts_with_skip _ _ E), <- H.
Qed.

Lemma link_body_source s t v r : link_body s = Some (t, v, r) -> s = t ^^ "](" ^^ v ^^ ")" ^^ r.
Proof.
  revert t v r. induction s as [|c s IH]; intros t v r; [done|].
  cbn [link_body]. destruct (link_target _) as [[v' r']|] eqn:E.
  - intros [= <- <- <-]. by apply link_target_source in E.
  - destruct (one_line c); [|done]. intros ([[t' v'] r'] & E' & [= -> -> ->])%fmap_Some.
    cbn [sapp]. by rewrite (IH _ _ _ E') at 1.
Qed.

(** A title and a target that match keep matching when what follows the link is
    cut off: the second match of the code is the first one again. *)
Lemma lazy_paren_more a b m r :
  lazy_until ")" a = Some (m, r) -> lazy_until ")" (a ^^ b) = Some (m, r ^^ b).
Proof.
  revert m r. induction a as [|c a IH]; intros m r; [done|].
  cbn [lazy_until sapp starts_with]. rewrite !andb_true_r. destruct (Ascii.eqb _ c).
  - by intros [= <- <-].
  - destruct (one_line c); [|done]. intros ([m' r'] & E & [= -> ->])%fmap_Some. by rewrite (IH _ _ E).
Qed.

Lemma lazy_paren_self s m r : lazy_until ")" s = Some (m, r) -> lazy_until ")" (m ^^ ")") = Some (m, "").
Proof.
  revert m r. induction s as [|c s IH]; intros m r; [done|].
  cbn [lazy_until starts_with]. rewrite andb_true_r. destruct (Ascii.eqb _ c) eqn:Ec.
  - by intros [= <- <-].
  - destruct (one_line c) eqn:El; [|done]. intros ([m' r'] & E & [= -> ->])%fmap_Some.
    cbn [lazy_until sapp starts_with fst]. by rewrite Ec, El, (IH _ _ E).
Qed.

Lemma link_target_more a b v r :
  link_target a = Some (v, r) -> link_target (a ^^ b) = Some (v, r ^^ b).
Proof.
  unfold link_target. destruct (starts_with "](" a) eqn:E; [|done]. rewrite (starts_with_more _ _ _ E).
  apply starts_with_iff in E as [t ->]. rewrite sapp_assoc. simpl. apply lazy_paren_more.
Qed.

Lemma link_body_self s t v r :
  link_body s = Some (t, v, r) -> link_body (t ^^ "](" ^^ v ^^ ")") = Some (t, v, "").
Proof.
  revert t v r. induction s as [|c s IH]; intros t v r H; [done|].
  pose proof (link_body_source _ _ _ _ H) as Hs. cbn [link_body] in H.
  destruct (link_target (String c s)) as [[v' r']|] eqn:E.
  - injection H as <- <- <-. unfold link_target in E. destruct (starts_with _ _); [|done].
    apply lazy_paren_self in E. simpl. unfold link_target. simpl. by rewrite E.
  - destruct (one_line c) eqn:El; [|done]. apply fmap_Some in H as ([[t' v'] r'] & E' & [= -> -> ->]).
    cbn [sapp link_body fst snd] in Hs |- *. destruct (link_target (String c (t' ^^ _))) as [[x y]|] eqn:E2.
    + apply (link_target_more _ r') in E2. cbn [sapp] in E2. rewrite !sapp_assoc in E2. cbn [sapp] in E2.
      rewrite sapp_assoc in E2. cbn [sapp] in E2. rewrite Hs in E. congruence.
    + apply IH in E'. cbn [sapp] in E'. by rewrite El, E'.
Qed.

(** ** Tokens *)

(** The sources of a node: what [renderInline] replaces by it. *)
Inductive renders : inline -> string -> Prop :=
| renders_text s : s <> "" -> renders (Text s) s
| renders_strong s : renders (Strong s) ("**" ^^ s ^^ "**")
| renders_em s : renders (Em s) ("*" ^^ s ^^ "*")
| renders_code s : renders (InlineCode s) ("`" ^^ s ^^ "`")
| renders_link title target href :
    safeMarkdownHref target = Some href -> renders (Link href title) (link_source title target)
| renders_refused title target :
    safeMarkdownHref target = None -> renders (Text title) (link_source title target).

Lemma lazy_until_head c s m r :
  lazy_until (String c "") s = Some (m, r) -> starts_with (String c "") m = false.
Proof.
  destruct s as [|d s]; cbn [lazy_until starts_with]; [done|]. rewrite andb_true_r.
  destruct (Ascii.eqb c d) eqn:E; [by intros [= <- _]|].
  destruct (one_line d); [|done]. intros ([m' r'] & _ & [= -> ->])%fmap_Some. simpl. by rewrite E.
Qed.

Lemma marked_length mark m n :
  (n <= 2 * slen mark)%nat -> (n <=? slen (mark ^^ m ^^ mark))%nat = true.
Proof. intros H. apply Nat.leb_le. rewrite !slen_sapp. lia. Qed.

Lemma strong_node m : token_node ("**" ^^ m ^^ "**") = Strong m.
Proof.
  unfold token_node. rewrite starts_with_sapp, <- sapp_assoc, ends_with_sapp, sapp_assoc.
  rewrite marked_length by (simpl; lia).
  cbn [andb]. f_equal. apply (inner_sapp "**").
Qed.

Lemma em_node m : starts_with "*" m = false -> token_node ("*" ^^ m ^^ "*") = Em m.
Proof.
  intros Hm. unfold token_node.
  replace (starts_with "**" _ && _ && _) with false.
  - rewrite starts_with_sapp, <- sapp_assoc, ends_with_sapp, sapp_assoc.
    rewrite marked_length by (simpl; lia).
    cbn [andb]. f_equal. apply (inner_sapp "*").
  - destruct m as [|c m]; [done|]. cbn [starts_with] in Hm. rewrite andb_true_r in Hm.
    cbn [starts_with sapp]. by rewrite Hm.
Qed.

Lemma code_node m : token_node ("`" ^^ m ^^ "`") = InlineCode m.
Proof.
  unfold token_node. change (starts_with "**" _) with false. change (starts_with "*" _) with false. cbn [andb].
  rewrite starts_with_sapp, <- sapp_assoc, ends_with_sapp, sapp_assoc.
  rewrite marked_length by (simpl; lia).
  cbn [andb]. f_equal. apply (inner_sapp "`").
Qed.

Lemma link_node s t v r :
  titleMatch s = Some (t, v, r) ->
  token_node (link_source t v) = match safeMarkdownHref v with None => Text t | Some href => Link href t end.
Proof.
  intros H. unfold token_node, link_source.
  change (starts_with "**" _) with false. change (starts_with "*" _) with false.
  change (starts_with "`" _) with false. rewrite starts_with_sapp.
  rewrite <- (sapp_assoc "[" t), includes_sapp.
  replace (ends_with ")" _) with true
    by (rewrite <- (sapp_assoc "]("), <- (sapp_assoc ("[" ^^ t)), ends_with_sapp; done).
  cbn [andb]. unfold titleMatch in *. destruct (starts_with "[" s); [|done].
  apply link_body_self in H. rewrite sapp_assoc, starts_with_sapp.
  change (skip 1 ("[" ^^ ?x)) with x. by rewrite H.
Qed.

(** What one match is: a node, its source, and the text after it. *)
Lemma match_at_renders s token rest :
  match_at s = Some (token, rest) ->
  s = token ^^ rest /\ (2 <= slen token)%nat /\ renders (token_node token) token.
Proof.
  assert (Hd : forall mark, delimited mark s = Some (token, rest) -> exists m,
      lazy_until mark (skip (slen mark) s) = Some (m, rest) /\ token = mark ^^ m ^^ mark /\ s = token ^^ rest).
  { intros mark. unfold delimited. destruct (starts_with mark s) eqn:E; [|done].
    intros ([m r] & El & [= -> ->])%fmap_Some. exists m. do 2 (split; [done|]).
    rewrite (starts_with_skip _ _ E) at 1. apply lazy_until_source in El. by rewrite El, !sapp_assoc. }
  unfold match_at. destruct (delimited "**" s) as [[t r]|] eqn:E1; cbn [or_match].
  { intros [= -> ->]. destruct (Hd _ E1) as (m & _ & -> & ->). rewrite strong_node. repeat split; [|constructor].
    rewrite !slen_sapp. simpl. lia. }
  destruct (delimited "*" s) as [[t r]|] eqn:E2; cbn [or_match].
  { intros [= -> ->]. destruct (Hd _ E2) as (m & Hm%lazy_until_head & -> & ->). rewrite em_node by done.
    repeat split; [|constructor]. rewrite !slen_sapp. simpl. lia. }
  destruct (delimited "`" s) as [[t r]|] eqn:E3; cbn [or_match].
  { intros [= -> ->]. destruct (Hd _ E3) as (m & _ & -> & ->). rewrite code_node. repeat split; [|constructor].
    rewrite !slen_sapp. simpl. lia. }
  intros ([[t v] r] & E & [= -> ->])%fmap_Some. cbn [fst snd]. rewrite (link_node _ _ _ _ E). split; [|split].
  - unfold titleMatch in E. destruct (starts_with "[" s) eqn:Es; [|done].
    apply link_body_source in E. unfold link_source. rewrite (starts_with_skip _ _ Es) at 1.
    change (slen "[") with 1%nat. by rewrite E, !sapp_assoc.
  - unfold link_source. rewrite !slen_sapp. simpl. lia.
  - destruct (safeMarkdownHref v) eqn:Eh; by constructor.
Qed.

Lemma regex_exec_split s plain token rest :
  regex_exec s = Some (plain, token, rest) ->
  s = plain ^^ token ^^ rest /\ match_at (token ^^ rest) = Some (token, rest).
Proof.
  revert plain token rest. induction s as [|c s IH]; intros plain token rest; cbn [regex_exec].
  - by destruct (match_at "") as [[? ?]|] eqn:E.
  - destruct (match_at (String c s)) as [[t r]|] eqn:E.
    + intros [= <- <- <-]. destruct (match_at_renders _ _ _ E) as [Hs _]. by rewrite <- Hs.
    + intros ([[p t] r] & E' & [= -> -> ->])%fmap_Some. destruct (IH _ _ _ E') as [Hs Hm].
      cbn [sapp fst snd]. by rewrite <- Hs.
Qed.

Lemma regex_exec_renders s plain token rest :
  regex_exec s = Some (plain, token, rest) ->
  s = plain ^^ token ^^ rest /\ (slen rest < slen s)%nat /\ renders (token_node token) token.
Proof.
  intros [Hs (_ & Hl & Hr)%match_at_renders]%regex_exec_split. split; [done|]. split; [|done].
  rewrite Hs, !slen_sapp. lia.
Qed.

Lemma inline_loop_enough fuel text : (slen text <= fuel)%nat -> is_Some (inline_loop fuel text).
Proof.
  revert text. induction fuel as [|f IH]; intros text H; cbn [inline_loop];
    destruct (regex_exec text) as [[[p t] r]|] eqn:E; eauto;
    destruct (regex_exec_renders _ _ _ _ E) as (_ & Hr & _); [lia|].
  destruct (IH r) as [l ->]; [lia|]. eauto.
Qed.

Definition concat_strings (l : list string) : string := foldr sapp "" l.

Lemma push_text_renders s l srcs :
  Forall2 renders l srcs -> exists srcs', Forall2 renders (push_text s ++ l) srcs'
    /\ concat_strings srcs' = s ^^ concat_strings srcs.
Proof.
  intros H. unfold push_text. destruct (String.eqb_spec s "") as [->|Hs]; [by exists srcs|].
  exists (s :: srcs). split; [|done]. by repeat constructor.
Qed.

Lemma inline_loop_renders fuel text l :
  inline_loop fuel text = Some l ->
  exists srcs, Forall2 renders l srcs /\ concat_strings srcs = text.
Proof.
  revert text l. induction fuel as [|f IH]; intros text l; cbn [inline_loop];
    destruct (regex_exec text) as [[[p t] r]|] eqn:E; try done.
  1, 3: intros [= <-]; destruct (push_text_renders text [] [] ltac:(constructor)) as (x & Hx & Ex);
    rewrite app_nil_r in Hx; exists x; split; [done|]; by rewrite Ex; apply sapp_nil_r.
  intros (l' & E' & ->)%fmap_Some. destruct (IH _ _ E') as (x & Hx & Ex).
  destruct (regex_exec_renders _ _ _ _ E) as (-> & _ & Hr).
  destruct (push_text_renders p (token_node t :: l') (t :: x)) as (y & Hy & Ey); [by constructor|].
  exists y. split; [done|]. rewrite Ey. cbn [concat_strings foldr]. by rewrite <- Ex.
Qed.

Lemma renderInline_loop text : inline_loop (slen text) text = Some (renderInline text).
Proof. unfold renderInline. by destruct (inline_loop_enough (slen text) text) as [l ->]. Qed.

(** Inline rendering loses and invents nothing but markers: the text is cut
    into consecutive pieces, one per node, and each piece is the node's own text,
    that text between the markers of strong, emphasised or inline code, or a
    link's title and target; a link whose target is refused leaves its title. *)
Theorem inline_lossless text :
  exists pieces, Forall2 renders (renderInline text) pieces /\ concat_strings pieces = text.
Proof. apply (inline_loop_renders (slen text)), renderInline_loop. Qed.

(** ** Links of a message *)

Definition block_inlines (b : block) : list inline :=
  match b with
  | CodeBlock _ _ | HorizontalRule => []
  | Heading _ text | Paragraph text => text
  | Blockquote l | UnorderedList l | OrderedList l => concat l
  | Table header rows => concat header ++ concat (map (fun r => concat r) rows)
  end.

Definition view_inlines (v : view) : list inline :=
  match v with Body blocks _ => concat (map block_inlines blocks) | _ => [] end.

Definition safe_href (href : string) : Prop :=
  href <> "" /\ existsb (fun p => starts_with p (to_lower href)) scripting_schemes = false
  /\ exists protocol, url_protocol href = Some protocol /\ protocol ∈ link_schemes.

Definition safe_node (n : inline) : Prop := match n with Link href _ => safe_href href | _ => True end.

Lemma safeMarkdownHref_safe value href : safeMarkdownHref value = Some href -> safe_href href.
Proof.
  unfold safeMarkdownHref. destruct (String.eqb_spec (trim value) ""); [done|]. cbn [orb].
  destruct (existsb _ scripting_schemes) eqn:Es; [done|].
  destruct (url_protocol _) as [p|] eqn:Ep; [|done]. destruct (existsb _ link_schemes) eqn:El; [|done].
  intros [= <-]. repeat split; [done..|]. exists p. split; [done|].
  apply existsb_exists in El as (x & Hx & ->%String.eqb_eq). by apply list_elem_of_In.
Qed.

Lemma renderInline_safe text : Forall safe_node (renderInline text).
Proof.
  destruct (inline_loop_renders _ _ _ (renderInline_loop text)) as (srcs & H & _).
  induction H as [|n src l l' Hr _ IH]; constructor; [|done].
  destruct Hr; simpl; eauto using safeMarkdownHref_safe.
Qed.

Lemma concat_safe {A} (f : A -> list inline) l :
  (forall x, Forall safe_node (f x)) -> Forall safe_node (concat (map f l)).
Proof. intros H. induction l; simpl; [constructor|]. by apply Forall_app. Qed.

Hint Resolve renderInline_safe concat_safe : core.

Lemma parse_block_safe line rest : Forall safe_node (concat (map block_inlines (parse_block line rest).1)).
Proof.
  unfold parse_block, items. repeat case_match; simpl; rewrite ?app_nil_r; auto.
  apply Forall_app. split; auto. rewrite map_map. auto.
Qed.

Lemma block_loop_safe fuel lines bs :
  block_loop fuel lines = Some bs -> Forall safe_node (concat (map block_inlines bs)).
Proof.
  revert lines bs. induction fuel as [|f IH]; intros [|line rest] bs; cbn [block_loop]; try done.
  1, 2: intros [= <-]; constructor.
  pose proof (parse_block_safe line rest) as Hp. destruct (parse_block line rest) as [pushed after].
  intros (l & E & ->)%fmap_Some. rewrite map_app, concat_app. apply Forall_app. eauto.
Qed.

(** C36: Every link of a rendered message was let through by the scheme check:
    its target is not empty, does not begin with a scripting scheme in any case,
    and the browser reads it as http, https or mailto. *)
Theorem markdown_links_safe fuel content isStreaming v href title :
  MarkdownView fuel content isStreaming = Some v -> Link href title ∈ view_inlines v -> safe_href href.
Proof.
  intros Hv Hl. assert (Forall safe_node (view_inlines v)) as H.
  { revert Hv. unfold MarkdownView. destruct (content === "").
    - intros [= <-]. by destruct isStreaming.
    - intros (bs & E & ->)%fmap_Some. by eapply block_loop_safe. }
  rewrite Forall_forall in H. apply (H _ Hl).
Qed.

(** ** Termination of the block parser *)

(** A line that starts with a number sign and is neither a heading of level one
    to four nor the header of a table. *)
Definition tag_line (line : string) (rest : list string) : bool :=
  starts_with "#" line
  && negb (starts_with "# " line || starts_with "## " line || starts_with "### " line || starts_with "#### " line)
  && negb (table_starts line rest).

(** One turn of the loop, from the lines at one [i] to those at the next. *)
Definition block_step (lines lines' : list string) : Prop :=
  match lines with [] => False | line :: rest => (parse_block line rest).2 = lines' end.

Lemma trim_solid_head c s : is_space c = false -> trim (String c s) = String c (trim_end s).
Proof. intros H. unfold trim. rewrite trim_start_solid by done. apply (trim_end_app "" c s H). Qed.

Lemma fence_head line : starts_with "```" line = true -> fence line = true.
Proof.
  intros [t ->]%starts_with_iff. unfold fence.
  change ("```" ^^ t) with (String "`" ("`" ^^ String "`" t)). rewrite trim_solid_head by done.
  rewrite trim_end_app by done. apply (starts_with_sapp "```").
Qed.

Lemma lines_while_length p lines : (length (lines_while p lines).2 <= length lines)%nat.
Proof.
  induction lines as [|l ls IH]; simpl; [done|]. destruct (p l); [|done].
  destruct (lines_while p ls). simpl in *. lia.
Qed.

Lemma lines_while_head p line rest :
  p line = true -> (length (lines_while p (line :: rest)).2 <= length rest)%nat.
Proof.
  intros H. simpl. rewrite H. pose proof (lines_while_length p rest). by destruct (lines_while p rest).
Qed.

Lemma tag_line_stuck line rest :
  tag_line line rest = true -> parse_block line rest = ([Paragraph (renderInline "")], line :: rest).
Proof.
  unfold tag_line. rewrite !andb_true_iff, !negb_true_iff, !orb_false_iff.
  intros [[H [[[H1 H2] H3] H4]] Ht]. pose proof H as [t ->]%starts_with_iff.
  unfold parse_block. rewrite H1, H2, H3, H4, Ht. cbn [sapp] in *. unfold fence, horizontal_rule.
  rewrite !trim_solid_head by done. cbn [lines_while paragraph_line].
  unfold paragraph_line. rewrite H, trim_solid_head by done.
  assert (has_item bullet_item (String "#" t) = false) as -> by by destruct t.
  reflexivity.
Qed.

Lemma tail_length {A} (l : list A) : (length (tail l) <= length l)%nat.
Proof. destruct l; simpl; lia. Qed.

Lemma parse_block_progress line rest :
  tag_line line rest = false -> (length (parse_block line rest).2 <= length rest)%nat.
Proof.
  intros Htag. unfold parse_block. destruct (fence line) eqn:Hf.
  { pose proof (lines_while_length (fun l => negb (fence l)) rest) as H.
    destruct (lines_while _ rest) as [body after]. cbn [snd] in *. pose proof (tail_length after). lia. }
  destruct (starts_with "# " line) eqn:H1; [done|]. destruct (starts_with "## " line) eqn:H2; [done|].
  destruct (starts_with "### " line) eqn:H3; [done|]. destruct (starts_with "#### " line) eqn:H4; [done|].
  destruct (starts_with "> " line) eqn:Hq.
  { pose proof (lines_while_head (starts_with "> ") line rest Hq). by destruct (lines_while _ _). }
  destruct (has_item bullet_item line) eqn:Hb.
  { pose proof (lines_while_head _ line rest Hb). by destruct (lines_while _ _). }
  destruct (has_item numbered_item line) eqn:Hn.
  { pose proof (lines_while_head _ line rest Hn). by destruct (lines_while _ _). }
  destruct (horizontal_rule line) eqn:Hr; [done|].
  destruct (table_starts line rest) eqn:Ht.
  { pose proof (lines_while_length (includes "|") (tail rest)). pose proof (tail_length rest).
    destruct (lines_while _ (tail rest)). cbn [snd] in *. lia. }
  destruct (trim line === "") eqn:He; [done|].
  assert (paragraph_line line = true) as Hp.
  { unfold tag_line in Htag. rewrite H1, H2, H3, H4, Ht in Htag. cbn [orb negb] in Htag. rewrite !andb_true_r in Htag.
    unfold paragraph_line. rewrite He, Htag, Hq, Hb, Hn, Hr.
    destruct (starts_with "```" line) eqn:E; [|done]. apply fence_head in E. congruence. }
  pose proof (lines_while_head _ line rest Hp). by destruct (lines_while paragraph_line _).
Qed.

Lemma tag_line_diverges fuel line rest :
  tag_line line rest = true -> block_loop fuel (line :: rest) = None.
Proof.
  intros H. induction fuel as [|f IH]; cbn [block_loop]; [done|].
  by rewrite (tag_line_stuck _ _ H), IH.
Qed.

Lemma block_loop_next fuel line rest :
  block_loop (S fuel) (line :: rest) = app (parse_block line rest).1 <$> block_loop fuel (parse_block line rest).2.
Proof. cbn [block_loop]. by destruct (parse_block line rest). Qed.

Definition finishes (lines : list string) : Prop :=
  (forall fuel, (length lines <= fuel)%nat -> is_Some (block_loop fuel lines))
  /\ forall line rest, rtc block_step lines (line :: rest) -> tag_line line rest = false.

Definition loops (lines : list string) : Prop :=
  (forall fuel, block_loop fuel lines = None)
  /\ exists line rest, rtc block_step lines (line :: rest) /\ tag_line line rest = true.

Lemma finishes_step line rest :
  tag_line line rest = false -> finishes (parse_block line rest).2 -> finishes (line :: rest).
Proof.
  intros Ht [Hf Hr]. pose proof (parse_block_progress _ _ Ht) as Hp. split.
  - intros [|f] H; simpl in H; [lia|]. rewrite block_loop_next.
    destruct (Hf f) as [l ->]; [lia|]. eauto.
  - intros l r H. inversion H as [|? y ? Hstep Hrest]; subst; [done|]. cbn in Hstep. subst. by apply Hr.
Qed.

Lemma loops_step line rest : loops (parse_block line rest).2 -> loops (line :: rest).
Proof.
  intros [Hf (l & r & Hr & Ht)]. split.
  - intros [|f]; [done|]. by rewrite block_loop_next, Hf.
  - exists l, r. split; [|done]. by eapply rtc_l.
Qed.

Lemma finishes_or_loops n lines : (length lines <= n)%nat -> finishes lines \/ loops lines.
Proof.
  revert lines. induction n as [|n IH]; intros [|line rest] H; simpl in H; try lia.
  1, 2: left; split; [by intros [|f] _; eexists | intros l r Hr; inversion Hr; subst; done].
  destruct (tag_line line rest) eqn:Ht.
  - right. split; [intros f; by apply tag_line_diverges|]. exists line, rest. split; [apply rtc_refl|done].
  - pose proof (parse_block_progress _ _ Ht).
    destruct (IH (parse_block line rest).2) as [Hf|Hl]; [lia| |]; eauto using finishes_step, loops_step.
Qed.

(** C35: The block parser ends on a message exactly when its loop never stands at
    a line that starts with a number sign without being a heading of level one
    to four or the header of a table. Then one turn per line is enough; otherwise
    no number of turns is, and the code pushes empty paragraphs for ever. *)
Theorem markdown_terminates raw :
  let lines := split_char LF raw in
  ((exists fuel bs, parseBlocks fuel raw = Some bs) <-> is_Some (parseBlocks (length lines) raw))
  /\ (is_Some (parseBlocks (length lines) raw)
      <-> ~ exists line rest, rtc block_step lines (line :: rest) /\ tag_line line rest = true).
Proof.
  intros lines. unfold parseBlocks. fold lines.
  destruct (finishes_or_loops (length lines) lines) as [[Hf Hr]|[Hf Hr]]; [done| |].
  - split; [split; [eauto|intros [bs ?]; eauto]|]. split; [|eauto].
    intros _ (l & r & H & Ht). rewrite (Hr _ _ H) in Ht. done.
  - split; split.
    + intros (fuel & bs & E). by rewrite Hf in E.
    + intros [bs E]. by rewrite Hf in E.
    + intros [bs E]. by rewrite Hf in E.
    + done.
Qed.

Lemma lines_while_suffix p lines : (lines_while p lines).2 `suffix_of` lines.
Proof.
  induction lines as [|l ls IH]; simpl; [done|]. destruct (p l); [|done].
  destruct (lines_while p ls). by apply suffix_cons_r.
Qed.

Lemma tail_suffix {A} (l : list A) : tail l `suffix_of` l.
Proof. destruct l; [done|]. by apply suffix_cons_r. Qed.

Lemma parse_block_suffix line rest : (parse_block line rest).2 `suffix_of` line :: rest.
Proof.
  assert (rest `suffix_of` line :: rest) as Hr by by apply suffix_cons_r.
  unfold parse_block. repeat case_match; try exact Hr;
    match goal with E : lines_while ?p ?l = _ |- _ => pose proof (lines_while_suffix p l) as H'; rewrite E in H' end;
    cbn [snd] in *; try done;
    etrans; first [exact H' | exact (tail_suffix rest) | apply tail_suffix | idtac];
    etrans; first [exact H' | apply tail_suffix | idtac]; exact Hr.
Qed.

Lemma reached_suffix lines lines' : rtc block_step lines lines' -> lines' `suffix_of` lines.
Proof.
  induction 1 as [|x y z H _ IH]; [done|]. etrans; [exact IH|].
  destruct x as [|line rest]; [done|]. cbn in H. subst. apply parse_block_suffix.
Qed.

(** A message whose number signs at the start of a line all begin headings is
    rendered. *)
Lemma headings_render raw :
  Forall (fun l => starts_with "#" l = true ->
    starts_with "# " l || starts_with "## " l || starts_with "### " l || starts_with "#### " l = true)
    (split_char LF raw) ->
  is_Some (parseBlocks (length (split_char LF raw)) raw).
Proof.
  intros H. unfold parseBlocks.
  destruct (finishes_or_loops _ (split_char LF raw) (Nat.le_refl _)) as [[Hf _]|(_ & l & r & Hr & Ht)]; [by apply Hf|].
  apply reached_suffix in Hr as [pre E]. rewrite E, Forall_app in H. destruct H as [_ H].
  inversion H as [|? ? Hl _]; subst. unfold tag_line in Ht.
  rewrite !andb_true_iff, !negb_true_iff in Ht. destruct Ht as [[H1 H2] _]. rewrite (Hl H1) in H2. done.
Qed.

(** The second line of what the code takes for a table is dropped, whatever
    it says, as soon as it holds a dash or a colon. *)
Lemma table_drops_line line next rest :
  fence line = false -> starts_with "#" line = false -> starts_with "> " line = false ->
  has_item bullet_item line = false -> has_item numbered_item line = false -> horizontal_rule line = false ->
  includes "|" line = true -> includes ":" next = true ->
  (parse_block line (next :: rest)).1
  = [Table (map renderInline (cells line))
      (map (map renderInline) (List.filter (fun r => negb (bool_decide (r = [])))
         (map cells (lines_while (includes "|") rest).1)))].
Proof.
  intros Hf Hh Hq Hb Hn Hr Hp Hc. unfold parse_block.
  assert (forall p, starts_with ("#" ^^ p) line = false) as Hs.
  { intros p. apply not_true_iff_false. intros [t ->]%starts_with_iff. rewrite sapp_assoc, starts_with_sapp in Hh. done. }
  pose proof (Hs " ") as H1. pose proof (Hs "# ") as H2. pose proof (Hs "## ") as H3. pose proof (Hs "### ") as H4.
  cbn [sapp] in H1, H2, H3, H4. rewrite Hf, H1, H2, H3, H4, Hq, Hb, Hn, Hr.
  assert (table_starts line (next :: rest) = true) as ->.
  { unfold table_starts, divider. rewrite Hp, Hc, orb_true_r. by destruct next. }
  cbn [tail]. by destruct (lines_while (includes "|") rest).
Qed.

End Markdown.

(** ** Examples *)

Definition browser_url (href : string) : option string :=
  if starts_with "mailto:" href then Some "mailto:" else Some "https:".

Lemma markdown_links_safe_witness :
  exists v, MarkdownView browser_url 2 ("# [a](mailto:x)" ^^ String LF "[b]( JavaScript:x)") false = Some v
    /\ Link "mailto:x" "a" ∈ view_inlines v /\ safe_href browser_url "mailto:x".
Proof.
  eexists. split; [vm_compute; reflexivity|]. split; [apply list_elem_of_here|].
  refine (markdown_links_safe browser_url 2 ("# [a](mailto:x)" ^^ String LF "[b]( JavaScript:x)") false _ _ "a" _ _).
  - vm_compute. reflexivity.
  - apply list_elem_of_here.
Defined.

(** Two stars that open nothing vanish: the expression reads them as emphasis of
    nothing. *)
Example lone_stars_vanish : renderInline browser_url "2**10" = [Text "2"; Em ""; Text "10"].
Proof. reflexivity. Qed.

(** A plain message that makes the parser loop. *)
Example issue_reference_loops fuel : MarkdownView browser_url fuel "#42 is fixed" false = None.
Proof.
  unfold MarkdownView. cbn [String.eqb]. unfold parseBlocks.
  change (split_char LF _) with ["#42 is fixed"]. by rewrite tag_line_diverges.
Qed.
