(* ===== verification/Desktop.v ===== *)
(** * The desktop shell

    Model of desktop/electron/main.cjs, the main process of the Electron
    application: its settings and the secrets in them, the log, the search for
    Codex, and the gateway process it starts, watches and stops. Electron, the
    operating system's secret storage, the file system and the network are
    arguments: an event carries the answer of the call the code waited for.

    Every process the shell spawned has a number, and the events of a process name
    it, as the handlers of the source are attached to a process. What is sent to
    the window after a change is [getState], so it is not recorded. *)

From Stdlib Require Import Ascii.
From S2P Require Import Prelude JsValue CodexEvents Base64 EnvFile CodexPath ServerConfig.

Local Open Scope Z_scope.

(** ** State *)

(** [settings]: a readable settings file holds an object, as the shell writes it. *)
Definition settings : Type := jmap string val.

(** A spawned gateway: its environment, whether it was signalled, whether its
    exit was seen. *)
Record gateway_process := mkProcess { gp_env : jmap string string; gp_killed : bool; gp_exited : bool }.

(** What the promise of [startGateway] waits for. *)
Inductive start_stage := AskHealth | AskExternal | AskPort | AwaitHealth | AskStatus.

(** What a caller of [startGateway] does when it returns. *)
Inductive after_start := AfterSave | AfterBoot | AfterRestart.

(** What writing the settings file does: it replaces the file, or it throws and
    leaves the file as it was, or it throws after the file was emptied. *)
Inductive settings_disk := DiskWrites | DiskRefuses (message : string) | DiskTruncates (message : string).

(** The module's variables; [dk_file] is the settings file ([None]: missing or
    unreadable), [dk_logins] the
    sign-in requests under way (true for those of [openWorkspace]), [dk_posted]
    the accounts and passwords ever posted, [dk_page] the address the window
    shows (none for the console), [dk_window] whether there is a window and
    whether it is shown, [dk_threw] the errors the handlers threw, [dk_disk] how
    the disk answers the next write of the settings. *)
Record desktop := mkDesktop {
  dk_settings : settings;
  dk_file : option settings;
  dk_process : option nat;
  dk_managed : bool;
  dk_external : bool;
  dk_error : string;
  dk_relayConnected : bool;
  dk_relayError : string;
  dk_login : string;
  dk_lastRelay : string;
  dk_log : list string;
  dk_logFile : list string;
  dk_starting : option start_stage;
  dk_resume : list after_start;
  dk_stopping : list bool;
  dk_logins : list bool;
  dk_posted : list (val * string);
  dk_cookies : jmap string string;
  dk_page : option string;
  dk_quitting : bool;
  dk_window : option bool;
  dk_tray : bool;
  dk_procs : list gateway_process;
  dk_threw : list string;
  dk_disk : settings_disk
}.

Definition with_dk_settings (v : settings) (r : desktop) : desktop :=
  mkDesktop v (dk_file r) (dk_process r) (dk_managed r) (dk_external r) (dk_error r)
    (dk_relayConnected r) (dk_relayError r) (dk_login r) (dk_lastRelay r) (dk_log r) (dk_logFile r)
    (dk_starting r) (dk_resume r) (dk_stopping r) (dk_logins r) (dk_posted r) (dk_cookies r)
    (dk_page r) (dk_quitting r) (dk_window r) (dk_tray r) (dk_procs r) (dk_threw r) (dk_disk r).
Definition with_dk_file (v : option settings) (r : desktop) : desktop :=
  mkDesktop (dk_settings r) v (dk_process r) (dk_managed r) (dk_external r) (dk_error r)
    (dk_relayConnected r) (dk_relayError r) (dk_login r) (dk_lastRelay r) (dk_log r) (dk_logFile r)
    (dk_starting r) (dk_resume r) (dk_stopping r) (dk_logins r) (dk_posted r) (dk_cookies r)
    (dk_page r) (dk_quitting r) (dk_window r) (dk_tray r) (dk_procs r) (dk_threw r) (dk_disk r).
Definition with_dk_process (v : option nat) (r : desktop) : desktop :=
  mkDesktop (dk_settings r) (dk_file r) v (dk_managed r) (dk_external r) (dk_error r)
    (dk_relayConnected r) (dk_relayError r) (dk_login r) (dk_lastRelay r) (dk_log r) (dk_logFile r)
    (dk_starting r) (dk_resume r) (dk_stopping r) (dk_logins r) (dk_posted r) (dk_cookies r)
    (dk_page r) (dk_quitting r) (dk_window r) (dk_tray r) (dk_procs r) (dk_threw r) (dk_disk r).
Definition with_dk_managed (v : bool) (r : desktop) : desktop :=
  mkDesktop (dk_settings r) (dk_file r) (dk_process r) v (dk_external r) (dk_error r)
    (dk_relayConnected r) (dk_relayError r) (dk_login r) (dk_lastRelay r) (dk_log r) (dk_logFile r)
    (dk_starting r) (dk_resume r) (dk_stopping r) (dk_logins r) (dk_posted r) (dk_cookies r)
    (dk_page r) (dk_quitting r) (dk_window r) (dk_tray r) (dk_procs r) (dk_threw r) (dk_disk r).
Definition with_dk_external (v : bool) (r : desktop) : desktop :=
  mkDesktop (dk_settings r) (dk_file r) (dk_process r) (dk_managed r) v (dk_error r)
    (dk_relayConnected r) (dk_relayError r) (dk_login r) (dk_lastRelay r) (dk_log r) (dk_logFile r)
    (dk_starting r) (dk_resume r) (dk_stopping r) (dk_logins r) (dk_posted r) (dk_cookies r)
    (dk_page r) (dk_quitting r) (dk_window r) (dk_tray r) (dk_procs r) (dk_threw r) (dk_disk r).
Definition with_dk_error (v : string) (r : desktop) : desktop :=
  mkDesktop (dk_settings r) (dk_file r) (dk_process r) (dk_managed r) (dk_external r) v
    (dk_relayConnected r) (dk_relayError r) (dk_login r) (dk_lastRelay r) (dk_log r) (dk_logFile r)
    (dk_starting r) (dk_resume r) (dk_stopping r) (dk_logins r) (dk_posted r) (dk_cookies r)
    (dk_page r) (dk_quitting r) (dk_window r) (dk_tray r) (dk_procs r) (dk_threw r) (dk_disk r).
Definition with_dk_relayConnected (v : bool) (r : desktop) : desktop :=
  mkDesktop (dk_settings r) (dk_file r) (dk_process r) (dk_managed r) (dk_external r) (dk_error r) v
    (dk_relayError r) (dk_login r) (dk_lastRelay r) (dk_log r) (dk_logFile r) (dk_starting r)
    (dk_resume r) (dk_stopping r) (dk_logins r) (dk_posted r) (dk_cookies r) (dk_page r)
    (dk_quitting r) (dk_window r) (dk_tray r) (dk_procs r) (dk_threw r) (dk_disk r).
Definition with_dk_relayError (v : string) (r : desktop) : desktop :=
  mkDesktop (dk_settings r) (dk_file r) (dk_process r) (dk_managed r) (dk_external r) (dk_error r)
    (dk_relayConnected r) v (dk_login r) (dk_lastRelay r) (dk_log r) (dk_logFile r) (dk_starting r)
    (dk_resume r) (dk_stopping r) (dk_logins r) (dk_posted r) (dk_cookies r) (dk_page r)
    (dk_quitting r) (dk_window r) (dk_tray r) (dk_procs r) (dk_threw r) (dk_disk r).
Definition with_dk_login (v : string) (r : desktop) : desktop :=
  mkDesktop (dk_settings r) (dk_file r) (dk_process r) (dk_managed r) (dk_external r) (dk_error r)
    (dk_relayConnected r) (dk_relayError r) v (dk_lastRelay r) (dk_log r) (dk_logFile r)
    (dk_starting r) (dk_resume r) (dk_stopping r) (dk_logins r) (dk_posted r) (dk_cookies r)
    (dk_page r) (dk_quitting r) (dk_window r) (dk_tray r) (dk_procs r) (dk_threw r) (dk_disk r).
Definition with_dk_lastRelay (v : string) (r : desktop) : desktop :=
  mkDesktop (dk_settings r) (dk_file r) (dk_process r) (dk_managed r) (dk_external r) (dk_error r)
    (dk_relayConnected r) (dk_relayError r) (dk_login r) v (dk_log r) (dk_logFile r) (dk_starting r)
    (dk_resume r) (dk_stopping r) (dk_logins r) (dk_posted r) (dk_cookies r) (dk_page r)
    (dk_quitting r) (dk_window r) (dk_tray r) (dk_procs r) (dk_threw r) (dk_disk r).
Definition with_dk_log (v : list string) (r : desktop) : desktop :=
  mkDesktop (dk_settings r) (dk_file r) (dk_process r) (dk_managed r) (dk_external r) (dk_error r)
    (dk_relayConnected r) (dk_relayError r) (dk_login r) (dk_lastRelay r) v (dk_logFile r)
    (dk_starting r) (dk_resume r) (dk_stopping r) (dk_logins r) (dk_posted r) (dk_cookies r)
    (dk_page r) (dk_quitting r) (dk_window r) (dk_tray r) (dk_procs r) (dk_threw r) (dk_disk r).
Definition with_dk_logFile (v : list string) (r : desktop) : desktop :=
  mkDesktop (dk_settings r) (dk_file r) (dk_process r) (dk_managed r) (dk_external r) (dk_error r)
    (dk_relayConnected r) (dk_relayError r) (dk_login r) (dk_lastRelay r) (dk_log r) v (dk_starting
    r) (dk_resume r) (dk_stopping r) (dk_logins r) (dk_posted r) (dk_cookies r) (dk_page r)
    (dk_quitting r) (dk_window r) (dk_tray r) (dk_procs r) (dk_threw r) (dk_disk r).
Definition with_dk_starting (v : option start_stage) (r : desktop) : desktop :=
  mkDesktop (dk_settings r) (dk_file r) (dk_process r) (dk_managed r) (dk_external r) (dk_error r)
    (dk_relayConnected r) (dk_relayError r) (dk_login r) (dk_lastRelay r) (dk_log r) (dk_logFile r)
    v (dk_resume r) (dk_stopping r) (dk_logins r) (dk_posted r) (dk_cookies r) (dk_page r)
    (dk_quitting r) (dk_window r) (dk_tray r) (dk_procs r) (dk_threw r) (dk_disk r).
Definition with_dk_resume (v : list after_start) (r : desktop) : desktop :=
  mkDesktop (dk_settings r) (dk_file r) (dk_process r) (dk_managed r) (dk_external r) (dk_error r)
    (dk_relayConnected r) (dk_relayError r) (dk_login r) (dk_lastRelay r) (dk_log r) (dk_logFile r)
    (dk_starting r) v (dk_stopping r) (dk_logins r) (dk_posted r) (dk_cookies r) (dk_page r)
    (dk_quitting r) (dk_window r) (dk_tray r) (dk_procs r) (dk_threw r) (dk_disk r).
Definition with_dk_stopping (v : list bool) (r : desktop) : desktop :=
  mkDesktop (dk_settings r) (dk_file r) (dk_process r) (dk_managed r) (dk_external r) (dk_error r)
    (dk_relayConnected r) (dk_relayError r) (dk_login r) (dk_lastRelay r) (dk_log r) (dk_logFile r)
    (dk_starting r) (dk_resume r) v (dk_logins r) (dk_posted r) (dk_cookies r) (dk_page r)
    (dk_quitting r) (dk_window r) (dk_tray r) (dk_procs r) (dk_threw r) (dk_disk r).
Definition with_dk_logins (v : list bool) (r : desktop) : desktop :=
  mkDesktop (dk_settings r) (dk_file r) (dk_process r) (dk_managed r) (dk_external r) (dk_error r)
    (dk_relayConnected r) (dk_relayError r) (dk_login r) (dk_lastRelay r) (dk_log r) (dk_logFile r)
    (dk_starting r) (dk_resume r) (dk_stopping r) v (dk_posted r) (dk_cookies r) (dk_page r)
    (dk_quitting r) (dk_window r) (dk_tray r) (dk_procs r) (dk_threw r) (dk_disk r).
Definition with_dk_posted (v : list (val * string)) (r : desktop) : desktop :=
  mkDesktop (dk_settings r) (dk_file r) (dk_process r) (dk_managed r) (dk_external r) (dk_error r)
    (dk_relayConnected r) (dk_relayError r) (dk_login r) (dk_lastRelay r) (dk_log r) (dk_logFile r)
    (dk_starting r) (dk_resume r) (dk_stopping r) (dk_logins r) v (dk_cookies r) (dk_page r)
    (dk_quitting r) (dk_window r) (dk_tray r) (dk_procs r) (dk_threw r) (dk_disk r).
Definition with_dk_cookies (v : jmap string string) (r : desktop) : desktop :=
  mkDesktop (dk_settings r) (dk_file r) (dk_process r) (dk_managed r) (dk_external r) (dk_error r)
    (dk_relayConnected r) (dk_relayError r) (dk_login r) (dk_lastRelay r) (dk_log r) (dk_logFile r)
    (dk_starting r) (dk_resume r) (dk_stopping r) (dk_logins r) (dk_posted r) v (dk_page r)
    (dk_quitting r) (dk_window r) (dk_tray r) (dk_procs r) (dk_threw r) (dk_disk r).
Definition with_dk_page (v : option string) (r : desktop) : desktop :=
  mkDesktop (dk_settings r) (dk_file r) (dk_process r) (dk_managed r) (dk_external r) (dk_error r)
    (dk_relayConnected r) (dk_relayError r) (dk_login r) (dk_lastRelay r) (dk_log r) (dk_logFile r)
    (dk_starting r) (dk_resume r) (dk_stopping r) (dk_logins r) (dk_posted r) (dk_cookies r) v
    (dk_quitting r) (dk_window r) (dk_tray r) (dk_procs r) (dk_threw r) (dk_disk r).
Definition with_dk_quitting (v : bool) (r : desktop) : desktop :=
  mkDesktop (dk_settings r) (dk_file r) (dk_process r) (dk_managed r) (dk_external r) (dk_error r)
    (dk_relayConnected r) (dk_relayError r) (dk_login r) (dk_lastRelay r) (dk_log r) (dk_logFile r)
    (dk_starting r) (dk_resume r) (dk_stopping r) (dk_logins r) (dk_posted r) (dk_cookies r)
    (dk_page r) v (dk_window r) (dk_tray r) (dk_procs r) (dk_threw r) (dk_disk r).
Definition with_dk_window (v : option bool) (r : desktop) : desktop :=
  mkDesktop (dk_settings r) (dk_file r) (dk_process r) (dk_managed r) (dk_external r) (dk_error r)
    (dk_relayConnected r) (dk_relayError r) (dk_login r) (dk_lastRelay r) (dk_log r) (dk_logFile r)
    (dk_starting r) (dk_resume r) (dk_stopping r) (dk_logins r) (dk_posted r) (dk_cookies r)
    (dk_page r) (dk_quitting r) v (dk_tray r) (dk_procs r) (dk_threw r) (dk_disk r).
Definition with_dk_tray (v : bool) (r : desktop) : desktop :=
  mkDesktop (dk_settings r) (dk_file r) (dk_process r) (dk_managed r) (dk_external r) (dk_error r)
    (dk_relayConnected r) (dk_relayError r) (dk_login r) (dk_lastRelay r) (dk_log r) (dk_logFile r)
    (dk_starting r) (dk_resume r) (dk_stopping r) (dk_logins r) (dk_posted r) (dk_cookies r)
    (dk_page r) (dk_quitting r) (dk_window r) v (dk_procs r) (dk_threw r) (dk_disk r).
Definition with_dk_procs (v : list gateway_process) (r : desktop) : desktop :=
  mkDesktop (dk_settings r) (dk_file r) (dk_process r) (dk_managed r) (dk_external r) (dk_error r)
    (dk_relayConnected r) (dk_relayError r) (dk_login r) (dk_lastRelay r) (dk_log r) (dk_logFile r)
    (dk_starting r) (dk_resume r) (dk_stopping r) (dk_logins r) (dk_posted r) (dk_cookies r)
    (dk_page r) (dk_quitting r) (dk_window r) (dk_tray r) v (dk_threw r) (dk_disk r).
Definition with_dk_threw (v : list string) (r : desktop) : desktop :=
  mkDesktop (dk_settings r) (dk_file r) (dk_process r) (dk_managed r) (dk_external r) (dk_error r)
    (dk_relayConnected r) (dk_relayError r) (dk_login r) (dk_lastRelay r) (dk_log r) (dk_logFile r)
    (dk_starting r) (dk_resume r) (dk_stopping r) (dk_logins r) (dk_posted r) (dk_cookies r)
    (dk_page r) (dk_quitting r) (dk_window r) (dk_tray r) (dk_procs r) v (dk_disk r).
Definition with_dk_disk (v : settings_disk) (r : desktop) : desktop :=
  mkDesktop (dk_settings r) (dk_file r) (dk_process r) (dk_managed r) (dk_external r) (dk_error r)
    (dk_relayConnected r) (dk_relayError r) (dk_login r) (dk_lastRelay r) (dk_log r) (dk_logFile r)
    (dk_starting r) (dk_resume r) (dk_stopping r) (dk_logins r) (dk_posted r) (dk_cookies r)
    (dk_page r) (dk_quitting r) (dk_window r) (dk_tray r) (dk_procs r) (dk_threw r) v.

(** What the shell runs on. *)
Record machine := mkMachine {
  ma_packaged : bool;
  ma_port : num;
  ma_relay : string;
  ma_env : jmap string string;
  ma_home : string;
  ma_userData : string;
  ma_resources : string;
  ma_dirname : string;
  ma_execPath : string;
  ma_exists : string -> bool;
  ma_where : string -> option string;
  ma_secure : bool;
  ma_encrypt : string -> string;
  ma_decrypt : string -> option string;
  ma_utf8 : string -> string;
  ma_text : string -> string;
  ma_path : node_path;
  ma_disk : settings_disk   (** when the shell starts *)
}.

Section desktop.
Context (M : machine).

(** ** Where things are *)

Definition dataDir : string := np_join (ma_path M) [ma_userData M; "data"].

Definition resourcePath (parts : list string) : string :=
  if ma_packaged M then np_join (ma_path M) (ma_resources M :: parts)
  else np_resolve (ma_path M) (np_join (ma_path M) (ma_dirname M :: ".." :: ".." :: parts)).

Definition gatewayEntry : string :=
  if ma_packaged M then np_join (ma_path M) [ma_resources M; "gateway"; "server"; "dist"; "main.js"]
  else resourcePath ["server"; "dist"; "main.js"].

Definition nodeRuntime : string :=
  if ma_packaged M then np_join (ma_path M) [ma_resources M; "runtime"; "node"; "node.exe"] else ma_execPath M.

(** ** Secrets *)

Definition setting (key : string) (s : settings) : val := default VUndef (mget key s).

Definition protect (value : string) : string :=
  if value === "" then ""
  else if ma_secure M then "enc:" ^^ encode64 (ma_encrypt M value)
  else "plain:" ^^ encode64 (ma_utf8 M value).

Definition unprotect (value : val) : string :=
  match value with
  | VStr s =>
      if s === "" then ""
      else if starts_with "enc:" s then default "" (ma_decrypt M (decode64 (skip 4 s)))
      else if starts_with "plain:" s then ma_text M (decode64 (skip 6 s))
      else ""
  | _ => ""
  end.

Definition currentGatewayPassword (s : settings) : string := unprotect (setting "sessionSecret" s).

(** ** Codex *)

Definition normalizeCodexPath (command : val) : string :=
  let value := trim (to_string (v_or command (VStr ""))) in
  if (value === "") || negb (looksLikePath value) then value
  else if np_extname (ma_path M) value === "" then
    default value (List.find (ma_exists M) (map (fun extension => value ^^ extension) [".cmd"; ".bat"; ".exe"]))
  else value.

(** The lines [where.exe] prints. *)
Definition where_matches (name : string) : option (list string) :=
  (fun out => lookup_lines (Some out)) <$> ma_where M name.

Definition existing_match (matches : list string) : option string :=
  match List.find (ma_exists M) (map (fun value => normalizeCodexPath (VStr value)) matches) with
  | Some s => if s === "" then None else Some s
  | None => None
  end.

Definition resolveCodex (command : val) : option string :=
  let normalized := normalizeCodexPath command in
  if looksLikePath normalized then (if ma_exists M normalized then Some normalized else None)
  else match where_matches normalized with
       | Some matches => existing_match matches
       | None => None
       end.

Definition detectCodex : string :=
  let configured := match mget "CODEX_BIN" (ma_env M) with
                    | Some bin => if bin === "" then None else resolveCodex (VStr bin)
                    | None => None
                    end in
  match configured with
  | Some bin => bin
  | None =>
      match where_matches "codex" with
      | Some matches => default (default "codex" (head matches)) (existing_match matches)
      | None => "codex"
      end
  end.

Definition configuredCodex (s : settings) : string :=
  let configured := setting "codexBin" s in
  default detectCodex (if truthy configured then resolveCodex configured else None).

Definition env_or (key fallback : string) : string := first_nonempty (default "" (mget key (ma_env M))) fallback.

Definition codexHome : string :=
  env_or "CODEX_HOME" (np_join (ma_path M) [env_or "USERPROFILE" (ma_home M); ".codex"]).

(** ** Settings *)

(** What reading back the written file gives. *)
Definition saved (s : settings) : settings :=
  match json_clone (VObj s) with VObj m => m | _ => [] end.

(** The error it throws, if it does; [settings] was replaced before. *)
Definition saveSettingsFile (d : desktop) : option string * desktop :=
  match dk_disk d with
  | DiskWrites => (None, with_dk_file (Some (saved (dk_settings d))) d)
  | DiskRefuses message => (Some message, d)
  | DiskTruncates message => (Some message, with_dk_file None d)
  end.

(** A handler ends with an error. *)
Definition threw (message : string) (d : desktop) : desktop := with_dk_threw (dk_threw d ++ [message]) d.

(** [fresh] is what [makeSecret] returns. *)
Definition with_secret (fresh : string) (s : settings) : settings :=
  if truthy (setting "sessionSecret" s) then s
  else mset "sessionSecret"
         (VStr (protect (first_nonempty (unprotect (setting "gatewayPassword" s)) fresh))) s.

Definition migrated_codex (s : settings) : option string :=
  let configured := setting "codexBin" s in
  if truthy configured then
    match resolveCodex configured with
    | Some bin => if (bin === "") || opt_str_eqb (as_str configured) (Some bin) then None else Some bin
    | None => None
    end
  else None.

Definition loadSettings (fresh : string) (d : desktop) : option string * desktop :=
  let read := default [] (dk_file d) in
  let changed := negb (truthy (setting "sessionSecret" read)) || mhas "username" read || mhas "gatewayPassword" read in
  let d := with_dk_settings (mdelete "gatewayPassword" (mdelete "username" (with_secret fresh read))) d in
  match (if changed then saveSettingsFile d else (None, d)) with
  | (Some message, d) => (Some message, d)
  | (None, d) =>
      match migrated_codex (dk_settings d) with
      | Some bin => saveSettingsFile (with_dk_settings (mset "codexBin" (VStr bin) (dk_settings d)) d)
      | None => (None, d)
      end
  end.

(** ** The log and the relay's state; [now] is the time of day as the log prints it *)

Definition appendLog (now value : string) (d : desktop) : desktop :=
  let lines := List.filter (fun l => l !== "") (map trim_end (file_lines value)) in
  let texts := map (fun line => "[" ^^ now ^^ "] " ^^ line) lines in
  with_dk_logFile (dk_logFile d ++ texts)
    (with_dk_log (lastn 240 (dk_log d ++ map (slice0 (Z.to_nat 4000)) texts)) d).

Definition setRelayLoginState (now next detail : string) (d : desktop) : desktop :=
  if (dk_login d === next) && ((detail === "") || (dk_relayError d === detail)) then d
  else
    let d := with_dk_login next d in
    let d := if detail === "" then d else with_dk_relayError detail d in
    appendLog now ("云端账号状态：" ^^ next ^^ (if detail === "" then "" else "（" ^^ detail ^^ "）")) d.

Definition reportRelayState (now : string) (d : desktop) : desktop :=
  let state := if dk_relayConnected d then "已连接"
               else if dk_relayError d === "" then "连接中" else "错误：" ^^ dk_relayError d in
  if state === dk_lastRelay d then d
  else appendLog now ("中转状态：" ^^ state) (with_dk_lastRelay state d).

(** The answer of [/api/relay/status]. *)
Inductive status_answer := StatusHttp (status : Z) | StatusBody (body : val) | StatusThrew (message : string).

Definition relayStatus (a : status_answer) : bool * string :=
  match a with
  | StatusHttp status => (false, "HTTP " ^^ zstr status)
  | StatusBody body =>
      let relay := prop "relay" body in
      (match prop "connected" relay with VBool true => true | _ => false end,
       if truthy (prop "lastError" relay) then to_string (prop "lastError" relay) else "")
  | StatusThrew message => (false, first_nonempty message "中转状态暂不可用")
  end.

Definition with_relay (s : bool * string) (d : desktop) : desktop :=
  with_dk_relayError s.2 (with_dk_relayConnected s.1 d).

(** Polls of [/healthz]: the time since the start, and whether the answer is good. *)
Fixpoint waitForHealth (timeoutMs : Z) (polls : list (Z * bool)) : bool :=
  match polls with
  | [] => false
  | (elapsed, ok) :: rest => if elapsed <? timeoutMs then (ok || waitForHealth timeoutMs rest) else false
  end.

(** ** The gateway process *)

Definition truthy_or (v : val) (fallback : string) : string := if truthy v then to_string v else fallback.

(** The variables [gatewayEnv] sets over those of the shell. *)
Definition gateway_variables (s : settings) : list (string * string) :=
  let password := currentGatewayPassword s in
  let secret := unprotect (setting "sessionSecret" s) in
  let relayPassword := unprotect (setting "relayPassword" s) in
  [("NODE_ENV", "production"); ("ACODE_FRIENDLY_LOGS", "true"); ("HOST", "127.0.0.1");
   ("PORT", num_str (ma_port M)); ("PUBLIC_ORIGIN", "http://127.0.0.1:" ^^ num_str (ma_port M));
   ("ADMIN_TOKEN", password); ("GATEWAY_AUTH_TOKEN", password); ("GATEWAY_AUTH_PASSWORD", password);
   ("GATEWAY_AUTH_USERNAME", "desktop"); ("SESSION_SECRET", secret); ("CODEX_BIN", configuredCodex s);
   ("CODEX_HOME", truthy_or (setting "codexHome" s) codexHome); ("RELAY_URL", ma_relay M);
   ("RELAY_ACCOUNT_USERNAME", truthy_or (setting "relayUsername" s) "");
   ("RELAY_ACCOUNT_PASSWORD", relayPassword); ("ACODE_CONFIG", np_join (ma_path M) [dataDir; "desktop.env"])].

Definition gatewayEnv (s : settings) : jmap string string :=
  foldl (fun env e => mset e.1 e.2 env) (ma_env M) (gateway_variables s).

(** The account and password the shell is configured with, when it has both. *)
Definition relay_account (s : settings) : option (val * string) :=
  let username := setting "relayUsername" s in
  let password := unprotect (setting "relayPassword" s) in
  if truthy username && (password !== "") then Some (username, password) else None.

Definition spawn_env (s : settings) : jmap string string :=
  if ma_packaged M then gatewayEnv s else mset "ELECTRON_RUN_AS_NODE" "1" (gatewayEnv s).

Definition kill_process (p : nat) (d : desktop) : desktop :=
  with_dk_procs (alter (fun g => mkProcess (gp_env g) true (gp_exited g)) p (dk_procs d)) d.

(** [authenticateRelay] up to its request; [open] tells [openWorkspace] apart. *)
Definition authenticateRelay (open : bool) (d : desktop) : desktop :=
  match relay_account (dk_settings d) with
  | Some account => with_dk_logins (dk_logins d ++ [open]) (with_dk_posted (dk_posted d ++ [account]) d)
  | None => if open then with_dk_page (Some (ma_relay M)) d else d
  end.

Definition run_after (d : desktop) (k : after_start) : desktop :=
  match k with
  | AfterRestart => d
  | AfterSave | AfterBoot =>
      match relay_account (dk_settings d) with Some _ => authenticateRelay false d | None => d end
  end.

(** The promise of [startGateway] settles: its callers go on. *)
Definition started (d : desktop) : desktop :=
  foldl run_after (with_dk_resume [] (with_dk_starting None d)) (dk_resume d).

Definition startGateway (k : after_start) (d : desktop) : desktop :=
  match dk_starting d with
  | Some stage => with_dk_resume (dk_resume d ++ [k]) d
  | None =>
      match dk_process d with
      | Some _ => run_after d k
      | None => with_dk_resume [k] (with_dk_starting (Some AskHealth) d)
      end
  end.

Definition healthAnswered (ok : bool) (d : desktop) : desktop :=
  if ok then with_dk_starting (Some AskExternal) (with_dk_external true d)
  else if currentGatewayPassword (dk_settings d) === "" then started d
  else with_dk_starting (Some AskPort) d.

Definition external_login (s : bool * string) (waiting : string) : string :=
  if s.1 then "已登录并已连接" else if s.2 === "" then waiting else "登录失败".

Definition externalAnswered (now : string) (a : status_answer) (d : desktop) : desktop :=
  let s := relayStatus a in
  let d := with_dk_login (external_login s "已启动，等待中转") (with_relay s d) in
  started (reportRelayState now d).

Definition spawnGateway (now : string) (d : desktop) : desktop :=
  let d := appendLog now ("正在启动 Gateway（Node " ^^ nodeRuntime ^^ "，端口 " ^^ num_str (ma_port M) ^^ "）") (with_dk_error "" d) in
  let d := with_dk_procs (dk_procs d ++ [mkProcess (spawn_env (dk_settings d)) false false]) d in
  let d := with_dk_process (Some (length (dk_procs d) - 1)%nat) d in
  let d := with_dk_external false (with_dk_managed true d) in
  with_dk_login (match relay_account (dk_settings d) with Some _ => "正在登录" | None => "未配置" end) d.

Definition portAnswered (now : string) (open : bool) (d : desktop) : desktop :=
  if open then
    let error := "端口 " ^^ num_str (ma_port M) ^^ " 已被其他程序占用，请先关闭旧 Gateway（" ^^ num_str (ma_port M) ^^ "）" in
    started (appendLog now ("Gateway 未启动：" ^^ error) (with_dk_error error d))
  else if negb (ma_exists M gatewayEntry) then
    let error := "找不到 Gateway 构建文件：" ^^ gatewayEntry in
    started (appendLog now error (with_dk_error error d))
  else with_dk_starting (Some AwaitHealth) (spawnGateway now d).

Definition healthWaited (polls : list (Z * bool)) (d : desktop) : desktop :=
  if waitForHealth 15000 polls then with_dk_starting (Some AskStatus) d
  else started (with_dk_error (first_nonempty (dk_error d) "Gateway 启动超时，请查看日志") d).

Definition statusAnswered (now : string) (a : status_answer) (d : desktop) : desktop :=
  let s := relayStatus a in
  let d := with_dk_login (external_login s "正在连接中转") (with_relay s d) in
  let d := appendLog now ("Gateway 已就绪；中转状态：" ^^ dk_login d) d in
  started (reportRelayState now d).

Definition processFailed (now message : string) (d : desktop) : desktop :=
  let d := setRelayLoginState now "不可用" message (with_dk_error message d) in
  appendLog now ("Gateway 启动失败：" ^^ message) d.

(** The handler of [exit] of process [p] forgets [gatewayProcess], whichever
    process that is. *)
Definition processExited (now : string) (p : nat) (code signal : string) (d : desktop) : desktop :=
  let d := with_dk_procs (alter (fun g => mkProcess (gp_env g) (gp_killed g) true) p (dk_procs d)) d in
  let d := appendLog now ("Gateway 已退出（code=" ^^ code ^^ ", signal=" ^^ signal ^^ "）") d in
  with_dk_login "未运行" (with_dk_relayConnected false (with_dk_external false
    (with_dk_managed false (with_dk_process None d)))).

(** [stopGateway], and [restartGateway] when [again] is set. *)
Definition stopGateway (again : bool) (d : desktop) : desktop :=
  match dk_process d, dk_managed d with
  | Some p, true => with_dk_stopping (dk_stopping d ++ [again]) (kill_process p d)
  | _, _ => let d := with_dk_external false d in if again then startGateway AfterRestart d else d
  end.

(** Half a second later; [i] is the call. *)
Definition stopWaited (i : nat) (d : desktop) : desktop :=
  match (dk_stopping d !! i : option bool) with
  | None => d
  | Some again =>
      let d := with_dk_stopping (take i (dk_stopping d) ++ drop (S i) (dk_stopping d)) d in
      let d := match dk_process d with Some p => kill_process p d | None => d end in
      let d := with_dk_external false (with_dk_managed false (with_dk_process None d)) in
      if again then startGateway AfterRestart d else d
  end.

(** ** What the renderer sees *)

Record DesktopState := mkState {
  sta_relayUsername : string; sta_relayPasswordSaved : bool;
  sta_running : bool; sta_managed : bool; sta_error : string;
  sta_relayConnected : bool; sta_relayError : string; sta_relayLoginState : string;
  sta_codex : bool * string; sta_codexHome : bool * string; sta_logs : list string
}.

Definition getState (d : desktop) : DesktopState :=
  let s := dk_settings d in
  let home := truthy_or (setting "codexHome" s) codexHome in
  mkState (truthy_or (setting "relayUsername" s) "") (unprotect (setting "relayPassword" s) !== "")
    (match dk_process d with Some _ => true | None => dk_external d end) (dk_managed d) (dk_error d)
    (dk_relayConnected d) (dk_relayError d) (dk_login d)
    (match resolveCodex (VStr (configuredCodex s)) with Some bin => bin !== "" | None => false end, configuredCodex s)
    (ma_exists M home, home) (lastn 40 (dk_log d)).

(** ** Sign-in *)

Inductive login_answer := LoginHttp (status : Z) | LoginOk (setCookie : list string) | LoginThrew (message : string).

(** [raw.split(";", 1)[0].split("=", 2)] when it has two parts. *)
Definition cookie_pair (raw : string) : option (string * string) :=
  match take 2 (split_char "="%char (default "" (head (split_char ";"%char raw)))) with
  | [name; value] => Some (name, value)
  | _ => None
  end.

Definition set_cookies (raws : list string) (cookies : jmap string string) : jmap string string :=
  foldl (fun c e => mset e.1 e.2 c) cookies (omap cookie_pair raws).

Definition loginAnswered (now : string) (i : nat) (a : login_answer) (d : desktop) : desktop :=
  match (dk_logins d !! i : option bool) with
  | None => d
  | Some open =>
      let d := with_dk_logins (take i (dk_logins d) ++ drop (S i) (dk_logins d)) d in
      let d := match a with
        | LoginHttp status =>
            appendLog now ("云端登录失败（HTTP " ^^ zstr status ^^ "），工作台将显示登录页")
              (setRelayLoginState now "登录失败" ("HTTP " ^^ zstr status) d)
        | LoginOk raws =>
            let d := with_dk_cookies (set_cookies raws (dk_cookies d)) d in
            appendLog now "云端账号已登录，桌面控制台保持打开" (setRelayLoginState now "已登录" "" d)
        | LoginThrew message =>
            appendLog now ("云端登录暂不可用：" ^^ first_nonempty message "网络错误")
              (setRelayLoginState now "登录失败" (first_nonempty message "网络错误") d)
        end in
      if open then with_dk_page (Some (ma_relay M)) d else d
  end.

Definition logoutRelay (now : string) (d : desktop) : desktop :=
  let d := with_dk_settings (mset "relayPassword" (VStr "") (mset "relayUsername" (VStr "") (dk_settings d))) d in
  match saveSettingsFile d with
  | (Some message, d) => threw message d
  | (None, d) =>
      let d := with_relay (false, "") d in
      let d := with_dk_cookies (mdelete "codeharbor_session" (dk_cookies d)) (with_dk_login "未配置" d) in
      appendLog now "已退出云端账号" d
  end.

Definition openWorkspace (polls : list (Z * bool)) (d : desktop) : desktop :=
  if waitForHealth 4000 polls then authenticateRelay true d else d.

(** ** Handlers of the renderer's calls *)

Definition getStateHealth (ok : bool) (d : desktop) : desktop :=
  if ok then with_dk_external true d
  else match dk_process d with
       | None => with_dk_login "未运行" (with_dk_relayConnected false (with_dk_external false d))
       | Some _ => d
       end.

Definition getStateStatus (now : string) (a : status_answer) (d : desktop) : desktop :=
  let s := relayStatus a in
  let d := with_relay s d in
  let waiting := if truthy (setting "relayUsername" (dk_settings d)) then "正在连接中转" else "未配置" in
  reportRelayState now (with_dk_login (external_login s waiting) d).

Definition input_username (input : val) : string :=
  slice0 160 (trim (to_string (v_or (prop "relayUsername" input) (VStr "")))).

Definition input_password (input : val) : string := default "" (as_str (prop "relayPassword" input)).

(** The error a configuration is refused with. *)
Definition refusal (input : val) (s : settings) : option string :=
  let relayUsername := input_username input in
  let relayPassword := input_password input in
  if negb (is_object input) then Some "无效的登录配置"
  else if relayUsername === "" then Some "请输入云端账号"
  else if (relayPassword === "") && (unprotect (setting "relayPassword" s) === "") then Some "请输入云端密码"
  else if truthy (setting "relayUsername" s) && negb (opt_str_eqb (as_str (setting "relayUsername" s)) (Some relayUsername))
          && (relayPassword === "")
  then Some "切换云端账号时请输入对应密码"
  else None.

Definition new_settings (fresh : string) (input : val) (s : settings) : settings :=
  let relayPassword := input_password input in
  foldl (fun s e => mset e.1 e.2 s) s
    [("sessionSecret", v_or (setting "sessionSecret" s) (VStr (protect fresh)));
     ("relayUsername", VStr (input_username input));
     ("relayPassword", if relayPassword === "" then v_or (setting "relayPassword" s) (VStr "") else VStr (protect relayPassword));
     ("codexBin", VStr (configuredCodex s));
     ("codexHome", v_or (setting "codexHome" s) (VStr codexHome))].

Definition saveSettings (now fresh : string) (input : val) (d : desktop) : desktop :=
  match refusal input (dk_settings d) with
  | Some error => threw error d
  | None =>
      match saveSettingsFile (with_dk_settings (new_settings fresh input (dk_settings d)) d) with
      | (Some message, d) => threw message d
      | (None, d) => startGateway AfterSave (appendLog now "配置已保存，正在启动 Gateway…" d)
      end
  end.

(** ** Windows *)

(** [true] quits, [false] keeps the gateway running in the tray. *)
Definition beforeQuit (d : desktop) : desktop :=
  let d := with_dk_tray false (with_dk_quitting true d) in
  match dk_process d, dk_managed d with Some p, true => kill_process p d | _, _ => d end.

Definition windowClose (quit : bool) (d : desktop) : desktop :=
  if dk_quitting d then with_dk_window None d
  else if quit then beforeQuit (with_dk_quitting true d)
  else with_dk_window (Some false) (with_dk_tray true d).

(** When the settings cannot be written at start-up there is no window and no
    gateway. *)
Definition whenReady (fresh : string) (d : desktop) : desktop :=
  match loadSettings fresh d with
  | (Some message, d) => threw message d
  | (None, d) =>
      let d := with_dk_window (Some true) (with_dk_log (lastn 240 (List.filter (fun l => l !== "") (dk_logFile d))) d) in
      if currentGatewayPassword (dk_settings d) === "" then d else startGateway AfterBoot d
  end.

(** ** Events *)

Inductive desktop_event :=
| HealthAnswer (ok : bool)
| StatusAnswer (a : status_answer)
| PortAnswer (open : bool)
| HealthPolls (polls : list (Z * bool))
| ProcessOutput (p : nat) (text : string)
| ProcessFailed (p : nat) (message : string)
| ProcessExited (p : nat) (code signal : string)
| StopCall (again : bool)
| StopWaited (i : nat)
| StateHealth (ok : bool)
| StateStatus (a : status_answer)
| SaveCall (fresh : string) (input : val)
| LogoutCall
| LoginAnswer (i : nat) (a : login_answer)
| OpenCall (polls : list (Z * bool))
| WindowClose (quit : bool)
| ShowWindow
| BeforeQuit
| DiskChanges (disk : settings_disk).

Definition desktop_step (d : desktop) (ne : string * desktop_event) : desktop :=
  let '(now, e) := ne in
  match e, dk_starting d with
  | HealthAnswer ok, Some AskHealth => healthAnswered ok d
  | StatusAnswer a, Some AskExternal => externalAnswered now a d
  | PortAnswer open, Some AskPort => portAnswered now open d
  | HealthPolls polls, Some AwaitHealth => healthWaited polls d
  | StatusAnswer a, Some AskStatus => statusAnswered now a d
  | ProcessOutput _ text, _ => appendLog now text d
  | ProcessFailed _ message, _ => processFailed now message d
  | ProcessExited p code signal, _ => processExited now p code signal d
  | StopCall again, _ => stopGateway again d
  | StopWaited i, _ => stopWaited i d
  | StateHealth ok, _ => getStateHealth ok d
  | StateStatus a, _ => getStateStatus now a d
  | SaveCall fresh input, _ => saveSettings now fresh input d
  | LogoutCall, _ => logoutRelay now d
  | LoginAnswer i a, _ => loginAnswered now i a d
  | OpenCall polls, _ => openWorkspace polls d
  | WindowClose quit, _ => windowClose quit d
  | ShowWindow, _ => match dk_window d with Some _ => with_dk_window (Some true) d | None => d end
  | BeforeQuit, _ => beforeQuit d
  | DiskChanges disk, _ => with_dk_disk disk d
  | _, _ => d
  end.

(** A run of the shell from the settings and the log it finds. *)
Definition desktop_run (fresh : string) (file : option settings) (log : list string)
    (es : list (string * desktop_event)) : desktop :=
  foldl desktop_step
    (whenReady fresh (mkDesktop [] file None false false "" false "" "未配置" "" [] log None [] [] [] [] [] None
       false None false [] [] (ma_disk M))) es.

End desktop.
