(* ===== verification/DesktopInv.v ===== *)
(** * The desktop shell: invariants

    Over runs of the shell of [Desktop]: quitting stops every gateway it started,
    an account is only ever used with a password entered for it, the session
    secret survives a restart, and the environment the shell starts the gateway
    with is one the gateway accepts, bound to the loopback address. *)

From Stdlib Require Import Ascii.
From S2P Require Import Prelude JsValue CodexEvents Base64 EnvFile CodexPath ServerConfig Desktop.

Local Open Scope Z_scope.

(** ** Processes *)

Definition running (g : gateway_process) : bool := negb (gp_killed g) && negb (gp_exited g).

(** The variables the processes are about. *)
Definition procs_of (d : desktop) : option nat * bool * list gateway_process :=
  (dk_process d, dk_managed d, dk_procs d).

Record tidy (d : desktop) : Prop := {
  td_managed : dk_managed d = match dk_process d with Some _ => true | None => false end;
  td_current : forall i g, dk_procs d !! i = Some g -> running g = true -> dk_process d = Some i;
  td_starting : match dk_starting d with
                | Some (AskHealth | AskExternal | AskPort) => dk_process d = None
                | _ => True
                end
}.

(** Nothing about processes or the start under way changes. *)
Definition calm_desk (d d' : desktop) : Prop := procs_of d' = procs_of d /\ dk_starting d' = dk_starting d.

#[global] Instance calm_desk_preorder : PreOrder calm_desk.
Proof. split; [done|]. intros ??? [] []. split; congruence. Qed.

Lemma tidy_calm d d' : calm_desk d d' -> tidy d -> tidy d'.
Proof.
  intros [E Es] [Hm Hc Hs]. unfold procs_of in E. injection E as E1 E2 E3. split; rewrite ?Es, ?E1, ?E2, ?E3; auto.
Qed.

(** [dk_starting] may also be reset. *)
Lemma tidy_reset d d' : procs_of d' = procs_of d -> dk_starting d' = None -> tidy d -> tidy d'.
Proof.
  intros E Es [Hm Hc Hs]. unfold procs_of in E. injection E as E1 E2 E3. split; rewrite ?Es, ?E1, ?E2, ?E3; auto.
Qed.

Section processes.
Context (M : machine).

Lemma calm_setLogin now a b d : calm_desk d (setRelayLoginState now a b d).
Proof. unfold setRelayLoginState. by repeat case_match. Qed.

Lemma calm_report now d : calm_desk d (reportRelayState now d).
Proof. unfold reportRelayState. by repeat case_match. Qed.

Lemma calm_auth o d : calm_desk d (authenticateRelay M o d).
Proof. unfold authenticateRelay. by repeat case_match. Qed.

Lemma calm_after d k : calm_desk d (run_after M d k).
Proof. unfold run_after. repeat case_match; try done; apply calm_auth. Qed.

Lemma calm_afters ks d : calm_desk d (foldl (run_after M) d ks).
Proof. revert d. induction ks as [|k ks IH]; intros d; [done|]. simpl. etrans; [apply calm_after|apply IH]. Qed.

Lemma started_procs d : procs_of (started M d) = procs_of d /\ dk_starting (started M d) = None.
Proof. unfold started. destruct (calm_afters (dk_resume d) (with_dk_resume [] (with_dk_starting None d))) as [-> ->]. done. Qed.

Lemma tidy_started d : tidy d -> tidy (started M d).
Proof. destruct (started_procs d). by apply tidy_reset. Qed.

Lemma tidy_start k d : tidy d -> tidy (startGateway M k d).
Proof.
  intros T. unfold startGateway. destruct (dk_starting d) eqn:Es; [by eapply tidy_calm; [|exact T]|].
  destruct (dk_process d) eqn:Ep; [by eapply tidy_calm; [apply calm_after|]|].
  destruct T as [Hm Hc _]. by split.
Qed.

Lemma lookup_alter_running f i j (l : list gateway_process) g :
  (forall x, running (f x) = true -> running x = true) ->
  alter f i l !! j = Some g -> running g = true -> exists g', l !! j = Some g' /\ running g' = true.
Proof.
  intros Hf. destruct (decide (i = j)) as [<-|Hne].
  - rewrite list_lookup_alter_eq. intros (x & Hx & ->)%fmap_Some Hg. eauto.
  - rewrite list_lookup_alter_ne by done. eauto.
Qed.

Lemma killed_runs g : running (mkProcess (gp_env g) true (gp_exited g)) = false.
Proof. done. Qed.

Lemma tidy_kill p d : tidy d -> tidy (kill_process p d).
Proof.
  intros [Hm Hc Hs]. split; cbn; try done. intros i g Hi Hg.
  eapply lookup_alter_running in Hi as (g' & Hg' & Hr); [by eapply Hc|done|done].
Qed.

(** After its current process is signalled, no process runs. *)
Lemma kill_current p d :
  tidy d -> dk_process d = Some p -> Forall (fun g => running g = false) (dk_procs (kill_process p d)).
Proof.
  intros [_ Hc _] Ep. apply Forall_lookup. intros i g Hi. apply not_true_iff_false. intros Hg. cbn in Hi.
  destruct (decide (p = i)) as [<-|Hne].
  - rewrite list_lookup_alter_eq in Hi. by apply fmap_Some in Hi as (x & _ & ->).
  - rewrite list_lookup_alter_ne in Hi by done. pose proof (Hc _ _ Hi Hg). congruence.
Qed.

Lemma none_running d : tidy d -> dk_process d = None -> Forall (fun g => running g = false) (dk_procs d).
Proof.
  intros [_ Hc _] Ep. apply Forall_lookup. intros i g Hi. apply not_true_iff_false. intros Hg.
  pose proof (Hc _ _ Hi Hg). congruence.
Qed.

Lemma tidy_forget d' :
  Forall (fun g => running g = false) (dk_procs d') -> dk_process d' = None -> dk_managed d' = false -> tidy d'.
Proof.
  intros Hn Ep Em. split; rewrite ?Ep; try done.
  - intros i g Hi Hg. rewrite Forall_lookup in Hn. rewrite (Hn _ _ Hi) in Hg. done.
  - by repeat case_match.
Qed.

Lemma tidy_stopWaited i d : tidy d -> tidy (stopWaited M i d).
Proof.
  intros T. unfold stopWaited. destruct (dk_stopping d !! i) as [again|]; [|done].
  set (d1 := with_dk_stopping _ d). assert (tidy d1) as T1 by (by eapply tidy_calm; [|exact T]).
  set (d2 := match dk_process d1 with Some p => _ | None => _ end).
  set (d3 := with_dk_external false _).
  assert (tidy d3) as T3.
  { apply tidy_forget; try done. change (dk_procs d3) with (dk_procs d2). unfold d2. destruct (dk_process d1) eqn:E.
    - by apply kill_current.
    - by apply none_running. }
  destruct again; [by apply tidy_start|done].
Qed.

Lemma tidy_spawn now d :
  tidy d -> dk_process d = None -> tidy (with_dk_starting (Some AwaitHealth) (spawnGateway M now d)).
Proof.
  intros T Ep. pose proof (none_running d T Ep) as Hn. split; cbn; try done.
  intros i g [Hi|[Hl Hi]]%lookup_app_Some Hg.
  - rewrite Forall_lookup in Hn. rewrite (Hn _ _ Hi) in Hg. done.
  - apply list_lookup_singleton_Some in Hi as [Hi _]. rewrite length_app. cbn. f_equal. lia.
Qed.

Lemma tidy_exited now p c s d :
  tidy d -> match dk_process d with Some i => (i =? p)%nat | None => true end = true ->
  tidy (processExited now p c s d).
Proof.
  intros [Hm Hc Hs] Ht. apply tidy_forget; try done. apply Forall_lookup. intros i g Hi.
  apply not_true_iff_false. intros Hg. cbn in Hi. destruct (decide (p = i)) as [<-|Hne].
  - rewrite list_lookup_alter_eq in Hi. apply fmap_Some in Hi as (x & _ & ->).
    unfold running in Hg. cbn in Hg. by rewrite andb_false_r in Hg.
  - rewrite list_lookup_alter_ne in Hi by done. rewrite (Hc _ _ Hi Hg) in Ht. by apply Nat.eqb_eq in Ht.
Qed.

(** ** Runs *)

(** A process that ends is the current one, or none is. *)
Definition timely_exit (d : desktop) (e : desktop_event) : bool :=
  match e with
  | ProcessExited p _ _ => match dk_process d with Some i => (i =? p)%nat | None => true end
  | _ => true
  end.

Fixpoint timely_exits (d : desktop) (es : list (string * desktop_event)) : bool :=
  match es with [] => true | ne :: es' => timely_exit d ne.2 && timely_exits (desktop_step M d ne) es' end.

Lemma tidy_beforeQuit d : tidy d -> tidy (beforeQuit d).
Proof. intros T. unfold beforeQuit. repeat case_match; [apply tidy_kill|..]; by eapply tidy_calm; [|exact T]. Qed.

Lemma tidy_health ok d : tidy d -> dk_starting d = Some AskHealth -> tidy (healthAnswered M ok d).
Proof.
  intros T Es. pose proof (td_starting d T) as Hs. rewrite Es in Hs. unfold healthAnswered.
  destruct ok; [|case_match; [by apply tidy_started|]]; destruct T as [Hm Hc _]; by split.
Qed.

Lemma tidy_external now a d : tidy d -> tidy (externalAnswered M now a d).
Proof. intros T. apply tidy_started. eapply tidy_calm; [apply calm_report|]. by eapply tidy_calm; [|exact T]. Qed.

Lemma tidy_status now a d : tidy d -> tidy (statusAnswered M now a d).
Proof. intros T. apply tidy_started. eapply tidy_calm; [apply calm_report|]. by eapply tidy_calm; [|exact T]. Qed.

Lemma tidy_port now open d : tidy d -> dk_starting d = Some AskPort -> tidy (portAnswered M now open d).
Proof.
  intros T Es. pose proof (td_starting d T) as Hs. rewrite Es in Hs. unfold portAnswered.
  destruct open; [|destruct (ma_exists M _)]; try (apply tidy_started; by eapply tidy_calm; [|exact T]).
  by apply tidy_spawn.
Qed.

Lemma tidy_waited polls d : tidy d -> dk_starting d = Some AwaitHealth -> tidy (healthWaited M polls d).
Proof.
  intros T Es. unfold healthWaited. destruct (waitForHealth _ _).
  - destruct T as [Hm Hc _]. by split.
  - apply tidy_started. by eapply tidy_calm; [|exact T].
Qed.

Lemma tidy_stop again d : tidy d -> tidy (stopGateway M again d).
Proof.
  intros T. assert (tidy (with_dk_external false d)) as T1 by (by eapply tidy_calm; [|exact T]).
  unfold stopGateway. destruct (dk_process d) as [p|], (dk_managed d), again; auto using tidy_start;
    by eapply tidy_calm; [|apply (tidy_kill p d T)].
Qed.

Lemma calm_file d : calm_desk d (saveSettingsFile d).2.
Proof. unfold saveSettingsFile. by case_match. Qed.

Lemma calm_threw m d : calm_desk d (threw m d).
Proof. done. Qed.

Lemma tidy_save now fresh input d : tidy d -> tidy (saveSettings M now fresh input d).
Proof.
  intros T. unfold saveSettings. case_match; [by eapply tidy_calm; [apply calm_threw|]|].
  set (d1 := with_dk_settings _ d). assert (calm_desk d (saveSettingsFile d1).2) as Hc
    by (etrans; [|apply (calm_file d1)]; done).
  destruct (saveSettingsFile d1) as [[m|] d2]; cbn [snd] in Hc.
  - by eapply tidy_calm; [etrans; [exact Hc|apply calm_threw]|].
  - apply tidy_start. by eapply tidy_calm; [etrans; [exact Hc|]|].
Qed.

Lemma calm_logout now d : calm_desk d (logoutRelay now d).
Proof.
  unfold logoutRelay. set (d1 := with_dk_settings _ d).
  assert (calm_desk d (saveSettingsFile d1).2) as H by (etrans; [|apply (calm_file d1)]; done).
  destruct (saveSettingsFile d1) as [[m|] d2]; cbn [snd] in H; by etrans; [exact H|].
Qed.

Lemma calm_loginAnswered now i a d : calm_desk d (loginAnswered M now i a d).
Proof.
  unfold loginAnswered. destruct (dk_logins d !! i) as [open|]; [|done]. set (d1 := with_dk_logins _ d).
  transitivity d1; [done|]. destruct a; [..|set (d2 := with_dk_cookies _ d1); transitivity d2; [done|]|];
    match goal with |- context [setRelayLoginState ?n ?x ?y ?z] =>
      pose proof (calm_setLogin n x y z) as Hc end; by destruct open.
Qed.

Lemma calm_processFailed now m d : calm_desk d (processFailed now m d).
Proof. unfold processFailed. etrans; [|done]. etrans; [|apply calm_setLogin]. done. Qed.

Lemma calm_stateHealth ok d : calm_desk d (getStateHealth ok d).
Proof. unfold getStateHealth. by repeat case_match. Qed.

Lemma calm_stateStatus now a d : calm_desk d (getStateStatus now a d).
Proof. unfold getStateStatus. etrans; [|apply calm_report]. done. Qed.

Lemma calm_open polls d : calm_desk d (openWorkspace M polls d).
Proof. unfold openWorkspace. case_match; [apply calm_auth|done]. Qed.

Lemma tidy_close quit d : tidy d -> tidy (windowClose quit d).
Proof.
  intros T. unfold windowClose. repeat case_match; try apply tidy_beforeQuit; by eapply tidy_calm; [|exact T].
Qed.

Lemma tidy_step d ne : tidy d -> timely_exit d ne.2 = true -> tidy (desktop_step M d ne).
Proof.
  intros T Ht. destruct ne as [now e]. cbn [snd] in Ht.
  destruct e; cbn [desktop_step timely_exit] in *;
    try match goal with |- context [match dk_starting d with _ => _ end] =>
      destruct (dk_starting d) as [[]|] eqn:Es; try done end;
    auto using tidy_health, tidy_external, tidy_status, tidy_port, tidy_waited, tidy_stop, tidy_stopWaited,
      tidy_save, tidy_exited, tidy_beforeQuit, tidy_close;
    try (eapply tidy_calm; [|exact T]; first [done | apply calm_logout | apply calm_processFailed | apply calm_stateHealth
      | apply calm_stateStatus | apply calm_loginAnswered | apply calm_open]).
  by destruct (dk_window d); eapply tidy_calm; [|exact T| |exact T].
Qed.

Lemma calm_load fresh d : calm_desk d (loadSettings M fresh d).2.
Proof.
  unfold loadSettings. cbv zeta. set (d1 := with_dk_settings _ d). set (c := negb _ || _ || _).
  assert (calm_desk d (if c then saveSettingsFile d1 else (None, d1)).2) as H
    by (destruct c; [etrans; [|apply (calm_file d1)]|]; done).
  destruct (if c then _ else _) as [[m|] d2]; cbn [snd] in *; [done|].
  destruct (migrated_codex M (dk_settings d2)); [|done]. etrans; [exact H|]. etrans; [|apply calm_file]. done.
Qed.

Lemma tidy_run fresh file log es :
  let d0 := desktop_run M fresh file log [] in
  timely_exits d0 es = true -> tidy (desktop_run M fresh file log es).
Proof.
  assert (tidy (desktop_run M fresh file log [])) as T.
  { unfold desktop_run. cbn [foldl]. unfold whenReady. cbv zeta.
    set (d := mkDesktop _ _ _ _ _ _ _ _ _ _ _ _ _ _ _ _ _ _ _ _ _ _ _ _ _).
    pose proof (calm_load fresh d) as Hl. destruct (loadSettings M fresh d) as [[m|] d2]; cbn [snd] in Hl.
    { apply (tidy_calm d); [|by split]. by etrans; [exact Hl|]. }
    set (d1 := with_dk_window _ _). assert (tidy d1) as T1.
    { apply (tidy_calm d); [|by split]. by transitivity d2. }
    case_match; [done|by apply tidy_start]. }
  intros d0. subst d0. unfold desktop_run in *. cbn [foldl] in T |- *. revert T.
  generalize (whenReady M fresh (mkDesktop [] file None false false "" false "" "未配置" "" [] log None [] [] [] [] [] None
       false None false [] [] (ma_disk M))).
  induction es as [|e es IH]; intros d T; cbn [timely_exits foldl]; [done|].
  intros [Ht Hr]%andb_true_iff. apply IH; [by apply tidy_step|done].
Qed.

(** Quitting stops every gateway the shell started: over any run in which a
    process that ends is the current one (starts and restarts that overlap,
    gateways that fail to come up, a port taken, calls of the window in any
    order), after [before-quit] each spawned process was signalled or has
    exited. *)
Theorem quit_stops_gateways fresh file log es :
  timely_exits (desktop_run M fresh file log []) es = true ->
  Forall (fun g => gp_killed g = true \/ gp_exited g = true) (dk_procs (beforeQuit (desktop_run M fresh file log es))).
Proof.
  intros Ht. pose proof (tidy_run fresh file log es Ht) as T. set (d := desktop_run M fresh file log es) in *.
  assert (Forall (fun g => running g = false) (dk_procs (beforeQuit d))) as Hn.
  { unfold beforeQuit. cbn [dk_process dk_managed with_dk_tray with_dk_quitting].
    rewrite (td_managed d T). destruct (dk_process d) as [p|] eqn:E.
    - apply kill_current; [|done]. by eapply tidy_calm; [|exact T].
    - apply none_running; [|done]. by eapply tidy_calm; [|exact T]. }
  eapply Forall_impl; [exact Hn|]. intros g Hg. unfold running in Hg.
  destruct (gp_killed g), (gp_exited g); auto.
Qed.

(** The late exit of a gateway that was replaced makes the shell forget the new
    one, which then outlives the shell. *)
Lemma late_exit_survives_quit now p c s d j g :
  dk_process d = Some j -> p <> j -> dk_procs d !! j = Some g -> running g = true ->
  dk_procs (beforeQuit (processExited now p c s d)) !! j = Some g.
Proof. intros Ep Hne Hj Hg. cbn. by rewrite list_lookup_alter_ne. Qed.

(** Signing out leaves the gateway running with the account it was started with. *)
Lemma logout_keeps_gateway now d : dk_procs (logoutRelay now d) = dk_procs d /\ dk_process (logoutRelay now d) = dk_process d.
Proof.
  unfold logoutRelay. set (d1 := with_dk_settings _ d). unfold saveSettingsFile. by destruct (dk_disk d1).
Qed.
End processes.

(** ** Accounts and passwords *)

Section accounts.
Context (M : machine).

(** What the operating system's secret storage and UTF-8 promise. *)
Context (decrypt_encrypt : forall v, ma_decrypt M (ma_encrypt M v) = Some v)
        (text_utf8 : forall v, ma_text M (ma_utf8 M v) = v).































Lemma settings_file d : dk_settings (saveSettingsFile d).2 = dk_settings d.
Proof. unfold saveSettingsFile. by case_match. Qed.

Lemma load_first s1 (c : bool) d :
  dk_settings (if c then saveSettingsFile (with_dk_settings s1 d) else (None, with_dk_settings s1 d)).2 = s1.
Proof. destruct c; [|done]. by rewrite settings_file. Qed.

Lemma load_relay fresh d key :
  key = "relayUsername" \/ key = "relayPassword" ->
  setting key (dk_settings (loadSettings M fresh d).2) = setting key (default [] (dk_file d)).
Proof.
  intros Hk. assert (key <> "sessionSecret" /\ key <> "username" /\ key <> "gatewayPassword" /\ key <> "codexBin")
    as (N1 & N2 & N3 & N4) by (by destruct Hk as [-> | ->]).
  unfold loadSettings. cbv zeta. set (read := default [] (dk_file d)).
  set (s1 := mdelete "gatewayPassword" _).
  assert (setting key s1 = setting key read) as E1.
  { unfold setting, s1. rewrite !mget_mdelete_ne by done. unfold with_secret. case_match; [done|]. by rewrite mget_mset_ne. }
  rewrite <- E1. set (c := negb _ || _ || _). pose proof (load_first s1 c d) as E2.
  destruct (if c then _ else _) as [[m|] d1]; cbn [snd] in *; rewrite E2; [done|].
  destruct (migrated_codex M s1) as [bin|]; [|cbn [snd]; by rewrite E2].
  rewrite settings_file. unfold setting. cbn [dk_settings with_dk_settings]. by rewrite mget_mset_ne.
Qed.



End accounts.

(** ** The environment of the gateway *)

(** The environment the shell starts the gateway with is one the gateway's
    configuration accepts, whatever file completes it: it listens on the loopback
    address and the shell's port, its access tokens and session secret are the
    shell's secret, and its relay account is the one in the settings. *)
Theorem gateway_environment_accepted M other P homedir cwd text s z :
  let env := loadDotenv text (spawn_env M s) in
  let secret := currentGatewayPassword M s in
  ma_port M = NInt z -> 0 <= z -> is_safe_integer z = true ->
  secret <> "" -> includes "replace-with-" secret = false ->
  is_Some (envNumber other env "SESSION_TTL_HOURS" (30 * 24)) ->
  is_Some (envNumber other env "CODEX_APP_SERVER_PORT" 8790) ->
  is_Some (envNumber other env "APP_UPDATE_VERSION_CODE" 1) ->
  exists cfg, config other P homedir cwd env = Some cfg
    /\ cf_host cfg = "127.0.0.1" /\ cf_port cfg = NInt z
    /\ cf_adminToken cfg = secret /\ cf_sessionSecret cfg = secret
    /\ cf_gatewayAuthPassword cfg = secret /\ cf_gatewayAuthToken cfg = secret
    /\ cf_relayUrl cfg = trim (ma_relay M) /\ cf_relayAccountPassword cfg = unprotect M (setting "relayPassword" s).
Proof.
  intros env secret Ep Hz Hs Hne Hi [ttl Ettl] [app Eapp] [ver Ever].
  assert (forall k v, mget k (rev (gateway_variables M s)) = Some v ->
    k <> "ELECTRON_RUN_AS_NODE" -> mget k env = Some v) as Hget.
  { intros k v Hv Hk. assert (mget k (spawn_env M s) = Some v) as E.
    { unfold spawn_env. destruct (ma_packaged M); [|rewrite mget_mset_ne by done];
        unfold gatewayEnv; by rewrite mget_read, Hv. }
    unfold env. destruct text as [t|]; [|done]. by rewrite load_bindings, mget_load, E. }
  assert (mget "PORT" env = Some (zstr z)) as E1 by (apply Hget; [unfold gateway_variables; by rewrite Ep|done]).
  assert (mget "ADMIN_TOKEN" env = Some secret) as E2 by by apply Hget.
  assert (mget "SESSION_SECRET" env = Some secret) as E3 by by apply Hget.
  assert (mget "HOST" env = Some "127.0.0.1") as E4 by by apply Hget.
  assert (mget "GATEWAY_AUTH_PASSWORD" env = Some secret) as E5 by by apply Hget.
  assert (mget "GATEWAY_AUTH_TOKEN" env = Some secret) as E6 by by apply Hget.
  assert (mget "RELAY_URL" env = Some (ma_relay M)) as E7 by by apply Hget.
  assert (mget "RELAY_ACCOUNT_PASSWORD" env = Some (unprotect M (setting "relayPassword" s))) as E8 by by apply Hget.
  clear Hget. destruct (zstr_digits z Hz) as (_ & Hn & _).
  assert (envNumber other env "PORT" 8787 = Some (NInt z)) as E9.
  { unfold envNumber. by rewrite E1, (proj2 (String.eqb_neq (zstr z) "") Hn), to_number_zstr. }
  assert (forall k, mget k env = Some secret -> required env k = Some secret) as Hreq.
  { intros k Hk. unfold required. by rewrite Hk, (proj2 (String.eqb_neq secret "") Hne), Hi. }
  unfold config. rewrite E9, (Hreq _ E2), (Hreq _ E3), Ettl, Eapp, Ever.
  eexists. split; [done|].
  cbn [cf_host cf_port cf_adminToken cf_sessionSecret cf_gatewayAuthPassword cf_gatewayAuthToken cf_relayUrl cf_relayAccountPassword].
  unfold trimmed_env. by rewrite E4, E5, E6, E7, E8.
Qed.

(** ** Restart *)

Lemma stored_start' m k d : dk_settings (startGateway m k d) = dk_settings d.
Proof.
  unfold startGateway. repeat case_match; try done. unfold run_after, authenticateRelay. by repeat case_match.
Qed.

Section restart.
Context (M : machine).

Definition defined (s : settings) : Prop := Forall (fun e => e.2 <> VUndef) s.

Lemma saved_setting s k : defined s -> setting k (saved s) = json_clone (setting k s).
Proof.
  unfold setting, saved. cbn [json_clone]. induction 1 as [|[k' v] s Hv _ IH]; [done|].
  cbn [snd] in Hv. destruct v; try done; cbn [mget]; case_decide; try done; exact IH.
Qed.

Lemma unprotect_clone v : unprotect M (json_clone v) = unprotect M v.
Proof. destruct v; try done. cbn [json_clone]. by case_match. Qed.

Lemma defined_mset k v s : v <> VUndef -> defined s -> defined (mset k v s).
Proof.
  intros Hv. unfold defined. induction 1 as [|e s He Hs IH]; [by repeat constructor|]. destruct e as [k' v'].
  cbn [mset]. case_decide; by constructor.
Qed.

Lemma defined_mdelete k s : defined s -> defined (mdelete k s).
Proof. rewrite mdelete_mfilter. unfold defined, mfilter. rewrite !List.Forall_forall. intros H e [He _]%filter_In. auto. Qed.

Lemma defined_assigned l s : defined l -> defined s -> defined (foldl (fun s e => mset e.1 e.2 s) s l).
Proof. intros Hl. revert s. induction Hl as [|e l He _ IH]; intros s Hs; [done|]. simpl. apply IH. by apply defined_mset. Qed.

Definition kept_key (k : string) : Prop := k = "sessionSecret" \/ k = "relayPassword".

(** The file holds the secrets of the settings in memory. *)
Record synced (d : desktop) : Prop := {
  sy_disk : dk_disk d = DiskWrites;
  sy_defined : defined (dk_settings d);
  sy_secret : exists x, setting "sessionSecret" (dk_settings d) = VStr x /\ x <> "";
  sy_file : forall k, kept_key k ->
    unprotect M (setting k (default [] (dk_file d))) = unprotect M (setting k (dk_settings d));
  sy_present : exists x, setting "sessionSecret" (default [] (dk_file d)) = VStr x /\ x <> "";
  sy_clean : defined (default [] (dk_file d))
}.

Lemma defined_saved s : defined s -> defined (saved s).
Proof.
  unfold saved. cbn [json_clone]. induction 1 as [|[k v] s Hv _ IH]; [constructor|]. cbn [snd] in Hv.
  destruct v; try done; constructor; try exact IH; cbn; try done; by case_match.
Qed.

(** Settings that were just written. *)
Lemma synced_saved d :
  dk_disk d = DiskWrites ->
  defined (dk_settings d) -> (exists x, setting "sessionSecret" (dk_settings d) = VStr x /\ x <> "") ->
  exists d', saveSettingsFile d = (None, d') /\ d' = with_dk_file (Some (saved (dk_settings d))) d /\ synced d'.
Proof.
  intros Hw Hd (x & Ex & Hx). unfold saveSettingsFile. rewrite Hw. eexists. split; [done|]. split; [done|].
  split; cbn [dk_disk dk_settings dk_file with_dk_file];
    change (default [] (Some (saved (dk_settings d)))) with (saved (dk_settings d)); eauto using defined_saved.
  - intros k _. by rewrite saved_setting, unprotect_clone.
  - exists x. rewrite saved_setting, Ex by done. done.
Qed.

Definition stored (d : desktop) := (dk_settings d, dk_file d, dk_disk d).

Lemma synced_stored d d' : stored d' = stored d -> synced d -> synced d'.
Proof.
  intros E [H0 H1 H2 H3 H4 H5]. unfold stored in E. injection E as E1 E2 E3.
  split; rewrite ?E1, ?E2, ?E3; auto.
Qed.

Lemma stored_setLogin now a b d : stored (setRelayLoginState now a b d) = stored d.
Proof. unfold setRelayLoginState. by repeat case_match. Qed.

Lemma stored_report now d : stored (reportRelayState now d) = stored d.
Proof. unfold reportRelayState. by repeat case_match. Qed.

Lemma stored_auth o d : stored (authenticateRelay M o d) = stored d.
Proof. unfold authenticateRelay. by repeat case_match. Qed.

Lemma stored_after d k : stored (run_after M d k) = stored d.
Proof. unfold run_after. repeat case_match; try done; apply stored_auth. Qed.

Lemma stored_started d : stored (started M d) = stored d.
Proof.
  unfold started. transitivity (stored (with_dk_resume [] (with_dk_starting None d))); [|done].
  generalize (with_dk_resume [] (with_dk_starting None d)). induction (dk_resume d) as [|k ks IH]; intros x; [done|].
  simpl. by rewrite IH, stored_after.
Qed.

Lemma stored_start k d : stored (startGateway M k d) = stored d.
Proof. unfold startGateway. repeat case_match; try done. apply stored_after. Qed.

Lemma secret_new fresh input s :
  (exists x, setting "sessionSecret" s = VStr x /\ x <> "") ->
  setting "sessionSecret" (new_settings M fresh input s) = setting "sessionSecret" s.
Proof.
  intros (x & E & Hx). unfold setting at 1, new_settings. rewrite mget_read. cbn. rewrite E. unfold v_or. cbn.
  by rewrite (proj2 (String.eqb_neq _ _) Hx).
Qed.

Lemma v_or_defined v s : v_or v (VStr s) <> VUndef.
Proof. unfold v_or. destruct (truthy v) eqn:E; [|done]. by destruct v. Qed.

Lemma synced_save now fresh input d : synced d -> synced (saveSettings M now fresh input d).
Proof.
  intros S. unfold saveSettings. case_match; [by eapply synced_stored; [|exact S]|].
  destruct S as [H0 H1 H2 _ _ _].
  destruct (synced_saved (with_dk_settings (new_settings M fresh input (dk_settings d)) d)) as (d' & -> & _ & S').
  - done.
  - apply defined_assigned; [|done]. repeat constructor; cbn; try done; try apply v_or_defined.
    case_match; [apply v_or_defined|done].
  - destruct H2 as (x & E & Hx). exists x. cbn [dk_settings with_dk_settings]. rewrite secret_new by eauto. done.
  - eapply synced_stored; [apply stored_start|]. by eapply synced_stored; [|exact S'].
Qed.

Lemma synced_logout now d : synced d -> synced (logoutRelay now d).
Proof.
  intros [H0 H1 (x & E & Hx) _ _ _]. unfold logoutRelay. set (d1 := with_dk_settings _ d).
  destruct (synced_saved d1) as (d' & -> & _ & S'); cbn [d1 dk_settings with_dk_settings].
  - done.
  - by do 2 (apply defined_mset; [done|]).
  - exists x. unfold setting in *. by rewrite !mget_mset_ne, E.
  - by eapply synced_stored; [|exact S'].
Qed.

Lemma stored_login now i a d : stored (loginAnswered M now i a d) = stored d.
Proof.
  unfold loginAnswered. destruct (dk_logins d !! i) as [open|]; [|done].
  set (d1 := with_dk_logins _ d). change (stored d) with (stored d1).
  destruct a; [|set (d2 := with_dk_cookies _ d1); change (stored d1) with (stored d2)|];
    match goal with |- context [setRelayLoginState ?n ?x ?y ?z] =>
      rewrite <- (stored_setLogin n x y z) end; by destruct open.
Qed.

Lemma stored_beforeQuit d : stored (beforeQuit d) = stored d.
Proof. unfold beforeQuit. by repeat case_match. Qed.

(** Every write of the settings succeeds. *)
Definition disk_ok (ne : string * desktop_event) : bool :=
  match ne.2 with DiskChanges (DiskRefuses _ | DiskTruncates _) => false | _ => true end.

Lemma synced_step d ne : disk_ok ne = true -> synced d -> synced (desktop_step M d ne).
Proof.
  intros Hd S. destruct ne as [now e].
  destruct e as [| | | | | | | | | | | | | | | | | |disk]; cbn [desktop_step];
    try match goal with |- context [match dk_starting d with _ => _ end] => destruct (dk_starting d) as [[]|]; try done end;
    auto using synced_save, synced_logout; [..|by destruct disk; [destruct S; split|..]];
    eapply synced_stored; try exact S.
  - unfold healthAnswered. repeat case_match; try done. apply stored_started.
  - unfold externalAnswered. by rewrite stored_started, stored_report.
  - unfold statusAnswered. by rewrite stored_started, stored_report.
  - unfold portAnswered. repeat case_match; rewrite ?stored_started; done.
  - unfold healthWaited. case_match; rewrite ?stored_started; done.
  - done.
  - unfold processFailed. transitivity (stored (setRelayLoginState now "不可用" message (with_dk_error message d))); [done|].
    by rewrite stored_setLogin.
  - done.
  - unfold stopGateway. repeat case_match; rewrite ?stored_start; done.
  - unfold stopWaited. repeat case_match; rewrite ?stored_start; done.
  - unfold getStateHealth. by repeat case_match.
  - unfold getStateStatus. by rewrite stored_report.
  - apply stored_login.
  - unfold openWorkspace. case_match; [apply stored_auth|done].
  - unfold windowClose. repeat case_match; rewrite ?stored_beforeQuit; done.
  - by case_match.
  - apply stored_beforeQuit.
Qed.

Lemma protect_nonempty v : v <> "" -> protect M v <> "".
Proof. intros H. unfold protect. rewrite (proj2 (String.eqb_neq _ _) H). by destruct (ma_secure M). Qed.

(** What the shell needs of a settings file it finds. *)
Definition clean_file (f : settings) : Prop :=
  defined f /\ forall v, mget "sessionSecret" f = Some v -> exists x, v = VStr x.

Lemma secret_loaded fresh f :
  fresh <> "" -> clean_file f ->
  exists x, setting "sessionSecret" (with_secret M fresh f) = VStr x /\ x <> "".
Proof.
  intros Hf [_ Hs]. unfold with_secret. destruct (truthy (setting "sessionSecret" f)) eqn:Et.
  - unfold setting in *. destruct (mget "sessionSecret" f) as [v|] eqn:E; [|done].
    destruct (Hs v eq_refl) as [x ->]. exists x. split; [done|]. cbn in Et. by intros ->.
  - unfold setting. rewrite mget_mset_eq. eexists. split; [done|]. apply protect_nonempty.
    unfold first_nonempty. destruct (String.eqb_spec (unprotect M (default VUndef (mget "gatewayPassword" f))) ""); done.
Qed.

Lemma setting_mdelete k k' s : k' <> k -> setting k (mdelete k' s) = setting k s.
Proof. intros H. unfold setting. by rewrite mget_mdelete_ne. Qed.

Lemma synced_load fresh d :
  fresh <> "" -> clean_file (default [] (dk_file d)) -> dk_disk d = DiskWrites ->
  exists d', loadSettings M fresh d = (None, d') /\ synced d'.
Proof.
  intros Hf Hc Hw. unfold loadSettings. cbv zeta. set (f := default [] (dk_file d)) in *.
  set (s0 := with_secret M fresh f). set (s1 := mdelete "gatewayPassword" _).
  destruct (secret_loaded fresh f Hf Hc) as (x & Ex & Hx). fold s0 in Ex.
  assert (defined s1) as Hd.
  { do 2 apply defined_mdelete. unfold s0, with_secret. case_match; [apply Hc|]. apply defined_mset; [done|apply Hc]. }
  assert (forall k, kept_key k -> setting k s1 = setting k s0) as Hk
    by (intros k [-> | ->]; unfold s1; by rewrite !setting_mdelete).
  assert (exists x, setting "sessionSecret" s1 = VStr x /\ x <> "") as Hs
    by (exists x; rewrite Hk; [done|by left]).
  set (first := if _ : bool then _ else _).
  assert (exists d1, first = (None, d1) /\ dk_settings d1 = s1 /\ dk_disk d1 = DiskWrites /\ synced d1)
    as (d1 & -> & E1 & Hw1 & S1).
  { unfold first. destruct (_ || _) eqn:Ec.
    - destruct (synced_saved (with_dk_settings s1 d)) as (d' & E & -> & S'); [done..|]. by eexists.
    - eexists. split; [done|]. split; [done|]. split; [done|].
      rewrite !orb_false_iff, negb_false_iff in Ec. destruct Ec as [[Et _] _].
      assert (s0 = f) as E0 by (unfold s0, with_secret; by rewrite Et).
      split; cbn [dk_settings dk_file with_dk_settings]; fold f; try done.
      + intros k Hkk. by rewrite Hk, E0.
      + exists x. by rewrite <- E0.
      + apply Hc. }
  rewrite E1. destruct (migrated_codex M s1) as [bin|]; [|eauto].
  destruct (synced_saved (with_dk_settings (mset "codexBin" (VStr bin) s1) d1)) as (d' & E & _ & S');
    cbn [dk_settings with_dk_settings dk_disk]; eauto.
  - by apply defined_mset.
  - destruct Hs as (y & Ey & Hy). exists y. unfold setting in *. by rewrite mget_mset_ne.
Qed.

Lemma synced_boot fresh file log es :
  fresh <> "" -> clean_file (default [] file) -> ma_disk M = DiskWrites -> forallb disk_ok es = true ->
  synced (desktop_run M fresh file log es).
Proof.
  intros Hf Hc Hw. assert (synced (desktop_run M fresh file log [])) as S.
  { unfold desktop_run. cbn [foldl]. unfold whenReady. cbv zeta.
    set (d := mkDesktop _ _ _ _ _ _ _ _ _ _ _ _ _ _ _ _ _ _ _ _ _ _ _ _ _).
    destruct (synced_load fresh d Hf Hc Hw) as (d2 & -> & S2).
    set (d1 := with_dk_window _ _). assert (synced d1) as S1 by (by apply (synced_stored d2)).
    case_match; [done|]. by eapply synced_stored; [apply stored_start|]. }
  revert S. unfold desktop_run. cbn [foldl]. generalize (whenReady M fresh (mkDesktop [] file None false false "" false "" "未配置" "" [] log None [] [] [] [] [] None
       false None false [] [] (ma_disk M))).
  induction es as [|ne es IH]; intros d S; [done|]. cbn [foldl forallb]. intros [H1 H2]%andb_true_iff.
  by apply IH; [apply synced_step|].
Qed.

(** The machine when the shell is started again. *)
Definition with_disk (disk : settings_disk) (m : machine) : machine :=
  mkMachine (ma_packaged m) (ma_port m) (ma_relay m) (ma_env m) (ma_home m) (ma_userData m) (ma_resources m)
    (ma_dirname m) (ma_execPath m) (ma_exists m) (ma_where m) (ma_secure m) (ma_encrypt m) (ma_decrypt m) (ma_utf8 m)
    (ma_text m) (ma_path m) disk.

(** What the shell holds after start-up is what the file held. *)
Lemma booted_setting m fresh file log k :
  truthy (setting "sessionSecret" (default [] file)) = true -> kept_key k ->
  unprotect M (setting k (dk_settings (desktop_run m fresh file log [])))
  = unprotect M (setting k (default [] file)).
Proof.
  intros Et Hkk. unfold desktop_run, whenReady. cbn [foldl].
  set (d := mkDesktop _ _ _ _ _ _ _ _ _ _ _ _ _ _ _ _ _ _ _ _ _ _ _ _ _).
  assert (setting k (dk_settings (loadSettings m fresh d).2) = setting k (default [] file)) as E.
  { destruct Hkk as [-> | ->]; [|by rewrite load_relay by auto].
    unfold loadSettings. cbv zeta. change (dk_file d) with file. set (f := default [] file) in *.
    set (s1 := mdelete "gatewayPassword" _).
    assert (setting "sessionSecret" s1 = setting "sessionSecret" f) as E1.
    { unfold s1. rewrite !setting_mdelete by done. unfold with_secret. by rewrite Et. }
    set (c := negb _ || _ || _). pose proof (load_first s1 c d) as E2.
    destruct (if c then _ else _) as [[x|] d1]; cbn [snd] in *; rewrite E2; [done|].
    destruct (migrated_codex m s1) as [bin|]; [|cbn [snd]; by rewrite E2, E1].
    rewrite settings_file. unfold setting in *. cbn [dk_settings with_dk_settings]. by rewrite mget_mset_ne. }
  rewrite <- E. destruct (loadSettings m fresh d) as [[x|] d2]; cbn [snd]; [done|].
  case_match; [done|]. match goal with |- context [startGateway m ?k0 ?y] => pose proof (stored_start' m k0 y) as Es end.
  by rewrite Es.
Qed.

(** C40: A restart keeps the secrets: if every write of the settings file since
    the shell was started succeeded, starting it again from the file it left
    behind gives the gateway the same session secret and the relay the same
    password; no new secret is drawn, whether or not the new process can write.
    The file found at the first start is missing or holds defined values and a
    secret that is a text, and the secret drawn is not empty. A failed write
    breaks it: [failed_write_forgets]. *)
Theorem restart_keeps_secrets fresh fresh' file log log' es disk :
  fresh <> "" -> clean_file (default [] file) ->
  ma_disk M = DiskWrites -> forallb disk_ok es = true ->
  let before := desktop_run M fresh file log es in
  let after := desktop_run (with_disk disk M) fresh' (dk_file before) log' [] in
  currentGatewayPassword M (dk_settings after) = currentGatewayPassword M (dk_settings before)
  /\ unprotect M (setting "relayPassword" (dk_settings after)) = unprotect M (setting "relayPassword" (dk_settings before)).
Proof.
  intros Hf Hc Hw Hes before after.
  destruct (synced_boot fresh file log es Hf Hc Hw Hes) as [_ _ _ Hsy (x & Ex & Hx) Hcl].
  fold before in Hsy, Ex, Hcl.
  assert (forall k, kept_key k -> unprotect M (setting k (dk_settings after)) = unprotect M (setting k (default [] (dk_file before)))) as Hk.
  { intros k Hkk. unfold after. by apply booted_setting; [rewrite Ex; cbn; apply negb_true_iff, String.eqb_neq|]. }
  unfold currentGatewayPassword. split; (rewrite Hk; [apply Hsy|]); unfold kept_key; auto.
Qed.
End restart.

(** ** Examples *)

Definition demo_path : node_path := mkNodePath (join "/") (fun p => p) (fun p => p) (fun p => p) (fun _ => "").

(** A machine whose secret storage reverses texts. *)
Definition demo_machine : machine :=
  mkMachine true (NInt 8787) "https://relay" [("PATH", "/x")] "/home" "/data" "/res" "/dir" "/node"
    (fun _ => true) (fun _ => None) true srev (fun s => Some (srev s)) (fun s => s) (fun s => s) demo_path DiskWrites.

Definition demo_input (password : string) : val :=
  VObj [("relayUsername", VStr " ann "); ("relayPassword", VStr password)].

(** The gateway comes up, an account is saved, the gateway is restarted. *)
Definition demo_events : list (string * desktop_event) :=
  map (fun e => ("9:00", e))
    [HealthAnswer false; PortAnswer false; HealthPolls [(0, false); (250, true)]; StatusAnswer (StatusHttp 503);
     SaveCall "s2" (demo_input "pw"); StopCall true; ProcessExited 0 "0" "-"; StopWaited 0;
     HealthAnswer false; PortAnswer false].

Lemma quit_stops_gateways_witness :
  timely_exits demo_machine (desktop_run demo_machine "s1" None [] []) demo_events = true
  /\ Forall (fun g => gp_killed g = true \/ gp_exited g = true)
       (dk_procs (beforeQuit (desktop_run demo_machine "s1" None [] demo_events)))
  /\ length (dk_procs (desktop_run demo_machine "s1" None [] demo_events)) = 2%nat.
Proof.
  split; [vm_compute; reflexivity|]. split; [|vm_compute; reflexivity].
  apply quit_stops_gateways. vm_compute. reflexivity.
Defined.


Lemma gateway_environment_accepted_witness :
  exists cfg, config (fun _ => NNaN) demo_path "/home" "/" (loadDotenv None (spawn_env demo_machine
      [("sessionSecret", VStr (protect demo_machine "abc"))])) = Some cfg
    /\ cf_host cfg = "127.0.0.1" /\ cf_adminToken cfg = "abc".
Proof.
  destruct (gateway_environment_accepted demo_machine (fun _ => NNaN) demo_path "/home" "/" None
    [("sessionSecret", VStr (protect demo_machine "abc"))] 8787) as (cfg & E & H1 & _ & H2 & _);
    try (vm_compute; reflexivity); try done; try (eexists; vm_compute; reflexivity).
  exists cfg. rewrite E, H1, H2. split; [done|]. split; [done|]. vm_compute. reflexivity.
Defined.

Lemma restart_keeps_secrets_witness :
  let before := desktop_run demo_machine "s1" None [] demo_events in
  let after := desktop_run (with_disk (DiskRefuses "EROFS") demo_machine) "other" (dk_file before) [] [] in
  currentGatewayPassword demo_machine (dk_settings before) = "s1"
  /\ currentGatewayPassword demo_machine (dk_settings after) = currentGatewayPassword demo_machine (dk_settings before).
Proof.
  split; [vm_compute; reflexivity|].
  apply (restart_keeps_secrets demo_machine "s1" "other" None [] [] demo_events (DiskRefuses "EROFS")); [done| |done|done].
  split; [constructor|done].
Defined.

(** The settings are replaced in memory before they are written: when the write
    fails the call throws, yet the new password is used until the shell is
    restarted, which then knows nothing of it; a write that fails after the file
    was emptied loses the session secret too. *)
Example failed_write_forgets :
  let save disk := map (fun e => ("9:00", e)) [DiskChanges disk; SaveCall "s2" (demo_input "pw")] in
  let before disk := desktop_run demo_machine "s1" None [] (save disk) in
  let after disk := desktop_run demo_machine "other" (dk_file (before disk)) [] [] in
  let password d := unprotect demo_machine (setting "relayPassword" (dk_settings d)) in
  dk_threw (before (DiskRefuses "EACCES")) = ["EACCES"]
  /\ password (before (DiskRefuses "EACCES")) = "pw" /\ password (after (DiskRefuses "EACCES")) = ""
  /\ currentGatewayPassword demo_machine (dk_settings (after (DiskRefuses "EACCES"))) = "s1"
  /\ currentGatewayPassword demo_machine (dk_settings (after (DiskTruncates "ENOSPC"))) = "other".
Proof. vm_compute. auto 10. Qed.

(** The old gateway exits after its successor was started: the successor is
    forgotten and survives quitting. *)
Example late_exit_leaves_gateway :
  let es := map (fun e => ("9:00", e))
    [HealthAnswer false; PortAnswer false; HealthPolls [(0, true)]; StatusAnswer (StatusHttp 503);
     StopCall true; StopWaited 0; HealthAnswer false; PortAnswer false; ProcessExited 0 "0" "-"] in
  map running (dk_procs (beforeQuit (desktop_run demo_machine "s1" None [] es))) = [false; true].
Proof. vm_compute. reflexivity. Qed.

(** A cookie whose value holds an equals sign is cut there. *)
Example cookie_value_cut : cookie_pair "codeharbor_session=YWI=; Path=/" = Some ("codeharbor_session", "YWI").
Proof. reflexivity. Qed.
