(* ===== verification/Launcher.v ===== *)
(** * The launcher

    server/src/cli.ts: the commands of [acode-server] as functions on the state
    of a run: the text files, the lines printed, the exit code, and whether the
    server module was started. The host ([host]) answers everything else: the
    command line and environment, the file system beside the text files, the
    network interfaces, the ports and the health endpoint. A run that throws
    stops with [Threw]. Writes succeed, and the variable that selects the log
    format is left out. *)

From Stdlib Require Import Ascii.
From S2P Require Import Prelude JsValue GatewayStore Sessions Paths EnvFile CodexPath ServerConfig.

Local Open Scope Z_scope.

Inductive platform := Darwin | Linux | Win32 | OtherPlatform (name : string).

(** The answer of [/api/health] when its [ok] is [true]. *)
Record health := mkHealth { he_publicOrigin : option string }.

Record host := mkHost {
  h_platform : platform;
  h_argv : list string;
  h_env : jmap string string;
  h_homedir : string;
  h_cwd : string;
  h_execPath : string;
  h_path : node_path;
  h_exists : string -> bool;
  h_readable : string -> bool;
  h_lookup : string -> list string -> lookup_result;
  h_lan : list string;
  h_hostname : string -> option string;
  h_health : num -> option health;
  h_port_open : Z -> bool;
  h_sqlite : string;
  h_number : string -> num
}.

Record run_state := mkRun {
  rs_files : jmap string string;
  rs_out : list string;
  rs_exitCode : Z;
  rs_server : bool
}.

Inductive outcome := Finished (r : run_state) | Threw (r : run_state).

Definition with_rs_files (v : jmap string string) (r : run_state) : run_state :=
  mkRun v (rs_out r) (rs_exitCode r) (rs_server r).
Definition say (lines : list string) (r : run_state) : run_state :=
  mkRun (rs_files r) (rs_out r ++ lines) (rs_exitCode r) (rs_server r).
Definition with_rs_exitCode (v : Z) (r : run_state) : run_state := mkRun (rs_files r) (rs_out r) v (rs_server r).
Definition with_rs_server (v : bool) (r : run_state) : run_state := mkRun (rs_files r) (rs_out r) (rs_exitCode r) v.

Definition and_then (o : outcome) (f : run_state -> outcome) : outcome :=
  match o with Finished r => f r | Threw r => Threw r end.

Definition officialRelayUrl : string := "https://code.pixlnan.com".

Inductive Command :=
| Init | OfficialInit | Start | OfficialStart | Doctor | InstallService | OfficialInstallService | UninstallService | Help.

Definition command_name (c : Command) : string :=
  match c with
  | Init => "init" | OfficialInit => "official-init" | Start => "start" | OfficialStart => "official-start"
  | Doctor => "doctor" | InstallService => "install-service" | OfficialInstallService => "official-install-service"
  | UninstallService => "uninstall-service" | Help => "help"
  end.

Definition named_commands : list Command :=
  [Init; OfficialInit; Start; OfficialStart; Doctor; InstallService; OfficialInstallService; UninstallService].

(** The command and what is printed about an unknown one. *)
Definition normalizeCommand (value : option string) : Command * list string :=
  match value with
  | None => (Help, [])
  | Some v =>
      if (v === "") || (v === "-h") || (v === "--help") || (v === "help") then (Help, [])
      else match List.find (fun c => command_name c === v) named_commands with
           | Some c => (c, [])
           | None => (Help, ["Unknown command: " ^^ v])
           end
  end.

(** ** Origins and addresses *)

Definition drop_prefix (p s : string) : option string := if starts_with p s then Some (skip (slen p) s) else None.

(** What follows the host of a local origin: a port, a slash, or nothing. *)
Definition origin_tail (s : string) : bool :=
  let after_port := match drop_prefix ":" s with
                    | Some t => let '(digits, rest) := span is_digit t in if digits === "" then s else rest
                    | None => s
                    end in
  (after_port === "") || (after_port === "/").

Definition isLocalOrigin (origin : string) : bool :=
  let s := to_lower origin in
  let hosts := match drop_prefix "http://" s with Some t => [t] | None => [] end
               ++ match drop_prefix "https://" s with Some t => [t] | None => [] end in
  existsb (fun t =>
    match drop_prefix "127.0.0.1" t, drop_prefix "localhost" t with
    | Some u, _ => origin_tail u
    | None, Some u => origin_tail u
    | None, None => false
    end) hosts.

Definition isPrivateIpv4 (host : string) : bool :=
  starts_with "10." host || starts_with "192.168." host ||
  match drop_prefix "172." host with
  | Some (String a (String b (String c _))) =>
      Ascii.eqb c "."%char &&
      (Ascii.eqb a "1"%char && between 54 (code b) 57 || Ascii.eqb a "2"%char && is_digit b
       || Ascii.eqb a "3"%char && between 48 (code b) 49)
  | _ => false
  end.

Section launcher.
Context (H : host).

Definition isStaleLanOrigin (origin : string) : bool :=
  match h_hostname H origin with
  | Some name => isPrivateIpv4 name && negb (shas name (h_lan H))
  | None => false
  end.

Definition firstLanAddress : string := default "127.0.0.1" (head (h_lan H)).

(** ** Files and paths

    [h_exists] answers for the paths that are not text files of the run. *)

Definition existsSync (p : string) (r : run_state) : bool := mhas p (rs_files r) || h_exists H p.

Definition win32 : bool := match h_platform H with Win32 => true | _ => false end.

Definition envValue (key fallback : string) : string := default fallback (mget key (h_env H)).

Definition resolveReadableConfigPath : string :=
  match explicit_config (h_argv H) (h_env H) with
  | Some p => np_resolve (h_path H) p
  | None => defaultConfigPath (h_path H) win32 (h_homedir H) (h_env H)
  end.

Definition resolve_command (r : run_state) (command : string) : option string :=
  resolveCodexCommand (h_path H) win32 (fun p => existsSync p r) (h_lookup H) command.

Definition commandExists (r : run_state) (command : string) : bool :=
  match resolve_command r command with Some _ => true | None => false end.

Definition codex_bin (r : run_state) : string :=
  detectCodexBin (h_path H) win32 (fun p => existsSync p r) (h_lookup H) (h_homedir H) (h_env H).

Definition codex_home_candidates : list string :=
  let join := np_join (h_path H) in
  let home := h_homedir H in
  let dir key fallback := default (join fallback) (mget key (h_env H)) in
  [join [home; ".codex"]; join [dir "APPDATA" [home; "AppData"; "Roaming"]; "Codex"];
   join [dir "LOCALAPPDATA" [home; "AppData"; "Local"]; "Codex"];
   join [dir "XDG_STATE_HOME" [home; ".local"; "state"]; "codex"];
   join [dir "XDG_CONFIG_HOME" [home; ".config"]; "codex"]].

Definition detectCodexHome (r : run_state) : string :=
  let fallback :=
    match List.find (fun c => existsSync (np_join (h_path H) [c; "state_5.sqlite"]) r) codex_home_candidates with
    | Some c => c
    | None => default (np_join (h_path H) [h_homedir H; ".codex"])
                (List.find (fun c => existsSync c r) codex_home_candidates)
    end in
  match mget "CODEX_HOME" (h_env H) with
  | Some explicit => if (explicit !== "") && existsSync explicit r then explicit else fallback
  | None => fallback
  end.

Definition appBaseDir : string :=
  let P := h_path H in
  let entryDir := np_dirname P (match h_argv H !! 1%nat with
                                | Some entry => if entry === "" then h_cwd H else np_resolve P entry
                                | None => h_cwd H
                                end) in
  if (np_basename P entryDir === "dist") && (np_basename P (np_dirname P entryDir) === "server")
  then np_dirname P (np_dirname P entryDir) else entryDir.

(** The configuration file is one of the text files. *)
Definition env_of (p : string) (r : run_state) : jmap string string := readEnvFile (mget p (rs_files r)).

(** ** Messages *)

Definition hasRelayAccountCredentials (env : jmap string string) : bool :=
  let token := first_nonempty (first_nonempty (default "" (mget "RELAY_ACCOUNT_TOKEN" env)) (default "" (mget "CODEHARBOR_ACCOUNT_TOKEN" env)))
                 (first_nonempty (envValue "RELAY_ACCOUNT_TOKEN" "") (envValue "CODEHARBOR_ACCOUNT_TOKEN" "")) in
  let username := first_nonempty (first_nonempty (default "" (mget "RELAY_ACCOUNT_USERNAME" env)) (default "" (mget "CODEHARBOR_ACCOUNT_USERNAME" env)))
                    (first_nonempty (envValue "RELAY_ACCOUNT_USERNAME" "") (envValue "CODEHARBOR_ACCOUNT_USERNAME" "")) in
  let password := default "" (or_else (or_else (mget "RELAY_ACCOUNT_PASSWORD" env) (mget "CODEHARBOR_ACCOUNT_PASSWORD" env))
                    (or_else (mget "RELAY_ACCOUNT_PASSWORD" (h_env H)) (mget "CODEHARBOR_ACCOUNT_PASSWORD" (h_env H)))) in
  (token !== "") || ((username !== "") && (password !== "")).

Fixpoint drop_slashes (s : string) : string :=
  match s with String c s' => if Ascii.eqb c "/"%char then drop_slashes s' else s | "" => "" end.

Definition service_url (env : jmap string string) : string :=
  default ("http://" ^^ firstLanAddress ^^ ":" ^^ default "8787" (mget "PORT" env)) (mget "PUBLIC_ORIGIN" env).

Definition connection_hint (env : jmap string string) : list string :=
  if opt_str_eqb (mget "RELAY_URL" env) (Some officialRelayUrl) then
    ["Official relay URL is preconfigured."]
    ++ (if hasRelayAccountCredentials env
        then ["Relay account credentials are configured; start the gateway to enroll this computer."]
        else ["Set RELAY_ACCOUNT_TOKEN at runtime, or set RELAY_ACCOUNT_USERNAME and RELAY_ACCOUNT_PASSWORD in the config before starting.";
              "Credentials are used only for enrollment and are never printed by this launcher."])
    ++ ["After enrollment, the per-device credential is stored locally and reused on reconnect."]
  else
    ["Service URL: " ^^ service_url env;
     "Admin token: " ^^ default "(missing)" (mget "ADMIN_TOKEN" env);
     "APK URL: " ^^ srev (drop_slashes (srev (service_url env))) ^^ "/download/aCode-latest.apk"].

(** ** Keeping the file up to date *)

(** [Number(env.PORT ?? ...)] *)
Definition port_of (text : option string) : num := to_number (h_number H) (default "8787" text).

(** The updates, in the order they are assigned. *)
Definition reconcile_updates (env : jmap string string) (r : run_state) : jmap string string :=
  let get key := default "" (mget key env) in
  let origin := get "PUBLIC_ORIGIN" in
  let port := num_str (port_of (mget "PORT" env)) in
  let local := "http://127.0.0.1:" ^^ port in
  let packageApkPath := np_join (h_path H) [appBaseDir; "aCode-latest.apk"] in
  (if (get "CODEX_BIN" === "") || (get "CODEX_BIN" === "codex") || negb (commandExists r (get "CODEX_BIN"))
   then [("CODEX_BIN", codex_bin r)] else [])
  ++ (if (get "CODEX_HOME" === "") || negb (existsSync (np_join (h_path H) [get "CODEX_HOME"; "state_5.sqlite"]) r)
      then [("CODEX_HOME", detectCodexHome r)] else [])
  ++ (if opt_str_eqb (mget "RELAY_URL" env) (Some officialRelayUrl) then
        (if opt_str_eqb (mget "PUBLIC_ORIGIN" env) (Some local) then [] else [("PUBLIC_ORIGIN", local)])
      else if (origin === "") || isLocalOrigin origin || isStaleLanOrigin origin
           then [("PUBLIC_ORIGIN", "http://" ^^ firstLanAddress ^^ ":" ^^ port)] else [])
  ++ (if existsSync packageApkPath r && ((get "APP_UPDATE_APK_PATH" === "") || negb (h_readable H (get "APP_UPDATE_APK_PATH")))
      then [("APP_UPDATE_APK_PATH", packageApkPath)] else []).

(** [{ ...env, ...updates }] *)
Definition merge (env updates : jmap string string) : jmap string string :=
  foldl (fun env e => mset e.1 e.2 env) env updates.

Definition reconcileConfig (configPath : string) (r : run_state) : run_state :=
  if negb (mhas configPath (rs_files r)) then r
  else
    let env := env_of configPath r in
    match reconcile_updates env r with
    | [] => r
    | updates =>
        say (("Config auto-updated: " ^^ configPath) :: map (fun e => "AUTO " ^^ e.1 ^^ ": " ^^ e.2) updates)
          (with_rs_files (mset configPath (writeEnvFile (merge env updates)) (rs_files r)) r)
    end.

(** ** Ports *)

(** [isPortOpen]: [None] when [createConnection] rejects the port. *)
Definition isPortOpen (port : num) : option bool :=
  match port with
  | NInt z => if (0 <=? z) && (z <=? 65535) then Some (h_port_open H z) else None
  | _ => None
  end.

(** The ports after [preferred]; [n] are left. *)
Fixpoint next_free (n : nat) (port : Z) : option (option Z) :=
  match n with
  | O => Some None
  | S n' =>
      match isPortOpen (NInt port) with
      | None => None
      | Some false => Some (Some port)
      | Some true => next_free n' (port + 1)
      end
  end.

(** [None] when it throws; otherwise the port and what is printed. *)
Definition pickAvailablePort (preferred : num) : option (num * list string) :=
  match isPortOpen preferred with
  | None => None
  | Some false => Some (preferred, [])
  | Some true =>
      match h_health H preferred, preferred with
      | Some _, _ => Some (preferred, [])
      | None, NInt z =>
          match next_free 20 (z + 1) with
          | None => None
          | Some (Some port) =>
              Some (NInt port, ["Port " ^^ num_str preferred ^^ " is busy. Using " ^^ zstr port ^^ " instead."])
          | Some None => Some (preferred, [])
          end
      | None, _ => Some (preferred, [])
      end
  end.

(** ** The commands *)

Definition DQUOTE : ascii := ascii_of_nat 34.

(** The lines of a new configuration file; the two tokens are random. *)
Definition config_lines (official : bool) (port : num) (adminToken sessionSecret : string) (r : run_state)
    : list (string * string) :=
  [("HOST", if official then "127.0.0.1" else envValue "HOST" "0.0.0.0");
   ("PORT", num_str port);
   ("PUBLIC_ORIGIN", if official then "http://127.0.0.1:" ^^ num_str port
                     else envValue "PUBLIC_ORIGIN" ("http://" ^^ firstLanAddress ^^ ":" ^^ num_str port));
   ("ADMIN_TOKEN", adminToken);
   ("SESSION_SECRET", sessionSecret);
   ("CODEX_BIN", envValue "CODEX_BIN" (codex_bin r));
   ("CODEX_HOME", envValue "CODEX_HOME" (detectCodexHome r));
   ("CODEX_APP_SERVER_PORT", envValue "CODEX_APP_SERVER_PORT" "8790");
   ("SESSION_TTL_HOURS", envValue "SESSION_TTL_HOURS" "720");
   ("APP_UPDATE_VERSION_CODE", envValue "APP_UPDATE_VERSION_CODE" "100030018");
   ("APP_UPDATE_VERSION_NAME", envValue "APP_UPDATE_VERSION_NAME" "1.0.3.18");
   ("APP_UPDATE_NOTES", String DQUOTE ("aCode Android 更新包" ^^ String DQUOTE ""));
   ("APP_UPDATE_APK_PATH", np_join (h_path H) [appBaseDir; "aCode-latest.apk"]);
   ("APP_UPDATE_PUBLIC_DOWNLOAD", "true")]
  ++ (if official then [("RELAY_URL", officialRelayUrl); ("RELAY_DEVICE_NAME", "")] else []).

Definition config_text (lines : list (string * string)) : string :=
  join (String LF "") (map (fun e => env_line e.1 e.2) lines) ^^ String LF "".

Definition initConfig (official : bool) (adminToken sessionSecret : string) (r : run_state) : outcome :=
  let configPath := resolveReadableConfigPath in
  if mhas configPath (rs_files r) && negb (shas "--force" (h_argv H)) then
    let r := reconcileConfig configPath (say ["Config already exists: " ^^ configPath] r) in
    Finished (say (connection_hint (env_of configPath r)) r)
  else
    match pickAvailablePort (port_of (mget "PORT" (h_env H))) with
    | None => Threw r
    | Some (port, printed) =>
        let r := say printed r in
        let text := config_text (config_lines official port adminToken sessionSecret r) in
        let r := with_rs_files (mset configPath text (rs_files r)) r in
        let r := say (["Config written: " ^^ configPath]
                      ++ (if official then ["Official relay mode configured."] else [])) r in
        Finished (say (connection_hint (env_of configPath r)) r)
    end.

Definition startServer (r : run_state) : outcome :=
  let configPath := resolveReadableConfigPath in
  let r := reconcileConfig configPath r in
  let env := env_of configPath r in
  let port := port_of (or_else (mget "PORT" env) (mget "PORT" (h_env H))) in
  match h_health H port with
  | Some existing =>
      Finished (say (["aCode Server is already running on port " ^^ num_str port ^^ "."]
        ++ match he_publicOrigin existing with Some o => ["Running service URL: " ^^ o] | None => [] end
        ++ ["This launcher will not start a second server.";
            "If you generated a new Admin token just now, stop the old service first or keep using the old service token."]) r)
  | None =>
      match isPortOpen port with
      | None => Threw r
      | Some true =>
          Finished (with_rs_exitCode 1 (say ["Port " ^^ num_str port ^^ " is already in use, but it does not look like aCode Server.";
            "Stop the process using this port, or change PORT in the config file."] r))
      | Some false => Finished (with_rs_server true r)
      end
  end.

Definition start (official : bool) (adminToken sessionSecret : string) (r : run_state) : outcome :=
  let prepared := if official && negb (mhas resolveReadableConfigPath (rs_files r))
                  then initConfig true adminToken sessionSecret r else Finished r in
  and_then prepared startServer.

Record check := mkCheck { ck_name : string; ck_ok : bool; ck_detail : string }.

Definition doctor_checks (r : run_state) : list check :=
  let configPath := resolveReadableConfigPath in
  let env := env_of configPath r in
  let get key := default "" (mget key env) in
  let secret key := mkCheck key (16 <=? slen (get key))%nat (if get key === "" then "missing" else "set") in
  let codexBin := first_nonempty (get "CODEX_BIN") (codex_bin r) in
  let codexHome := first_nonempty (get "CODEX_HOME") (detectCodexHome r) in
  let statePath := np_join (h_path H) [codexHome; "state_5.sqlite"] in
  let apk := default (np_join (h_path H) [h_cwd H; "aCode-debug.apk"]) (mget "APP_UPDATE_APK_PATH" env) in
  [mkCheck "config" (mhas configPath (rs_files r)) configPath; secret "ADMIN_TOKEN"; secret "SESSION_SECRET";
   mkCheck "codex" (commandExists r codexBin) codexBin; mkCheck "sqlite" (commandExists r (h_sqlite H)) (h_sqlite H);
   mkCheck "codex home" (existsSync codexHome r) codexHome; mkCheck "state db" (existsSync statePath r) statePath;
   mkCheck "apk" (h_readable H apk) (default "aCode-debug.apk" (mget "APP_UPDATE_APK_PATH" env))].

Definition doctor_hints (checks : list check) (r : run_state) : list string :=
  let failed name := existsb (fun c => (ck_name c === name) && negb (ck_ok c)) checks in
  let detail name := default "" (ck_detail <$> List.find (fun c => ck_name c === name) checks) in
  let env := env_of resolveReadableConfigPath r in
  if forallb ck_ok checks then []
  else
    [""; "Hints:"]
    ++ (if failed "codex"
        then ["- Codex command was not found. Install Codex or set CODEX_BIN in " ^^ resolveReadableConfigPath
              ^^ ". Current value: " ^^ detail "codex"] else [])
    ++ (if failed "codex home" || failed "state db"
        then ["- No Codex history was found at " ^^ detail "codex home"
              ^^ ". Run Codex once on this computer, or set CODEX_HOME to the folder that contains state_5.sqlite."] else [])
    ++ (if failed "apk"
        then ["- APK file was not readable. Set APP_UPDATE_APK_PATH in " ^^ resolveReadableConfigPath
              ^^ " if you moved the package."] else [])
    ++ (if (default "" (mget "PUBLIC_ORIGIN" env) === "") || isLocalOrigin (default "" (mget "PUBLIC_ORIGIN" env))
        then ["- PUBLIC_ORIGIN should use this computer's LAN IP so the Android app can connect from your phone."] else []).

Definition doctor (r : run_state) : run_state :=
  let checks := doctor_checks r in
  let lines := map (fun c => (if ck_ok c then "OK " else "ERR") ^^ " " ^^ ck_name c ^^ ": " ^^ ck_detail c) checks in
  let r' := say (lines ++ doctor_hints checks r) r in
  if forallb ck_ok checks then r' else with_rs_exitCode 1 r'.

Definition linuxSystemdUser (nodePath entryPath configPath : string) : string :=
  join (String LF "")
    ["[Unit]"; "Description=aCode server"; "After=network.target"; ""; "[Service]";
     "ExecStart=" ^^ nodePath ^^ " " ^^ entryPath ^^ " start --config " ^^ configPath;
     "Restart=always"; "RestartSec=3"; ""; "[Install]"; "WantedBy=default.target"; ""].

Definition attr (name value : string) : string := name ^^ "=" ^^ String DQUOTE (value ^^ String DQUOTE "").

Definition macLaunchAgent (nodePath entryPath configPath : string) : string :=
  let logs name := np_join (h_path H) [np_dirname (h_path H) configPath; name] in
  let element s := "<string>" ^^ s ^^ "</string>" in
  join (String LF "")
    ["<?xml " ^^ attr "version" "1.0" ^^ " " ^^ attr "encoding" "UTF-8" ^^ "?>";
     "<!DOCTYPE plist PUBLIC " ^^ String DQUOTE ("-//Apple//DTD PLIST 1.0//EN" ^^ String DQUOTE " "
       ^^ String DQUOTE ("http://www.apple.com/DTDs/PropertyList-1.0.dtd" ^^ String DQUOTE ">"));
     "<plist " ^^ attr "version" "1.0" ^^ ">"; "<dict>";
     "  <key>Label</key>" ^^ element "org.acode.gateway";
     "  <key>ProgramArguments</key>"; "  <array>";
     "    " ^^ element nodePath ^^ element entryPath ^^ element "start" ^^ element "--config" ^^ element configPath;
     "  </array>"; "  <key>RunAtLoad</key><true/>"; "  <key>KeepAlive</key><true/>";
     "  <key>EnvironmentVariables</key>"; "  <dict>";
     "    <key>PATH</key>" ^^ element "/opt/homebrew/bin:/usr/local/bin:/usr/bin:/bin:/usr/sbin:/sbin"; "  </dict>";
     "  <key>StandardOutPath</key>" ^^ element (logs "server.log");
     "  <key>StandardErrorPath</key>" ^^ element (logs "server.err.log"); "</dict>"; "</plist>"; ""].

Definition quoted (s : string) : string := String "\"%char (String DQUOTE (s ^^ String "\"%char (String DQUOTE ""))).

Definition installService (official : bool) (r : run_state) : run_state :=
  let configPath := resolveReadableConfigPath in
  let nodePath := h_execPath H in
  let entryPath := default "undefined" (h_argv H !! 1%nat) in
  let startCommand := if official then "official-start" else "start" in
  match h_platform H with
  | Darwin =>
      let plistPath := np_join (h_path H) [h_homedir H; "Library"; "LaunchAgents"; "org.acode.gateway.plist"] in
      say ["LaunchAgent written: " ^^ plistPath; "Load with: launchctl bootstrap gui/$(id -u) " ^^ plistPath]
        (with_rs_files (mset plistPath (macLaunchAgent nodePath entryPath configPath) (rs_files r)) r)
  | Linux =>
      let servicePath := np_join (h_path H) [h_homedir H; ".config"; "systemd"; "user"; "acode-server.service"] in
      say ["systemd user service written: " ^^ servicePath;
           "Run: systemctl --user daemon-reload && systemctl --user enable --now acode-server"]
        (with_rs_files (mset servicePath (linuxSystemdUser nodePath entryPath configPath) (rs_files r)) r)
  | Win32 =>
      say ["Run this PowerShell command as the current user:";
           "schtasks /Create /TN aCodeServer /SC ONLOGON /TR " ^^ String DQUOTE (quoted nodePath ^^ " " ^^ quoted entryPath
             ^^ " " ^^ startCommand ^^ " --config " ^^ quoted configPath ^^ String DQUOTE " /F")] r
  | OtherPlatform name => say ["Unsupported platform: " ^^ name] r
  end.

Definition uninstallService (r : run_state) : run_state :=
  match h_platform H with
  | Darwin => say ["Run: launchctl bootout gui/$(id -u) ~/Library/LaunchAgents/org.acode.gateway.plist"] r
  | Linux => say ["Run: systemctl --user disable --now acode-server"] r
  | Win32 => say ["Run: schtasks /Delete /TN aCodeServer /F"] r
  | OtherPlatform _ => r
  end.

Definition printHelp (r : run_state) : run_state :=
  say [join (String LF "")
    ["aCode server"; ""; "Usage:"; "  acode-server init [--force]"; "  acode-server official-init [--force]";
     "  acode-server start [--config path]"; "  acode-server official-start [--config path]";
     "  acode-server doctor [--config path]"; "  acode-server install-service [--config path]";
     "  acode-server official-install-service [--config path]"; "  acode-server uninstall-service"; ""]] r.

(** The command line. *)
Definition main (adminToken sessionSecret : string) (r : run_state) : outcome :=
  let '(command, printed) := normalizeCommand (h_argv H !! 2%nat) in
  let r := say printed r in
  match command with
  | Init => initConfig false adminToken sessionSecret r
  | OfficialInit => initConfig true adminToken sessionSecret r
  | Start => start false adminToken sessionSecret r
  | OfficialStart => start true adminToken sessionSecret r
  | Doctor => Finished (doctor r)
  | InstallService => Finished (installService false r)
  | OfficialInstallService =>
      and_then (initConfig true adminToken sessionSecret r) (fun r => Finished (installService true r))
  | UninstallService => Finished (uninstallService r)
  | Help => Finished (printHelp r)
  end.
End launcher.
