(* ===== verification/LauncherInv.v ===== *)
(** * What the launcher guarantees

    The configuration file stays readable and keeps its secrets when it is
    brought up to date, doing so twice changes nothing, and the file a new
    installation gets is one the server accepts. *)

From Stdlib Require Import Ascii FunctionalExtensionality.
From S2P Require Import Prelude JsValue GatewayStore Sessions Paths EnvFile CodexPath ServerConfig Launcher.

Local Open Scope Z_scope.

(** ** What a reader returns can be written *)

Lemma span_spec f s : let '(a, b) := span f s in s = a ^^ b /\ sforall f a = true.
Proof.
  induction s as [|c s IH]; simpl; [done|]. destruct (f c) eqn:E; [|done].
  destruct (span f s) as [a b]. destruct IH as [-> IH]. simpl. by rewrite E.
Qed.

Lemma sforall_strip_first f s : sforall f s = true -> sforall f (strip_first s) = true.
Proof. destruct s as [|c s]; [done|]. simpl. intros [Hc Hs]%andb_true_iff. destruct (is_quote c); simpl; [done|]. by rewrite Hc, Hs. Qed.

Lemma sforall_strip_quotes f s : sforall f s = true -> sforall f (strip_quotes s) = true.
Proof. intros H. unfold strip_quotes. rewrite sforall_srev. apply sforall_strip_first. rewrite sforall_srev. by apply sforall_strip_first. Qed.

Lemma match_binding_spec line key value :
  match_binding line = Some (key, value) -> key <> "__proto__" -> ident key = true /\ sforall one_line value = true.
Proof.
  unfold match_binding. destruct line as [|c s]; [done|]. destruct (ident_start c) eqn:Hc; [|done].
  pose proof (span_spec ident_char (String c s)) as Hsp. destruct (span ident_char (String c s)) as [a b] eqn:E.
  destruct Hsp as [_ Hall]. destruct b as [|d b]; [done|].
  destruct (Ascii.eqb d EQUALS && sforall one_line b) eqn:F; [|done]. intros [= <- <-] Hne.
  apply andb_true_iff in F as [_ F]. split; [|done]. cbn [span] in E.
  assert (ident_char c = true) as Hic by (unfold ident_char; by rewrite Hc). rewrite Hic in E.
  destruct (span ident_char s) as [a' b']. injection E as <- _. 
  change (ident (String c a')) with (ident_start c && sforall ident_char (String c a') && (String c a' !== "__proto__")).
  by rewrite Hc, Hall, (proj2 (String.eqb_neq (String c a') "__proto__")).
Qed.

Lemma bindings_writable text e : e ∈ bindings text -> ident e.1 = true /\ sforall one_line e.2 = true.
Proof.
  unfold bindings. intros (line & _ & H)%list_elem_of_omap. unfold binding in H.
  destruct (match_binding (trim line)) as [[key value]|] eqn:E; [|done].
  destruct (String.eqb_spec key "__proto__") as [|Hne]; [done|]. injection H as <-. simpl.
  destruct (match_binding_spec _ _ _ E Hne) as [? ?]. split; [done|]. by apply sforall_strip_quotes.
Qed.

Lemma foldl_mset_elem (l env : jmap string string) e :
  e ∈ foldl (fun env e => mset e.1 e.2 env) env l -> e ∈ l \/ e ∈ env.
Proof.
  revert env. induction l as [|[k v] l IH]; intros env; simpl; [by right|]. intros [H|H]%IH; [left; by right|].
  assert (forall m : jmap string string, e ∈ mset k v m -> e = (k, v) \/ e ∈ m) as Hm.
  { induction m as [|[k' v'] m IHm]; simpl; [set_solver|]. case_decide; set_solver. }
  destruct (Hm env H) as [->|?]; [left; by left|by right].
Qed.

Lemma foldl_mset_NoDup (l env : jmap string string) :
  NoDup env.*1 -> NoDup (foldl (fun env e => mset e.1 e.2 env) env l).*1.
Proof. revert env. induction l as [|[k v] l IH]; intros env Hn; [done|]. apply IH. by apply mset_NoDup. Qed.

Lemma read_ok text : NoDup (readEnvFile text).*1 /\ writable_env (readEnvFile text) = true.
Proof.
  destruct text as [text|]; [|by split; [constructor|]]. rewrite read_bindings. split; [apply foldl_mset_NoDup; constructor|].
  unfold writable_env. apply forallb_forall. intros e He%list_elem_of_In. apply andb_true_iff.
  destruct (foldl_mset_elem _ _ _ He) as [Hb|Hn]; [by apply (bindings_writable text)|set_solver].
Qed.

Lemma merge_ok env updates :
  NoDup env.*1 -> writable_env env = true -> writable_env updates = true ->
  NoDup (merge env updates).*1 /\ writable_env (merge env updates) = true.
Proof.
  intros Hnd H1 H2. unfold merge. split; [by apply foldl_mset_NoDup|]. unfold writable_env in *.
  rewrite forallb_forall in *. intros e He%list_elem_of_In.
  destruct (foldl_mset_elem _ _ _ He) as [Hb|Hb]; [apply H2|apply H1]; by apply list_elem_of_In.
Qed.

Lemma mget_merge key env updates :
  mget key (merge env updates) = match mget key (rev updates) with Some v => Some v | None => mget key env end.
Proof. apply mget_read. Qed.

(** ** Bringing the file up to date *)

Definition managed : list string := ["CODEX_BIN"; "CODEX_HOME"; "PUBLIC_ORIGIN"; "APP_UPDATE_APK_PATH"].

Definition clean (v : string) : bool := sforall one_line v && settled v.

(** An update found in a list of conditional updates is one of them. *)
Ltac same_update Hin :=
  repeat match type of Hin with context [if ?b then _ else _] => destruct b end;
  first [by apply elem_of_nil in Hin | apply list_elem_of_singleton in Hin as ->; assumption].

(** The value of a key after the updates [U], whose conditions are variables. *)
Ltac lookup_update Hm U key v E :=
  assert (mget key (merge _ U) = v) as E
    by (rewrite Hm; unfold U; repeat match goal with c := _ : bool |- _ => destruct c end; done).

Section reconcile.
Context (H : host).

Lemma updates_ext env env' r r' :
  (forall key, mget key env = mget key env') -> (forall p, existsSync H p r = existsSync H p r') ->
  reconcile_updates H env r = reconcile_updates H env' r'.
Proof.
  intros He Hx. unfold reconcile_updates, codex_bin, detectCodexHome, commandExists, resolve_command.
  assert ((fun p => existsSync H p r) = (fun p => existsSync H p r')) as -> by (apply functional_extensionality; apply Hx).
  assert ((fun c => existsSync H (np_join (h_path H) [c; "state_5.sqlite"]) r) =
          (fun c => existsSync H (np_join (h_path H) [c; "state_5.sqlite"]) r')) as ->
    by (apply functional_extensionality; intros; apply Hx).
  rewrite !He, !Hx. destruct (mget "CODEX_HOME" (h_env H)); [|done]. by rewrite Hx.
Qed.

Lemma updates_managed env r e : e ∈ reconcile_updates H env r -> e.1 ∈ managed.
Proof.
  unfold reconcile_updates. intros Hin. repeat (apply elem_of_app in Hin as [Hin|Hin]);
    repeat match type of Hin with context [if ?b then _ else _] => destruct b end;
    first [by apply elem_of_nil in Hin | apply list_elem_of_singleton in Hin as ->; apply (bool_decide_unpack _); vm_compute; exact I].
Qed.

(** Updating an updated environment assigns the values it already has. *)
Lemma updates_again env r e :
  let env' := merge env (reconcile_updates H env r) in
  e ∈ reconcile_updates H env' r -> mget e.1 env' = Some e.2.
Proof.
  unfold reconcile_updates. cbv zeta.
  set (bin := codex_bin H r). set (home := detectCodexHome H r). set (apk := np_join (h_path H) [appBaseDir H; "aCode-latest.apk"]).
  set (lan := firstLanAddress H).
  set (c1 := (default "" (mget "CODEX_BIN" env) === "") || (default "" (mget "CODEX_BIN" env) === "codex")
             || negb (commandExists H r (default "" (mget "CODEX_BIN" env)))).
  set (c2 := (default "" (mget "CODEX_HOME" env) === "")
             || negb (existsSync H (np_join (h_path H) [default "" (mget "CODEX_HOME" env); "state_5.sqlite"]) r)).
  set (local := "http://127.0.0.1:" ^^ num_str (port_of H (mget "PORT" env))).
  set (c3 := opt_str_eqb (mget "PUBLIC_ORIGIN" env) (Some local)).
  set (c3' := (default "" (mget "PUBLIC_ORIGIN" env) === "") || isLocalOrigin (default "" (mget "PUBLIC_ORIGIN" env))
              || isStaleLanOrigin H (default "" (mget "PUBLIC_ORIGIN" env))).
  set (c4 := existsSync H apk r && ((default "" (mget "APP_UPDATE_APK_PATH" env) === "")
             || negb (h_readable H (default "" (mget "APP_UPDATE_APK_PATH" env))))).
  set (relay := opt_str_eqb (mget "RELAY_URL" env) (Some officialRelayUrl)).
  set (U := (if c1 then [("CODEX_BIN", bin)] else []) ++ _).
  assert (forall key, mget key (merge env U) = match mget key (rev U) with Some v => Some v | None => mget key env end) as Hm
    by (intros; apply mget_merge).
  assert (mget "PORT" (merge env U) = mget "PORT" env /\ mget "RELAY_URL" (merge env U) = mget "RELAY_URL" env) as [Hp Hr].
  { rewrite !Hm. unfold U. destruct c1, c2, relay, c3, c3', c4; done. }
  rewrite !Hp, !Hr. fold local relay.
  intros Hin. repeat (apply elem_of_app in Hin as [Hin|Hin]).
  - lookup_update Hm U "CODEX_BIN" (if c1 then Some bin else mget "CODEX_BIN" env) E. rewrite E in Hin.
    destruct c1 eqn:C; [by same_update Hin|]. fold c1 in Hin. rewrite C in Hin. by apply elem_of_nil in Hin.
  - lookup_update Hm U "CODEX_HOME" (if c2 then Some home else mget "CODEX_HOME" env) E. rewrite E in Hin.
    destruct c2 eqn:C; [by same_update Hin|]. fold c2 in Hin. rewrite C in Hin. by apply elem_of_nil in Hin.
  - lookup_update Hm U "PUBLIC_ORIGIN"
      (if relay then if c3 then mget "PUBLIC_ORIGIN" env else Some local
       else if c3' then Some ("http://" ^^ lan ^^ ":" ^^ num_str (port_of H (mget "PORT" env))) else mget "PUBLIC_ORIGIN" env) E.
    rewrite E in Hin. destruct relay.
    + destruct c3 eqn:C; [fold c3 in Hin; rewrite C in Hin; by apply elem_of_nil in Hin|]. by same_update Hin.
    + destruct c3' eqn:C; [by same_update Hin|]. fold c3' in Hin. rewrite C in Hin. by apply elem_of_nil in Hin.
  - lookup_update Hm U "APP_UPDATE_APK_PATH" (if c4 then Some apk else mget "APP_UPDATE_APK_PATH" env) E. rewrite E in Hin.
    destruct c4 eqn:C; [by same_update Hin|]. fold c4 in Hin. rewrite C in Hin. by apply elem_of_nil in Hin.
Qed.

(** What the environment of the file is after one run. *)
Lemma reconcile_env p r :
  mhas p (rs_files r) = true -> forallb (fun e => settled e.2) (env_of p r) = true ->
  forallb (fun e => clean e.2) (reconcile_updates H (env_of p r) r) = true ->
  forall key, mget key (env_of p (reconcileConfig H p r)) = mget key (merge (env_of p r) (reconcile_updates H (env_of p r) r)).
Proof.
  intros Hf Hs Hu key. unfold reconcileConfig. rewrite Hf. cbn [negb].
  set (env := env_of p r) in *. set (U := reconcile_updates H env r) in *.
  assert (forall e, e ∈ U -> e.1 ∈ managed) as Hman by (intros e He; by apply (updates_managed env r)).
  destruct U as [|u U'] eqn:EU; [done|]. rewrite <- EU in *. clear EU u U'.
  unfold env_of at 1. cbn [say rs_files with_rs_files]. rewrite mget_mset_eq.
  destruct (read_ok (mget p (rs_files r))) as [Hnd Hw]. fold (env_of p r) env in Hnd, Hw.
  rewrite forallb_forall in Hu.
  destruct (merge_ok env U Hnd Hw) as [Hnd' Hw'].
  { unfold writable_env. apply forallb_forall. intros e He. apply andb_true_iff. split.
    - apply list_elem_of_In, Hman in He. unfold managed in He.
      repeat (apply elem_of_cons in He as [->|He]; [by vm_compute|]). by apply elem_of_nil in He.
    - apply Hu, andb_true_iff in He. tauto. }
  apply env_file_settled; [done..|]. apply forallb_forall. intros e He%list_elem_of_In.
  destruct (foldl_mset_elem _ _ _ He) as [Hb|Hb]; apply list_elem_of_In in Hb.
  - apply Hu, andb_true_iff in Hb. tauto.
  - rewrite forallb_forall in Hs. by apply Hs.
Qed.

Lemma reconcile_exists p r q : existsSync H q (reconcileConfig H p r) = existsSync H q r.
Proof.
  unfold reconcileConfig. destruct (mhas p (rs_files r)) eqn:E; [|done]. simpl. case_match; [done|].
  unfold existsSync, mhas in *. simpl. rewrite mget_mset. destruct (decide (p = q)) as [<-|]; [|done].
  by destruct (mget p (rs_files r)).
Qed.

(** bringing the configuration file up to date is safe and settles: with
    values that survive a rewrite, every key other than the four managed ones
    keeps its value (the secrets among them), no other file changes, and a
    second run finds nothing to change. *)
Theorem reconcile_stable p r :
  mhas p (rs_files r) = true -> forallb (fun e => settled e.2) (env_of p r) = true ->
  forallb (fun e => clean e.2) (reconcile_updates H (env_of p r) r) = true ->
  let r1 := reconcileConfig H p r in
  (forall key, key ∉ managed -> mget key (env_of p r1) = mget key (env_of p r)) /\
  (forall q, q <> p -> mget q (rs_files r1) = mget q (rs_files r)) /\
  (forall key v, (key, v) ∈ reconcile_updates H (env_of p r1) r1 -> mget key (env_of p r1) = Some v).
Proof.
  intros Hf Hs Hu r1. pose proof (reconcile_env p r Hf Hs Hu) as E. fold r1 in E.
  set (env := env_of p r) in *. set (U := reconcile_updates H env r) in *. split_and!.
  - intros key Hk. rewrite E, mget_merge. rewrite (proj2 (mget_None_keys key (rev U))); [done|].
    intros (e & -> & He)%list_elem_of_fmap. apply Hk. apply (updates_managed env r).
    by apply list_elem_of_In, in_rev, list_elem_of_In.
  - intros q Hq. unfold r1, reconcileConfig. rewrite Hf. cbn [negb]. fold env U. case_match; [done|]. simpl.
    by rewrite mget_mset_ne.
  - intros key v Hin. rewrite E. apply (updates_again env r (key, v)).
    rewrite <- (updates_ext (env_of p r1) _ r1 r); [done|exact E|]. intros q. apply reconcile_exists.
Qed.
End reconcile.

(** *** A concrete installation *)

Definition posix_path (cwd : string) : node_path := {|
  np_join := fun l => to_path (segments (join "/" l));
  np_resolve := resolve cwd;
  np_dirname := fun p => to_path (rev (tail (rev (segments p))));
  np_basename := basename;
  np_extname := extname
|}.

Definition demo_host (argv : list string) (env : jmap string string) : host := {|
  h_platform := Linux; h_argv := argv; h_env := env; h_homedir := "/home/u"; h_cwd := "/srv"; h_execPath := "/usr/bin/node";
  h_path := posix_path "/srv"; h_exists := fun p => (p === "/home/u/.codex/state_5.sqlite") || (p === "/usr/bin/codex");
  h_readable := fun _ => false;
  h_lookup := fun _ args => if shas "codex" args then mkLookup (Some 0) (Some "/usr/bin/codex") else mkLookup (Some 1) None;
  h_lan := ["192.168.1.5"]; h_hostname := fun _ => Some "192.168.1.9"; h_health := fun _ => None;
  h_port_open := fun z => z =? 8787; h_sqlite := "sqlite3"; h_number := fun _ => NNaN
|}.

Definition old_file : string :=
  config_text [("PORT", "9000"); ("PUBLIC_ORIGIN", "http://192.168.1.9:9000"); ("ADMIN_TOKEN", "0123456789abcdef");
               ("CODEX_BIN", "codex"); ("SESSION_SECRET", "fedcba9876543210")].

Definition demo_run : run_state := mkRun [("/cfg", old_file)] [] 0 false.

Lemma reconcile_stable_witness :
  let r1 := reconcileConfig (demo_host [] []) "/cfg" demo_run in
  mget "ADMIN_TOKEN" (env_of "/cfg" r1) = Some "0123456789abcdef" /\
  mget "PUBLIC_ORIGIN" (env_of "/cfg" r1) = Some "http://192.168.1.5:9000" /\
  mget "CODEX_BIN" (env_of "/cfg" r1) = Some "/usr/bin/codex".
Proof.
  destruct (reconcile_stable (demo_host [] []) "/cfg" demo_run) as (H1 & _ & H3);
    [vm_compute; reflexivity | vm_compute; reflexivity | vm_compute; reflexivity |].
  split; [|split].
  - rewrite H1; [vm_compute; reflexivity|]. apply (bool_decide_unpack _). vm_compute. exact I.
  - apply H3. apply (bool_decide_unpack _). vm_compute. exact I.
  - vm_compute. reflexivity.
Defined.

(** ** A new configuration file *)

Section init.
Context (H : host).

Lemma next_free_spec n : forall port z,
  next_free H n port = Some (Some z) -> port <= z < port + Z.of_nat n /\ 0 <= z <= 65535 /\ h_port_open H z = false.
Proof.
  induction n as [|n IH]; intros port z; [done|]. cbn [next_free]. unfold isPortOpen.
  destruct (0 <=? port) eqn:E1, (port <=? 65535) eqn:E2; simpl; try done.
  destruct (h_port_open H port) eqn:E.
  - intros (? & ? & ?)%IH. split_and!; [lia..|done].
  - intros [= <-]. split_and!; [lia..|done].
Qed.

(** The port chosen is close to the preferred one, valid, and not taken by
    another program unless all twenty are. *)
Lemma picked_port preferred port printed :
  pickAvailablePort H preferred = Some (port, printed) ->
  exists z z0, preferred = NInt z0 /\ port = NInt z /\ 0 <= z <= 65535 /\ z0 <= z <= z0 + 20 /\
    (h_port_open H z = false \/ h_health H (NInt z0) <> None \/
     next_free H 20 (z0 + 1) = Some None).
Proof.
  unfold pickAvailablePort. destruct preferred as [z0| | |]; try discriminate. unfold isPortOpen at 1.
  destruct (0 <=? z0) eqn:E1, (z0 <=? 65535) eqn:E2; cbn [andb]; try discriminate.
  destruct (h_port_open H z0) eqn:Eo.
  - destruct (h_health H (NInt z0)) eqn:Eh.
    { intros [= <- _]. exists z0, z0. split_and!; [done|done|lia..|]. right. left. congruence. }
    destruct (next_free H 20 (z0 + 1)) as [[z|]|] eqn:En; [| |discriminate]; intros [= <- _].
    + destruct (next_free_spec _ _ _ En) as (? & ? & ?). exists z, z0. split_and!; [done|done|lia..|]. by left.
    + exists z0, z0. split_and!; [done|done|lia..|]. auto.
  - intros [= <- _]. exists z0, z0. split_and!; [done|done|lia..|]. by left.
Qed.

Lemma bindings_text lines :
  lines <> [] -> forallb (fun e => ident e.1 && sforall one_line e.2) lines = true ->
  bindings (config_text lines) = map (fun e => (e.1, reread e.2)) lines.
Proof.
  intros Hne Hl. unfold bindings, config_text. rewrite forallb_forall in Hl.
  assert (Forall (fun e => ident e.1 = true /\ sforall one_line e.2 = true) lines) as HF.
  { apply List.Forall_forall. intros e He. by apply andb_true_iff, Hl. }
  rewrite file_lines_join; [|by destruct lines|].
  2:{ apply Forall_fmap. eapply Forall_impl; [exact HF|]. intros e [? ?]. by apply env_line_plain. }
  rewrite omap_app. cbn [omap list_omap]. change (match binding "" with Some _ => _ | None => _ end) with (@None (string * string)).
  cbv iota. rewrite app_nil_r. clear Hne Hl. induction HF as [|[k v] lines [Hk Hv] HF IH]; [done|].
  cbn [map omap list_omap fst snd]. rewrite binding_env_line by done.
  destruct (ident_cons k Hk) as (_ & _ & _ & _ & _ & Hp). rewrite (proj2 (String.eqb_neq k "__proto__")) by done.
  f_equal. exact IH.
Qed.

Lemma digits_settled s : sforall is_digit s = true -> settled s = true.
Proof.
  intros Hs. unfold settled. destruct s as [|c s]; [done|].
  assert (forall d, is_digit d = true -> is_quote d = false /\ is_space d = false) as Hd
    by (intros d; by destruct d as [[] [] [] [] [] [] [] []]).
  pose proof Hs as Hr. rewrite <- sforall_srev in Hr. simpl in Hs. apply andb_true_iff in Hs as [Hc _].
  destruct (Hd c Hc) as [-> _]. destruct (srev (String c s)) as [|d x]; [done|]. simpl in Hr.
  apply andb_true_iff in Hr as [Hr _]. by destruct (Hd d Hr) as [-> ->].
Qed.

Definition token_ok (token : string) : bool :=
  clean token && (token !== "") && negb (includes "replace-with-" token).

Lemma token_reread token : token_ok token = true -> reread token = token /\ sforall one_line token = true.
Proof.
  unfold token_ok, clean. intros [[[H1 H2]%andb_true_iff _]%andb_true_iff _]%andb_true_iff. split; [by apply settled_reread|done].
Qed.

Lemma token_required token env key : token_ok token = true -> mget key env = Some token -> required env key = Some token.
Proof.
  unfold token_ok. intros [[_ H1]%andb_true_iff H2]%andb_true_iff E. unfold required. rewrite E.
  apply negb_true_iff in H1, H2. by rewrite H1, H2.
Qed.

(** The keys of a new file; [fresh_env] says the environment sets none. *)
Definition new_keys (official : bool) : list string :=
  take 14 key_order ++ (if official then ["RELAY_URL"; "RELAY_DEVICE_NAME"] else []).

Definition fresh_env (official : bool) : Prop := forall k, k ∈ new_keys official -> mget k (h_env H) = None.

Lemma new_keys_lines official port admin secret r : (config_lines H official port admin secret r).*1 = new_keys official.
Proof. by destruct official. Qed.

(** The lines, when nothing in the environment replaces a default. *)
Definition fresh_lines (official : bool) (z : Z) (admin secret : string) (r : run_state) : list (string * string) :=
  [("HOST", if official then "127.0.0.1" else "0.0.0.0"); ("PORT", zstr z);
   ("PUBLIC_ORIGIN", if official then "http://127.0.0.1:" ^^ zstr z else "http://" ^^ firstLanAddress H ^^ ":" ^^ zstr z);
   ("ADMIN_TOKEN", admin); ("SESSION_SECRET", secret); ("CODEX_BIN", codex_bin H r); ("CODEX_HOME", detectCodexHome H r);
   ("CODEX_APP_SERVER_PORT", "8790"); ("SESSION_TTL_HOURS", "720"); ("APP_UPDATE_VERSION_CODE", "100030018");
   ("APP_UPDATE_VERSION_NAME", "1.0.3.18");
   ("APP_UPDATE_NOTES", String DQUOTE ("aCode Android 更新包" ^^ String DQUOTE ""));
   ("APP_UPDATE_APK_PATH", np_join (h_path H) [appBaseDir H; "aCode-latest.apk"]); ("APP_UPDATE_PUBLIC_DOWNLOAD", "true")]
  ++ (if official then [("RELAY_URL", officialRelayUrl); ("RELAY_DEVICE_NAME", "")] else []).

Lemma lines_fresh official z admin secret r :
  fresh_env official -> config_lines H official (NInt z) admin secret r = fresh_lines official z admin secret r.
Proof.
  intros Hf. unfold config_lines, envValue.
  assert (forall k, k ∈ take 14 key_order -> mget k (h_env H) = None) as Hk by (intros k Hk; apply Hf, elem_of_app; by left).
  rewrite !Hk by (apply (bool_decide_unpack _); vm_compute; exact I). done.
Qed.

(** The bindings the server gets from a new file. *)
Lemma new_file_env official port admin secret r key :
  let lines := config_lines H official port admin secret r in
  forallb (fun e => sforall one_line e.2) lines = true -> fresh_env official ->
  mget key (loadDotenv (Some (config_text lines)) (h_env H)) =
    match mget key lines with Some v => Some (reread v) | None => mget key (h_env H) end.
Proof.
  intros lines Hl Hfree. rewrite load_bindings, mget_load, bindings_text; [|by destruct official|].
  2:{ apply forallb_forall. intros e He. apply andb_true_iff. rewrite forallb_forall in Hl. split; [|by apply Hl].
      assert (forallb (fun k => ident k) lines.*1 = true) as Hi by (unfold lines; destruct official; vm_compute; reflexivity).
      rewrite forallb_forall in Hi. apply Hi. apply in_map_iff. by exists e. }
  assert (forall l : jmap string string, mget key (map (fun e => (e.1, reread e.2)) l) = reread <$> mget key l) as Hm.
  { induction l as [|[k v] l IH]; simpl; [done|]. by case_decide. }
  rewrite Hm. destruct (mget key lines) as [v|] eqn:E; [|by destruct (mget key (h_env H))].
  rewrite Hfree; [done|]. rewrite <- (new_keys_lines official port admin secret r). apply list_elem_of_fmap. exists (key, v). split; [done|]. by apply mget_Some_elem.
Qed.

Lemma fresh_one_line official z admin secret r :
  sforall one_line (zstr z) = true -> sforall one_line admin = true -> sforall one_line secret = true ->
  sforall one_line (codex_bin H r) = true -> sforall one_line (detectCodexHome H r) = true ->
  sforall one_line (firstLanAddress H) = true ->
  sforall one_line (np_join (h_path H) [appBaseDir H; "aCode-latest.apk"]) = true ->
  forallb (fun e => sforall one_line e.2) (fresh_lines official z admin secret r) = true.
Proof.
  intros Hz Ha Hs Hb Hh Hl Hp. unfold fresh_lines. rewrite forallb_app. cbn [forallb snd].
  rewrite Ha, Hs, Hb, Hh, Hp, Hz. destruct official; rewrite !sforall_sapp, ?Hl, Hz; vm_compute; reflexivity.
Qed.

Lemma fresh_get official z admin secret r :
  let lines := fresh_lines official z admin secret r in
  mget "PORT" lines = Some (zstr z) /\ mget "ADMIN_TOKEN" lines = Some admin /\ mget "SESSION_SECRET" lines = Some secret /\
  mget "SESSION_TTL_HOURS" lines = Some "720" /\ mget "CODEX_APP_SERVER_PORT" lines = Some "8790" /\
  mget "APP_UPDATE_VERSION_CODE" lines = Some "100030018" /\
  mget "HOST" lines = Some (if official then "127.0.0.1" else "0.0.0.0") /\
  mget "PUBLIC_ORIGIN" lines = Some ("http://" ^^ (if official then "127.0.0.1" else firstLanAddress H) ^^ ":" ^^ zstr z) /\
  (official = true -> mget "RELAY_URL" lines = Some officialRelayUrl).
Proof. destruct official; split_and!; done. Qed.

(** Digits at the end of an origin leave it settled. *)
Lemma origin_settled address s :
  sforall is_digit s = true -> s <> "" -> settled ("http://" ^^ address ^^ ":" ^^ s) = true.
Proof.
  intros Hs Hne. unfold settled. rewrite !srev_app, !sapp_assoc. cbn [sapp].
  pose proof Hs as Hr. rewrite <- sforall_srev in Hr. destruct (srev s) as [|d x] eqn:E.
  { apply (f_equal srev) in E. rewrite srev_involutive in E. done. }
  simpl in Hr. apply andb_true_iff in Hr as [Hr _]. cbn [sapp].
  assert (is_quote d = false /\ is_space d = false) as [-> ->]; [|done].
  by destruct d as [[] [] [] [] [] [] [] []].
Qed.

(** C38: a new installation starts: the file the launcher writes when there is
    none, read by the server in the same environment, is a complete
    configuration with the tokens just drawn and the port
    [pickAvailablePort] chose, which lies between 8787 and 8807 and is free
    unless a gateway answers on 8787 or all of them are taken. The server
    listens on all addresses and announces the first LAN address with that port,
    in official mode the loopback address, and then it uses the official relay.
    The hypotheses: none of the keys is set in the environment, the tokens are
    plain, and the detected paths and the address are single lines. *)
Theorem init_config_loads official admin secret r r' :
  let p := resolveReadableConfigPath H in
  mhas p (rs_files r) = false -> initConfig H official admin secret r = Finished r' ->
  token_ok admin = true -> token_ok secret = true ->
  fresh_env official ->
  sforall one_line (codex_bin H r) = true -> sforall one_line (detectCodexHome H r) = true ->
  sforall one_line (firstLanAddress H) = true ->
  sforall one_line (np_join (h_path H) [appBaseDir H; "aCode-latest.apk"]) = true ->
  exists z printed cfg,
    pickAvailablePort H (NInt 8787) = Some (NInt z, printed) /\ 8787 <= z <= 8807 /\
    (h_port_open H z = false \/ h_health H (NInt 8787) <> None \/ next_free H 20 8788 = Some None) /\
    config (h_number H) (h_path H) (h_homedir H) (h_cwd H) (loadDotenv (mget p (rs_files r')) (h_env H)) = Some cfg /\
    cf_adminToken cfg = admin /\ cf_sessionSecret cfg = secret /\ cf_port cfg = NInt z /\
    cf_host cfg = (if official then "127.0.0.1" else "0.0.0.0") /\
    cf_publicOrigin cfg = "http://" ^^ (if official then "127.0.0.1" else firstLanAddress H) ^^ ":" ^^ zstr z /\
    (official = true -> cf_relayUrl cfg = officialRelayUrl).
Proof.
  intros p Hnew Hinit Ha Hs Hfree Hb Hh Hlan Hapk. unfold initConfig in Hinit. fold p in Hinit. rewrite Hnew in Hinit.
  assert (mget "PORT" (h_env H) = None) as E0 by (by apply Hfree; destruct official; right; left).
  rewrite E0 in Hinit. cbn [andb] in Hinit. change (port_of H None) with (NInt 8787) in Hinit.
  destruct (pickAvailablePort H (NInt 8787)) as [[port printed]|] eqn:Ep; [|discriminate].
  destruct (picked_port _ _ _ Ep) as (z & z0 & [= <-] & -> & Hz & Hz0 & Hfreeport). injection Hinit as <-. exists z, printed.
  assert (config_lines H official (NInt z) admin secret (say printed r) = config_lines H official (NInt z) admin secret r) as El by done.
  rewrite El. cbn [rs_files say with_rs_files]. rewrite mget_mset_eq.
  destruct (zstr_digits z ltac:(lia)) as (Hd & _ & _).
  assert (sforall one_line (zstr z) = true) as Hz1.
  { eapply sforall_impl; [|exact Hd]. intros c Hc. by apply digit_char_solid. }
  destruct (token_reread admin Ha) as [Ra Oa], (token_reread secret Hs) as [Rs Os].
  pose proof (new_file_env official (NInt z) admin secret r) as Hget. cbv zeta in Hget.
  rewrite (lines_fresh official z admin secret r Hfree) in *.
  specialize (fun key => Hget key ltac:(apply fresh_one_line; done) Hfree).
  set (env := loadDotenv _ (h_env H)) in *.
  destruct (fresh_get official z admin secret r) as (G1 & G2 & G3 & G4 & G5 & G6 & G7 & G10 & G8).
  assert (mget "PORT" env = Some (zstr z)) as Eport by (by rewrite Hget, G1, settled_reread by (by apply digits_settled)).
  assert (mget "ADMIN_TOKEN" env = Some admin) as Eadmin by (by rewrite Hget, G2, Ra).
  assert (mget "SESSION_SECRET" env = Some secret) as Esecret by (by rewrite Hget, G3, Rs).
  assert (mget "SESSION_TTL_HOURS" env = Some "720") as Ettl by (by rewrite Hget, G4).
  assert (mget "CODEX_APP_SERVER_PORT" env = Some "8790") as Eapp by (by rewrite Hget, G5).
  assert (mget "APP_UPDATE_VERSION_CODE" env = Some "100030018") as Ecode by (by rewrite Hget, G6).
  assert (mget "HOST" env = Some (if official then "127.0.0.1" else "0.0.0.0")) as Ehost
    by (rewrite Hget, G7; by destruct official).
  unfold config. rewrite (token_required admin env "ADMIN_TOKEN" Ha Eadmin), (token_required secret env "SESSION_SECRET" Hs Esecret).
  destruct (zstr_digits z ltac:(lia)) as (_ & Hne & _).
  assert (envNumber (h_number H) env "PORT" 8787 = Some (NInt z)) as ->.
  { unfold envNumber. rewrite Eport, (proj2 (String.eqb_neq (zstr z) "") Hne), to_number_zstr; [done|lia|].
    unfold is_safe_integer, max_safe_integer. apply Z.leb_le. lia. }
  unfold envNumber. rewrite Ettl, Eapp, Ecode. eexists. split; [done|]. split; [done|]. split; [done|]. split; [reflexivity|].
  cbn [cf_adminToken cf_sessionSecret cf_port cf_host cf_relayUrl cf_publicOrigin]. rewrite Ehost.
  assert (mget "PUBLIC_ORIGIN" env
    = Some ("http://" ^^ (if official then "127.0.0.1" else firstLanAddress H) ^^ ":" ^^ zstr z)) as Eo.
  { rewrite Hget, G10. f_equal. apply settled_reread, origin_settled; [done|]. by apply zstr_digits; lia. }
  unfold trimmed_env. rewrite Eo. split_and!; try done.
  intros Ho. assert (mget "RELAY_URL" env = Some officialRelayUrl) as -> by (by rewrite Hget, (G8 Ho)). done.
Qed.
End init.

Definition demo_token (c : ascii) : string := foldr (fun _ s => String c s) "" (seq 0 64).

Lemma init_config_loads_witness :
  let H := demo_host ["node"; "/opt/acode/server/dist/cli.js"; "init"] [] in
  exists cfg r', initConfig H false (demo_token "a") (demo_token "b") (mkRun [] [] 0 false) = Finished r' /\
    config (h_number H) (h_path H) (h_homedir H) (h_cwd H)
      (loadDotenv (mget (resolveReadableConfigPath H) (rs_files r')) (h_env H)) = Some cfg /\
    cf_adminToken cfg = demo_token "a" /\ cf_host cfg = "0.0.0.0" /\ cf_port cfg = NInt 8788 /\
    cf_publicOrigin cfg = "http://192.168.1.5:8788".
Proof.
  set (H := demo_host ["node"; "/opt/acode/server/dist/cli.js"; "init"] []).
  destruct (initConfig H false (demo_token "a") (demo_token "b") (mkRun [] [] 0 false)) as [r'|r'] eqn:E;
    [|vm_compute in E; discriminate E].
  destruct (init_config_loads H false (demo_token "a") (demo_token "b") (mkRun [] [] 0 false) r')
    as (z & printed & cfg & Hp & _ & _ & H1 & H2 & _ & H4 & H5 & H6 & _);
    [vm_compute; reflexivity | exact E | vm_compute; reflexivity | vm_compute; reflexivity | intros k _; reflexivity
    | vm_compute; reflexivity | vm_compute; reflexivity | vm_compute; reflexivity | vm_compute; reflexivity |].
  vm_compute in Hp. injection Hp as <- <-.
  exists cfg, r'. split; [done|]. split; [exact H1|]. split; [exact H2|]. split; [exact H5|]. split; [exact H4|].
  rewrite H6. vm_compute. reflexivity.
Defined.

(** ** Behaviour that contradicts its intent *)

(** The launcher probes the port of the file first, the server takes the one of
    the environment: here the port the server will use is taken, and the
    launcher starts it all the same. *)
Lemma probe_misses_server_port :
  let H := demo_host [] [("PORT", "8787"); ("ACODE_CONFIG", "/cfg")] in
  (exists r', startServer H demo_run = Finished r' /\ rs_server r' = true /\
    (cf_port <$> config (h_number H) (h_path H) (h_homedir H) (h_cwd H) (loadDotenv (mget "/cfg" (rs_files r')) (h_env H)))
    = Some (NInt 8787)) /\ h_port_open H 8787 = true.
Proof. split; [|reflexivity]. eexists. split; [vm_compute; reflexivity|]. vm_compute. done. Qed.

(** The service files of macOS and Linux do not use the official mode. *)
Lemma official_service_ignored H r :
  h_platform H = Darwin \/ h_platform H = Linux -> installService H true r = installService H false r.
Proof. unfold installService. intros [->| ->]; reflexivity. Qed.

(** A working directory with a blank in its name becomes two allowed roots. *)
Lemma blank_splits_root :
  (cf_allowedFilesystemRoots <$> config (fun _ => NNaN) (posix_path "/home/u/my code") "/home/u" "/home/u/my code"
    [("ADMIN_TOKEN", "t"); ("SESSION_SECRET", "s")]) = Some ["/home/u/my"; "code"].
Proof. vm_compute. reflexivity. Qed.
