(* ===== verification/ThreadSources.v ===== *)
(** * Where threads come from

    The sources of thread lists and details beside the session index:
    server/src/threads.ts (the SQL sent to the sqlite3 program, the search for
    rollout files below the sessions directory, the local fallback of a thread)
    and server/src/index.ts (the choice between index, SQLite and the app-server,
    and the reading of an app-server list). The sqlite3 program is the argument
    [sqlite]: rows, or the message of the error. Text columns hold texts. The
    directory tree is a value, so it has no cycles. *)

From Stdlib Require Import Ascii.
From S2P Require Import Prelude JsValue JsDate GatewayStore CodexEvents Sessions Paths EnvFile CodexPath ServerConfig Threads.

Local Open Scope Z_scope.

(** ** SQL text *)

Definition SQUOTE : ascii := ascii_of_nat 39.

(** A value with its quotes doubled. *)
Fixpoint escapeSql (value : string) : string :=
  match value with
  | "" => ""
  | String c s => if Ascii.eqb c SQUOTE then String c (String c (escapeSql s)) else String c (escapeSql s)
  end.

Definition columnOr (schema : list string) (column fallback : string) : string :=
  if shas column schema then column else fallback.

Definition threadPreviewExpr (schema : list string) : string :=
  if shas "preview" schema && shas "first_user_message" schema then "coalesce(nullif(preview, ''), first_user_message, '')"
  else if shas "preview" schema then "coalesce(preview, '')"
  else if shas "first_user_message" schema then "coalesce(first_user_message, '')"
  else "''".

Definition threadSourceExpr (schema : list string) : string :=
  if shas "source" schema then "source" else if shas "thread_source" schema then "thread_source" else "'codex'".

Definition threadCreatedAtMsExpr (schema : list string) : string :=
  if shas "created_at_ms" schema && shas "created_at" schema then "coalesce(created_at_ms, created_at * 1000)"
  else if shas "created_at_ms" schema then "created_at_ms"
  else if shas "created_at" schema then "created_at * 1000"
  else "0".

Definition threadUpdatedAtMsExpr (schema : list string) : string :=
  if shas "updated_at_ms" schema && shas "updated_at" schema then "coalesce(updated_at_ms, updated_at * 1000)"
  else if shas "updated_at_ms" schema then "updated_at_ms"
  else if shas "updated_at" schema then "updated_at * 1000"
  else threadCreatedAtMsExpr schema.

Definition threadCreatedAtExpr (schema : list string) : string :=
  if shas "created_at" schema then "created_at" else "cast((" ^^ threadCreatedAtMsExpr schema ^^ ") / 1000 as integer)".

Definition threadUpdatedAtExpr (schema : list string) : string :=
  if shas "updated_at" schema then "updated_at" else "cast((" ^^ threadUpdatedAtMsExpr schema ^^ ") / 1000 as integer)".

Definition LINE_SEP : string := "," ^^ String LF "            ".

Definition buildThreadSelect (schema : list string) (includeDetail : bool) : string :=
  let col column fallback := columnOr schema column fallback ^^ " as " ^^ column in
  join LINE_SEP
    ([col "id" "''"]
     ++ (if includeDetail then [col "rollout_path" "''"] else [])
     ++ [col "title" "''"; col "cwd" "''"; threadPreviewExpr schema ^^ " as preview"; col "model" "null";
         col "model_provider" "'codex'"; threadSourceExpr schema ^^ " as source";
         threadCreatedAtMsExpr schema ^^ " as created_at_ms"; threadUpdatedAtMsExpr schema ^^ " as updated_at_ms";
         threadCreatedAtExpr schema ^^ " as created_at"; threadUpdatedAtExpr schema ^^ " as updated_at";
         col "tokens_used" "0"; col "archived" "0"; col "git_branch" "null"]
     ++ (if includeDetail then [col "cli_version" "''"] else [])).

(** A cursor that is a finite number other than zero. *)
Definition cursor_clause (schema : list string) (cursorMs : option num) : string :=
  match cursorMs with
  | Some n => if is_finite n && negb (num_is_zero_or_nan n)
              then "and (" ^^ threadUpdatedAtMsExpr schema ^^ ") < " ^^ num_str n else ""
  | None => ""
  end.

Definition list_query (schema : list string) (cursorMs : option num) (limit : Z) : string :=
  join (String LF "")
    ["select " ^^ buildThreadSelect schema false; "       from threads";
     "      where (" ^^ (if shas "archived" schema then "coalesce(archived, 0)" else "0") ^^ ") = 0 "
       ^^ cursor_clause schema cursorMs;
     "      order by updated_at_ms desc, id desc";
     "      limit " ^^ zstr (Z.of_nat (S (safeLimit limit))) ^^ ";"].

(** The query of one thread, before and after its id. *)
Definition detail_head (schema : list string) : string :=
  join (String LF "") ["select " ^^ buildThreadSelect schema true; "         from threads"; "        where id = "].

Definition detail_tail : string := join (String LF "") [""; "        limit 1;"].

Definition detail_query (schema : list string) (threadId : string) : string :=
  detail_head schema ^^ String SQUOTE (escapeSql threadId ^^ String SQUOTE detail_tail).

(** ** Queries *)

Section sources.
Context (sqlite : string -> list val + string).

Definition readThreadSchema : list string + string :=
  match sqlite "pragma table_info(threads);" with
  | inr e => inr e
  | inl rows =>
      let names := omap (fun row => match str_prop "name" row with
                                    | Some n => if n === "" then None else Some n
                                    | None => None
                                    end) rows in
      if shas "id" names then inl names else inr "Codex threads table is missing required id column"
  end.

Definition int_of (v : val) : option Z := match v with VNum (NInt z) => Some z | _ => None end.

(** [row.a_ms ?? row.a * 1000] *)
Definition row_ms (ms s : string) (row : val) : Z :=
  match prop ms row with
  | VUndef | VNull => 1000 * default 0 (int_of (prop s row))
  | v => default 0 (int_of v)
  end.

Definition text_of (key : string) (row : val) : string := default "" (str_prop key row).

Definition row_title (row : val) : string :=
  first_nonempty (text_of "title" row) (first_nonempty (text_of "preview" row) "Untitled").

Definition mapThreadRow (row : val) : ThreadSummary :=
  mkThread (text_of "id" row) (row_title row) (text_of "cwd" row) (text_of "preview" row) (str_prop "model" row)
    (text_of "model_provider" row) (text_of "source" row) "notLoaded"
    (row_ms "created_at_ms" "created_at" row) (row_ms "updated_at_ms" "updated_at" row)
    (default 0 (int_of (prop "tokens_used" row)))
    (match prop "archived" row with VNum (NInt 1) => true | _ => false end) (str_prop "git_branch" row).

(** The cursor is text; [dbExists] says whether the database is there. *)
Definition listThreads (number : string -> num) (dbExists : bool) (dbPath : string) (limit : Z) (cursor : option string)
    : (list ThreadSummary * option string) + string :=
  if negb dbExists then inr ("Codex state database not found: " ^^ dbPath)
  else
    match readThreadSchema with
    | inr e => inr e
    | inl schema =>
        let cursorMs := match cursor with
                        | Some c => if c === "" then None else Some (to_number number c)
                        | None => None
                        end in
        match sqlite (list_query schema cursorMs limit) with
        | inr e => inr e
        | inl rows =>
            let data := map mapThreadRow (take (safeLimit limit) rows) in
            inl (data, if (safeLimit limit <? length rows)%nat
                       then Some (default "" ((fun t => zstr (th_updatedAtMs t)) <$> last data)) else None)
        end
    end.

(** [rollout] finds a rollout file by thread id, [at_path] reads one by path. *)
Definition readThreadFallback (rollout : string -> option (string * lines)) (at_path : string -> option lines) (now : Z)
    (threadId : string) : option val :=
  let row := match readThreadSchema with
             | inr _ => None
             | inl schema => match sqlite (detail_query schema threadId) with inl rows => head rows | inr _ => None end
             end in
  match row with
  | None => readThreadFallbackFromRollout rollout now threadId
  | Some row =>
      let rolloutPath := first_nonempty (text_of "rollout_path" row) (default "" (fst <$> rollout (text_of "id" row))) in
      items ← match (if rolloutPath === "" then None else at_path rolloutPath) with
              | Some l => readRolloutItems l
              | None => Some []
              end;
      let branch := text_of "git_branch" row in
      Some (VObj [("fallback", VBool true); ("thread", VObj
        [("id", prop "id" row); ("name", VStr (row_title row)); ("preview", prop "preview" row); ("ephemeral", VBool false);
         ("modelProvider", prop "model_provider" row); ("createdAt", prop "created_at" row);
         ("updatedAt", prop "updated_at" row); ("status", VObj [("type", VStr "notLoaded")]); ("path", VStr rolloutPath);
         ("cwd", prop "cwd" row); ("cliVersion", prop "cli_version" row); ("source", prop "source" row);
         ("agentNickname", VNull); ("agentRole", VNull);
         ("gitInfo", if branch === "" then VNull else VObj [("branch", VStr branch)]);
         ("turns", VArr [VObj [("id", VStr (text_of "id" row ^^ ":rollout")); ("status", VStr "completed"); ("error", VNull);
                               ("startedAt", prop "created_at" row); ("completedAt", prop "updated_at" row);
                               ("durationMs", VNull); ("items", VArr items)]])])])
  end.
End sources.

(** ** The app-server's list *)

Definition stringField (record : val) (key : string) : option string := str_prop key record.

(** Numbers of the app-server are integers. *)
Definition numberField (record : val) (key : string) : option Z := int_of (prop key record).

(** [a ?? b ?? ...] *)
Fixpoint coalesce {A} (l : list (option A)) : option A :=
  match l with [] => None | Some a :: _ => Some a | None :: l' => coalesce l' end.

Definition objectTypeField (value : val) : option string :=
  if is_object value then as_str (nullish (prop "type" value) (prop "status" value)) else None.

(** Seconds below 10^10 become milliseconds. *)
Definition to_ms (z : Z) : Z := if 10000000000 <? z then z else z * 1000.

Definition numberOrDateMs (number : string -> num) (value : val) : option Z :=
  match value with
  | VNum (NInt z) => Some (to_ms z)
  | VStr s => match to_number number s with
              | NInt z => Some (to_ms z)
              | _ => date_parse s
              end
  | _ => None
  end.

(** [a ?? b ?? ...] on properties. *)
Fixpoint first_prop (keys : list string) (record : val) : val :=
  match keys with
  | [] => VUndef
  | [k] => prop k record
  | k :: ks => nullish (prop k record) (first_prop ks record)
  end.

Definition mapCodexThreadSummary (number : string -> num) (now : Z) (raw : val) : option ThreadSummary :=
  if negb (is_object raw) then None
  else
    let field := stringField raw in
    match coalesce [field "id"; field "threadId"] with
    | None => None
    | Some id =>
        if id === "" then None
        else
          let status := default "notLoaded" (coalesce [field "status"; objectTypeField (prop "status" raw)]) in
          let createdAtMs := default now (numberOrDateMs number (first_prop ["createdAtMs"; "created_at_ms"; "createdAt"; "created_at"] raw)) in
          let updatedAtMs := default createdAtMs (numberOrDateMs number (first_prop ["updatedAtMs"; "updated_at_ms"; "updatedAt"; "updated_at"] raw)) in
          Some (mkThread id (default "Untitled" (coalesce [field "title"; field "name"; field "preview"]))
            (default "" (coalesce [field "cwd"; field "workspacePath"]))
            (default "" (coalesce [field "preview"; field "lastMessage"])) (field "model")
            (default "codex" (coalesce [field "modelProvider"; field "model_provider"]))
            (default "codex-app-server" (field "source")) status createdAtMs updatedAtMs
            (default 0 (coalesce [numberField raw "tokensUsed"; numberField raw "tokens_used"]))
            (truthy (prop "archived" raw)) (coalesce [field "gitBranch"; field "git_branch"]))
    end.

Definition mapCodexThreadList (number : string -> num) (now : Z) (response : val) : list ThreadSummary * option string :=
  let rawThreads := match as_array (prop "data" response) with
                    | Some l => l
                    | None => default [] (as_array (prop "threads" response))
                    end in
  (omap (mapCodexThreadSummary number now) rawThreads,
   coalesce [str_prop "nextCursor" response; str_prop "cursor" response]).

(** ** The choice of a source *)

(** The pattern [sqlite3.*ENOENT] on a lower-case text. *)
Fixpoint spawn_failure (s : string) : bool :=
  (starts_with "sqlite3" s && includes "enoent" (fst (span one_line (skip 7 s))))
  || match s with "" => false | String _ s' => spawn_failure s' end.

Definition isSqliteFallbackError (message : string) : bool :=
  let m := to_lower message in
  spawn_failure m || existsb (fun p => includes p m)
    ["spawn sqlite3 enoent"; "not found"; "unable to open database"; "database is locked"; "no such table";
     "no such column"; "parse error"].

(** The index ([None] when it throws), else SQLite, else the app-server when
    SQLite failed in a way that says it is missing or unreadable. *)
Definition listThreadsPortable (index : option (list ThreadSummary * option string))
    (sql : (list ThreadSummary * option string) + string)
    (codex : (list ThreadSummary * option string) + string) : (list ThreadSummary * option string) + string :=
  match index with
  | Some page => inl page
  | None =>
      match sql with
      | inl page => inl page
      | inr e => if isSqliteFallbackError e then codex else inr e
      end
  end.

(** ** Rollout files *)

Unset Elimination Schemes.
Inductive node :=
| FileNode (name : string)
| DirNode (name : string) (entries : list node).
Set Elimination Schemes.

Definition node_ind (P : node -> Prop) (Hf : forall name, P (FileNode name))
    (Hd : forall name entries, Forall P entries -> P (DirNode name entries)) : forall n, P n :=
  fix go n :=
    match n with
    | FileNode name => Hf name
    | DirNode name entries =>
        Hd name entries ((fix all l := match l return Forall P l with
          | [] => Forall_nil_2 _
          | x :: l' => Forall_cons_2 _ _ _ (go x) (all l') end) entries)
    end.

Section rollouts.
Context (join_path : string -> string -> string).

Definition is_rollout (threadId name : string) : bool := includes threadId name && ends_with ".jsonl" name.

(** One directory: the path of the first match, or the stack with its
    sub-directories on top. *)
Fixpoint scan_dir (threadId dir : string) (entries : list node) (stack : list (string * list node))
    : string + list (string * list node) :=
  match entries with
  | [] => inr stack
  | FileNode name :: rest => if is_rollout threadId name then inl (join_path dir name) else scan_dir threadId dir rest stack
  | DirNode name sub :: rest => scan_dir threadId dir rest ((join_path dir name, sub) :: stack)
  end.

(** The loop over the stack; [None] when [fuel] directories were not enough. *)
Fixpoint find_loop (fuel : nat) (threadId : string) (stack : list (string * list node)) : option (option string) :=
  match stack with
  | [] => Some None
  | (dir, entries) :: rest =>
      match fuel with
      | O => None
      | S fuel' =>
          match scan_dir threadId dir entries rest with
          | inl path => Some (Some path)
          | inr stack' => find_loop fuel' threadId stack'
          end
      end
  end.

Fixpoint dirs (n : node) : nat :=
  match n with
  | FileNode _ => 0
  | DirNode _ entries => S ((fix go l := match l with [] => 0 | x :: l' => dirs x + go l' end)%nat entries)
  end.

Definition all_dirs (entries : list node) : nat := foldr (fun n k => (dirs n + k)%nat) 0%nat entries.

(** [root] is the content of the sessions directory, [None] when it is missing. *)
Definition findRolloutPath (sessionsDir : string) (root : option (list node)) (threadId : string) : option (option string) :=
  match root with
  | None => Some None
  | Some entries => find_loop (S (all_dirs entries)) threadId [(sessionsDir, entries)]
  end.

Definition is_hex (c : ascii) : bool := is_digit c || between 97 (code c) 102 || between 65 (code c) 70.

(** Eight hexadecimal digits, a dash, and at least 27 digits or dashes, at the
    start of a text. *)
Definition id_here (s : string) : option string :=
  let head := slice0 8 s in
  if (slen head =? 8)%nat && sforall is_hex head && starts_with "-" (skip 8 s) then
    let body := fst (span (fun c => is_hex c || Ascii.eqb c "-"%char) (skip 9 s)) in
    if (27 <=? slen body)%nat then Some (head ^^ "-" ^^ body) else None
  else None.

Fixpoint match_id (s : string) : option string :=
  match id_here s with
  | Some id => Some id
  | None => match s with "" => None | String _ s' => match_id s' end
  end.

Fixpoint index_dir (dir : string) (entries : list node) (stack : list (string * list node)) (result : jmap string string)
    : list (string * list node) * jmap string string :=
  match entries with
  | [] => (stack, result)
  | FileNode name :: rest =>
      let result := if ends_with ".jsonl" name
                    then match match_id name with Some id => mset id (join_path dir name) result | None => result end
                    else result in
      index_dir dir rest stack result
  | DirNode name sub :: rest => index_dir dir rest ((join_path dir name, sub) :: stack) result
  end.

Fixpoint index_loop (fuel : nat) (stack : list (string * list node)) (result : jmap string string)
    : option (jmap string string) :=
  match stack with
  | [] => Some result
  | (dir, entries) :: rest =>
      match fuel with
      | O => None
      | S fuel' => let '(stack, result) := index_dir dir entries rest result in index_loop fuel' stack result
      end
  end.

(** The index is kept for ten seconds. *)
Record rollout_cache := mkRolloutCache { rc_expiresAt : Z; rc_value : jmap string string }.

Definition buildRolloutPathIndex (now : Z) (sessionsDir : string) (root : option (list node)) (cache : option rollout_cache)
    : option (jmap string string * option rollout_cache) :=
  match cache with
  | Some c => if now <? rc_expiresAt c then Some (rc_value c, cache)
              else match root with
                   | None => Some ([], cache)
                   | Some entries =>
                       result ← index_loop (S (all_dirs entries)) [(sessionsDir, entries)] [];
                       Some (result, Some (mkRolloutCache (now + 10000) result))
                   end
  | None => match root with
            | None => Some ([], None)
            | Some entries =>
                result ← index_loop (S (all_dirs entries)) [(sessionsDir, entries)] [];
                Some (result, Some (mkRolloutCache (now + 10000) result))
            end
  end.

(** *** The files of a tree, in the order they are visited *)

Definition files (dir : string) (entries : list node) : list (string * string) :=
  omap (fun n => match n with FileNode name => Some (dir, name) | DirNode _ _ => None end) entries.

Fixpoint visit (dir : string) (n : node) : list (string * string) :=
  match n with
  | FileNode _ => []
  | DirNode name entries =>
      let d := join_path dir name in
      files d entries ++ (fix go l := match l with [] => [] | x :: l' => go l' ++ visit d x end) entries
  end.

Definition below (dir : string) (entries : list node) : list (string * string) :=
  foldr (fun n acc => acc ++ visit dir n) [] entries.

Definition listing (dir : string) (entries : list node) : list (string * string) := files dir entries ++ below dir entries.

Lemma visit_dir dir name entries : visit dir (DirNode name entries) = listing (join_path dir name) entries.
Proof. reflexivity. Qed.

Lemma dirs_dir name entries : dirs (DirNode name entries) = S (all_dirs entries).
Proof. reflexivity. Qed.

(** A file in the tree. *)
Inductive file_at : string -> list node -> string -> string -> Prop :=
| FileHere dir entries name : FileNode name ∈ entries -> file_at dir entries dir name
| FileBelow dir entries sub es d name :
    DirNode sub es ∈ entries -> file_at (join_path dir sub) es d name -> file_at dir entries d name.

Lemma elem_below dir entries e : e ∈ below dir entries <-> exists n, n ∈ entries /\ e ∈ visit dir n.
Proof.
  unfold below. induction entries as [|n l IH]; simpl; [set_solver|]. rewrite elem_of_app, IH. set_solver.
Qed.

Lemma elem_files dir entries d name : (d, name) ∈ files dir entries <-> d = dir /\ FileNode name ∈ entries.
Proof.
  unfold files. rewrite list_elem_of_omap. split.
  - intros (n & Hn & E). destruct n; [|done]. by injection E as <- <-.
  - intros [-> H]. by exists (FileNode name).
Qed.

Lemma listing_sound n : forall dir d name, (d, name) ∈ visit dir n ->
  exists sub es, n = DirNode sub es /\ file_at (join_path dir sub) es d name.
Proof.
  induction n as [f|sub es IH] using node_ind; intros dir d name H; [by apply elem_of_nil in H|].
  exists sub, es. split; [done|]. rewrite visit_dir in H. unfold listing in H. apply elem_of_app in H as [H|H].
  - apply elem_files in H as [-> H]. by constructor.
  - apply elem_below in H as (n & Hn & H). rewrite Forall_forall in IH.
    destruct (IH n Hn _ _ _ H) as (sub' & es' & -> & H'). by econstructor.
Qed.

Lemma listing_iff dir entries d name : (d, name) ∈ listing dir entries <-> file_at dir entries d name.
Proof.
  split.
  - unfold listing. intros [H|H]%elem_of_app; [apply elem_files in H as [-> H]; by constructor|].
    apply elem_below in H as (n & Hn & H). destruct (listing_sound _ _ _ _ H) as (sub & es & -> & H'). by econstructor.
  - induction 1 as [dir entries name H|dir entries sub es d name H _ IH]; unfold listing; apply elem_of_app.
    + left. by apply elem_files.
    + right. apply elem_below. exists (DirNode sub es). by rewrite visit_dir.
Qed.

(** *** The loops *)

Fixpoint push (dir : string) (entries : list node) (stack : list (string * list node)) : list (string * list node) :=
  match entries with
  | [] => stack
  | FileNode _ :: rest => push dir rest stack
  | DirNode name sub :: rest => push dir rest ((join_path dir name, sub) :: stack)
  end.

Definition stack_listing (stack : list (string * list node)) : list (string * string) :=
  concat (map (fun e => listing e.1 e.2) stack).

Definition stack_dirs (stack : list (string * list node)) : nat :=
  foldr (fun e k => (S (all_dirs e.2) + k)%nat) 0%nat stack.

Lemma push_spec dir entries : forall stack,
  stack_listing (push dir entries stack) = below dir entries ++ stack_listing stack /\
  stack_dirs (push dir entries stack) = (all_dirs entries + stack_dirs stack)%nat.
Proof.
  induction entries as [|[name|name sub] l IH]; intros stack; [done| |]; cbn [push].
  - destruct (IH stack) as [-> ->]. simpl. by rewrite app_nil_r.
  - destruct (IH ((join_path dir name, sub) :: stack)) as [-> ->]. cbn [below foldr all_dirs]. fold (below dir l) (all_dirs l).
    rewrite visit_dir, dirs_dir. unfold stack_listing at 1. cbn [map concat fst snd]. rewrite <- app_assoc.
    split; [done|]. simpl. lia.
Qed.

Definition hit (threadId : string) (e : string * string) : bool := is_rollout threadId e.2.

Definition found (threadId : string) (l : list (string * string)) : option string :=
  (fun e => join_path e.1 e.2) <$> List.find (hit threadId) l.

Lemma scan_dir_spec threadId dir entries : forall stack,
  scan_dir threadId dir entries stack =
    match found threadId (files dir entries) with Some p => inl p | None => inr (push dir entries stack) end.
Proof.
  unfold found. induction entries as [|[name|name sub] l IH]; intros stack; [done| |]; cbn [scan_dir push files omap list_omap].
  - change (List.find (hit threadId) ((dir, name) :: ?l)) with (if is_rollout threadId name then Some (dir, name) else List.find (hit threadId) l).
    destruct (is_rollout threadId name); [done|]. apply IH.
  - apply IH.
Qed.

Lemma found_app threadId a b :
  found threadId (a ++ b) = match found threadId a with Some p => Some p | None => found threadId b end.
Proof. unfold found. rewrite find_app. by destruct (List.find _ a). Qed.

Lemma find_loop_spec threadId fuel : forall stack,
  (stack_dirs stack <= fuel)%nat -> find_loop fuel threadId stack = Some (found threadId (stack_listing stack)).
Proof.
  induction fuel as [|fuel IH]; intros [|[dir entries] rest] Hf; try done; simpl in Hf; [lia|].
  cbn [find_loop]. rewrite scan_dir_spec. destruct (push_spec dir entries rest) as [El Ed].
  unfold stack_listing. cbn [map concat fst snd]. unfold listing. rewrite <- app_assoc, found_app.
  destruct (found threadId (files dir entries)); [done|]. rewrite IH by lia. by rewrite El.
Qed.

Definition note_file (result : jmap string string) (e : string * string) : jmap string string :=
  if ends_with ".jsonl" e.2
  then match match_id e.2 with Some id => mset id (join_path e.1 e.2) result | None => result end else result.

Lemma index_dir_spec dir entries : forall stack result,
  index_dir dir entries stack result = (push dir entries stack, foldl note_file result (files dir entries)).
Proof.
  induction entries as [|[name|name sub] l IH]; intros stack result; [done| |]; cbn [index_dir push files omap list_omap];
    rewrite IH; done.
Qed.

Lemma index_loop_spec fuel : forall stack result,
  (stack_dirs stack <= fuel)%nat -> index_loop fuel stack result = Some (foldl note_file result (stack_listing stack)).
Proof.
  induction fuel as [|fuel IH]; intros [|[dir entries] rest] result Hf; try done; simpl in Hf; [lia|].
  cbn [index_loop]. rewrite index_dir_spec. destruct (push_spec dir entries rest) as [El Ed].
  rewrite IH by lia. rewrite El. unfold stack_listing. cbn [map concat fst snd]. unfold listing.
  rewrite <- app_assoc. f_equal. symmetry. apply foldl_app.
Qed.

(** Every assignment comes from a file, and every file with an id is assigned. *)
Lemma note_files l : forall result id,
  let m := foldl note_file result l in
  (forall p, mget id m = Some p ->
     mget id result = Some p \/ exists d name, (d, name) ∈ l /\ match_id name = Some id /\ p = join_path d name) /\
  (is_Some (mget id result) -> is_Some (mget id m)) /\
  (forall d name, (d, name) ∈ l -> ends_with ".jsonl" name = true -> match_id name = Some id -> is_Some (mget id m)).
Proof.
  induction l as [|[d0 n0] l IH]; intros result id; cbn [foldl]; [split_and!; [auto|done|set_solver]|].
  destruct (IH (note_file result (d0, n0)) id) as (I1 & I2 & I3). split_and!.
  - intros p Hp. destruct (I1 p Hp) as [H|(d & name & Hin & Hm & ->)]; [|right; exists d, name; set_solver].
    unfold note_file in H. simpl in H. destruct (ends_with ".jsonl" n0); [|by left].
    destruct (match_id n0) as [id0|] eqn:E; [|by left]. rewrite mget_mset in H. case_decide as D; [|by left].
    injection H as <-. subst id0. right. exists d0, n0. set_solver.
  - intros H. apply I2. unfold note_file. simpl. destruct (ends_with ".jsonl" n0); [|done].
    destruct (match_id n0); [|done]. rewrite mget_mset. by case_decide.
  - intros d name [[= -> ->]|Hin]%elem_of_cons He Hm; [|by eapply I3]. apply I2. unfold note_file. simpl.
    rewrite He, Hm, mget_mset_eq. by eexists.
Qed.
End rollouts.

(** the search for a thread's rollout file ends and is complete on every
    directory tree: it returns a path exactly when some file of the tree has the
    id in its name and the right extension, and then the path of such a file;
    the index built for lists covers every file that carries an id. *)
Theorem rollout_search_complete join_path sessionsDir entries threadId now cache :
  (exists result, findRolloutPath join_path sessionsDir (Some entries) threadId = Some result /\
    match result with
    | Some p => exists d name, file_at join_path sessionsDir entries d name /\ is_rollout threadId name = true /\ p = join_path d name
    | None => forall d name, file_at join_path sessionsDir entries d name -> is_rollout threadId name = false
    end) /\
  (match cache with Some c => rc_expiresAt c <= now | None => True end ->
   exists index, buildRolloutPathIndex join_path now sessionsDir (Some entries) cache =
     Some (index, Some (mkRolloutCache (now + 10000) index)) /\
   (forall id p, mget id index = Some p ->
     exists d name, file_at join_path sessionsDir entries d name /\ match_id name = Some id /\ p = join_path d name) /\
   (forall d name id, file_at join_path sessionsDir entries d name -> ends_with ".jsonl" name = true ->
     match_id name = Some id -> is_Some (mget id index))).
Proof.
  assert (stack_listing join_path [(sessionsDir, entries)] = listing join_path sessionsDir entries) as El
    by (unfold stack_listing; cbn [map concat fst snd]; apply app_nil_r).
  assert (stack_dirs [(sessionsDir, entries)] <= S (all_dirs entries))%nat as Hfuel by (simpl; lia).
  split.
  - eexists. split; [apply find_loop_spec; exact Hfuel|]. rewrite El. unfold found.
    destruct (List.find _ _) as [[d name]|] eqn:E; simpl.
    + apply find_some in E as [Hin Hh]. exists d, name. split_and!; [|exact Hh|done].
      by apply listing_iff, list_elem_of_In.
    + intros d name Hf%listing_iff. apply list_elem_of_In in Hf. exact (find_none _ _ E _ Hf).
  - intros Hc. assert (index_loop join_path (S (all_dirs entries)) [(sessionsDir, entries)] [] =
      Some (foldl (note_file join_path) [] (listing join_path sessionsDir entries))) as Ei
      by (rewrite index_loop_spec by exact Hfuel; by rewrite El).
    eexists. split.
    { unfold buildRolloutPathIndex. rewrite Ei. destruct cache as [c|]; [|reflexivity].
      rewrite (proj2 (Z.ltb_ge now (rc_expiresAt c)) Hc). reflexivity. }
    split.
    + intros id p Hp. destruct (note_files join_path (listing join_path sessionsDir entries) [] id) as (H1 & _ & _).
      destruct (H1 p Hp) as [|(d & name & Hin & Hm & ->)]; [done|]. exists d, name. split_and!; [|done..]. by apply listing_iff.
    + intros d name id Hf He Hm. destruct (note_files join_path (listing join_path sessionsDir entries) [] id) as (_ & _ & H3).
      eapply H3; [by apply listing_iff|done..].
Qed.

Definition demo_tree : list node :=
  [FileNode "notes.txt";
   DirNode "2026" [DirNode "01" [FileNode "rollout-0a1b2c3d-1111-2222-3333-444455556666.jsonl"]; FileNode "x.jsonl"]].

Definition slash (dir name : string) : string := dir ^^ "/" ^^ name.

Lemma rollout_search_complete_witness :
  let id := "0a1b2c3d-1111-2222-3333-444455556666" in
  let path := "/s/2026/01/rollout-0a1b2c3d-1111-2222-3333-444455556666.jsonl" in
  findRolloutPath slash "/s" (Some demo_tree) id = Some (Some path) /\
  exists index c, buildRolloutPathIndex slash 5 "/s" (Some demo_tree) None = Some (index, c) /\ mget id index = Some path.
Proof.
  destruct (rollout_search_complete slash "/s" demo_tree "0a1b2c3d-1111-2222-3333-444455556666" 5 None)
    as [(result & E & _) H].
  destruct (H I) as (index & Ei & _ & _).
  split; [vm_compute; reflexivity|]. exists index, (Some (mkRolloutCache (5 + 10000) index)). split; [exact Ei|].
  vm_compute in Ei. injection Ei as <-. vm_compute. reflexivity.
Defined.

(** ** The shape of a statement

    How SQLite splits a statement into code and string literals: inside a
    literal two quotes stand for one, a single quote ends it. [sql_code] is
    the code read so far, backwards, with a mark for each literal. *)

Inductive sql_mode :=
| InCode
| InLiteral (text : string)
| AtQuote (text : string).

Record sql_state := mkSql { sql_mode_of : sql_mode; sql_code : string; sql_literals : list string }.

Definition sql_step (c : ascii) (s : sql_state) : sql_state :=
  let quote := Ascii.eqb c SQUOTE in
  match sql_mode_of s with
  | InCode => if quote then mkSql (InLiteral "") (sql_code s) (sql_literals s)
              else mkSql InCode (String c (sql_code s)) (sql_literals s)
  | InLiteral text => if quote then mkSql (AtQuote text) (sql_code s) (sql_literals s)
                      else mkSql (InLiteral (String c text)) (sql_code s) (sql_literals s)
  | AtQuote text => if quote then mkSql (InLiteral (String c text)) (sql_code s) (sql_literals s)
                    else mkSql InCode (String c (String "?"%char (sql_code s))) (srev text :: sql_literals s)
  end.

Fixpoint sql_run (text : string) (s : sql_state) : sql_state :=
  match text with "" => s | String c t => sql_run t (sql_step c s) end.

(** The code and the literals of a complete statement. *)
Definition sql_shape (text : string) : option (string * list string) :=
  let s := sql_run text (mkSql InCode "" []) in
  match sql_mode_of s with
  | InCode => Some (srev (sql_code s), rev (sql_literals s))
  | _ => None
  end.

Lemma sql_run_app a b s : sql_run (a ^^ b) s = sql_run b (sql_run a s).
Proof. revert s. induction a as [|c a IH]; intros s; [done|]. apply IH. Qed.

(** A text that begins and ends in code. *)
Definition segment (h : string) : Prop :=
  exists code literals, forall c l, sql_run h (mkSql InCode c l) = mkSql InCode (code ^^ c) (literals ++ l).

Lemma segment_app a b : segment a -> segment b -> segment (a ^^ b).
Proof.
  intros (c1 & l1 & H1) (c2 & l2 & H2). exists (c2 ^^ c1), (l2 ++ l1). intros c l.
  by rewrite sql_run_app, H1, H2, sapp_assoc, app_assoc.
Qed.

Lemma segment_plain h : sforall (fun c => negb (Ascii.eqb c SQUOTE)) h = true -> segment h.
Proof.
  induction h as [|c h IH]; [by exists "", []|]. simpl. intros [Hc Hh]%andb_true_iff. apply negb_true_iff in Hc.
  change (String c h) with (String c "" ^^ h). apply segment_app; [|by apply IH].
  exists (String c ""), []. intros code l. simpl. unfold sql_step. simpl. by rewrite Hc.
Qed.

(** A constant with closed literals. *)
Lemma segment_constant h code literals :
  sql_run h (mkSql InCode "" []) = mkSql InCode code literals -> segment h.
Proof.
  assert (forall t m c l c0 l0, sql_run t (mkSql m (c ^^ c0) (l ++ l0)) =
    let s := sql_run t (mkSql m c l) in mkSql (sql_mode_of s) (sql_code s ^^ c0) (sql_literals s ++ l0)) as Hg.
  { induction t as [|d t IH]; intros m c l c0 l0; [done|]. cbn [sql_run].
    assert (sql_step d (mkSql m (c ^^ c0) (l ++ l0)) =
      mkSql (sql_mode_of (sql_step d (mkSql m c l))) (sql_code (sql_step d (mkSql m c l)) ^^ c0)
        (sql_literals (sql_step d (mkSql m c l)) ++ l0)) as ->
      by (unfold sql_step; simpl; destruct m, (Ascii.eqb d SQUOTE); done).
    rewrite IH. by destruct (sql_step d (mkSql m c l)). }
  intros E. exists code, literals. intros c l. specialize (Hg h InCode "" [] c l). simpl in Hg. rewrite Hg, E. done.
Qed.

Lemma segment_join sep l : segment sep -> Forall segment l -> segment (join sep l).
Proof.
  intros Hs. induction 1 as [|x l Hx Hl IH]; [by exists "", []|]. destruct l; [done|].
  cbn [join]. by repeat apply segment_app.
Qed.

Lemma escaped_literal v : forall text c l,
  sql_run (escapeSql v) (mkSql (InLiteral text) c l) = mkSql (InLiteral (srev v ^^ text)) c l.
Proof.
  induction v as [|d v IH]; intros text c l; [done|]. cbn [escapeSql]. rewrite srev_cons, sapp_assoc.
  destruct (Ascii.eqb d SQUOTE) eqn:E; cbn [sql_run]; unfold sql_step at 1; simpl; rewrite E; simpl; [|apply IH].
  unfold sql_step. simpl. rewrite E. apply IH.
Qed.

(** An escaped value between quotes, and the character after them, are read
    as one literal and one character of code. *)
Lemma quoted_literal v d rest c l : Ascii.eqb d SQUOTE = false ->
  sql_run (String SQUOTE (escapeSql v ^^ String SQUOTE (String d rest))) (mkSql InCode c l) =
  sql_run rest (mkSql InCode (String d (String "?"%char c)) (v :: l)).
Proof.
  intros Hd. cbn [sql_run]. unfold sql_step at 1. cbn [sql_mode_of]. rewrite Ascii.eqb_refl.
  cbn [sql_code sql_literals]. rewrite sql_run_app, escaped_literal, sapp_nil_r.
  cbn [sql_run]. unfold sql_step at 2. cbn [sql_mode_of]. rewrite Ascii.eqb_refl. cbn [sql_code sql_literals].
  unfold sql_step. cbn [sql_mode_of]. rewrite Hd. cbn [sql_code sql_literals]. by rewrite srev_involutive.
Qed.

(** Closed constants, by evaluation. *)
Ltac constant := eapply segment_constant; vm_compute; reflexivity.

Lemma segment_column schema column fallback as_ :
  segment (column ^^ as_) -> segment (fallback ^^ as_) -> segment (columnOr schema column fallback ^^ as_).
Proof. intros H1 H2. unfold columnOr. by destruct (shas column schema). Qed.

Lemma segment_exprs schema :
  segment (threadPreviewExpr schema ^^ " as preview") /\ segment (threadSourceExpr schema ^^ " as source") /\
  segment (threadCreatedAtMsExpr schema) /\ segment (threadUpdatedAtMsExpr schema) /\
  segment (threadCreatedAtExpr schema) /\ segment (threadUpdatedAtExpr schema).
Proof.
  assert (segment (threadCreatedAtMsExpr schema)) as H1
    by (unfold threadCreatedAtMsExpr; repeat match goal with |- context [shas ?a ?b] => destruct (shas a b) end; constant).
  assert (segment (threadUpdatedAtMsExpr schema)) as H2
    by (unfold threadUpdatedAtMsExpr;
        destruct (shas "updated_at_ms" schema), (shas "updated_at" schema); [constant..|exact H1]).
  split_and!; try done.
  - unfold threadPreviewExpr. repeat match goal with |- context [shas ?a ?b] => destruct (shas a b) end; constant.
  - unfold threadSourceExpr. repeat match goal with |- context [shas ?a ?b] => destruct (shas a b) end; constant.
  - unfold threadCreatedAtExpr. destruct (shas "created_at" schema); [constant|].
    apply segment_app; [constant|]. apply segment_app; [done|constant].
  - unfold threadUpdatedAtExpr. destruct (shas "updated_at" schema); [constant|].
    apply segment_app; [constant|]. apply segment_app; [done|constant].
Qed.

Lemma segment_select schema detail : segment (buildThreadSelect schema detail).
Proof.
  destruct (segment_exprs schema) as (E1 & E2 & E3 & E4 & E5 & E6). unfold buildThreadSelect.
  apply segment_join; [constant|]. destruct detail; cbn [app]; rewrite ?Forall_cons, Forall_nil;
    split_and!; try done; try (apply segment_column; constant); apply segment_app; first [done | constant].
Qed.

Lemma segment_head schema : segment (detail_head schema).
Proof.
  unfold detail_head. apply segment_join; [constant|]. rewrite !Forall_cons, Forall_nil.
  split_and!; try done; [|constant..]. apply segment_app; [constant|apply segment_select].
Qed.

(** SQL is built safely: in the query for a thread, SQLite sees the id as
    one string literal whose value is exactly the id, whatever it contains; the
    code around it, and the other literals, do not depend on it. In the query
    for a list, an integer cursor enters as its decimal digits. *)
Theorem thread_query_safe schema :
  (exists code literals, forall threadId,
     sql_shape (detail_query schema threadId) = Some (code, literals ++ [threadId])) /\
  (forall limit, exists head tail, forall z, z <> 0 ->
     list_query schema (Some (NInt z)) limit = head ^^ zstr z ^^ tail /\
     sforall (fun c => is_digit c || Ascii.eqb c "-"%char) (zstr z) = true).
Proof.
  split.
  - destruct (segment_head schema) as (code & literals & Hh).
    assert (exists rest, detail_tail = String LF rest /\ segment rest) as (rest & Et & code' & literals' & Ht)
      by (eexists; split; [reflexivity|constant]).
    assert (literals' = []) as ->.
    { specialize (Ht "" []). injection Et as <-. vm_compute in Ht. destruct literals'; [done|]. injection Ht. done. }
    exists (srev (code' ^^ String LF (String "?"%char code))), (rev literals). intros threadId.
    unfold sql_shape, detail_query. rewrite sql_run_app, Hh, Et, sapp_nil_r, app_nil_r, (quoted_literal _ LF) by reflexivity.
    rewrite Ht. reflexivity.
  - intros limit. unfold list_query, cursor_clause. cbn [join].
    set (A := "select " ^^ buildThreadSelect schema false). set (arch := if shas "archived" schema then _ else _).
    set (upd := threadUpdatedAtMsExpr schema). set (lim := zstr (Z.of_nat (S (safeLimit limit)))).
    exists (A ^^ String LF "" ^^ "       from threads" ^^ String LF "" ^^ "      where (" ^^ arch ^^ ") = 0 " ^^ "and (" ^^ upd ^^ ") < "),
      (String LF "" ^^ "      order by updated_at_ms desc, id desc" ^^ String LF "" ^^ "      limit " ^^ lim ^^ ";").
    intros z Hz. split.
    + cbn [is_finite num_is_zero_or_nan]. rewrite (proj2 (Z.eqb_neq z 0) Hz). cbn [andb negb num_str]. by rewrite !sapp_assoc.
    + destruct (Z.le_gt_cases 0 z) as [H|H].
      * destruct (zstr_digits z H) as (Hd & _ & _). eapply sforall_impl; [|exact Hd]. intros c ->. done.
      * destruct (zstr_digits (- z) ltac:(lia)) as (Hd & _ & _). destruct z as [|p|p]; try lia.
        change (zstr (Z.neg p)) with (String "-"%char (zstr (Z.pos p))). cbn [sforall]. rewrite orb_true_r. cbn [andb].
        eapply sforall_impl; [|exact Hd]. intros c ->. done.
Qed.

Lemma thread_query_safe_witness :
  exists code literals, sql_shape (detail_query ["id"; "title"] "x' or '1'='1") = Some (code, literals ++ ["x' or '1'='1"]) /\
    sql_shape (detail_query ["id"; "title"] "plain") = Some (code, literals ++ ["plain"]).
Proof.
  destruct (thread_query_safe ["id"; "title"]) as [(code & literals & H) _]. exists code, literals. split; apply H.
Defined.
