(* ===== verification/AppHook.v ===== *)
(** * The app's hook

    app/src/hooks/useCodeHarbor.ts, on top of [Client]: the signed-in user, the
    sockets and their timers, the requests proxied to the gateway through the
    relay, the calls to the relay's HTTP interface, and the user's actions.

    The hook is a state machine: [step] takes one event of the browser (a socket
    opens, closes or brings a frame, a timer fires, an answer arrives, the user
    acts), runs the handler, then the continuations of the promises it settled,
    then the effects whose dependencies changed. A continuation is a [waiter]
    with the variables its closure captured. A state update takes effect at once,
    as in [Client]. The clock, the random part of a delay and an exception of
    [WebSocket.send] come with the event.

    Fields the protocol defines as strings, arrays and integers are read as such.
    [JSON.parse], [TextDecoder], [decodeURIComponent] and the texts of the
    engine's own exceptions are parameters; [crypto.randomUUID] is a function of
    a counter. *)

From Stdlib Require Import Ascii.
From S2P Require Import Prelude JsValue JsDate Json CodexEvents Base64 Aggregator Client.

Local Open Scope Z_scope.

(** ** Data *)

Record ModelOption := mkModel { mo_id : string; mo_name : val; mo_model : val; mo_efforts : val }.

Inductive connection_status := Connected | Connecting | Disconnected | Reconnecting.

Inductive socket_state := WsConnecting | WsOpen | WsClosing | WsClosed.

#[global] Instance socket_state_eq_dec : EqDecision socket_state.
Proof. solve_decision. Defined.

Record socket := mkSocket { so_token : string; so_state : socket_state }.

(** The rest of a function that waits for a proxied request. *)
Inductive waiter :=
| WModels
| WPrompt
| WDownload (filePath : string)
| WApproval (sessionId requestId : string) (decision : approval_decision) (session : option val)
| WInterrupt (sessionId : string) (had_turns : bool)
| WResume (sessionId : string)
| WPolicy (sessionId mode : string)
| WCreate
| WFork.

(** What a promise is settled with: the message of an [Error], or a value. *)
Abbreviation reply := (string + val)%type.

Record pending := mkPending { pe_socket : nat; pe_raw : bool; pe_waiter : waiter }.

(** The rest of a function that waits for the relay's HTTP interface; [epoch]
    is the run of the token effect it belongs to. *)
Inductive job :=
| JData (device session : string)
| JRefresh (token : string) (expiry : Z) (epoch : nat)
| JSessionToken
| JLogin (user : string)
| JRegister (username : string)
| JRevoke (deviceId : string).

Record http_call := mkHttp { hc_path : string; hc_bearer : option string; hc_body : option val }.

(** An answer: the body is a value or the message of the parse error. *)
Inductive answer :=
| NoAnswer (message : string)
| Answer (status : Z) (body : reply).

Record AppHook := mkHook {
  ah_client : AppClient;
  ah_user : string;
  ah_password : string;
  ah_token : string;
  ah_activeToken : string;
  ah_devices : list val;
  ah_device : string;
  ah_models : list ModelOption;
  ah_status : connection_status;
  ah_error : string;
  ah_socketRef : option nat;
  ah_sockets : list socket;
  ah_pending : jmap string pending;
  ah_timers : jmap string (waiter * string);
  ah_settled : list (string * reply);
  ah_microtasks : list (waiter * reply);
  ah_results : list reply;
  ah_reconnect : option (string * Z);
  ah_heartbeat : option nat;
  ah_attempts : nat;
  ah_epoch : nat;
  ah_jobs : list job;
  ah_http : list http_call;
  ah_storedToken : option string;
  ah_storedUser : option string;
  ah_downloads : list (string * string * string);
  ah_next : nat
}.

Definition with_ah_client (v : AppClient) (r : AppHook) : AppHook :=
  mkHook v (ah_user r) (ah_password r) (ah_token r) (ah_activeToken r) (ah_devices r) (ah_device r)
    (ah_models r) (ah_status r) (ah_error r) (ah_socketRef r) (ah_sockets r) (ah_pending r)
    (ah_timers r) (ah_settled r) (ah_microtasks r) (ah_results r) (ah_reconnect r) (ah_heartbeat r)
    (ah_attempts r) (ah_epoch r) (ah_jobs r) (ah_http r) (ah_storedToken r) (ah_storedUser r)
    (ah_downloads r) (ah_next r).
Definition with_ah_user (v : string) (r : AppHook) : AppHook :=
  mkHook (ah_client r) v (ah_password r) (ah_token r) (ah_activeToken r) (ah_devices r) (ah_device
    r) (ah_models r) (ah_status r) (ah_error r) (ah_socketRef r) (ah_sockets r) (ah_pending r)
    (ah_timers r) (ah_settled r) (ah_microtasks r) (ah_results r) (ah_reconnect r) (ah_heartbeat r)
    (ah_attempts r) (ah_epoch r) (ah_jobs r) (ah_http r) (ah_storedToken r) (ah_storedUser r)
    (ah_downloads r) (ah_next r).
Definition with_ah_password (v : string) (r : AppHook) : AppHook :=
  mkHook (ah_client r) (ah_user r) v (ah_token r) (ah_activeToken r) (ah_devices r) (ah_device r)
    (ah_models r) (ah_status r) (ah_error r) (ah_socketRef r) (ah_sockets r) (ah_pending r)
    (ah_timers r) (ah_settled r) (ah_microtasks r) (ah_results r) (ah_reconnect r) (ah_heartbeat r)
    (ah_attempts r) (ah_epoch r) (ah_jobs r) (ah_http r) (ah_storedToken r) (ah_storedUser r)
    (ah_downloads r) (ah_next r).
Definition with_ah_token (v : string) (r : AppHook) : AppHook :=
  mkHook (ah_client r) (ah_user r) (ah_password r) v (ah_activeToken r) (ah_devices r) (ah_device r)
    (ah_models r) (ah_status r) (ah_error r) (ah_socketRef r) (ah_sockets r) (ah_pending r)
    (ah_timers r) (ah_settled r) (ah_microtasks r) (ah_results r) (ah_reconnect r) (ah_heartbeat r)
    (ah_attempts r) (ah_epoch r) (ah_jobs r) (ah_http r) (ah_storedToken r) (ah_storedUser r)
    (ah_downloads r) (ah_next r).
Definition with_ah_activeToken (v : string) (r : AppHook) : AppHook :=
  mkHook (ah_client r) (ah_user r) (ah_password r) (ah_token r) v (ah_devices r) (ah_device r)
    (ah_models r) (ah_status r) (ah_error r) (ah_socketRef r) (ah_sockets r) (ah_pending r)
    (ah_timers r) (ah_settled r) (ah_microtasks r) (ah_results r) (ah_reconnect r) (ah_heartbeat r)
    (ah_attempts r) (ah_epoch r) (ah_jobs r) (ah_http r) (ah_storedToken r) (ah_storedUser r)
    (ah_downloads r) (ah_next r).
Definition with_ah_devices (v : list val) (r : AppHook) : AppHook :=
  mkHook (ah_client r) (ah_user r) (ah_password r) (ah_token r) (ah_activeToken r) v (ah_device r)
    (ah_models r) (ah_status r) (ah_error r) (ah_socketRef r) (ah_sockets r) (ah_pending r)
    (ah_timers r) (ah_settled r) (ah_microtasks r) (ah_results r) (ah_reconnect r) (ah_heartbeat r)
    (ah_attempts r) (ah_epoch r) (ah_jobs r) (ah_http r) (ah_storedToken r) (ah_storedUser r)
    (ah_downloads r) (ah_next r).
Definition with_ah_device (v : string) (r : AppHook) : AppHook :=
  mkHook (ah_client r) (ah_user r) (ah_password r) (ah_token r) (ah_activeToken r) (ah_devices r) v
    (ah_models r) (ah_status r) (ah_error r) (ah_socketRef r) (ah_sockets r) (ah_pending r)
    (ah_timers r) (ah_settled r) (ah_microtasks r) (ah_results r) (ah_reconnect r) (ah_heartbeat r)
    (ah_attempts r) (ah_epoch r) (ah_jobs r) (ah_http r) (ah_storedToken r) (ah_storedUser r)
    (ah_downloads r) (ah_next r).
Definition with_ah_models (v : list ModelOption) (r : AppHook) : AppHook :=
  mkHook (ah_client r) (ah_user r) (ah_password r) (ah_token r) (ah_activeToken r) (ah_devices r)
    (ah_device r) v (ah_status r) (ah_error r) (ah_socketRef r) (ah_sockets r) (ah_pending r)
    (ah_timers r) (ah_settled r) (ah_microtasks r) (ah_results r) (ah_reconnect r) (ah_heartbeat r)
    (ah_attempts r) (ah_epoch r) (ah_jobs r) (ah_http r) (ah_storedToken r) (ah_storedUser r)
    (ah_downloads r) (ah_next r).
Definition with_ah_status (v : connection_status) (r : AppHook) : AppHook :=
  mkHook (ah_client r) (ah_user r) (ah_password r) (ah_token r) (ah_activeToken r) (ah_devices r)
    (ah_device r) (ah_models r) v (ah_error r) (ah_socketRef r) (ah_sockets r) (ah_pending r)
    (ah_timers r) (ah_settled r) (ah_microtasks r) (ah_results r) (ah_reconnect r) (ah_heartbeat r)
    (ah_attempts r) (ah_epoch r) (ah_jobs r) (ah_http r) (ah_storedToken r) (ah_storedUser r)
    (ah_downloads r) (ah_next r).
Definition with_ah_error (v : string) (r : AppHook) : AppHook :=
  mkHook (ah_client r) (ah_user r) (ah_password r) (ah_token r) (ah_activeToken r) (ah_devices r)
    (ah_device r) (ah_models r) (ah_status r) v (ah_socketRef r) (ah_sockets r) (ah_pending r)
    (ah_timers r) (ah_settled r) (ah_microtasks r) (ah_results r) (ah_reconnect r) (ah_heartbeat r)
    (ah_attempts r) (ah_epoch r) (ah_jobs r) (ah_http r) (ah_storedToken r) (ah_storedUser r)
    (ah_downloads r) (ah_next r).
Definition with_ah_socketRef (v : option nat) (r : AppHook) : AppHook :=
  mkHook (ah_client r) (ah_user r) (ah_password r) (ah_token r) (ah_activeToken r) (ah_devices r)
    (ah_device r) (ah_models r) (ah_status r) (ah_error r) v (ah_sockets r) (ah_pending r)
    (ah_timers r) (ah_settled r) (ah_microtasks r) (ah_results r) (ah_reconnect r) (ah_heartbeat r)
    (ah_attempts r) (ah_epoch r) (ah_jobs r) (ah_http r) (ah_storedToken r) (ah_storedUser r)
    (ah_downloads r) (ah_next r).
Definition with_ah_sockets (v : list socket) (r : AppHook) : AppHook :=
  mkHook (ah_client r) (ah_user r) (ah_password r) (ah_token r) (ah_activeToken r) (ah_devices r)
    (ah_device r) (ah_models r) (ah_status r) (ah_error r) (ah_socketRef r) v (ah_pending r)
    (ah_timers r) (ah_settled r) (ah_microtasks r) (ah_results r) (ah_reconnect r) (ah_heartbeat r)
    (ah_attempts r) (ah_epoch r) (ah_jobs r) (ah_http r) (ah_storedToken r) (ah_storedUser r)
    (ah_downloads r) (ah_next r).
Definition with_ah_pending (v : jmap string pending) (r : AppHook) : AppHook :=
  mkHook (ah_client r) (ah_user r) (ah_password r) (ah_token r) (ah_activeToken r) (ah_devices r)
    (ah_device r) (ah_models r) (ah_status r) (ah_error r) (ah_socketRef r) (ah_sockets r) v
    (ah_timers r) (ah_settled r) (ah_microtasks r) (ah_results r) (ah_reconnect r) (ah_heartbeat r)
    (ah_attempts r) (ah_epoch r) (ah_jobs r) (ah_http r) (ah_storedToken r) (ah_storedUser r)
    (ah_downloads r) (ah_next r).
Definition with_ah_timers (v : jmap string (waiter * string)) (r : AppHook) : AppHook :=
  mkHook (ah_client r) (ah_user r) (ah_password r) (ah_token r) (ah_activeToken r) (ah_devices r)
    (ah_device r) (ah_models r) (ah_status r) (ah_error r) (ah_socketRef r) (ah_sockets r)
    (ah_pending r) v (ah_settled r) (ah_microtasks r) (ah_results r) (ah_reconnect r) (ah_heartbeat
    r) (ah_attempts r) (ah_epoch r) (ah_jobs r) (ah_http r) (ah_storedToken r) (ah_storedUser r)
    (ah_downloads r) (ah_next r).
Definition with_ah_settled (v : list (string * reply)) (r : AppHook) : AppHook :=
  mkHook (ah_client r) (ah_user r) (ah_password r) (ah_token r) (ah_activeToken r) (ah_devices r)
    (ah_device r) (ah_models r) (ah_status r) (ah_error r) (ah_socketRef r) (ah_sockets r)
    (ah_pending r) (ah_timers r) v (ah_microtasks r) (ah_results r) (ah_reconnect r) (ah_heartbeat
    r) (ah_attempts r) (ah_epoch r) (ah_jobs r) (ah_http r) (ah_storedToken r) (ah_storedUser r)
    (ah_downloads r) (ah_next r).
Definition with_ah_microtasks (v : list (waiter * reply)) (r : AppHook) : AppHook :=
  mkHook (ah_client r) (ah_user r) (ah_password r) (ah_token r) (ah_activeToken r) (ah_devices r)
    (ah_device r) (ah_models r) (ah_status r) (ah_error r) (ah_socketRef r) (ah_sockets r)
    (ah_pending r) (ah_timers r) (ah_settled r) v (ah_results r) (ah_reconnect r) (ah_heartbeat r)
    (ah_attempts r) (ah_epoch r) (ah_jobs r) (ah_http r) (ah_storedToken r) (ah_storedUser r)
    (ah_downloads r) (ah_next r).
Definition with_ah_results (v : list reply) (r : AppHook) : AppHook :=
  mkHook (ah_client r) (ah_user r) (ah_password r) (ah_token r) (ah_activeToken r) (ah_devices r)
    (ah_device r) (ah_models r) (ah_status r) (ah_error r) (ah_socketRef r) (ah_sockets r)
    (ah_pending r) (ah_timers r) (ah_settled r) (ah_microtasks r) v (ah_reconnect r) (ah_heartbeat
    r) (ah_attempts r) (ah_epoch r) (ah_jobs r) (ah_http r) (ah_storedToken r) (ah_storedUser r)
    (ah_downloads r) (ah_next r).
Definition with_ah_reconnect (v : option (string * Z)) (r : AppHook) : AppHook :=
  mkHook (ah_client r) (ah_user r) (ah_password r) (ah_token r) (ah_activeToken r) (ah_devices r)
    (ah_device r) (ah_models r) (ah_status r) (ah_error r) (ah_socketRef r) (ah_sockets r)
    (ah_pending r) (ah_timers r) (ah_settled r) (ah_microtasks r) (ah_results r) v (ah_heartbeat r)
    (ah_attempts r) (ah_epoch r) (ah_jobs r) (ah_http r) (ah_storedToken r) (ah_storedUser r)
    (ah_downloads r) (ah_next r).
Definition with_ah_heartbeat (v : option nat) (r : AppHook) : AppHook :=
  mkHook (ah_client r) (ah_user r) (ah_password r) (ah_token r) (ah_activeToken r) (ah_devices r)
    (ah_device r) (ah_models r) (ah_status r) (ah_error r) (ah_socketRef r) (ah_sockets r)
    (ah_pending r) (ah_timers r) (ah_settled r) (ah_microtasks r) (ah_results r) (ah_reconnect r) v
    (ah_attempts r) (ah_epoch r) (ah_jobs r) (ah_http r) (ah_storedToken r) (ah_storedUser r)
    (ah_downloads r) (ah_next r).
Definition with_ah_attempts (v : nat) (r : AppHook) : AppHook :=
  mkHook (ah_client r) (ah_user r) (ah_password r) (ah_token r) (ah_activeToken r) (ah_devices r)
    (ah_device r) (ah_models r) (ah_status r) (ah_error r) (ah_socketRef r) (ah_sockets r)
    (ah_pending r) (ah_timers r) (ah_settled r) (ah_microtasks r) (ah_results r) (ah_reconnect r)
    (ah_heartbeat r) v (ah_epoch r) (ah_jobs r) (ah_http r) (ah_storedToken r) (ah_storedUser r)
    (ah_downloads r) (ah_next r).
Definition with_ah_epoch (v : nat) (r : AppHook) : AppHook :=
  mkHook (ah_client r) (ah_user r) (ah_password r) (ah_token r) (ah_activeToken r) (ah_devices r)
    (ah_device r) (ah_models r) (ah_status r) (ah_error r) (ah_socketRef r) (ah_sockets r)
    (ah_pending r) (ah_timers r) (ah_settled r) (ah_microtasks r) (ah_results r) (ah_reconnect r)
    (ah_heartbeat r) (ah_attempts r) v (ah_jobs r) (ah_http r) (ah_storedToken r) (ah_storedUser r)
    (ah_downloads r) (ah_next r).
Definition with_ah_jobs (v : list job) (r : AppHook) : AppHook :=
  mkHook (ah_client r) (ah_user r) (ah_password r) (ah_token r) (ah_activeToken r) (ah_devices r)
    (ah_device r) (ah_models r) (ah_status r) (ah_error r) (ah_socketRef r) (ah_sockets r)
    (ah_pending r) (ah_timers r) (ah_settled r) (ah_microtasks r) (ah_results r) (ah_reconnect r)
    (ah_heartbeat r) (ah_attempts r) (ah_epoch r) v (ah_http r) (ah_storedToken r) (ah_storedUser r)
    (ah_downloads r) (ah_next r).
Definition with_ah_http (v : list http_call) (r : AppHook) : AppHook :=
  mkHook (ah_client r) (ah_user r) (ah_password r) (ah_token r) (ah_activeToken r) (ah_devices r)
    (ah_device r) (ah_models r) (ah_status r) (ah_error r) (ah_socketRef r) (ah_sockets r)
    (ah_pending r) (ah_timers r) (ah_settled r) (ah_microtasks r) (ah_results r) (ah_reconnect r)
    (ah_heartbeat r) (ah_attempts r) (ah_epoch r) (ah_jobs r) v (ah_storedToken r) (ah_storedUser r)
    (ah_downloads r) (ah_next r).
Definition with_ah_storedToken (v : option string) (r : AppHook) : AppHook :=
  mkHook (ah_client r) (ah_user r) (ah_password r) (ah_token r) (ah_activeToken r) (ah_devices r)
    (ah_device r) (ah_models r) (ah_status r) (ah_error r) (ah_socketRef r) (ah_sockets r)
    (ah_pending r) (ah_timers r) (ah_settled r) (ah_microtasks r) (ah_results r) (ah_reconnect r)
    (ah_heartbeat r) (ah_attempts r) (ah_epoch r) (ah_jobs r) (ah_http r) v (ah_storedUser r)
    (ah_downloads r) (ah_next r).
Definition with_ah_storedUser (v : option string) (r : AppHook) : AppHook :=
  mkHook (ah_client r) (ah_user r) (ah_password r) (ah_token r) (ah_activeToken r) (ah_devices r)
    (ah_device r) (ah_models r) (ah_status r) (ah_error r) (ah_socketRef r) (ah_sockets r)
    (ah_pending r) (ah_timers r) (ah_settled r) (ah_microtasks r) (ah_results r) (ah_reconnect r)
    (ah_heartbeat r) (ah_attempts r) (ah_epoch r) (ah_jobs r) (ah_http r) (ah_storedToken r) v
    (ah_downloads r) (ah_next r).
Definition with_ah_downloads (v : list (string * string * string)) (r : AppHook) : AppHook :=
  mkHook (ah_client r) (ah_user r) (ah_password r) (ah_token r) (ah_activeToken r) (ah_devices r)
    (ah_device r) (ah_models r) (ah_status r) (ah_error r) (ah_socketRef r) (ah_sockets r)
    (ah_pending r) (ah_timers r) (ah_settled r) (ah_microtasks r) (ah_results r) (ah_reconnect r)
    (ah_heartbeat r) (ah_attempts r) (ah_epoch r) (ah_jobs r) (ah_http r) (ah_storedToken r)
    (ah_storedUser r) v (ah_next r).
Definition with_ah_next (v : nat) (r : AppHook) : AppHook :=
  mkHook (ah_client r) (ah_user r) (ah_password r) (ah_token r) (ah_activeToken r) (ah_devices r)
    (ah_device r) (ah_models r) (ah_status r) (ah_error r) (ah_socketRef r) (ah_sockets r)
    (ah_pending r) (ah_timers r) (ah_settled r) (ah_microtasks r) (ah_results r) (ah_reconnect r)
    (ah_heartbeat r) (ah_attempts r) (ah_epoch r) (ah_jobs r) (ah_http r) (ah_storedToken r)
    (ah_storedUser r) (ah_downloads r) v.


Definition lift (f : AppClient -> AppClient) (h : AppHook) : AppHook := with_ah_client (f (ah_client h)) h.

Definition setTurns (turns : list TurnMessage) : AppHook -> AppHook := lift (with_cl_turns turns).
Definition setSessions (f : list val -> list val) : AppHook -> AppHook :=
  lift (fun c => with_cl_sessions (f (cl_sessions c)) c).
Definition setRawEvents (l : list val) : AppHook -> AppHook := lift (with_cl_rawEvents l).

(** [""] when no session is selected. *)
Definition selectedSessionId (h : AppHook) : string := default "" (cl_selected (ah_client h)).
Definition setSelectedSessionId (id : string) : AppHook -> AppHook :=
  lift (with_cl_selected (if id === "" then None else Some id)).

Definition selectedSession (h : AppHook) : option val := find_session (selectedSessionId h) (ah_client h).

Definition isStreaming (h : AppHook) : bool :=
  let running := opt_str_eqb (selectedSession h ≫= str_prop "status") (Some "running") in
  match last (cl_turns (ah_client h)) with
  | None => running
  | Some turn => bool_decide (u_assistantStatus turn = st_streaming) || running
  end.

(** ** Encodings *)

Fixpoint utf8_bytes (s : string) : string :=
  match s with
  | "" => ""
  | String c s' =>
      let n := code c in
      if (n <? 128)%nat then String c (utf8_bytes s')
      else String (ascii_of_nat (192 + n / 64)) (String (ascii_of_nat (128 + n mod 64)) (utf8_bytes s'))
  end.

Definition base64Utf8 (value : string) : string := encode64 (utf8_bytes value).

(** White space is ignored; up to two [=] may fill the last group of four. *)
Definition atob (s : string) : option string :=
  let t := sfilter (fun c => negb (is_space c)) s in
  let t := if (slen t mod 4 =? 0)%nat then srev (drop_pad (srev t)) else t in
  if (slen t mod 4 =? 1)%nat || negb (sforall is_b64 t) then None else Some (decode64 t).

Fixpoint last_index_of (c : ascii) (s : string) : option nat :=
  match s with
  | "" => None
  | String d s' => match last_index_of c s' with
                   | Some i => Some (S i)
                   | None => if Ascii.eqb d c then Some O else None
                   end
  end.

Definition upper_char (c : ascii) : ascii :=
  let n := code c in if (97 <=? n)%nat && (n <=? 122)%nat then ascii_of_nat (n - 32) else c.
Definition to_upper : string -> string := smap upper_char.

Definition replace_char (a b : ascii) : string -> string := smap (fun c => if Ascii.eqb c a then b else c).

Fixpoint repeat_char (c : ascii) (n : nat) : string := match n with O => "" | S n' => String c (repeat_char c n') end.

(** The characters before the first [c], and the rest. *)
Fixpoint until (c : ascii) (s : string) : string :=
  match s with "" => "" | String d s' => if Ascii.eqb d c then "" else String d (until c s') end.

(** The match of [/filename\*=UTF-8''([^;]+)/i]. *)
Fixpoint encoded_name (s : string) : option string :=
  let here := if starts_with "filename*=utf-8''" (to_lower s) then until ";"%char (skip 17 s) else "" in
  if here !== "" then Some here else match s with "" => None | String _ s' => encoded_name s' end.

Definition TOKEN_REFRESH_WINDOW_MS : Z := 3 * 24 * 60 * 60 * 1000.

(** ** The machine *)

(** What the browser gives an event. *)
Record browser := mkBrowser { br_now : clock; br_jitter : Z; br_send : option string }.

Section hook.
Context (json_parse : string -> option val) (text_decode : string -> string) (decode_uri : string -> option string)
        (thrown : string -> string) (uuid : nat -> string).

Definition utf8Base64 (base64 : string) : string :=
  match atob base64 with Some bytes => text_decode bytes | None => base64 end.

Definition normalizeModelOptions (body : val) : list ModelOption :=
  let l := match as_array (prop "models" body) with
           | Some l => l
           | None => default [] (as_array body)
           end in
  omap (fun item =>
    match is_object item, prop "hidden" item with
    | true, VBool true => None
    | _, _ =>
        let id := match item with
                  | VStr s => VStr s
                  | _ => v_or (prop "id" item) (v_or (prop "model" item) (prop "slug" item))
                  end in
        match id with
        | VStr s => if s === "" then None
                    else Some (mkModel s (prop "name" item) (prop "model" item) (prop "supportedReasoningEfforts" item))
        | VNum n => if truthy id
                    then Some (mkModel (num_str n) (prop "name" item) (prop "model" item) (prop "supportedReasoningEfforts" item))
                    else None
        | _ => None
        end
    end) l.

Definition tokenExpiryMs (token : string) : option Z :=
  let payload := default "" (head (split_char "."%char token)) in
  let base64 := replace_char "_"%char "/"%char (replace_char "-"%char "+"%char payload) in
  match atob (base64 ^^ repeat_char "="%char ((4 - slen base64 mod 4) mod 4)%nat) with
  | None => None
  | Some decoded =>
      let structured := match json_parse decoded with
                        | Some v => match str_prop "e" v with Some e => date_parse e | None => None end
                        | None => None
                        end in
      match structured with
      | Some expiry => Some expiry
      | None => match last_index_of "|"%char decoded with
                | Some (S i) => date_parse (skip (S (S i)) decoded)
                | _ => None
                end
      end
  end.

(** ** Proxied requests *)

Definition setError (message : string) : AppHook -> AppHook := with_ah_error message.

(** The result of a user's action. *)
Definition returns (r : reply) (h : AppHook) : AppHook := with_ah_results (ah_results h ++ [r]) h.

Definition send (frame : val) : AppHook -> AppHook := lift (fun c => with_cl_sent (cl_sent c ++ [frame]) c).

Definition socket_is (state : socket_state) (i : nat) (h : AppHook) : bool :=
  match ah_sockets h !! i with Some s => bool_decide (so_state s = state) | None => false end.

(** [resolve] or [reject] of the promise [id]. *)
Definition settle (id : string) (w : waiter) (r : reply) (h : AppHook) : AppHook :=
  with_ah_microtasks (ah_microtasks h ++ [(w, r)]) (with_ah_settled (ah_settled h ++ [(id, r)]) h).

(** [clearTimeout(timer)] and [pendingRequests.delete(id)] *)
Definition forget (id : string) (h : AppHook) : AppHook :=
  with_ah_timers (mdelete id (ah_timers h)) (with_ah_pending (mdelete id (ah_pending h)) h).

Definition fresh (h : AppHook) : string * AppHook := (uuid (ah_next h), with_ah_next (S (ah_next h)) h).

Definition proxy_frame (device requestId method path : string) (body : option val) : val :=
  VObj ([("type", VStr "gateway-proxy"); ("deviceId", VStr device); ("requestId", VStr requestId);
         ("method", VStr method); ("path", VStr path);
         ("headers", VObj [("content-type", VStr "application/json")])]
        ++ match body with
           | None => []
           | Some (VStr s) => [("bodyBase64", VStr (base64Utf8 s))]
           | Some v => [("bodyBase64", VStr (base64Utf8 (stringify v)))]
           end).

Definition sendGatewayProxy (b : browser) (method path : string) (body : option val) (raw : bool) (w : waiter)
    (h : AppHook) : AppHook :=
  let '(requestId, h) := fresh h in
  match ah_socketRef h with
  | Some i =>
      if negb (socket_is WsOpen i h) then settle requestId w (inl "实时连接未就绪") h
      else if ah_device h === "" then settle requestId w (inl "未选择目标设备") h
      else
        let h := with_ah_timers (mset requestId (w, "请求超时 (" ^^ method ^^ " " ^^ path ^^ ")") (ah_timers h)) h in
        let h := with_ah_pending (mset requestId (mkPending i raw w) (ah_pending h)) h in
        match br_send b with
        | None => send (proxy_frame (ah_device h) requestId method path body) h
        | Some e => settle requestId w (inl e) (forget requestId h)
        end
  | None => settle requestId w (inl "实时连接未就绪") h
  end.

(** The thirty seconds of a request are over. *)
Definition proxyTimeout (requestId : string) (h : AppHook) : AppHook :=
  match mget requestId (ah_timers h) with
  | None => h
  | Some (w, message) => settle requestId w (inl message) (forget requestId h)
  end.

Definition response_error (msg : val) : string :=
  match truthy_str (prop "bodyBase64" msg) with
  | None => ""
  | Some base64 =>
      match json_parse (utf8Base64 base64) with
      | None => ""
      | Some decoded => match str_prop "message" decoded with
                        | Some m => m
                        | None => default "" (str_prop "error" decoded)
                        end
      end
  end.

(** What the promise of a request is settled with. *)
Definition response_reply (raw : bool) (msg : val) : reply :=
  let status := prop "status" msg in
  let failed := match status with VNum (NInt z) => 400 <=? z | _ => false end in
  match failed, truthy_str (prop "error" msg) with
  | _, Some e => inl e
  | true, None =>
      inl (if response_error msg === "" then "请求错误 " ^^ match status with VNum n => num_str n | _ => "undefined" end
           else response_error msg)
  | false, None =>
      if raw then
        inr (VObj [("status", status); ("headers", v_or (prop "headers" msg) (VObj []));
                   ("bodyBase64", VStr (default "" (truthy_str (prop "bodyBase64" msg))))])
      else match truthy_str (prop "bodyBase64" msg) with
           | None => inr VNull
           | Some base64 => inr (default (VStr base64) (json_parse (utf8Base64 base64)))
           end
  end.

Definition proxyResponse (msg : val) (h : AppHook) : AppHook :=
  match str_prop "requestId" msg with
  | None => h
  | Some reqId =>
      match mget reqId (ah_pending h) with
      | None => h
      | Some p => settle reqId (pe_waiter p) (response_reply (pe_raw p) msg) (forget reqId h)
      end
  end.

(** The requests [p] selects are rejected, in order. *)
Definition rejectAll (p : pending -> bool) (message : string) (h : AppHook) : AppHook :=
  foldl (fun h '(id, q) => if p q then settle id (pe_waiter q) (inl message) (forget id h) else h) h (ah_pending h).

(** ** The relay's HTTP interface *)

Definition call (path : string) (bearer : option string) (body : option val) (h : AppHook) : AppHook :=
  with_ah_http (ah_http h ++ [mkHttp path bearer body]) h.

Definition add_job (j : job) (h : AppHook) : AppHook := with_ah_jobs (ah_jobs h ++ [j]) h.

Definition ok (a : answer) : bool :=
  match a with Answer status _ => (200 <=? status) && (status <=? 299) | NoAnswer _ => false end.

(** [body.key]; a [null] body throws. *)
Definition body_prop (key : string) (body : reply) : reply :=
  match body with
  | inl e => inl e
  | inr VNull | inr VUndef => inl (thrown key)
  | inr v => inr (prop key v)
  end.

Definition answer_body (a : answer) : reply := match a with Answer _ body => body | NoAnswer e => inl e end.

(** [loadData]: both lists are asked for; the closure knows the selection of
    the render it belongs to. *)
Definition loadData (t : string) (h : AppHook) : AppHook :=
  if t === "" then h
  else add_job (JData (ah_device h) (selectedSessionId h)) (call "/sessions" (Some t) None (call "/devices" (Some t) None h)).

Definition unauthorized (a : answer) : bool := match a with Answer status _ => status =? 401 | NoAnswer _ => false end.

Definition load_devices (captured : string) (l : list val) (h : AppHook) : AppHook :=
  let h := with_ah_devices l h in
  match l with
  | [] => h
  | first :: _ =>
      if captured === ""
      then with_ah_device (default "" (str_prop "deviceId" (default first (List.find (fun d => truthy (prop "connected" d)) l)))) h
      else h
  end.

Definition load_sessions (captured : string) (l : list val) (h : AppHook) : AppHook :=
  let h := setSessions (fun _ => l) h in
  match l with
  | [] => h
  | first :: _ => if captured === "" then setSelectedSessionId (default "" (session_id first)) h else h
  end.

Definition dataLoaded (device session : string) (devRes sessRes : answer) (h : AppHook) : AppHook :=
  if unauthorized devRes || unauthorized sessRes then
    setError "登录已过期，请重新登录"
      (setSelectedSessionId "" (with_ah_device "" (with_ah_token "" (with_ah_storedToken None h))))
  else
    let sessions h :=
      if ok sessRes then
        match body_prop "sessions" (answer_body sessRes) with
        | inl e => setError e h
        | inr v => load_sessions session (default [] (as_array v)) h
        end
      else h in
    if ok devRes then
      match body_prop "devices" (answer_body devRes) with
      | inl e => setError e h
      | inr v => sessions (load_devices device (default [] (as_array v)) h)
      end
    else sessions h.

(** ** The socket *)

Definition set_socket (i : nat) (state : socket_state) (h : AppHook) : AppHook :=
  with_ah_sockets (alter (fun s => mkSocket (so_token s) state) i (ah_sockets h)) h.

(** [socket.close()] *)
Definition close_socket (i : nat) (h : AppHook) : AppHook :=
  match ah_sockets h !! i with
  | Some s => match so_state s with
              | WsConnecting | WsOpen => set_socket i WsClosing h
              | _ => h
              end
  | None => h
  end.

Definition close_current (h : AppHook) : AppHook :=
  match ah_socketRef h with Some i => close_socket i h | None => h end.

Definition connectWs (t : string) (h : AppHook) : AppHook :=
  if t === "" then h
  else
    let h := with_ah_status Connecting (close_current h) in
    with_ah_socketRef (Some (length (ah_sockets h))) (with_ah_sockets (ah_sockets h ++ [mkSocket t WsConnecting]) h).

Definition subscribe_frame (device : string) : val :=
  VObj [("type", VStr "subscribe"); ("deviceId", VStr device); ("replace", VBool true)].

Definition askModels (b : browser) (h : AppHook) : AppHook :=
  sendGatewayProxy b "GET" "/api/models" None false WModels h.

(** [ws.onopen] of socket [i]. *)
Definition socketOpened (b : browser) (i : nat) (h : AppHook) : AppHook :=
  if negb (socket_is WsConnecting i h) then h
  else
    let h := set_socket i WsOpen h in
    let h := setError "" (with_ah_status Connected (with_ah_attempts 0 h)) in
    let h := if ah_device h === "" then h else send (subscribe_frame (ah_device h)) h in
    let h := lift onopen h in
    let h := if ah_device h === "" then h else askModels b h in
    with_ah_heartbeat (Some i) h.

(** [Math.min(30000, 1000 * 2 ** Math.min(attempt, 5)) + Math.floor(Math.random() * 250)] *)
Definition reconnect_delay (attempt : nat) (jitter : Z) : Z :=
  Z.min 30000 (1000 * 2 ^ Z.of_nat (Nat.min attempt 5)) + jitter.

(** [ws.onclose] of socket [i]. *)
Definition socketClosed (b : browser) (i : nat) (h : AppHook) : AppHook :=
  match ah_sockets h !! i with
  | None => h
  | Some s =>
      if bool_decide (so_state s = WsClosed) then h
      else
        let h := set_socket i WsClosed h in
        let h := rejectAll (fun p => bool_decide (pe_socket p = i)) "实时连接已关闭，请确认操作状态后再试" h in
        if negb (bool_decide (ah_socketRef h = Some i)) then h
        else
          let h := with_ah_heartbeat None h in
          let h := rejectAll (fun _ => true) "实时连接已断开，请重试" h in
          let h := with_ah_status Reconnecting h in
          if ah_activeToken h === so_token s then
            with_ah_attempts (S (ah_attempts h))
              (with_ah_reconnect (Some (so_token s, reconnect_delay (ah_attempts h) (br_jitter b))) h)
          else h
  end.

Definition socketFailed (h : AppHook) : AppHook := with_ah_status Disconnected h.

Definition reconnectFires (h : AppHook) : AppHook :=
  match ah_reconnect h with
  | Some (t, _) => connectWs t (with_ah_reconnect None h)
  | None => h
  end.

Definition heartbeatFires (h : AppHook) : AppHook :=
  match ah_heartbeat h with
  | Some i => if socket_is WsOpen i h then send (VObj [("type", VStr "ping")]) h else h
  | None => h
  end.

(** [ws.onmessage] of an open socket. *)
Definition socketFrame (b : browser) (i : nat) (rawMsg : val) (h : AppHook) : AppHook :=
  if negb (socket_is WsOpen i h) then h
  else
    let msg := if opt_str_eqb (str_prop "type" rawMsg) (Some "gateway-event") && truthy (prop "payload" rawMsg)
               then prop "payload" rawMsg else rawMsg in
    if opt_str_eqb (str_prop "type" msg) (Some "gateway-proxy-response") then proxyResponse msg h
    else lift (onmessage json_parse (br_now b) true rawMsg) h.

(** ** Effects *)

(** The body of the token effect with a token. *)
Definition bootstrap (b : browser) (h : AppHook) : AppHook :=
  let token := ah_token h in
  match tokenExpiryMs token with
  | Some expiry =>
      if expiry - ck_ms (br_now b) <? TOKEN_REFRESH_WINDOW_MS
      then add_job (JRefresh token expiry (ah_epoch h)) (call "/auth/refresh" (Some token) None h)
      else connectWs token (loadData token h)
  | None => connectWs token (loadData token h)
  end.

Definition signed_out (h : AppHook) : AppHook :=
  let h := with_ah_models [] (setSessions (fun _ => []) (with_ah_devices [] (with_ah_status Disconnected h))) in
  setRawEvents [] (setTurns [] (setSelectedSessionId "" (with_ah_device "" h))).

(** The cleanup of the token effect; its runs in flight are cancelled. *)
Definition token_cleanup (h : AppHook) : AppHook :=
  let h := with_ah_heartbeat None (with_ah_reconnect None (with_ah_epoch (S (ah_epoch h)) h)) in
  let h := lift (with_cl_gapRecovery []) h in
  with_ah_socketRef None (close_current h).

Definition session_effect (h : AppHook) : AppHook :=
  if (selectedSessionId h !== "") && (ah_token h !== "") then lift (loadSessionEvents (selectedSessionId h)) h
  else setTurns [] h.

Definition device_effect (b : browser) (h : AppHook) : AppHook :=
  match ah_socketRef h with
  | Some i => if socket_is WsOpen i h && (ah_device h !== "")
              then askModels b (send (subscribe_frame (ah_device h)) h) else h
  | None => h
  end.

Definition token_effect (b : browser) (h : AppHook) : AppHook :=
  if ah_token h === "" then signed_out h else bootstrap b h.

(** The dependencies of the effects. *)
Record deps := mkDeps { dp_session : string; dp_device : string; dp_token : string }.

Definition deps_of (h : AppHook) : deps := mkDeps (selectedSessionId h) (ah_device h) (ah_token h).

(** A commit: cleanups first, then the effects in the order they are declared. *)
Definition effects (b : browser) (before : deps) (h : AppHook) : AppHook :=
  let after := deps_of h in
  let token_changed := dp_token before !== dp_token after in
  let h := with_ah_activeToken (ah_token h) h in
  let h := if token_changed then token_cleanup h else h in
  let h := if token_changed || (dp_session before !== dp_session after) then session_effect h else h in
  let h := if dp_device before !== dp_device after then device_effect b h else h in
  if token_changed then token_effect b h else h.

(** ** Continuations of proxied requests *)

Definition update_session (id : string) (fields : list (string * val)) : AppHook -> AppHook :=
  setSessions (update_sessions id (fun s => obj_spread s (VObj fields))).

Definition applyLiveEvent (b : browser) (event : EventMessage) (session : option val) (h : AppHook) : AppHook :=
  setTurns (applyLiveEventToTurns json_parse (br_now b) event (session_info <$> session) (cl_turns (ah_client h))) h.

Definition save_download (filePath : string) (response : val) (h : AppHook) : AppHook :=
  match truthy_str (prop "bodyBase64" response) with
  | None => returns (inl "文件下载响应为空") h
  | Some base64 =>
      match atob base64 with
      | None => returns (inl (thrown "atob")) h
      | Some bytes =>
          let headers := prop "headers" response in
          let contentType := default "application/octet-stream" (truthy_str (prop "content-type" headers)) in
          let disposition := default "" (truthy_str (prop "content-disposition" headers)) in
          let plain := default "" (last (split_char "/"%char (replace_char "\"%char "/"%char filePath))) in
          let fileName := match encoded_name disposition with
                          | Some e => decode_uri e
                          | None => Some (if plain === "" then "download" else plain)
                          end in
          match fileName with
          | None => returns (inl (thrown "decodeURIComponent")) h
          | Some name => returns (inr VUndef) (with_ah_downloads (ah_downloads h ++ [(name, contentType, bytes)]) h)
          end
      end
  end.

(** [resp?.session?.id] is set: the session is shown and selected. *)
Definition open_session (message : string) (r : reply) (h : AppHook) : AppHook :=
  let result := match r with
                | inl e => inl e
                | inr resp => let s := prop "session" resp in
                              match truthy_str (prop "id" s) with Some id => inr (id, s) | None => inl message end
                end in
  match result with
  | inl e => returns (inl e) (setError e h)
  | inr (id, s) => returns (inr s) (setSelectedSessionId id (setSessions (upsert_session s) h))
  end.

Definition promptSettled (r : reply) (h : AppHook) : AppHook :=
  match r with
  | inr _ => returns (inr VUndef) h
  | inl e => returns (inl e) (setError e h)
  end.

Definition approvalSettled (b : browser) (sessionId requestId : string) (decision : approval_decision) (session : option val)
    (r : reply) (h : AppHook) : AppHook :=
  match r with
  | inr _ =>
      let event := mkEvent "approval-resolved" (Some sessionId) None
        (VObj [("requestId", VStr requestId);
               ("decision", VStr match decision with Approve => "approve" | Deny => "deny" end)])
        (Some (ck_iso (br_now b))) in
      returns (inr VUndef) (applyLiveEvent b event session h)
  | inl e =>
      let message := if e === "approval_not_found" then "该审批已失效，请重新执行该操作" else e in
      returns (inl message) (setError message h)
  end.

Definition interruptSettled (sessionId : string) (had_turns : bool) (r : reply) (h : AppHook) : AppHook :=
  match r with
  | inr _ =>
      let h := update_session sessionId [("status", VStr "cancelled")] h in
      let turns := cl_turns (ah_client h) in
      returns (inr VUndef)
        (if had_turns then setTurns (alter (with_u_assistantStatus st_cancelled) (pred (length turns)) turns) h else h)
  | inl e => returns (inr VUndef) (setError e h)
  end.

Definition resumeSettled (sessionId : string) (r : reply) (h : AppHook) : AppHook :=
  match r with
  | inr _ => returns (inr VUndef) (update_session sessionId [("status", VStr "running")] h)
  | inl e => returns (inr VUndef) (setError e h)
  end.

Definition policySettled (sessionId mode : string) (r : reply) (h : AppHook) : AppHook :=
  match r with
  | inr response =>
      returns (inr VUndef) (setSessions (update_sessions sessionId (fun s =>
        obj_spread (obj_spread s (prop "session" response)) (VObj [("sessionPolicyMode", VStr mode)]))) h)
  | inl e => returns (inl e) h
  end.

Definition resume_waiter (b : browser) (w : waiter) (r : reply) (h : AppHook) : AppHook :=
  match w with
  | WModels => match r with inr body => with_ah_models (normalizeModelOptions body) h | inl _ => h end
  | WPrompt => promptSettled r h
  | WDownload filePath =>
      match r with inr response => save_download filePath response h | inl e => returns (inl e) h end
  | WApproval sessionId requestId decision session => approvalSettled b sessionId requestId decision session r h
  | WInterrupt sessionId had_turns => interruptSettled sessionId had_turns r h
  | WResume sessionId => resumeSettled sessionId r h
  | WPolicy sessionId mode => policySettled sessionId mode r h
  | WCreate => open_session "创建会话失败，返回数据异常" r h
  | WFork => open_session "分叉会话失败" r h
  end.

Definition drain (b : browser) (h : AppHook) : AppHook :=
  foldl (fun h '(w, r) => resume_waiter b w r h) (with_ah_microtasks [] h) (ah_microtasks h).

(** ** Signing in and out *)

(** Cursors and event keys belong to an account. *)
Definition forget_account (h : AppHook) : AppHook :=
  lift (fun c => with_cl_storage None (with_cl_seenEventKeys [] (with_cl_cursors [] c))) h.

Definition login (pairCode : option string) (h : AppHook) : AppHook :=
  let code := default "" ((fun c => to_upper (trim c)) <$> pairCode) in
  let body := if code === "" then VObj [("username", VStr (ah_user h)); ("password", VStr (ah_password h))]
              else VObj [("token", VStr code)] in
  add_job (JLogin (ah_user h)) (call "/auth/login" None (Some body) (setError "" h)).

Definition loginAnswered (user : string) (a : answer) (h : AppHook) : AppHook :=
  match a with
  | NoAnswer e => setError e h
  | Answer _ body =>
      if negb (ok a) then setError "账号或访问密码错误" h
      else match body_prop "token" body, body with
           | inl e, _ => setError e h
           | inr v, inr data =>
               match truthy_str v with
               | None => setError "登录未返回有效凭证" h
               | Some t =>
                   let h := with_ah_storedUser (Some (default user (str_prop "username" data))) h in
                   let h := forget_account h in
                   let h := match truthy_str (prop "deviceId" data) with Some d => with_ah_device d h | None => h end in
                   with_ah_password "" (with_ah_token t h)
               end
           | inr _, inl e => setError e h
           end
  end.

Definition registerAccount (username password : string) (h : AppHook) : AppHook :=
  add_job (JRegister username)
    (call "/auth/register" None (Some (VObj [("username", VStr username); ("password", VStr password)])) (setError "" h)).

Definition registration_error (data : val) : string :=
  match str_prop "error" data with
  | Some e => if e === "account_exists" then "该账号已存在"
              else if e === "invalid_account" then "账号需 3–64 位字母、数字、点、下划线或短横线；密码至少 12 位"
              else "注册失败，请稍后重试"
  | None => "注册失败，请稍后重试"
  end.

Definition registerAnswered (username : string) (a : answer) (h : AppHook) : AppHook :=
  let fail e := returns (inl e) (setError e h) in
  match a with
  | NoAnswer e => fail e
  | Answer _ body =>
      let data := match body with inr v => v | inl _ => VObj [] end in
      if negb (ok a) then fail (registration_error data)
      else match body_prop "username" (inr data) with
           | inl e => fail e
           | inr name =>
               let registeredUser := match name with VStr s => s | _ => to_lower (trim username) end in
               match truthy_str (prop "token" data) with
               | None => fail "注册成功但未返回登录凭证"
               | Some t =>
                   let h := forget_account (with_ah_storedUser (Some registeredUser) h) in
                   returns (inr VUndef) (with_ah_password "" (with_ah_token t (with_ah_user registeredUser h)))
               end
           end
  end.

Definition logout (h : AppHook) : AppHook :=
  let h := if ah_token h === "" then h else call "/auth/logout" (Some (ah_token h)) None h in
  let h := forget_account (with_ah_storedToken None h) in
  let h := with_ah_token "" (with_ah_activeToken "" h) in
  let h := with_ah_devices [] (setSessions (fun _ => []) h) in
  let h := setSelectedSessionId "" (with_ah_device "" h) in
  let h := lift (with_cl_gapRecovery []) (setRawEvents [] (setTurns [] h)) in
  close_current h.

(** [/auth/refresh] answered; the run may have been cancelled since. *)
Definition refreshAnswered (b : browser) (token : string) (expiry : Z) (epoch : nat) (a : answer) (h : AppHook) : AppHook :=
  let cancelled := negb (epoch =? ah_epoch h)%nat in
  let refreshed := if ok a then match answer_body a with
                                | inr data => match str_prop "token" data with
                                              | Some t => if (16 <? slen t)%nat then Some t else None
                                              | None => None
                                              end
                                | inl _ => None
                                end
                   else None in
  match refreshed, cancelled with
  | Some t, false => with_ah_token t h
  | _, _ =>
      if expiry <=? ck_ms (br_now b) then
        let h := with_ah_storedToken None h in
        if cancelled then h else setError "登录已过期，请重新登录" (with_ah_status Disconnected (with_ah_token "" h))
      else if cancelled then h else connectWs token (loadData token h)
  end.

Definition sessionTokenAnswered (a : answer) (h : AppHook) : AppHook :=
  if negb (ok a) then h
  else match answer_body a with
       | inr data => match str_prop "token" data with
                     | Some t => if (16 <? slen t)%nat then with_ah_token t h else h
                     | None => h
                     end
       | inl _ => h
       end.

Definition revokeDevice (deviceId : string) (h : AppHook) : AppHook :=
  if (deviceId === "") || (ah_token h === "") then returns (inl "未选择设备") h
  else add_job (JRevoke deviceId)
         (call ("/devices/" ^^ encodeURIComponent deviceId ^^ "/revoke") (Some (ah_token h)) None h).

Definition revokeAnswered (deviceId : string) (a : answer) (h : AppHook) : AppHook :=
  match a with
  | NoAnswer e => returns (inl e) h
  | Answer status _ =>
      if negb (ok a) then returns (inl (if status =? 404 then "设备不存在或无权操作" else "撤销设备失败")) h
      else
        let h := with_ah_devices (List.filter (fun d => negb (opt_str_eqb (str_prop "deviceId" d) (Some deviceId))) (ah_devices h)) h in
        returns (inr VUndef)
          (if ah_device h === deviceId then setTurns [] (setSelectedSessionId "" (with_ah_device "" h)) else h)
  end.

(** ** The user's actions *)

Definition later (b : browser) (ms : Z) : val := VStr (toISOString (ck_ms (br_now b) + ms)).

Definition session_path (id suffix : string) : string := "/sessions/" ^^ encodeURIComponent id ^^ suffix.

Record prompt_options := mkOptions { po_model : string; po_effort : string; po_multiAgentMode : string; po_policy : option string }.

(** [value || undefined] *)
Definition or_undefined (s : string) : val := if s === "" then VUndef else VStr s.

Definition sendPrompt (b : browser) (promptText : string) (attachments : list val) (options : prompt_options)
    (h : AppHook) : AppHook :=
  let sid := selectedSessionId h in
  if sid === "" then returns (inl "请先选择一个会话") h
  else if (trim promptText === "") && (length attachments =? 0)%nat then returns (inl "请输入消息内容或添加附件") h
  else
    let '(clientRequestId, h) := fresh h in
    let policy := match po_policy options, selectedSession h ≫= str_prop "sessionPolicyMode" with
                  | Some m, _ => m
                  | None, Some m => m
                  | None, None => "confirm"
                  end in
    let body := VObj [("clientRequestId", VStr clientRequestId); ("expiresAt", later b 600000); ("prompt", VStr promptText);
                      ("attachments", if (length attachments =? 0)%nat then VUndef else VArr attachments);
                      ("model", or_undefined (po_model options)); ("effort", or_undefined (po_effort options));
                      ("multiAgentMode", or_undefined (po_multiAgentMode options)); ("sessionPolicyMode", VStr policy)] in
    let event := mkEvent "session-user-input" (Some sid) None
      (VObj [("sessionId", VStr sid); ("clientRequestId", VStr clientRequestId); ("prompt", VStr promptText);
             ("attachments", VArr attachments)]) (Some (ck_iso (br_now b))) in
    let h := lift (fun c => with_cl_seenEventKeys (sadd ("request:" ^^ clientRequestId) (cl_seenEventKeys c)) c) h in
    let h := applyLiveEvent b event (selectedSession h) h in
    sendGatewayProxy b "POST" (session_path sid "/turns") (Some body) false WPrompt h.

Definition downloadFile (b : browser) (filePath : string) (h : AppHook) : AppHook :=
  let sid := selectedSessionId h in
  if sid === "" then returns (inl "请先选择一个会话") h
  else sendGatewayProxy b "GET"
         ("/files/download?sessionId=" ^^ encodeURIComponent sid ^^ "&path=" ^^ encodeURIComponent filePath)
         None true (WDownload filePath) h.

(** The newest approval with this id, a pending one first. *)
Definition chosen_approval (requestId : string) (turns : list TurnMessage) : option ApprovalRequest :=
  let newest := rev (concat (map u_approvals turns)) in
  let same a := ar_requestId a === requestId in
  match List.find (fun a => same a && match ar_status a with ap_pending => true | _ => false end) newest with
  | Some a => Some a
  | None => List.find same newest
  end.

Definition sendApprovalDecision (b : browser) (requestId : string) (decision : approval_decision)
    (amendment : list string) (approvalTurnId : option string) (h : AppHook) : AppHook :=
  let sid := selectedSessionId h in
  if sid === "" then returns (inr VUndef) h
  else
    let approval := chosen_approval requestId (cl_turns (ah_client h)) in
    let turnId := match approvalTurnId with Some t => Some t | None => approval ≫= ar_turnId end in
    let body := VObj [("decision", VStr match decision with Approve => "approve" | Deny => "deny" end);
                      ("requestId", VStr requestId); ("turnId", opt_val VStr turnId);
                      ("expiresAt", opt_val VStr (approval ≫= ar_expiresAt));
                      ("execpolicyAmendment", if (length amendment =? 0)%nat then VUndef else VArr (map VStr amendment))] in
    sendGatewayProxy b "POST" (session_path sid ("/approvals/" ^^ encodeURIComponent requestId)) (Some body) false
      (WApproval sid requestId decision (selectedSession h)) h.

Definition streaming_turn (turns : list TurnMessage) : option string :=
  u_turnId <$> List.find (fun t => bool_decide (u_assistantStatus t = st_streaming)) (rev turns).

Definition interruptTask (b : browser) (h : AppHook) : AppHook :=
  let sid := selectedSessionId h in
  if sid === "" then returns (inr VUndef) h
  else
    let turns := cl_turns (ah_client h) in
    let activeTurnId := match selectedSession h ≫= str_prop "activeTurnId" with
                        | Some t => Some t
                        | None => streaming_turn turns
                        end in
    sendGatewayProxy b "POST" (session_path sid "/interrupt")
      (Some (VObj [("turnId", opt_val VStr activeTurnId); ("expiresAt", later b 120000)])) false
      (WInterrupt sid (0 <? length turns)%nat) h.

Definition resumeTask (b : browser) (h : AppHook) : AppHook :=
  let sid := selectedSessionId h in
  if sid === "" then returns (inr VUndef) h
  else sendGatewayProxy b "POST" ("/api/threads/" ^^ encodeURIComponent sid ^^ "/resume")
         (Some (VObj [("expiresAt", later b 120000)])) false (WResume sid) h.

Definition setSessionPolicyMode (b : browser) (mode : string) (confirmFullAccess : bool) (h : AppHook) : AppHook :=
  let sid := selectedSessionId h in
  if sid === "" then returns (inl "请先选择一个会话") h
  else sendGatewayProxy b "PATCH" (session_path sid "/policy")
         (Some (VObj [("sessionPolicyMode", VStr mode);
                      ("confirmFullAccess", if confirmFullAccess then VBool true else VUndef);
                      ("expiresAt", later b 120000)])) false (WPolicy sid mode) h.

Record new_session := mkNewSession {
  ns_workspacePath : string; ns_prompt : string; ns_title : string; ns_policy : string; ns_confirm : bool;
  ns_model : string; ns_effort : string; ns_multiAgentMode : string
}.

Definition createNewSession (b : browser) (params : new_session) (h : AppHook) : AppHook :=
  let '(clientRequestId, h) := fresh h in
  let body := VObj [("clientRequestId", VStr clientRequestId); ("workspacePath", VStr (ns_workspacePath params));
                    ("prompt", VStr (ns_prompt params)); ("expiresAt", later b 600000);
                    ("title", VStr (if ns_title params === "" then slice0 30 (ns_prompt params) else ns_title params));
                    ("sessionPolicyMode", VStr (if ns_policy params === "" then "confirm" else ns_policy params));
                    ("confirmFullAccess", if ns_confirm params then VBool true else VUndef);
                    ("model", or_undefined (ns_model params)); ("effort", or_undefined (ns_effort params));
                    ("multiAgentMode", or_undefined (ns_multiAgentMode params))] in
  sendGatewayProxy b "POST" "/sessions" (Some body) false WCreate h.

Definition forkSession (b : browser) (sourceSessionId : string) (h : AppHook) : AppHook :=
  sendGatewayProxy b "POST" (session_path sourceSessionId "/fork")
    (Some (VObj [("threadSource", VStr "subagent"); ("sessionPolicyMode", VStr "confirm"); ("expiresAt", later b 600000)]))
    false WFork h.

(** ** Events *)

Inductive hook_event :=
| SocketOpened (i : nat)
| SocketClosed (i : nat)
| SocketFailed (i : nat)
| SocketFrame (i : nat) (frame : val)
| HeartbeatFires
| ReconnectFires
| ProxyTimeout (requestId : string)
| GapTimerFires (sessionId : string)
| PageAnswered (i : nat) (a : page_answer)
| JobAnswered (i : nat) (a a2 : answer)
| SetUser (s : string)
| SetPassword (s : string)
| SelectDevice (id : string)
| SelectSession (id : string)
| ClearError
| RefreshData
| Login (pairCode : option string)
| Register (username password : string)
| Logout
| SendPrompt (text : string) (attachments : list val) (options : prompt_options)
| DownloadFile (path : string)
| SendApproval (requestId : string) (decision : approval_decision) (amendment : list string) (turnId : option string)
| InterruptTask
| ResumeTask
| SetPolicy (mode : string) (confirm : bool)
| RevokeDevice (deviceId : string)
| CreateSession (params : new_session)
| ForkSession (source : string).

Definition jobAnswered (b : browser) (j : job) (a a2 : answer) (h : AppHook) : AppHook :=
  match j with
  | JData device session => dataLoaded device session a a2 h
  | JRefresh token expiry epoch => refreshAnswered b token expiry epoch a h
  | JSessionToken => sessionTokenAnswered a h
  | JLogin user => loginAnswered user a h
  | JRegister username => registerAnswered username a h
  | JRevoke deviceId => revokeAnswered deviceId a h
  end.

Definition handle (b : browser) (e : hook_event) (h : AppHook) : AppHook :=
  match e with
  | SocketOpened i => socketOpened b i h
  | SocketClosed i => socketClosed b i h
  | SocketFailed i => socketFailed h
  | SocketFrame i frame => socketFrame b i frame h
  | HeartbeatFires => heartbeatFires h
  | ReconnectFires => reconnectFires h
  | ProxyTimeout requestId => proxyTimeout requestId h
  | GapTimerFires sessionId => lift (gapTimerFires sessionId) h
  | PageAnswered i a => lift (pageAnswered json_parse (br_now b) i a) h
  | JobAnswered i a a2 =>
      match ah_jobs h !! i with
      | Some j => jobAnswered b j a a2 (with_ah_jobs (delete i (ah_jobs h)) h)
      | None => h
      end
  | SetUser s => with_ah_user s h
  | SetPassword s => with_ah_password s h
  | SelectDevice id => with_ah_device id h
  | SelectSession id => setSelectedSessionId id h
  | ClearError => setError "" h
  | RefreshData => loadData (ah_token h) h
  | Login pairCode => login pairCode h
  | Register username password => registerAccount username password h
  | Logout => logout h
  | SendPrompt text attachments options => sendPrompt b text attachments options h
  | DownloadFile path => downloadFile b path h
  | SendApproval requestId decision amendment turnId => sendApprovalDecision b requestId decision amendment turnId h
  | InterruptTask => interruptTask b h
  | ResumeTask => resumeTask b h
  | SetPolicy mode confirm => setSessionPolicyMode b mode confirm h
  | RevokeDevice deviceId => revokeDevice deviceId h
  | CreateSession params => createNewSession b params h
  | ForkSession source => forkSession b source h
  end.

(** An event, the promises it settles, and two commits: only the effect of
    signing out changes the dependencies of an effect, and the commit after it
    changes nothing more. *)
Definition commit (b : browser) (before : deps) (h : AppHook) : AppHook :=
  let h1 := drain b (effects b before h) in
  drain b (effects b (deps_of h) h1).

Definition step (h : AppHook) (be : browser * hook_event) : AppHook :=
  commit be.1 (deps_of h) (drain be.1 (handle be.1 be.2 h)).

Definition run (h : AppHook) (l : list (browser * hook_event)) : AppHook := foldl step h l.

(** The first render: the stored user name, the token of an older version, and
    the cursors of the last visit. *)
Definition mount (storedUser storedToken : option string) (cursors : option val) (storage_ok : bool) : AppHook :=
  let saved := trim (default "" storedUser) in
  let old := to_lower saved === "admin" in
  let client := mkClient (restore_cursors cursors) [] [] 0 0 [] [] [] None [] []
    ((fun v => restore_cursors (Some v)) <$> cursors) storage_ok in
  let h := mkHook client (if old then "" else saved) "" "" "" [] "" [] Disconnected "" None [] [] [] [] [] [] None None 0 0
             [] [] None (if old then None else storedUser) [] 0 in
  match storedToken with
  | Some t => if t === "" then add_job JSessionToken (call "/auth/session-token" None None h) else with_ah_token t h
  | None => add_job JSessionToken (call "/auth/session-token" None None h)
  end.

(** The hook after its first commits. *)
Definition boot (b : browser) (storedUser storedToken : option string) (cursors : option val) (storage_ok : bool) : AppHook :=
  let h := mount storedUser storedToken cursors storage_ok in
  commit b (mkDeps "" "" "") h.
End hook.
