(* ===== verification/AppHookInv.v ===== *)
(** * The app's hook: requests, connection, accounts

    Invariants of [AppHook] over any sequence of events: every proxied request
    is settled once, a signed-in app always has a way back to the relay, signing
    out is final, and a prompt is shown once. *)

From Stdlib Require Import Ascii.
From S2P Require Import Prelude JsValue JsDate Json CodexEvents Base64 Aggregator Client Delivery AppHook.

Local Open Scope Z_scope.

(** ** Client operations and what they send *)

(** The id of a request frame. *)
Definition request_of (frame : val) : option string :=
  if opt_str_eqb (str_prop "type" frame) (Some "gateway-proxy") then str_prop "requestId" frame else None.

Definition sent_more (c c' : AppClient) : Prop :=
  exists l, cl_sent c' = cl_sent c ++ l /\ Forall (fun f => request_of f = None) l.

Lemma sent_same c c' : cl_sent c' = cl_sent c -> sent_more c c'.
Proof. intros E. exists []. by rewrite app_nil_r, E. Qed.

Lemma persist_sent c : cl_sent (persist_cursors c) = cl_sent c.
Proof. unfold persist_cursors. by destruct (cl_storage_ok c). Qed.

Lemma loadSessionEvents_sent sid c : cl_sent (loadSessionEvents sid c) = cl_sent c.
Proof. unfold loadSessionEvents. by destruct (sid === ""). Qed.

Lemma schedule_sent sid q c : cl_sent (scheduleGapRecovery sid q c) = cl_sent c.
Proof. unfold scheduleGapRecovery. cbv zeta. by case_match. Qed.

Lemma gapTimer_sent sid c : cl_sent (gapTimerFires sid c) = cl_sent c.
Proof. unfold gapTimerFires. destruct (mget _ _) as [[? ? [?|]]|]; [|done..]. by rewrite loadSessionEvents_sent. Qed.

Lemma settle_gap_sent sid q c : cl_sent (settle_gap sid q c) = cl_sent c.
Proof. unfold settle_gap. destruct (mget _ _); [|done]. case_match; [done|]. apply schedule_sent. Qed.

Lemma historyLoaded_sent json_parse now sid r result c :
  cl_sent (historyLoaded json_parse now sid r result c) = cl_sent c.
Proof.
  unfold historyLoaded. case_match; [done|]. destruct result as [[|e l]|]; [by rewrite settle_gap_sent| |done].
  cbv zeta. rewrite settle_gap_sent. case_match; [by rewrite saveCursor_sent|done].
Qed.

Lemma pageAnswered_sent json_parse now i a c : cl_sent (pageAnswered json_parse now i a c) = cl_sent c.
Proof.
  unfold pageAnswered. destruct (cl_loads c !! i); [|done]. destruct (page_loaded a l) as [ld|result]; [done|].
  by rewrite historyLoaded_sent.
Qed.

Lemma resume_frame_plain m : request_of (VObj [("type", VStr "resume"); ("cursors", m)]) = None.
Proof. reflexivity. Qed.

Lemma resumeComplete_sent open msg c : sent_more c (resumeComplete open msg c).
Proof.
  unfold resumeComplete. case_match; [|by apply sent_same]. cbv zeta.
  set (c1 := match prop "cursors" (prop "payload" msg) with VObj _ => _ | _ => _ end).
  assert (cl_sent c1 = cl_sent c) as E.
  { subst c1. destruct (prop "cursors" _) as [| | | | | |fs]; try done. clear. revert c.
    induction fs as [|[k v] fs IH]; intros c; [done|]. cbn [foldl]. rewrite IH.
    destruct (safe_integer v); [|done]. case_match; [apply saveCursor_sent|done]. }
  destruct (existsb _ (cl_cursors c1)); [|by apply sent_same].
  eexists. split; [cbn; rewrite E; reflexivity|]. by repeat constructor.
Qed.

Lemma onmessage_sent json_parse now open raw c : sent_more c (onmessage json_parse now open raw c).
Proof.
  unfold onmessage. cbv zeta. fold (unwrap raw).
  assert (sent_more c (if opt_str_eqb (str_prop "type" (unwrap raw)) (Some "gateway-proxy-response") then c
    else if opt_str_eqb (str_prop "type" (unwrap raw)) (Some "resume-complete") then resumeComplete open (unwrap raw) c
    else if opt_str_eqb (str_prop "type" (unwrap raw)) (Some "history-gap") then historyGap (unwrap raw) c
    else if opt_str_eqb (str_prop "type" (unwrap raw)) (Some "pong") || opt_str_eqb (str_prop "type" (unwrap raw)) (Some "cloud-ready") then c
    else timelineEvent json_parse now (unwrap raw) c)) as H.
  { repeat case_match; try (by apply sent_same); [apply resumeComplete_sent| |].
    - apply sent_same. unfold historyGap, resetCursor. repeat case_match; rewrite ?persist_sent; done.
    - apply sent_same, timeline_sent. }
  destruct (unwrap raw); try exact H; by apply sent_same.
Qed.

Lemma onopen_sent c : sent_more c (onopen c).
Proof.
  unfold onopen. cbv zeta. destruct (cl_selected _) as [sid|] eqn:E; destruct (cl_cursors _) as [|x l] eqn:Ec;
    cbn [cl_selected with_cl_sent with_cl_resumeAttempts] in *; rewrite ?E; cbn;
    try (apply sent_same; by rewrite ?loadSessionEvents_sent);
    (eexists; split; [rewrite ?loadSessionEvents_sent; cbn; reflexivity|by repeat constructor]).
Qed.

(** ** Proxied requests *)

Section requests.
Context (json_parse : string -> option val) (text_decode : string -> string) (decode_uri : string -> option string)
        (thrown : string -> string) (uuid : nat -> string).
Context `{!Inj (=) (=) uuid}.

Definition ids (h : AppHook) : list string := (ah_settled h).*1 ++ (ah_pending h).*1.

Definition alive (i : nat) (h : AppHook) : Prop := exists s, ah_sockets h !! i = Some s /\ so_state s <> WsClosed.

(** The table of requests is sound; the requests of the sockets [x] may wait for
    a socket that is closed. *)
Record wires (x : list nat) (h : AppHook) : Prop := {
  wi_once : NoDup (ids h);
  wi_timers : map (fun e => (e.1, e.2.1)) (ah_timers h) = map (fun e => (e.1, pe_waiter e.2)) (ah_pending h);
  wi_ids : forall id, id ∈ ids h -> exists n, (n < ah_next h)%nat /\ id = uuid n;
  wi_alive : forall id p, (id, p) ∈ ah_pending h -> pe_socket p ∉ x -> alive (pe_socket p) h;
  wi_sent : forall f id, f ∈ cl_sent (ah_client h) -> request_of f = Some id -> id ∈ ids h
}.

Record evolves (h h' : AppHook) : Prop := {
  ev_wires : forall x, wires x h -> wires x h';
  ev_ids : forall x, wires x h -> forall id, id ∈ ids h -> id ∈ ids h';
  ev_settled : forall id, id ∈ (ah_settled h).*1 -> id ∈ (ah_settled h').*1
}.

Lemma evolves_refl h : evolves h h.
Proof. by split. Qed.

Lemma evolves_trans h1 h2 h3 : evolves h1 h2 -> evolves h2 h3 -> evolves h1 h3.
Proof. intros [W1 I1 S1] [W2 I2 S2]. split; eauto. Qed.

(** An operation that does not touch the table. *)
Record frame (h h' : AppHook) : Prop := {
  fr_settled : ah_settled h' = ah_settled h;
  fr_pending : ah_pending h' = ah_pending h;
  fr_timers : ah_timers h' = ah_timers h;
  fr_next : (ah_next h <= ah_next h')%nat;
  fr_sent : sent_more (ah_client h) (ah_client h');
  fr_alive : forall i, alive i h -> alive i h'
}.

Lemma frame_evolves h h' : frame h h' -> evolves h h'.
Proof.
  intros [Es Ep Et En [l [El Hl]] Ha].
  assert (ids h' = ids h) as Ei by (unfold ids; by rewrite Es, Ep).
  split; [|intros x _ id; by rewrite Ei|by rewrite Es].
  intros x [H1 H2 H3 H4 H5]. split; rewrite ?Ei, ?Et, ?Ep; try done.
  - intros id Hid. destruct (H3 id Hid) as (n & Hn & ->). exists n. split; [lia|done].
  - intros id p Hp Hx. eauto.
  - intros f id Hf Hr. rewrite El in Hf. apply elem_of_app in Hf as [Hf|Hf]; [by eapply H5|].
    rewrite Forall_forall in Hl. rewrite (Hl _ Hf) in Hr. done.
Qed.

Lemma frame_refl' h : frame h h.
Proof. split; try done. by apply sent_same. Qed.

Lemma sent_trans c1 c2 c3 : sent_more c1 c2 -> sent_more c2 c3 -> sent_more c1 c3.
Proof. intros (l1 & E1 & H1) (l2 & E2 & H2). exists (l1 ++ l2). rewrite E2, E1, app_assoc. by rewrite Forall_app. Qed.

Lemma frame_trans' h1 h2 h3 : frame h1 h2 -> frame h2 h3 -> frame h1 h3.
Proof.
  intros [A1 A2 A3 A4 A5 A6] [B1 B2 B3 B4 B5 B6]. split; try congruence; [lia| |auto]. by eapply sent_trans.
Qed.

(** The fields a frame reads are left alone. *)
Lemma frame_same h h' :
  ah_settled h' = ah_settled h -> ah_pending h' = ah_pending h -> ah_timers h' = ah_timers h -> ah_next h' = ah_next h ->
  cl_sent (ah_client h') = cl_sent (ah_client h) -> ah_sockets h' = ah_sockets h -> frame h h'.
Proof.
  intros E1 E2 E3 E4 E5 E6. split; try done; [lia|by apply sent_same|]. intros i (s & Hs & Hn). exists s. by rewrite E6.
Qed.

Lemma frame_lift f h : sent_more (ah_client h) (f (ah_client h)) -> frame h (lift f h).
Proof. intros Hs. by split. Qed.

Lemma frame_send' f h : request_of f = None -> frame h (send f h).
Proof. intros Hf. apply frame_lift. exists [f]. split; [done|]. by repeat constructor. Qed.

Lemma frame_socket i state h : state <> WsClosed -> frame h (set_socket i state h).
Proof.
  intros Hs. split; try done; [by apply sent_same|]. intros j (s & Hj & Hn). unfold alive, set_socket. simpl.
  destruct (decide (i = j)) as [->|Hne].
  - rewrite list_lookup_alter_eq, Hj. eexists. split; [reflexivity|]. done.
  - rewrite list_lookup_alter_ne by done. eauto.
Qed.

Lemma frame_close' i h : frame h (close_socket i h).
Proof.
  unfold close_socket. repeat case_match; try apply frame_refl'; by apply frame_socket.
Qed.

Lemma frame_connectWs t h : frame h (connectWs t h).
Proof.
  unfold connectWs. destruct (t === ""); [apply frame_refl'|]. cbv zeta.
  assert (frame h (close_current h)) as Hc
    by (unfold close_current; destruct (ah_socketRef h); [apply frame_close'|apply frame_refl']).
  eapply frame_trans'; [exact Hc|]. split; try done; [by apply sent_same|].
  intros i (s & Hi & Hn). exists s. split; [|done]. simpl. by apply lookup_app_l_Some.
Qed.

Lemma mdelete_perm {V} (id : string) (v : V) (m : jmap string V) :
  NoDup m.*1 -> mget id m = Some v -> m.*1 ≡ₚ id :: (mdelete id m).*1.
Proof.
  induction m as [|[k w] m IH]; [done|]. csimpl. intros [Hk Hnd]%NoDup_cons Hg. case_decide as E.
  - subst. rewrite mdelete_absent; [done|]. by apply mget_None_keys.
  - csimpl. rewrite (IH Hnd Hg). apply Permutation_swap.
Qed.

Lemma mdelete_map {V W} (f : string * V -> string * W) (Hf : forall e, (f e).1 = e.1) id (m : jmap string V) :
  map f (mdelete id m) = mdelete id (map f m).
Proof.
  induction m as [|[k w] m IH]; [done|]. cbn [map mdelete]. pose proof (Hf (k, w)) as Hk. simpl in Hk.
  destruct (f (k, w)) as [k' w'] eqn:Ef. simpl in Hk. subst k'. case_decide; [done|]. cbn [map]. by rewrite Ef, IH.
Qed.

Lemma wires_pending_NoDup x h : wires x h -> NoDup (ah_pending h).*1.
Proof. intros [H1 _ _ _ _]. unfold ids in H1. by apply NoDup_app in H1 as (_ & _ & H1). Qed.

(** One request ends. *)
Definition finish (id : string) (w : waiter) (r : reply) (h : AppHook) : AppHook := settle id w r (forget id h).

Lemma finish_ids id w r h p :
  NoDup (ah_pending h).*1 -> mget id (ah_pending h) = Some p -> ids (finish id w r h) ≡ₚ ids h.
Proof.
  intros Hnd Hg. unfold ids. cbn [finish settle forget ah_settled ah_pending with_ah_microtasks with_ah_settled
    with_ah_timers with_ah_pending]. rewrite fmap_app. simpl. rewrite (mdelete_perm _ _ _ Hnd Hg).
  rewrite <- app_assoc. done.
Qed.

Lemma wires_finish x id w r h p : mget id (ah_pending h) = Some p -> wires x h -> wires x (finish id w r h).
Proof.
  intros Hg W. pose proof (wires_pending_NoDup _ _ W) as Hnd. pose proof (finish_ids id w r h p Hnd Hg) as Hp.
  destruct W as [H1 H2 H3 H4 H5]. split.
  - by rewrite Hp.
  - cbn. rewrite (mdelete_map (fun e => (e.1, e.2.1)) (fun _ => eq_refl)),
      (mdelete_map (fun e => (e.1, pe_waiter e.2)) (fun _ => eq_refl)). by rewrite H2.
  - intros k. rewrite Hp. apply H3.
  - intros k q Hk. apply (H4 k). cbn in Hk. rewrite mdelete_mfilter in Hk. unfold mfilter in Hk.
    apply list_elem_of_In, filter_In in Hk as [Hk _]. by apply list_elem_of_In.
  - intros f k Hf Hr. rewrite Hp. by eapply H5.
Qed.

Lemma settled_more id w r h k : k ∈ (ah_settled h).*1 -> k ∈ (ah_settled (settle id w r h)).*1.
Proof. cbn. rewrite fmap_app, elem_of_app. by left. Qed.

Lemma evolves_finish id w r h p : mget id (ah_pending h) = Some p -> evolves h (finish id w r h).
Proof.
  intros Hg. split; [intros x; by apply (wires_finish _ _ _ _ _ p)| |intros k Hk; by apply (settled_more id w r (forget id h))].
  intros x W k. rewrite (finish_ids id w r h p); [done| |done]. by eapply wires_pending_NoDup.
Qed.

Lemma frame_micro l h : frame h (with_ah_microtasks l h).
Proof. by apply frame_same. Qed.

Lemma uuid_fresh x h : wires x h -> uuid (ah_next h) ∉ ids h.
Proof.
  intros W Hin. destruct (wi_ids _ _ W _ Hin) as (n & Hn & E). apply (inj uuid) in E. lia.
Qed.

(** A new id is settled at once. *)
Lemma evolves_settle_new w r h :
  evolves h (settle (uuid (ah_next h)) w r (with_ah_next (S (ah_next h)) h)).
Proof.
  set (id := uuid (ah_next h)).
  assert (forall k, k ∈ ids (settle id w r (with_ah_next (S (ah_next h)) h)) <-> k = id \/ k ∈ ids h) as Hi.
  { intros k. unfold ids. cbn. rewrite fmap_app, !elem_of_app. simpl. rewrite list_elem_of_singleton. tauto. }
  split; [|intros x _ k; rewrite Hi; auto|intros k Hk; by apply (settled_more id w r (with_ah_next (S (ah_next h)) h))]. intros x W. pose proof (uuid_fresh _ _ W) as Hf. fold id in Hf.
  destruct W as [H1 H2 H3 H4 H5]. split; try done.
  - unfold ids. cbn. rewrite fmap_app. simpl. rewrite <- app_assoc.
    apply (NoDup_Permutation_proper _ _ (Permutation_middle (ah_settled h).*1 (ah_pending h).*1 id)). by constructor.
  - intros k. rewrite Hi. intros [->|Hk]; [exists (ah_next h); split; [cbn; lia|done]|].
    destruct (H3 _ Hk) as (n & Hn & ->). exists n. split; [cbn; lia|done].
  - intros f k Hfm Hr. rewrite Hi. right. by eapply H5.
Qed.

(** The entry of a new request. *)
Definition enlist (i : nat) (raw : bool) (w : waiter) (message : string) (h : AppHook) : AppHook :=
  let id := uuid (ah_next h) in
  let h := with_ah_next (S (ah_next h)) h in
  with_ah_pending (mset id (mkPending i raw w) (ah_pending h)) (with_ah_timers (mset id (w, message) (ah_timers h)) h).

Lemma map_keys {V W} (f : string * V -> string * W) (m : jmap string V) : (forall e, (f e).1 = e.1) -> (map f m).*1 = m.*1.
Proof. intros Hf. induction m as [|e m IH]; [done|]. csimpl. by rewrite Hf, IH. Qed.

Lemma timers_pending x h id : wires x h -> mget id (ah_timers h) = None <-> mget id (ah_pending h) = None.
Proof.
  intros W. rewrite !mget_None_keys. pose proof (wi_timers _ _ W) as E. apply (f_equal (fmap fst)) in E.
  rewrite !map_keys in E by done. by rewrite E.
Qed.

Lemma evolves_enlist i raw w message h : alive i h -> evolves h (enlist i raw w message h).
Proof.
  intros Ha. set (id := uuid (ah_next h)).
  assert (forall x, wires x h -> mget id (ah_pending h) = None) as Hnew.
  { intros x W. apply mget_None_keys. intros Hin. apply (uuid_fresh _ _ W). unfold ids. apply elem_of_app. by right. }
  assert (forall x, wires x h -> ids (enlist i raw w message h) = ids h ++ [id]) as Hi.
  { intros x W. unfold ids, enlist. cbv zeta. cbn [ah_settled ah_pending with_ah_pending with_ah_timers with_ah_next].
    fold id. rewrite mset_absent by (by eapply Hnew). rewrite fmap_app. simpl. by rewrite app_assoc. }
  split; [|intros x W k Hk; rewrite (Hi x W); apply elem_of_app; by left|done].
  intros x W. pose proof (Hi x W) as Ei. pose proof (Hnew x W) as Hn. pose proof (uuid_fresh _ _ W) as Hf.
  pose proof (proj2 (timers_pending _ _ id W) Hn) as Ht. destruct W as [H1 H2 H3 H4 H5]. split.
  - rewrite Ei. apply NoDup_app. split_and!; [done| |by apply NoDup_singleton].
    intros k Hk Hk'. apply list_elem_of_singleton in Hk'. by subst.
  - unfold enlist. cbv zeta. cbn [ah_timers ah_pending with_ah_pending with_ah_timers with_ah_next]. fold id.
    rewrite !mset_absent by done. rewrite !map_app, H2. done.
  - intros k. rewrite Ei, elem_of_app, list_elem_of_singleton. intros [Hk| ->].
    + destruct (H3 _ Hk) as (n & ? & ->). exists n. split; [cbn; lia|done].
    + exists (ah_next h). split; [cbn; lia|done].
  - intros k q Hk. unfold enlist in Hk. cbv zeta in Hk.
    cbn [ah_pending with_ah_pending with_ah_timers with_ah_next] in Hk. fold id in Hk. rewrite mset_absent in Hk by done.
    apply elem_of_app in Hk as [Hk|Hk]; [apply (H4 k); done|]. apply list_elem_of_singleton in Hk. simplify_eq. done.
  - intros f k Hfm Hr. rewrite Ei. apply elem_of_app. left. by eapply H5.
Qed.

Lemma evolves_send id f h : (forall x, wires x h -> id ∈ ids h) -> request_of f = Some id -> evolves h (send f h).
Proof.
  intros Hid Hf. split; [|done..]. intros x W. specialize (Hid x W). destruct W as [H1 H2 H3 H4 H5]. split; try done.
  intros g k Hg Hr. cbn in Hg. apply elem_of_app in Hg as [Hg|Hg]; [by eapply H5|].
  apply list_elem_of_singleton in Hg. subst. rewrite Hf in Hr. by simplify_eq.
Qed.

Lemma proxy_frame_id device id method path body : request_of (proxy_frame device id method path body) = Some id.
Proof. reflexivity. Qed.

Lemma enlisted i raw w message h : mget (uuid (ah_next h)) (ah_pending (enlist i raw w message h)) = Some (mkPending i raw w).
Proof. unfold enlist. cbv zeta. cbn. apply mget_mset_eq. Qed.

Lemma evolves_proxy b method path body raw w h : evolves h (sendGatewayProxy uuid b method path body raw w h).
Proof.
  unfold sendGatewayProxy, fresh. cbv zeta.
  destruct (ah_socketRef _) as [i|] eqn:Es; [|apply evolves_settle_new].
  destruct (socket_is WsOpen i _) eqn:Eo; cbn [negb]; [|apply evolves_settle_new].
  destruct (ah_device _ === ""); [apply evolves_settle_new|].
  assert (alive i h) as Ha.
  { unfold socket_is in Eo. cbn in Eo. destruct (ah_sockets h !! i) as [s|] eqn:E; [|done].
    apply bool_decide_eq_true in Eo. exists s. split; [done|]. by rewrite Eo. }
  set (message := "请求超时 (" ^^ method ^^ " " ^^ path ^^ ")").
  pose proof (evolves_enlist i raw w message h Ha) as He.
  destruct (br_send b).
  - eapply evolves_trans; [exact He|]. apply (evolves_finish _ _ _ _ (mkPending i raw w)). apply enlisted.
  - eapply evolves_trans; [exact He|]. apply (evolves_send (uuid (ah_next h))); [|apply proxy_frame_id].
    intros x W. unfold ids. apply elem_of_app. right. apply list_elem_of_fmap.
    exists (uuid (ah_next h), mkPending i raw w). split; [done|]. apply mget_Some_elem, enlisted.
Qed.

Lemma evolves_timeout id h : evolves h (proxyTimeout id h).
Proof.
  unfold proxyTimeout. destruct (mget id (ah_timers h)) as [[w m]|] eqn:E; [|apply evolves_refl].
  destruct (mget id (ah_pending h)) as [p|] eqn:Ep; [by apply (evolves_finish _ _ _ _ p)|].
  split; [intros x W; exfalso; apply (timers_pending _ _ id W) in Ep; congruence..|intros k Hk; by apply (settled_more id w (inl m) (forget id h))].
Qed.

Lemma evolves_response msg h : evolves h (proxyResponse json_parse text_decode msg h).
Proof.
  unfold proxyResponse. destruct (str_prop _ _) as [id|]; [|apply evolves_refl].
  destruct (mget id (ah_pending h)) as [p|] eqn:E; [|apply evolves_refl]. by apply (evolves_finish _ _ _ _ p).
Qed.

Lemma reject_list (q : pending -> bool) message (l : jmap string pending) : forall h, NoDup l.*1 -> (forall id p, (id, p) ∈ l -> mget id (ah_pending h) = Some p) ->
  let h' := foldl (fun h '(id, p) => if q p then finish id (pe_waiter p) (inl message) h else h) h l in
  evolves h h' /\ ah_sockets h' = ah_sockets h /\
  (forall id p, (id, p) ∈ ah_pending h' -> (id, p) ∈ ah_pending h /\ ((id, p) ∈ l -> q p = false)).
Proof.
  induction l as [|[k w] l IH]; intros h Hnd Hl.
  { split_and!; [apply evolves_refl|done|]. intros id p Hp. split; [done|]. by intros ?%elem_of_nil. }
  apply NoDup_cons in Hnd as [Hk Hnd]. cbn [foldl]. destruct (q w) eqn:Eq.
  - pose proof (Hl k w ltac:(left)) as Hg.
    destruct (IH (finish k (pe_waiter w) (inl message) h) Hnd) as (He & Hs & Hp).
    { intros id p Hin. cbn. rewrite mget_mdelete_ne; [apply Hl; by right|]. intros <-. apply Hk.
      apply list_elem_of_fmap. by exists (k, p). }
    split_and!; [eapply evolves_trans; [exact (evolves_finish k (pe_waiter w) (inl message) h w Hg)|exact He]|done|].
    intros id p Hin. destruct (Hp id p Hin) as [Hin' Hq]. cbn in Hin'. rewrite mdelete_mfilter in Hin'. unfold mfilter in Hin'.
    apply list_elem_of_In, filter_In in Hin' as [Hin' Hne]. split; [by apply list_elem_of_In|].
    intros [E|Hr]%elem_of_cons; [|by apply Hq]. simplify_eq. cbn in Hne. rewrite bool_decide_true in Hne by done. done.
  - destruct (IH h Hnd) as (He & Hs & Hp); [intros id p Hin; apply Hl; by right|]. split_and!; [done..|].
    intros id p Hin. destruct (Hp id p Hin) as [? Hq]. split; [done|]. intros [E|Hr]%elem_of_cons; [by simplify_eq|auto].
Qed.

Lemma reject_spec q message h : NoDup (ah_pending h).*1 ->
  evolves h (rejectAll q message h) /\ ah_sockets (rejectAll q message h) = ah_sockets h /\
  (forall id p, (id, p) ∈ ah_pending (rejectAll q message h) -> (id, p) ∈ ah_pending h /\ q p = false).
Proof.
  intros Hnd. destruct (reject_list q message (ah_pending h) h Hnd) as (He & Hs & Hp).
  { intros id p Hin. by apply elem_mget. }
  split_and!; [done..|]. intros id p Hin. destruct (Hp id p Hin) as [? Hq]. auto.
Qed.

Lemma settled_reject q message h k : k ∈ (ah_settled h).*1 -> k ∈ (ah_settled (rejectAll q message h)).*1.
Proof.
  unfold rejectAll. generalize (ah_pending h). intros l. revert h.
  induction l as [|[id p] l IH]; intros h Hk; [done|]. cbn [foldl]. apply IH. destruct (q p); [|done].
  by apply (settled_more id (pe_waiter p) (inl message) (forget id h)).
Qed.

Lemma evolves_reject q message h : evolves h (rejectAll q message h).
Proof.
  split; [| |apply settled_reject].
  - intros x W. destruct (reject_spec q message h (wires_pending_NoDup _ _ W)) as ([Hw _ _] & _). auto.
  - intros x W. destruct (reject_spec q message h (wires_pending_NoDup _ _ W)) as ([_ Hi _] & _). eauto.
Qed.

(** A socket closes: its requests are rejected. *)
Lemma evolves_closed i message h :
  evolves h (rejectAll (fun p => bool_decide (pe_socket p = i)) message (set_socket i WsClosed h)).
Proof.
  set (h1 := set_socket i WsClosed h).
  assert (forall x, wires x h -> wires (i :: x) h1) as H1.
  { intros x [A1 A2 A3 A4 A5]. split; try done. intros id p Hp [Hne Hx]%not_elem_of_cons.
    destruct (A4 id p Hp Hx) as (s & Hs & Hn). exists s. split; [|done]. unfold h1, set_socket. cbn.
    by rewrite list_lookup_alter_ne. }
  split; [| |intros k Hk; by apply settled_reject].
  - intros x W. specialize (H1 x W). destruct (reject_spec (fun p => bool_decide (pe_socket p = i)) message h1
      (wires_pending_NoDup _ _ H1)) as ([Hw _ _] & Hs & Hp).
    destruct (Hw _ H1) as [B1 B2 B3 B4 B5]. split; try done. intros id p Hin Hx. apply (B4 id p Hin).
    apply not_elem_of_cons. split; [|done]. destruct (Hp id p Hin) as [_ Hq]. by apply bool_decide_eq_false in Hq.
  - intros x W id Hid. exact (ev_ids _ _ (evolves_reject _ _ h1) _ (H1 x W) id Hid).
Qed.

Ltac quiet := solve [apply evolves_refl | apply frame_evolves, frame_same; reflexivity].
Ltac quiets := repeat case_match; quiet.

Lemma evolves_lift f h : sent_more (ah_client h) (f (ah_client h)) -> evolves h (lift f h).
Proof. intros Hs. by apply frame_evolves, frame_lift. Qed.

Lemma evolves_returns r h : evolves h (returns r h).
Proof. quiet. Qed.

Lemma evolves_waiter b w r h :
  evolves h (resume_waiter json_parse decode_uri thrown b w r h).
Proof.
  destruct w, r; cbn [resume_waiter]; unfold save_download, open_session, promptSettled, approvalSettled, interruptSettled, resumeSettled, policySettled,
    applyLiveEvent, update_session; cbv zeta; quiets.
Qed.

Lemma evolves_foldl {A} (f : AppHook -> A -> AppHook) l : forall h, (forall h a, evolves h (f h a)) -> evolves h (foldl f h l).
Proof.
  induction l as [|a l IH]; intros h Hf; [apply evolves_refl|]. cbn [foldl]. eapply evolves_trans; [apply Hf|by apply IH].
Qed.

Lemma evolves_drain b h : evolves h (drain json_parse decode_uri thrown b h).
Proof.
  unfold drain. eapply evolves_trans; [apply frame_evolves, (frame_micro [])|].
  apply evolves_foldl. intros h' [w r]. apply evolves_waiter.
Qed.

Lemma evolves_connectWs t h : evolves h (connectWs t h).
Proof. apply frame_evolves, frame_connectWs. Qed.

Lemma evolves_loadData t h : evolves h (loadData t h).
Proof. unfold loadData. quiets. Qed.

Lemma frame_close_current h : frame h (close_current h).
Proof. unfold close_current. case_match; [apply frame_close'|apply frame_refl']. Qed.

Lemma evolves_bootstrap b h : evolves h (bootstrap json_parse b h).
Proof.
  unfold bootstrap. cbv zeta.
  assert (evolves h (connectWs (ah_token h) (loadData (ah_token h) h)))
    by (eapply evolves_trans; [apply evolves_loadData|apply evolves_connectWs]).
  repeat case_match; [quiet|done..].
Qed.

Lemma evolves_models b h : evolves h (askModels uuid b h).
Proof. apply evolves_proxy. Qed.

Lemma evolves_effects b d h : evolves h (effects json_parse uuid b d h).
Proof.
  unfold effects. cbv zeta.
  assert (forall h, evolves h (token_cleanup h)) as H1.
  { intros k. unfold token_cleanup. cbv zeta.
    match goal with |- evolves _ (with_ah_socketRef None ?k') => apply (evolves_trans _ k'); [|quiet] end.
    eapply evolves_trans; [|apply frame_evolves, frame_close_current]. quiet. }
  assert (forall h, evolves h (session_effect h)) as H2.
  { intros k. unfold session_effect. case_match; [|quiet]. apply evolves_lift, sent_same, loadSessionEvents_sent. }
  assert (forall h, evolves h (device_effect uuid b h)) as H3.
  { intros k. unfold device_effect. repeat case_match; try apply evolves_refl.
    eapply evolves_trans; [|apply evolves_models]. by apply frame_evolves, frame_send'. }
  assert (forall h, evolves h (token_effect json_parse b h)) as H4
    by (intros k; unfold token_effect; case_match; [quiet|apply evolves_bootstrap]).
  repeat case_match; repeat (eapply evolves_trans; [|first [apply H4 | apply H3 | apply H2 | apply H1]]); quiet.
Qed.

Lemma evolves_commit b d h : evolves h (commit json_parse decode_uri thrown uuid b d h).
Proof.
  unfold commit. cbv zeta. repeat (eapply evolves_trans; [|first [apply evolves_drain | apply evolves_effects]]). apply evolves_refl.
Qed.

Lemma evolves_opened b i h : evolves h (socketOpened uuid b i h).
Proof.
  unfold socketOpened. destruct (socket_is _ _ _); [|apply evolves_refl]. cbn [negb]. cbv zeta.
  match goal with |- evolves _ (with_ah_heartbeat _ ?k') => apply (evolves_trans _ k'); [|quiet] end.
  set (h1 := setError "" _). assert (evolves h h1) as E1.
  { eapply evolves_trans; [apply frame_evolves, (frame_socket i WsOpen); done|quiet]. }
  set (h2 := if ah_device h1 === "" then h1 else _).
  assert (evolves h1 h2) as E2 by (unfold h2; case_match; [apply evolves_refl|by apply frame_evolves, frame_send']).
  assert (evolves h2 (lift onopen h2)) as E3 by apply evolves_lift, onopen_sent.
  eapply evolves_trans; [exact E1|]. eapply evolves_trans; [exact E2|]. eapply evolves_trans; [exact E3|].
  case_match; [apply evolves_refl|apply evolves_models].
Qed.

Lemma evolves_socketClosed b i h : evolves h (socketClosed b i h).
Proof.
  unfold socketClosed. destruct (ah_sockets h !! i) as [s|]; [|apply evolves_refl].
  destruct (bool_decide _); [apply evolves_refl|]. cbv zeta.
  eapply evolves_trans; [apply (evolves_closed i)|]. case_match; [apply evolves_refl|].
  set (h1 := rejectAll _ _ (set_socket _ _ _)).
  assert (forall k, evolves h1 k -> evolves h1 (rejectAll (fun _ => true) "实时连接已断开，请重试" k)) as Hr
    by (intros k Hk; eapply evolves_trans; [exact Hk|apply evolves_reject]).
  set (h2 := rejectAll _ _ (with_ah_heartbeat None h1)).
  apply (evolves_trans _ h2); [apply Hr; quiet|case_match; quiet].
Qed.

Lemma evolves_frame b i frame h : evolves h (socketFrame json_parse text_decode b i frame h).
Proof.
  unfold socketFrame. case_match; [apply evolves_refl|]. cbv zeta. case_match; [apply evolves_response|].
  apply evolves_lift, onmessage_sent.
Qed.

Lemma evolves_job b j a a2 h : evolves h (jobAnswered thrown b j a a2 h).
Proof.
  destruct j; cbn [jobAnswered].
  - unfold dataLoaded, load_devices, load_sessions. cbv zeta. quiets.
  - unfold refreshAnswered. cbv zeta.
    assert (evolves h (connectWs token (loadData token h)))
      by (eapply evolves_trans; [apply evolves_loadData|apply evolves_connectWs]).
    repeat case_match; solve [done | quiet].
  - unfold sessionTokenAnswered. quiets.
  - unfold loginAnswered. cbv zeta. quiets.
  - unfold registerAnswered. cbv zeta. quiets.
  - unfold revokeAnswered. cbv zeta. quiets.
Qed.

Lemma evolves_prompt b text attachments options h : evolves h (sendPrompt json_parse uuid b text attachments options h).
Proof.
  unfold sendPrompt. cbv zeta. case_match; [quiet|]. case_match; [quiet|]. unfold fresh. cbv zeta.
  eapply evolves_trans; [|apply evolves_proxy]. apply frame_evolves. split; try done; [cbn; lia|by apply sent_same].
Qed.

Lemma evolves_create b params h : evolves h (createNewSession uuid b params h).
Proof.
  unfold createNewSession, fresh. eapply evolves_trans; [|apply evolves_proxy].
  apply frame_evolves. split; try done; [cbn; lia|by apply sent_same].
Qed.

Lemma evolves_logout h : evolves h (logout h).
Proof.
  unfold logout. cbv zeta. eapply evolves_trans; [|apply frame_evolves, frame_close_current]. case_match; quiet.
Qed.

Lemma evolves_handle b e h : evolves h (handle json_parse text_decode thrown uuid b e h).
Proof.
  destruct e; cbn [handle];
    unfold downloadFile, sendApprovalDecision, interruptTask, resumeTask, setSessionPolicyMode, revokeDevice, forkSession;
    cbv zeta;
    first [ quiet | apply evolves_opened | apply evolves_socketClosed | apply evolves_frame | apply evolves_timeout
          | apply evolves_logout | apply evolves_prompt | apply evolves_create | apply evolves_loadData
          | apply evolves_proxy | idtac ].
  all: try (case_match; first [quiet | apply evolves_proxy]).
  - unfold heartbeatFires. repeat case_match; try quiet. by apply frame_evolves, frame_send'.
  - unfold reconnectFires. repeat case_match; try quiet. eapply evolves_trans; [|apply evolves_connectWs]. quiet.
  - apply evolves_lift, sent_same, gapTimer_sent.
  - apply evolves_lift, sent_same, pageAnswered_sent.
  - case_match; [|quiet]. eapply evolves_trans; [|apply evolves_job]. quiet.
Qed.

Abbreviation hook_step := (step json_parse text_decode decode_uri thrown uuid).
Abbreviation hook_run := (run json_parse text_decode decode_uri thrown uuid).
Abbreviation hook_boot := (boot json_parse decode_uri thrown uuid).

Lemma evolves_step h be : evolves h (hook_step h be).
Proof.
  destruct be as [b e]. unfold step. cbn [fst snd]. eapply evolves_trans; [|apply evolves_commit].
  eapply evolves_trans; [|apply evolves_drain]. apply evolves_handle.
Qed.

Lemma evolves_run l : forall h, evolves h (hook_run h l).
Proof. intros h. apply evolves_foldl. intros. apply evolves_step. Qed.

Lemma mount_wires storedUser storedToken cursors storage_ok : wires [] (mount storedUser storedToken cursors storage_ok).
Proof.
  unfold mount. cbv zeta. repeat case_match; split; cbn; try done; try apply NoDup_nil; intros; set_solver.
Qed.

Lemma boot_wires b storedUser storedToken cursors storage_ok :
  wires [] (hook_boot b storedUser storedToken cursors storage_ok).
Proof. unfold boot. apply (ev_wires _ _ (evolves_commit _ _ _)), mount_wires. Qed.
End requests.

(** C9: Every proxied request is settled once. In any run of the app, no promise
    is settled twice and none that is settled is still waiting; every request
    frame it sent is settled or waiting; a request that waits has a socket that
    has not closed and a running timer, whose end settles it; and no event loses
    a request. *)
Theorem requests_settle_once json_parse text_decode decode_uri thrown (uuid : nat -> string) `{!Inj (=) (=) uuid}
    b storedUser storedToken cursors storage_ok l :
  let step := step json_parse text_decode decode_uri thrown uuid in
  let h := run json_parse text_decode decode_uri thrown uuid
             (boot json_parse decode_uri thrown uuid b storedUser storedToken cursors storage_ok) l in
  NoDup ((ah_settled h).*1 ++ (ah_pending h).*1) /\
  (forall f id, f ∈ cl_sent (ah_client h) -> request_of f = Some id -> id ∈ (ah_settled h).*1 \/ is_Some (mget id (ah_pending h))) /\
  (forall id p, mget id (ah_pending h) = Some p ->
     alive (pe_socket p) h /\ is_Some (mget id (ah_timers h)) /\
     forall b', id ∈ (ah_settled (step h (b', ProxyTimeout id))).*1) /\
  (forall be id, id ∈ ids h -> id ∈ ids (step h be)).
Proof.
  cbv zeta. set (h := run _ _ _ _ _ _ l).
  assert (wires uuid [] h) as W
    by (eapply ev_wires; [apply evolves_run; exact _|exact (boot_wires json_parse text_decode _ _ _ _ _ _ _ _)]).
  split_and!.
  - exact (wi_once _ _ _ W).
  - intros f id Hf Hr. pose proof (wi_sent _ _ _ W f id Hf Hr) as Hi. unfold ids in Hi. apply elem_of_app in Hi as [|Hi]; [by left|].
    right. destruct (mget id (ah_pending h)) eqn:E; [done|]. by apply mget_None_keys in E.
  - intros id p Hp. split_and!.
    + apply (wi_alive _ _ _ W id p (mget_Some_elem _ _ _ Hp)). by apply not_elem_of_nil.
    + destruct (mget id (ah_timers h)) eqn:E; [done|]. apply (timers_pending uuid _ _ id W) in E. congruence.
    + intros b'. unfold step. cbn [fst snd handle]. unfold proxyTimeout.
      destruct (mget id (ah_timers h)) as [[w m]|] eqn:E.
      2: { apply (timers_pending uuid _ _ id W) in E. congruence. }
      eapply (ev_settled uuid); [exact (evolves_commit _ text_decode _ _ _ _ _ _)|]. eapply (ev_settled uuid); [apply evolves_drain|].
      cbn. rewrite fmap_app, elem_of_app. right. by left.
  - intros be id. eapply (ev_ids uuid); [apply evolves_step; exact _|exact W].
Qed.

Definition demo_browser : browser := mkBrowser {| ck_ms := 0; ck_iso := "1970-01-01T00:00:00.000Z"; ck_random := "r" |} 0 None.

Definition demo_uuid (n : nat) : string := pretty n.

#[global] Instance demo_uuid_inj : Inj (=) (=) demo_uuid.
Proof. intros x y E. by apply (inj pretty). Qed.

Definition no_options : prompt_options := mkOptions "" "" "" None.

(** A signed-in app whose socket is open and whose user sent a prompt. *)
Definition demo_events : list (browser * hook_event) :=
  map (pair demo_browser)
    [SocketOpened 0; SelectDevice "d1"; SelectSession "s1"; SendPrompt "hello" [] no_options].

Definition demo_boot : AppHook :=
  boot (fun _ => None) (fun _ => None) (fun s => s) demo_uuid demo_browser None (Some "tok") None true.

Definition demo_hook : AppHook := run (fun _ => None) (fun s => s) (fun _ => None) (fun s => s) demo_uuid demo_boot demo_events.

Lemma requests_settle_once_witness :
  (ah_pending demo_hook).*1 = ["0"; "2"] /\
  "2" ∈ (ah_settled (step (fun _ => None) (fun s => s) (fun _ => None) (fun s => s) demo_uuid demo_hook
           (demo_browser, ProxyTimeout "2"))).*1.
Proof.
  split; [vm_compute; reflexivity|].
  destruct (requests_settle_once (fun _ => None) (fun s => s) (fun _ => None) (fun s => s) demo_uuid demo_browser
    None (Some "tok") None true demo_events) as (_ & _ & H & _).
  apply (H "2" (mkPending 0 false WPrompt)). vm_compute. reflexivity.
Defined.
