(* ===== verification/AppConnection.v ===== *)
(** * The app's hook: connection and accounts

    A signed-in app always has a way back to the relay, one socket at a time is
    in use, signing out leaves nothing behind, and a prompt is shown once. *)

From Stdlib Require Import Ascii.
From S2P Require Import Prelude JsValue JsDate Json CodexEvents Base64 Aggregator Client Delivery AppHook AppHookInv.

Local Open Scope Z_scope.

(** ** The fields of the connection *)

Record connection := mkConn {
  cn_token : string; cn_active : string; cn_jobs : list job; cn_epoch : nat;
  cn_reconnect : option (string * Z); cn_socketRef : option nat; cn_sockets : list socket
}.

Definition conn (h : AppHook) : connection :=
  mkConn (ah_token h) (ah_activeToken h) (ah_jobs h) (ah_epoch h) (ah_reconnect h) (ah_socketRef h) (ah_sockets h).

Definition in_use (s : socket) : Prop := so_state s = WsConnecting \/ so_state s = WsOpen.

(** What holds between an event and the effects. *)
Record weak (c : connection) : Prop := {
  wk_jobs : forall t e ep, JRefresh t e ep ∈ cn_jobs c -> (ep <= cn_epoch c)%nat;
  wk_single : forall i s, cn_sockets c !! i = Some s -> in_use s -> cn_socketRef c = Some i
}.

Record base (c : connection) : Prop := {
  bs_weak : weak c;
  bs_active : cn_active c = cn_token c;
  bs_job : forall t e, JRefresh t e (cn_epoch c) ∈ cn_jobs c -> t = cn_token c;
  bs_reconnect : forall t d, cn_reconnect c = Some (t, d) -> t = cn_token c;
  bs_current : forall i, cn_socketRef c = Some i -> exists s, cn_sockets c !! i = Some s /\ so_token s = cn_token c;
  bs_out : cn_token c = "" -> cn_socketRef c = None /\ cn_reconnect c = None
}.

(** The ways back: a refresh is awaited, a socket has not closed yet, or a timer
    will connect. *)
Definition kept (c : connection) : Prop :=
  cn_token c <> "" ->
  (exists e, JRefresh (cn_token c) e (cn_epoch c) ∈ cn_jobs c) \/
  (exists i s, cn_socketRef c = Some i /\ cn_sockets c !! i = Some s /\ so_state s <> WsClosed) \/
  (exists d, cn_reconnect c = Some (cn_token c, d) /\ 1000 <= d < 30250).

Definition linked (c : connection) : Prop := base c /\ kept c.

Section connection.
Context (json_parse : string -> option val) (text_decode : string -> string) (decode_uri : string -> option string)
        (thrown : string -> string) (uuid : nat -> string).

Ltac same := intros; repeat case_match; reflexivity.

Lemma conn_proxy b method path body raw w h : conn (sendGatewayProxy uuid b method path body raw w h) = conn h.
Proof. unfold sendGatewayProxy, fresh. cbv zeta. same. Qed.

Lemma conn_reject q message h : conn (rejectAll q message h) = conn h.
Proof.
  unfold rejectAll. generalize (ah_pending h). intros l. revert h.
  induction l as [|[id p] l IH]; intros h; [done|]. cbn [foldl]. rewrite IH. by destruct (q p).
Qed.

Lemma conn_waiter b w r h : conn (resume_waiter json_parse decode_uri thrown b w r h) = conn h.
Proof.
  destruct w, r; cbn [resume_waiter]; unfold save_download, open_session, promptSettled, approvalSettled, interruptSettled, resumeSettled, policySettled,
    applyLiveEvent, update_session; cbv zeta; same.
Qed.

Lemma conn_drain b h : conn (drain json_parse decode_uri thrown b h) = conn h.
Proof.
  unfold drain. generalize (ah_microtasks h). intros l. change (conn h) with (conn (with_ah_microtasks [] h)).
  generalize (with_ah_microtasks [] h). induction l as [|[w r] l IH]; intros k; [done|]. cbn [foldl]. by rewrite IH, conn_waiter.
Qed.

Lemma conn_session_effect h : conn (session_effect h) = conn h.
Proof. unfold session_effect. same. Qed.

Lemma conn_device_effect b h : conn (device_effect uuid b h) = conn h.
Proof. unfold device_effect, askModels. repeat case_match; rewrite ?conn_proxy; reflexivity. Qed.

(** Adding the frames of a change of sockets. *)
Definition with_sockets (sockets : list socket) (ref : option nat) (c : connection) : connection :=
  mkConn (cn_token c) (cn_active c) (cn_jobs c) (cn_epoch c) (cn_reconnect c) ref sockets.

Definition closed_current (c : connection) : list socket :=
  match cn_socketRef c with
  | Some i => match cn_sockets c !! i with
              | Some s => match so_state s with
                          | WsConnecting | WsOpen => alter (fun s => mkSocket (so_token s) WsClosing) i (cn_sockets c)
                          | _ => cn_sockets c
                          end
              | None => cn_sockets c
              end
  | None => cn_sockets c
  end.

Lemma conn_close_current h : conn (close_current h) = with_sockets (closed_current (conn h)) (ah_socketRef h) (conn h).
Proof.
  unfold close_current, close_socket, closed_current. cbn. destruct (ah_socketRef h) as [i|] eqn:E.
  - destruct (ah_sockets h !! i) as [s|]; [destruct (so_state s)|]; unfold conn, with_sockets; cbn; by rewrite ?E.
  - unfold conn, with_sockets. cbn. by rewrite E.
Qed.

(** Once the current socket is closing no socket is in use. *)
Lemma none_in_use c i s : weak c -> closed_current c !! i = Some s -> ~ in_use s.
Proof.
  intros [_ H1] Hs Hu. unfold closed_current in Hs. destruct (cn_socketRef c) as [j|] eqn:Ej.
  2: { pose proof (H1 i s Hs Hu). congruence. }
  destruct (cn_sockets c !! j) as [r|] eqn:Er.
  2: { pose proof (H1 i s Hs Hu). simplify_eq. }
  destruct (decide (j = i)) as [->|Hne].
  - destruct (so_state r) eqn:E; try (rewrite list_lookup_alter_eq, Er in Hs; cbn in Hs); simplify_eq;
      destruct Hu; simpl in *; congruence.
  - assert (cn_sockets c !! i = Some s) as Hi
      by (destruct (so_state r); try rewrite list_lookup_alter_ne in Hs by done; done).
    pose proof (H1 i s Hi Hu). congruence.
Qed.

Lemma closed_current_weak c : weak c -> weak (with_sockets (closed_current c) None c).
Proof. intros W. split; [apply (wk_jobs _ W)|]. intros i s Hs Hu. exfalso. by eapply none_in_use. Qed.

Lemma conn_connectWs h : ah_token h <> "" ->
  conn (connectWs (ah_token h) h) =
    with_sockets (closed_current (conn h) ++ [mkSocket (ah_token h) WsConnecting])
      (Some (length (closed_current (conn h)))) (conn h).
Proof.
  intros Ht. unfold connectWs. destruct (String.eqb_spec (ah_token h) "") as [|_]; [done|]. cbv zeta.
  pose proof (conn_close_current h) as E. unfold conn, with_sockets in E. cbn in E.
  injection E as E1 E2 E3 E4 E5 E6 E7. unfold conn, with_sockets. cbn. by rewrite E1, E2, E3, E4, E5, E7.
Qed.

Lemma linked_connectWs h : base (conn h) -> ah_token h <> "" -> linked (conn (connectWs (ah_token h) h)).
Proof.
  intros [W A J R C O] Ht. rewrite conn_connectWs by done. set (l := closed_current (conn h)).
  assert (forall s, (l ++ [s]) !! length l = Some s) as Hl
    by (intros s; rewrite lookup_app_r by lia; by rewrite Nat.sub_diag).
  split; [split; try done|].
  - split; [apply (wk_jobs _ W)|]. intros i s Hs Hu. cbn in *. apply lookup_app_Some in Hs as [Hs|[Hi Hs]].
    + exfalso. by eapply none_in_use.
    + assert (i = length l) as -> by (apply list_lookup_singleton_Some in Hs as [? _]; lia). done.
  - intros i Hi. cbn in *. simplify_eq. eexists. split; [apply Hl|]. done.
  - intros _. right. left. eexists _, _. split_and!; [done|apply Hl|done].
Qed.

Definition cleaned (c : connection) : connection :=
  mkConn (cn_token c) (cn_token c) (cn_jobs c) (S (cn_epoch c)) None None (closed_current c).

Lemma base_cleaned c : weak c -> base (cleaned c).
Proof.
  intros W. split; try done.
  - split; cbn; [intros t e ep Hj; pose proof (wk_jobs _ W t e ep Hj); lia|].
    intros i s Hs Hu. exfalso. by eapply none_in_use.
  - cbn. intros t e Hj. pose proof (wk_jobs _ W t e _ Hj). lia.
Qed.

Lemma conn_cleanup h : conn (token_cleanup (with_ah_activeToken (ah_token h) h)) = cleaned (conn h).
Proof.
  unfold token_cleanup. cbv zeta. set (k := lift _ _).
  pose proof (conn_close_current k) as E. unfold conn, with_sockets in E. injection E as E1 E2 E3 E4 E5 E6 E7.
  unfold conn. cbn. by rewrite E1, E2, E3, E4, E5, E7.
Qed.

Lemma base_job t e h : base (conn h) -> t = ah_token h -> base (conn (add_job (JRefresh t e (ah_epoch h)) h)).
Proof.
  intros [W A J R C O] ->. split; try done.
  - split; [|apply (wk_single _ W)]. intros t e' ep. cbn. rewrite elem_of_app, list_elem_of_singleton.
    intros [Hj|Hj]; [by eapply (wk_jobs _ W)|]. by simplify_eq.
  - cbn. intros t e'. rewrite elem_of_app, list_elem_of_singleton. intros [Hj|Hj]; [by eapply J|]. by simplify_eq.
Qed.

Lemma conn_loadData t h : conn (loadData t h) = conn h \/
  exists d s, conn (loadData t h) = mkConn (ah_token h) (ah_activeToken h) (ah_jobs h ++ [JData d s]) (ah_epoch h)
    (ah_reconnect h) (ah_socketRef h) (ah_sockets h).
Proof. unfold loadData. destruct (t === ""); [by left|]. right. eexists _, _. reflexivity. Qed.

(** Jobs other than a refresh come and go. *)
Lemma base_jobs h h' : base (conn h) ->
  (forall t e ep, JRefresh t e ep ∈ ah_jobs h' -> JRefresh t e ep ∈ ah_jobs h) ->
  conn h' = mkConn (ah_token h) (ah_activeToken h) (ah_jobs h') (ah_epoch h) (ah_reconnect h) (ah_socketRef h) (ah_sockets h) ->
  base (conn h').
Proof.
  intros [W A J R C O] Hj ->. split; try done; cbn.
  - split; [|apply (wk_single _ W)]. cbn. intros t e ep H. eapply (wk_jobs _ W), Hj, H.
  - intros t e H. eapply J, Hj, H.
Qed.

Lemma base_loadData t h : base (conn h) -> base (conn (loadData t h)).
Proof.
  intros B. destruct (conn_loadData t h) as [->|(d & s & E)]; [done|]. eapply base_jobs; [done| |].
  - injection E as _ _ -> _ _ _ _. intros t' e ep. rewrite elem_of_app, list_elem_of_singleton. by intros [|].
  - rewrite E. by injection E as _ _ -> _ _ _ _.
Qed.

Lemma token_loadData t h : ah_token (loadData t h) = ah_token h.
Proof. unfold loadData. by destruct (t === ""). Qed.

Lemma linked_bootstrap b h : base (conn h) -> ah_token h <> "" -> linked (conn (bootstrap json_parse b h)).
Proof.
  intros B Ht. unfold bootstrap. cbv zeta.
  assert (linked (conn (connectWs (ah_token h) (loadData (ah_token h) h)))) as Hc.
  { rewrite <- (token_loadData (ah_token h) h) at 1. apply linked_connectWs; [by apply base_loadData|by rewrite token_loadData]. }
  destruct (tokenExpiryMs json_parse (ah_token h)) as [e|]; [|done]. case_match; [|done].
  split; [exact (base_job (ah_token h) e (call "/auth/refresh" (Some (ah_token h)) None h) B eq_refl)|]. intros _. left. exists e. cbn. apply elem_of_app. right. by left.
Qed.

Lemma linked_changed b d h : weak (conn h) -> dp_token d <> ah_token h ->
  linked (conn (effects json_parse uuid b d h)) /\ ah_token (effects json_parse uuid b d h) = ah_token h.
Proof.
  intros W Hd. unfold effects. cbv zeta. cbn [deps_of dp_token].
  destruct (String.eqb_spec (dp_token d) (ah_token h)) as [|_]; [done|]. cbn [negb orb].
  pose proof (conn_cleanup h) as E. set (k := token_cleanup _) in *.
  set (k1 := session_effect k).
  set (k2 := if negb (dp_device d === dp_device (deps_of h)) then device_effect uuid b k1 else k1).
  assert (conn k2 = cleaned (conn h)) as E2.
  { unfold k2. case_match; rewrite ?conn_device_effect; unfold k1; by rewrite conn_session_effect. }
  assert (ah_token k2 = ah_token h) as Et by (apply (f_equal cn_token) in E2; exact E2).
  assert (base (conn k2)) as B by (rewrite E2; by apply base_cleaned).
  unfold token_effect. destruct (String.eqb_spec (ah_token k2) "") as [He|He].
  - split; [|exact Et]. split; [exact B|]. intros Hn. by destruct Hn.
  - split; [by apply linked_bootstrap|]. unfold bootstrap, connectWs, close_current, close_socket. cbv zeta.
    repeat case_match; cbn; rewrite ?token_loadData; exact Et.
Qed.

Lemma conn_effects_same b d h : ah_activeToken h = ah_token h -> dp_token d = ah_token h ->
  conn (effects json_parse uuid b d h) = conn h.
Proof.
  intros Ha Hd. unfold effects. cbv zeta. cbn [deps_of dp_token]. rewrite Hd, String.eqb_refl. cbn [negb orb].
  assert (conn (with_ah_activeToken (ah_token h) h) = conn h) as E by (unfold conn; cbn; by rewrite Ha).
  repeat case_match; rewrite ?conn_device_effect, ?conn_session_effect; exact E.
Qed.

(** A commit that keeps the token keeps what effects depend on. *)
Lemma effects_settle b d h : dp_token d = ah_token h -> deps_of (effects json_parse uuid b d h) = deps_of h.
Proof.
  intros Hd. unfold effects. cbv zeta. cbn [deps_of dp_token]. rewrite Hd, String.eqb_refl. cbn [negb orb].
  assert (forall k, deps_of (session_effect k) = deps_of k) as Hs.
  { intros k. unfold session_effect, deps_of, selectedSessionId, lift, loadSessionEvents. repeat case_match; reflexivity. }
  assert (forall k, deps_of (device_effect uuid b k) = deps_of k) as Hv.
  { intros k. unfold device_effect, askModels, sendGatewayProxy, fresh. cbv zeta. repeat case_match; reflexivity. }
  repeat case_match; rewrite ?Hv, ?Hs; reflexivity.
Qed.

Lemma linked_commit b d h :
  (dp_token d = ah_token h -> linked (conn h)) -> weak (conn h) ->
  linked (conn (commit json_parse decode_uri thrown uuid b d h)).
Proof.
  intros Hl W. unfold commit. cbv zeta. rewrite conn_drain.
  set (h1 := drain _ _ _ b (effects _ _ b d h)).
  assert (linked (conn h1) /\ ah_token h1 = ah_token h) as [H1 Ht].
  { assert (ah_token h1 = ah_token (effects json_parse uuid b d h)) as Et
      by exact (f_equal cn_token (conn_drain b (effects json_parse uuid b d h))).
    rewrite Et. unfold h1. rewrite conn_drain. destruct (decide (dp_token d = ah_token h)) as [E|Hne]; [|by apply linked_changed].
    destruct (Hl E) as [[_ A _ _ _ _] K]. pose proof (conn_effects_same b d h A E) as Es. rewrite Es.
    split; [by apply Hl|exact (f_equal cn_token Es)]. }
  rewrite conn_effects_same; [done| |by rewrite Ht]. destruct H1 as [[_ A _ _ _ _] _]. exact A.
Qed.

(** ** Events *)

(** What an event must establish for the commit that follows. *)
Definition ready (before : string) (h : AppHook) : Prop :=
  weak (conn h) /\ (before = ah_token h -> linked (conn h)).

Lemma ready_linked t h : linked (conn h) -> ready t h.
Proof. intros L. split; [by destruct L as [[W _ _ _ _ _] _]|done]. Qed.

Lemma ready_same h h' : linked (conn h) -> conn h' = conn h -> ready (ah_token h) h'.
Proof. intros L E. apply ready_linked. by rewrite E. Qed.

Definition with_token (t : string) (c : connection) : connection :=
  mkConn t (cn_active c) (cn_jobs c) (cn_epoch c) (cn_reconnect c) (cn_socketRef c) (cn_sockets c).

Lemma ready_token t h h' : linked (conn h) -> conn h' = with_token t (conn h) -> ready (ah_token h) h'.
Proof.
  intros L E. split; rewrite E.
  - destruct L as [[[W1 W2] _ _ _ _ _] _]. by split.
  - intros Et. assert (t = ah_token h) as -> by (rewrite Et; by apply (f_equal cn_token) in E). done.
Qed.

Lemma ready_opened b i h : linked (conn h) -> ready (ah_token h) (socketOpened uuid b i h).
Proof.
  intros L. unfold socketOpened. destruct (socket_is WsConnecting i h) eqn:Ec; [|by apply ready_same]. cbn [negb]. cbv zeta.
  set (h1 := setError "" _). set (h2 := if ah_device h1 === "" then h1 else _).
  assert (conn (with_ah_heartbeat (Some i) (if ah_device (lift onopen h2) === "" then lift onopen h2 else askModels uuid b (lift onopen h2)))
    = with_sockets (alter (fun s => mkSocket (so_token s) WsOpen) i (ah_sockets h)) (ah_socketRef h) (conn h)) as E.
  { assert (forall k, conn (with_ah_heartbeat (Some i) k) = conn k) as -> by done.
    assert (forall k, conn (if ah_device k === "" then k else askModels uuid b k) = conn k) as ->
      by (intros k; unfold askModels; case_match; rewrite ?conn_proxy; done).
    unfold h2. case_match; reflexivity. }
  apply ready_linked. rewrite E. unfold socket_is in Ec. destruct (ah_sockets h !! i) as [s|] eqn:Es; [|done].
  apply bool_decide_eq_true in Ec. destruct L as [[[W1 W2] A J R C O] K].
  pose proof (W2 i s Es (or_introl Ec)) as Hcur. cbn in Hcur.
  assert (alter (fun s => mkSocket (so_token s) WsOpen) i (ah_sockets h) !! i = Some (mkSocket (so_token s) WsOpen)) as Hi
    by (by rewrite list_lookup_alter_eq, Es).
  split; [split; try done|].
  - split; [done|]. cbn. intros j r Hj Hu. destruct (decide (i = j)) as [<-|Hne]; [done|].
    rewrite list_lookup_alter_ne in Hj by done. by apply (W2 j r).
  - cbn. intros j Hj. rewrite Hcur in Hj. simplify_eq. eexists. split; [exact Hi|]. cbn.
    destruct (C j Hcur) as (s' & Hs' & Ht). cbn in Hs'. simplify_eq. done.
  - intros _. right. left. exists i, (mkSocket (so_token s) WsOpen). cbn. split_and!; done.
Qed.

Lemma reconnect_delay_bounds n j : 0 <= j < 250 -> 1000 <= reconnect_delay n j < 30250.
Proof.
  intros Hj. unfold reconnect_delay. pose proof (Z.pow_pos_nonneg 2 (Z.of_nat (Nat.min n 5)) ltac:(lia) ltac:(lia)). lia.
Qed.

Lemma ready_closed b i h : linked (conn h) -> 0 <= br_jitter b < 250 -> ready (ah_token h) (socketClosed b i h).
Proof.
  intros L Hj. unfold socketClosed. destruct (ah_sockets h !! i) as [s|] eqn:Es; [|by apply ready_same].
  destruct (bool_decide (so_state s = WsClosed)); [by apply ready_same|]. cbv zeta.
  set (h1 := rejectAll _ _ (set_socket _ _ _)).
  set (l := alter (fun s => mkSocket (so_token s) WsClosed) i (ah_sockets h)).
  assert (conn h1 = with_sockets l (ah_socketRef h) (conn h)) as E1 by (unfold h1; by rewrite conn_reject).
  assert (ah_socketRef h1 = ah_socketRef h) as Er by (by apply (f_equal cn_socketRef) in E1).
  destruct L as [[[W1 W2] A J R C O] K].
  assert (forall j r, l !! j = Some r -> in_use r -> j <> i /\ ah_sockets h !! j = Some r) as Hl.
  { intros j r Hr Hu. destruct (decide (i = j)) as [<-|Hne].
    - unfold l in Hr. rewrite list_lookup_alter_eq, Es in Hr. cbn in Hr. simplify_eq. by destruct Hu.
    - unfold l in Hr. rewrite list_lookup_alter_ne in Hr by done. done. }
  assert (weak (with_sockets l (ah_socketRef h) (conn h))) as W.
  { split; [exact W1|]. intros j r Hr Hu. destruct (Hl j r Hr Hu) as [_ Hr']. by apply (W2 j r). }
  assert (forall j, ah_socketRef h = Some j -> exists r, l !! j = Some r /\ so_token r = ah_token h /\
    (j <> i -> ah_sockets h !! j = Some r)) as Hcur.
  { intros j Hjr. destruct (C j Hjr) as (r & Hr & Ht). cbn in Hr, Ht. unfold l. destruct (decide (i = j)) as [<-|Hne].
    - rewrite list_lookup_alter_eq, Hr. eexists. split_and!; [reflexivity|done|done].
    - rewrite list_lookup_alter_ne by done. eauto. }
  destruct (bool_decide (ah_socketRef h1 = Some i)) eqn:Ec; cbn [negb].
  - apply bool_decide_eq_true in Ec. rewrite Er in Ec. set (h2 := rejectAll _ _ (with_ah_heartbeat None h1)).
    assert (conn h2 = conn h1) as E2 by (unfold h2; by rewrite conn_reject). clearbody h2.
    assert (ah_activeToken (with_ah_status Reconnecting h2) = ah_token h) as ->.
    { transitivity (cn_active (conn h2)); [done|]. rewrite E2, E1. exact A. }
    destruct (Hcur i Ec) as (r & Hr & Ht & _). unfold l in Hr. rewrite list_lookup_alter_eq, Es in Hr. cbn in Hr.
    injection Hr as <-. cbn in Ht. rewrite Ht, String.eqb_refl. apply ready_linked.
    clearbody h1. set (d := reconnect_delay (ah_attempts (with_ah_status Reconnecting h2)) (br_jitter b)).
    assert (conn (with_ah_attempts (S (ah_attempts (with_ah_status Reconnecting h2)))
      (with_ah_reconnect (Some (ah_token h, d)) (with_ah_status Reconnecting h2))) =
      mkConn (ah_token h) (ah_activeToken h) (ah_jobs h) (ah_epoch h) (Some (ah_token h, d)) (Some i) l) as ->.
    { rewrite E1 in E2. unfold conn in E2. injection E2 as F1 F2 F3 F4 F5 F6 F7. unfold conn. cbn. by rewrite F1, F2, F3, F4, F6, F7, Ec. }
    assert (ah_token h <> "") as Hne by (intros Hn; destruct (O Hn) as [Hs _]; cbn in Hs; congruence).
    split; [split; try done|].
    + split; [exact W1|]. intros j q Hq Hu. cbn in *. destruct (Hl j q Hq Hu) as [Hji Hq'].
      pose proof (W2 j q Hq' Hu) as Hs. cbn in Hs. congruence.
    + cbn. intros t e Hte. by simplify_eq.
    + cbn. intros j Hjr. simplify_eq. destruct (Hcur j Ec) as (q & Hq & Htq & _). eauto.
    + intros _. right. right. exists d. split; [done|]. by apply reconnect_delay_bounds.
  - apply bool_decide_eq_false in Ec. rewrite Er in Ec. apply ready_linked. rewrite E1. split; [split; try done|].
    + cbn. intros j Hjr. destruct (Hcur j Hjr) as (q & Hq & Htq & _). eauto.
    + intros Hn. destruct (K Hn) as [Hr|[(j & q & Hjr & Hq & Hs)|Hr]]; [by left| |by right; right].
      right. left. exists j, q. cbn in *. split_and!; try done. destruct (Hcur j Hjr) as (q' & Hq' & _ & Hsame).
      rewrite Hq'. rewrite Hsame in Hq by congruence. done.
Qed.

Lemma elem_of_delete_ne {A} (l : list A) i x y : l !! i = Some y -> x ∈ l -> x <> y -> x ∈ delete i l.
Proof.
  intros Hi Hx Hne. rewrite delete_take_drop. rewrite <- (take_drop_middle l i y Hi) in Hx.
  apply elem_of_app in Hx as [Hx|[Hx|Hx]%elem_of_cons]; [by apply elem_of_app; left|done|by apply elem_of_app; right].
Qed.

Lemma elem_of_delete_sub {A} (l : list A) i x : x ∈ delete i l -> x ∈ l.
Proof.
  rewrite delete_take_drop. intros [H|H]%elem_of_app.
  - rewrite <- (take_drop i l). apply elem_of_app. by left.
  - rewrite <- (take_drop (S i) l). apply elem_of_app. by right.
Qed.

(** The answer of an event repeats the token in use. *)
Definition repeats_token (h : AppHook) (e : hook_event) : bool :=
  match e with
  | JobAnswered _ (Answer _ (inr data)) _ => opt_str_eqb (str_prop "token" data) (Some (ah_token h))
  | _ => false
  end.

Lemma ready_refresh b t e ep a h k :
  linked (conn h) -> base (conn k) -> ah_token k = ah_token h -> ah_epoch k = ah_epoch h ->
  JRefresh t e ep ∈ ah_jobs h -> (ep <> ah_epoch h -> linked (conn k)) ->
  (forall i a2, repeats_token h (JobAnswered i a a2) = false) ->
  ready (ah_token h) (refreshAnswered b t e ep a k).
Proof.
  intros [[W _ J _ _ _] _] B Et Eep Hin Hk Hrep. unfold refreshAnswered. cbv zeta. rewrite Eep.
  destruct (Nat.eqb_spec ep (ah_epoch h)) as [->|Hne]; cbn [negb].
  2: { specialize (Hk Hne). rewrite <- Et. repeat case_match; by apply ready_same. }
  pose proof (J t e Hin) as Htt. cbn in Htt. subst t.
  set (refreshed := if ok a then _ else None).
  assert (forall t, refreshed = Some t -> t <> ah_token h) as Hnew.
  { intros t Ht ->. unfold refreshed in Ht. destruct (ok a) eqn:Eok; [|done].
    destruct a as [|status [m|data]]; cbn [answer_body] in Ht; try done.
    destruct (str_prop "token" data) as [t|] eqn:Etok; [|done]. case_match; [|done]. simplify_eq.
    specialize (Hrep O (NoAnswer "")). cbn in Hrep. rewrite Etok in Hrep. cbn in Hrep. by rewrite String.eqb_refl in Hrep. }
  assert (forall k', conn k' = with_token "" (conn k) -> ready (ah_token h) k') as Hexp.
  { intros k' E. assert (ah_token k' = "") as Ek by (by apply (f_equal cn_token) in E).
    destruct (bs_weak _ B) as [B1 B2]. split; rewrite E; [by split|]. rewrite Ek. intros Eh. rewrite <- Et in Eh.
    assert (with_token "" (conn k) = conn k) as -> by (unfold with_token, conn; cbn; by rewrite Eh).
    split; [exact B|]. intros Hn. by destruct Hn. }
  destruct refreshed as [t|] eqn:Er.
  - specialize (Hnew t eq_refl). destruct B as [[B1 B2] _ _ _ _ _]. split; [by split|]. cbn. congruence.
  - destruct (e <=? ck_ms (br_now b)); [by apply Hexp|].
    destruct (decide (ah_token h = "")) as [E0|Hn].
    + rewrite E0. apply ready_linked. cbn. split; [exact B|]. intros Hn. rewrite <- Et in E0. by destruct Hn.
    + apply ready_linked. rewrite <- Et, <- (token_loadData (ah_token k) k) at 1. rewrite Et.
      apply linked_connectWs; [by apply base_loadData|]. by rewrite token_loadData, Et.
Qed.

Ltac set_token :=
  match goal with
  | L : linked (conn ?h) |- ready (ah_token ?h) (?k) =>
      first [ apply (ready_same h); [exact L|reflexivity]
            | eapply (ready_token _ h); [exact L|unfold with_token, conn; cbn; reflexivity] ]
  end.

Lemma ready_job b j a a2 h : linked (conn h) -> (forall t e ep, j <> JRefresh t e ep) ->
  ready (ah_token h) (jobAnswered thrown b j a a2 h).
Proof.
  intros L Hj. destruct j; cbn [jobAnswered].
  - unfold dataLoaded, load_devices, load_sessions. cbv zeta. repeat case_match; set_token.
  - by destruct (Hj token expiry epoch).
  - unfold sessionTokenAnswered. repeat case_match; set_token.
  - unfold loginAnswered. cbv zeta. repeat case_match; set_token.
  - unfold registerAnswered. cbv zeta. repeat case_match; set_token.
  - unfold revokeAnswered. cbv zeta. repeat case_match; set_token.
Qed.

Lemma ready_answered b i a a2 h : linked (conn h) -> repeats_token h (JobAnswered i a a2) = false ->
  ready (ah_token h) (handle json_parse text_decode thrown uuid b (JobAnswered i a a2) h).
Proof.
  intros L Hrep. cbn [handle]. destruct (ah_jobs h !! i) as [j|] eqn:Ej; [|by apply ready_same].
  set (k := with_ah_jobs (delete i (ah_jobs h)) h).
  assert (base (conn k)) as B.
  { destruct L as [B _]. apply (base_jobs h); [done| |done]. intros t e ep. apply elem_of_delete_sub. }
  assert ((forall e, j <> JRefresh (ah_token h) e (ah_epoch h)) -> linked (conn k)) as Hk.
  { intros Hne. split; [done|]. intros Hn. destruct L as [_ K]. destruct (K Hn) as [[e He]|Hr]; [|by right].
    left. exists e. cbn. eapply elem_of_delete_ne; [exact Ej|exact He|]. intros E. by apply (Hne e). }
  destruct j as [d s|t e ep| |u|u|d].
  2: { apply (ready_refresh _ _ _ _ _ h); [exact L|exact B|done|done| | |].
       - by eapply list_elem_of_lookup_2.
       - intros Hne. apply Hk. intros e' E. by simplify_eq.
       - intros i' a2'. exact Hrep. }
  all: change (ah_token h) with (ah_token k); apply ready_job; [by apply Hk|done].
Qed.

Lemma ready_logout h : linked (conn h) -> ready (ah_token h) (logout h).
Proof.
  intros L. unfold logout. cbv zeta. set (k := lift (with_cl_gapRecovery []) _).
  pose proof (conn_close_current k) as E.
  assert (conn k = mkConn "" "" (ah_jobs h) (ah_epoch h) (ah_reconnect h) (ah_socketRef h) (ah_sockets h)) as Ek
    by (unfold k; destruct (ah_token h === ""); reflexivity).
  assert (ah_token (close_current k) = "") as Et.
  { apply (f_equal cn_token) in E. cbn in E. rewrite E. by apply (f_equal cn_token) in Ek. }
  assert (ah_socketRef k = ah_socketRef h) as Er by (by apply (f_equal cn_socketRef) in Ek).
  rewrite Ek, Er in E. destruct L as [[[W1 W2] A J R C O] K]. 
  assert (weak (conn (close_current k))) as W.
  { rewrite E. split; [exact W1|]. intros i s Hs Hu. exfalso. revert Hs Hu. apply none_in_use. by split. }
  split; [exact W|]. rewrite E in *. intros Ht. rewrite Et in Ht. destruct (O Ht) as [Hs Hr]. cbn in Hs, Hr. rewrite Hs in *.
  split; [split; try done|by intros []].
  - cbn. intros t e H. rewrite (J t e H). done.
  - cbn. intros t d. by rewrite Hr.
Qed.

Lemma ready_job_added j h h' : linked (conn h) -> (forall t e ep, j <> JRefresh t e ep) ->
  conn h' = mkConn (ah_token h) (ah_activeToken h) (ah_jobs h ++ [j]) (ah_epoch h) (ah_reconnect h) (ah_socketRef h) (ah_sockets h) ->
  ready (ah_token h) h'.
Proof.
  intros [B K] Hj E. apply ready_linked. split.
  - apply (base_jobs h); [done| |].
    + apply (f_equal cn_jobs) in E. cbn in E. rewrite E. intros t e ep. rewrite elem_of_app, list_elem_of_singleton.
      intros [|<-]; [done|]. by destruct (Hj t e ep).
    + rewrite E. apply (f_equal cn_jobs) in E. cbn in E. by rewrite E.
  - rewrite E. intros Hn. destruct (K Hn) as [[e He]|Hr]; [|by right]. left. exists e. cbn. apply elem_of_app. by left.
Qed.

Lemma ready_handle b e h : linked (conn h) -> 0 <= br_jitter b < 250 -> repeats_token h e = false ->
  ready (ah_token h) (handle json_parse text_decode thrown uuid b e h).
Proof.
  intros L Hj Hrep. destruct e; try (by apply ready_answered); cbn [handle];
    try (unfold sendPrompt, fresh, downloadFile, sendApprovalDecision, interruptTask, resumeTask, setSessionPolicyMode,
           createNewSession, forkSession, fresh; cbv zeta;
         repeat match goal with |- context [if ?x then _ else _] => destruct x end;
         apply ready_same; rewrite ?conn_proxy; done).
  - by apply ready_opened.
  - by apply ready_closed.
  - apply (ready_same h); [exact L|]. unfold socketFrame, proxyResponse. cbv zeta. repeat case_match; reflexivity.
  - apply (ready_same h); [exact L|]. unfold heartbeatFires. repeat case_match; reflexivity.
  - unfold reconnectFires. destruct (ah_reconnect h) as [[t d]|] eqn:Er; [|by apply ready_same].
    destruct L as [[[W1 W2] A J R C O] K]. pose proof (R t d Er) as ->.
    assert (ah_token h <> "") as Hn by (intros Hn; destruct (O Hn) as [_ Hr]; cbn in Hr; congruence).
    apply ready_linked. apply (linked_connectWs (with_ah_reconnect None h)); [|done].
    split; try done; by split.
  - apply (ready_same h); [exact L|]. unfold proxyTimeout. repeat case_match; reflexivity.
  - destruct (conn_loadData (ah_token h) h) as [E|(d & s & E)]; [by apply ready_same|]. by apply (ready_job_added (JData d s)).
  - by apply (ready_job_added (JLogin (ah_user h))).
  - by apply (ready_job_added (JRegister username)).
  - by apply ready_logout.
  - unfold revokeDevice. case_match; [by apply ready_same|]. by apply (ready_job_added (JRevoke deviceId)).
Qed.

Abbreviation hook_step := (step json_parse text_decode decode_uri thrown uuid).
Abbreviation hook_run := (run json_parse text_decode decode_uri thrown uuid).
Abbreviation hook_boot := (boot json_parse decode_uri thrown uuid).

(** A run in which the random part of a delay is in its range and no answer
    repeats the token in use. *)
Fixpoint ordinary (h : AppHook) (l : list (browser * hook_event)) : bool :=
  match l with
  | [] => true
  | be :: l' => (0 <=? br_jitter be.1) && (br_jitter be.1 <? 250) && negb (repeats_token h be.2) && ordinary (hook_step h be) l'
  end.

Lemma drain_token b h : ah_token (drain json_parse decode_uri thrown b h) = ah_token h.
Proof. exact (f_equal cn_token (conn_drain b h)). Qed.

Lemma linked_step h b e : linked (conn h) -> 0 <= br_jitter b < 250 -> repeats_token h e = false ->
  linked (conn (hook_step h (b, e))).
Proof.
  intros L Hj Hr. unfold step. cbn [fst snd]. destruct (ready_handle b e h L Hj Hr) as [W Hl].
  apply linked_commit; rewrite conn_drain; [|done]. rewrite drain_token. exact Hl.
Qed.

Lemma linked_run l : forall h, linked (conn h) -> ordinary h l = true -> linked (conn (hook_run h l)).
Proof.
  induction l as [|[b e] l IH]; intros h L Ho; [done|]. cbn [ordinary fst snd] in Ho.
  apply andb_true_iff in Ho as [[[Hj1 Hj2]%andb_true_iff Hr]%andb_true_iff Ho].
  apply IH; [|done]. apply linked_step; [done|lia|by apply negb_true_iff].
Qed.

Lemma linked_boot b storedUser storedToken cursors storage_ok : linked (conn (hook_boot b storedUser storedToken cursors storage_ok)).
Proof.
  unfold boot. cbv zeta. set (h := mount _ _ _ _).
  assert (weak (conn h)) as W.
  { unfold h, mount. cbv zeta. repeat case_match; split; cbn; intros; set_solver. }
  apply linked_commit; [|done]. cbn [dp_token]. intros Et. split; [split; try done|].
  - unfold h, mount in *. cbv zeta in *. repeat case_match; cbn in *; congruence.
  - intros t e Hj. revert Hj. unfold h, mount. cbv zeta. repeat case_match; cbn; set_solver.
  - unfold h, mount. cbv zeta. repeat case_match; done.
  - unfold h, mount. cbv zeta. repeat case_match; done.
  - unfold h, mount. cbv zeta. repeat case_match; done.
  - intros Hn. by destruct Hn.
Qed.

Lemma conn_step_same h b e : linked (conn h) -> linked (conn (handle json_parse text_decode thrown uuid b e h)) ->
  ah_token (handle json_parse text_decode thrown uuid b e h) = ah_token h ->
  conn (hook_step h (b, e)) = conn (handle json_parse text_decode thrown uuid b e h).
Proof.
  intros L L' Ht. unfold step. cbn [fst snd]. set (k := handle _ _ _ _ b e h) in *.
  assert (conn (drain json_parse decode_uri thrown b k) = conn k) as Ek by apply conn_drain.
  assert (linked (conn (drain json_parse decode_uri thrown b k))) as Lk by (by rewrite Ek).
  set (k1 := drain json_parse decode_uri thrown b k) in *.
  assert (ah_activeToken k1 = ah_token k1) as A by (destruct Lk as [[_ A _ _ _ _] _]; exact A).
  assert (ah_token k1 = ah_token h) as Et by (rewrite <- Ht; exact (f_equal cn_token Ek)).
  unfold commit. cbv zeta. rewrite conn_drain.
  set (k2 := drain _ _ _ b (effects _ _ b (deps_of h) k1)).
  assert (conn k2 = conn k1) as E2 by (unfold k2; rewrite conn_drain; by apply conn_effects_same).
  rewrite conn_effects_same; [congruence| |].
  - transitivity (cn_active (conn k2)); [done|]. rewrite E2. cbn. rewrite A. symmetry. exact (f_equal cn_token E2).
  - cbn. symmetry. exact (f_equal cn_token E2).
Qed.
End connection.

(** C10: A signed-in app always has a way back to the relay: in any ordinary
    run, one in which no HTTP answer repeats the token in use (and the random
    part of a delay is below 250 ms), it waits for the answer to a token
    refresh, or has a socket with its token that has not closed, or has a
    timer that will open one within 30.25 seconds (and, when it fires, does);
    at most one socket is connecting or open; and without a token there is
    neither socket nor timer. A run that is not ordinary can stall:
    [same_token_refresh_stalls]. *)
Theorem connection_kept json_parse text_decode decode_uri thrown uuid b storedUser storedToken cursors storage_ok l :
  let boot := boot json_parse decode_uri thrown uuid b storedUser storedToken cursors storage_ok in
  let step := step json_parse text_decode decode_uri thrown uuid in
  let h := run json_parse text_decode decode_uri thrown uuid boot l in
  ordinary json_parse text_decode decode_uri thrown uuid boot l = true ->
  (ah_token h <> "" ->
   (exists e, JRefresh (ah_token h) e (ah_epoch h) ∈ ah_jobs h) \/
   (exists i s, ah_socketRef h = Some i /\ ah_sockets h !! i = Some s /\ so_token s = ah_token h /\ so_state s <> WsClosed) \/
   (exists d, ah_reconnect h = Some (ah_token h, d) /\ 1000 <= d < 30250)) /\
  (forall t d b', ah_reconnect h = Some (t, d) ->
     exists i, ah_socketRef (step h (b', ReconnectFires)) = Some i /\
       ah_sockets (step h (b', ReconnectFires)) !! i = Some (mkSocket (ah_token h) WsConnecting)) /\
  (forall i s, ah_sockets h !! i = Some s -> in_use s -> ah_socketRef h = Some i) /\
  (ah_token h = "" -> ah_socketRef h = None /\ ah_reconnect h = None).
Proof.
  cbv zeta. intros Ho. set (h := run _ _ _ _ _ _ l).
  assert (linked (conn h)) as L
    by (apply linked_run; [exact (linked_boot json_parse text_decode _ _ _ _ _ _ _ _)|done]).
  pose proof L as [[[W1 W2] A J R C O] K]. split_and!.
  - intros Hn. destruct (K Hn) as [|[(i & s & Hi & Hs & Hc)|]]; [by left| |by right; right].
    right. left. destruct (C i Hi) as (s' & Hs' & Ht). exists i, s. cbn in *. simplify_eq. done.
  - intros t d b' Hr. pose proof (R t d Hr) as ->. cbn.
    assert (ah_token h <> "") as Hn by (intros Hn; destruct (O Hn) as [_ Hr']; cbn in Hr'; congruence).
    set (k := with_ah_reconnect None h).
    assert (handle json_parse text_decode thrown uuid b' ReconnectFires h = connectWs (ah_token k) k) as Eh
      by (cbn [handle]; unfold reconnectFires; by rewrite Hr).
    assert (base (conn k)) as Bk by (split; try done; by split).
    pose proof (linked_connectWs k Bk Hn) as Lk. pose proof (conn_connectWs k Hn) as Ec.
    assert (conn (step json_parse text_decode decode_uri thrown uuid h (b', ReconnectFires)) = conn (connectWs (ah_token k) k)) as Es.
    { rewrite conn_step_same; rewrite ?Eh; [done..|]. exact (f_equal cn_token Ec). }
    rewrite Ec in Es. exists (length (closed_current (conn k))). split; [exact (f_equal cn_socketRef Es)|].
    transitivity (cn_sockets (conn (step json_parse text_decode decode_uri thrown uuid h (b', ReconnectFires))) !!
      length (closed_current (conn k))); [done|]. rewrite Es. cbn. rewrite lookup_app_r by lia. by rewrite Nat.sub_diag.
  - exact W2.
  - exact O.
Qed.

Lemma connection_kept_witness :
  let l := demo_events ++ [(demo_browser, SocketClosed 0)] in
  let h := run (fun _ => None) (fun s => s) (fun _ => None) (fun s => s) demo_uuid demo_boot l in
  ah_reconnect h = Some ("tok", 1000) /\
  exists i, ah_socketRef (step (fun _ => None) (fun s => s) (fun _ => None) (fun s => s) demo_uuid h
    (demo_browser, ReconnectFires)) = Some i.
Proof.
  cbv zeta.
  destruct (connection_kept (fun _ => None) (fun s => s) (fun _ => None) (fun s => s) demo_uuid demo_browser
    None (Some "tok") None true (demo_events ++ [(demo_browser, SocketClosed 0)]) ltac:(vm_compute; reflexivity)) as (_ & H & _ & _).
  split; [vm_compute; reflexivity|]. destruct (H "tok" 1000 demo_browser ltac:(vm_compute; reflexivity)) as (i & Hi & _).
  by exists i.
Defined.

(** A refresh that returns the token it was asked with leaves the app without a
    connection and without a timer. *)
Lemma same_token_refresh_stalls b t e h a :
  ah_token h = t -> (16 < slen t)%nat -> ok a = true ->
  (exists data, answer_body a = inr data /\ str_prop "token" data = Some t) ->
  conn (refreshAnswered b t e (ah_epoch h) a h) = conn h.
Proof.
  intros Ht Hl Ho (data & Eb & Et). unfold refreshAnswered. cbv zeta. rewrite Ho, Eb, Et, Nat.eqb_refl.
  rewrite (proj2 (Nat.ltb_lt _ _) Hl). cbn [negb]. unfold conn. cbn. by rewrite <- Ht.
Qed.
