(* ===== verification/AppAccounts.v ===== *)
(** * The app's hook: signing out, and prompts

    Signing out leaves nothing of the account behind, whatever the old
    connection still does; a prompt is shown once. *)

From Stdlib Require Import Ascii.
From S2P Require Import Prelude JsValue JsDate Json CodexEvents Base64 Aggregator Timeline Client Delivery AppHook AppHookInv AppConnection.

Local Open Scope Z_scope.

(** ** What the app knows of an account

    All but the user name, which signing out leaves in memory and in storage. *)






Section accounts.
Context (json_parse : string -> option val) (text_decode : string -> string) (decode_uri : string -> option string)
        (thrown : string -> string) (uuid : nat -> string).


















(** ** Signing out *)







End accounts.



(** The lists asked for before signing out are shown when they arrive after it. *)
Lemma late_lists_return json_parse text_decode thrown uuid b h i ds ss :
  ah_jobs h !! i = Some (JData "" "") ->
  let h' := handle json_parse text_decode thrown uuid b (JobAnswered i
    (Answer 200 (inr (VObj [("devices", VArr ds)]))) (Answer 200 (inr (VObj [("sessions", VArr ss)])))) h in
  ah_devices h' = ds /\ cl_sessions (ah_client h') = ss.
Proof.
  intros E. cbn [handle]. rewrite E. cbn [jobAnswered]. unfold dataLoaded, load_devices, load_sessions. cbn.
  destruct ds, ss; split; reflexivity.
Qed.

(** ** Prompts *)

Lemma saveCursor_seen sid q c : cl_seenEventKeys (saveCursor sid q c) = cl_seenEventKeys c.
Proof. unfold saveCursor, persist_cursors. repeat case_match; reflexivity. Qed.

Lemma advance_seen msg c : cl_seenEventKeys (advance msg c) = cl_seenEventKeys c.
Proof. unfold advance. repeat case_match; rewrite ?saveCursor_seen; reflexivity. Qed.

Lemma schedule_seen sid q c : cl_seenEventKeys (scheduleGapRecovery sid q c) = cl_seenEventKeys c.
Proof. unfold scheduleGapRecovery. cbv zeta. case_match; reflexivity. Qed.

Lemma resumeComplete_seen open msg c : cl_seenEventKeys (resumeComplete open msg c) = cl_seenEventKeys c.
Proof.
  unfold resumeComplete. case_match; [|done]. cbv zeta.
  set (c1 := match prop "cursors" (prop "payload" msg) with VObj _ => _ | _ => _ end).
  assert (cl_seenEventKeys c1 = cl_seenEventKeys c) as E.
  { subst c1. destruct (prop "cursors" _) as [| | | | | |fs]; try done. clear. revert c.
    induction fs as [|[k v] fs IH]; intros c; [done|]. cbn [foldl]. rewrite IH.
    destruct (safe_integer v); [|done]. case_match; [apply saveCursor_seen|done]. }
  rewrite <- E. by case_match.
Qed.

Lemma lastn_more {A} (x : A) n m l : (n <= m)%nat -> x ∈ lastn n l -> x ∈ lastn m l.
Proof.
  unfold lastn. intros Hn Hx. replace (length l - n)%nat with ((length l - m) + (length l - n - (length l - m)))%nat in Hx by lia.
  rewrite <- drop_drop in Hx. rewrite <- (take_drop (length l - n - (length l - m)) (drop (length l - m) l)).
  apply elem_of_app. by right.
Qed.

(** One more key at the end of a set that is cut to its last thousand. *)
Lemma recent_sadd (key k : string) n l : (S n <= 1000)%nat -> key ∈ lastn n l ->
  key ∈ lastn (S n) (let seen := sadd k l in if (2000 <? length seen)%nat then lastn 1000 seen else seen).
Proof.
  intros Hn Hk.
  assert (forall l' m, (m <= 1000)%nat -> lastn m (lastn 1000 l') = lastn m (l' : list string)) as Hcut.
  { intros l' m Hm. unfold lastn. rewrite drop_drop, length_drop. f_equal. lia. }
  assert (key ∈ lastn (S n) (sadd k l)) as H.
  { unfold sadd. destruct (shas k l).
    - eapply lastn_more; [|exact Hk]. lia.
    - unfold lastn in *. rewrite length_app. simpl. replace (length l + 1 - S n)%nat with (length l - n)%nat by lia.
      rewrite drop_app_le by lia. apply elem_of_app. by left. }
  cbv zeta. case_match; [|done]. by rewrite Hcut.
Qed.

Section prompts.
Context (json_parse : string -> option val).

Lemma mark_seen_recent key n msg c : (S n <= 1000)%nat -> key ∈ lastn n (cl_seenEventKeys c) ->
  key ∈ lastn (S n) (cl_seenEventKeys (mark_seen msg c)).
Proof.
  intros Hn Hk. unfold mark_seen. case_match; [eapply lastn_more; [|exact Hk]; lia|]. by apply recent_sadd.
Qed.

Lemma timeline_recent key n now msg c : (S n <= 1000)%nat -> key ∈ lastn n (cl_seenEventKeys c) ->
  key ∈ lastn (S n) (cl_seenEventKeys (timelineEvent json_parse now msg c)).
Proof.
  intros Hn Hk. assert (key ∈ lastn (S n) (cl_seenEventKeys c)) as Hk' by (eapply lastn_more; [|exact Hk]; lia).
  pose proof (mark_seen_recent key n msg c Hn Hk) as Hm. unfold timelineEvent. destruct (classify msg c).
  - done.
  - by rewrite schedule_seen.
  - by rewrite advance_seen.
  - cbv zeta. generalize dependent (mark_seen msg c). intros k Hm.
    repeat case_match; cbn; rewrite advance_seen; cbn; exact Hm.
Qed.

Lemma onmessage_recent key n now open raw c : (S n <= 1000)%nat -> key ∈ lastn n (cl_seenEventKeys c) ->
  key ∈ lastn (S n) (cl_seenEventKeys (onmessage json_parse now open raw c)).
Proof.
  intros Hn Hk. assert (key ∈ lastn (S n) (cl_seenEventKeys c)) as Hk' by (eapply lastn_more; [|exact Hk]; lia).
  destruct (cursor_frame raw) eqn:Ec.
  - unfold onmessage. fold (unwrap raw). cbv zeta. unfold cursor_frame, has_type in Ec. destruct (unwrap raw); try done;
      repeat case_match; rewrite ?resumeComplete_seen; try done;
      try (by apply timeline_recent); unfold historyGap, resetCursor, persist_cursors; repeat case_match; done.
  - rewrite onmessage_timeline by done. case_match; [by apply timeline_recent|done].
Qed.

Lemma receive_recent key frames : forall n c, (n + length frames <= 1000)%nat -> key ∈ lastn n (cl_seenEventKeys c) ->
  key ∈ cl_seenEventKeys (receive json_parse frames c).
Proof.
  induction frames as [|[[now open] raw] frames IH]; intros n c Hn Hk; [by eapply elem_of_lastn|].
  cbn [length] in Hn. unfold receive. cbn [foldl]. apply (IH (S n)); [lia|]. apply onmessage_recent; [lia|done].
Qed.

(** A frame whose request key is known shows nothing. *)
Lemma known_request now open raw c :
  timeline_frame raw = true -> request_key (unwrap raw) <> "" -> request_key (unwrap raw) ∈ cl_seenEventKeys c ->
  cl_turns (onmessage json_parse now open raw c) = cl_turns c /\
  cl_rawEvents (onmessage json_parse now open raw c) = cl_rawEvents c.
Proof.
  intros Ht Hne Hin.
  assert (cursor_frame raw = false) as Hc.
  { unfold timeline_frame in Ht. unfold cursor_frame. destruct (unwrap raw); try done;
      apply negb_true_iff in Ht; rewrite !orb_false_iff in Ht; destruct Ht as [[[[_ H1] H2] _] _]; by rewrite H1, H2. }
  rewrite onmessage_timeline, Ht by done. unfold timelineEvent.
  assert (classify (unwrap raw) c <> Fresh) as Hf.
  { unfold classify. cbv zeta. apply shas_true in Hin. rewrite Hin.
    destruct (String.eqb_spec (request_key (unwrap raw)) "") as [|_]; [done|]. cbn [negb andb]. repeat case_match; done. }
  destruct (classify (unwrap raw) c) as [|sid q| |]; [done| | |done].
  - unfold scheduleGapRecovery. cbv zeta. by case_match.
  - unfold advance, saveCursor, persist_cursors. repeat case_match; done.
Qed.
End prompts.

Lemma proxy_client uuid b method path body raw w h :
  cl_turns (ah_client (sendGatewayProxy uuid b method path body raw w h)) = cl_turns (ah_client h) /\
  cl_seenEventKeys (ah_client (sendGatewayProxy uuid b method path body raw w h)) = cl_seenEventKeys (ah_client h).
Proof. unfold sendGatewayProxy, fresh. cbv zeta. repeat case_match; split; reflexivity. Qed.

Lemma new_input json_parse now event session turns id text attachments sid :
  ev_type event = "session-user-input" ->
  ev_payload event = VObj [("sessionId", VStr sid); ("clientRequestId", VStr id); ("prompt", VStr text); ("attachments", VArr attachments)] ->
  id <> "" -> Forall (fun t => u_clientRequestId t <> Some id) turns ->
  exists row, applyLiveEventToTurns json_parse now event session turns = turns ++ [row] /\
    u_userPrompt row = text /\ u_clientRequestId row = Some id /\ u_userAttachments row = attachments.
Proof.
  intros Ht Hp Hid Hnew. unfold applyLiveEventToTurns. rewrite Ht. cbn [String.eqb Ascii.eqb Bool.eqb].
  unfold sessionUserInput, Aggregator.payload. rewrite Hp. cbv zeta.
  set (P := v_or _ _). assert (str_field (str_prop "clientRequestId" P) = Some id) as Eg
    by (unfold P; destruct id; [done|reflexivity]).
  rewrite Eg. destruct (find_index _ turns) as [i|] eqn:E.
  - exfalso. apply find_index_spec in E as (t & Hi & Hd). unfold duplicate_input in Hd.
    rewrite Forall_forall in Hnew. apply (Hnew t (list_elem_of_lookup_2 _ _ _ Hi)).
    unfold opt_str_eqb in Hd. destruct (u_clientRequestId t); [|done]. apply String.eqb_eq in Hd. by subst.
  - eexists. split; [reflexivity|]. done.
Qed.

(** A prompt is shown once. Sending one adds exactly one row, with its text,
    attachments and request id; and the gateway's echo of it, when it arrives
    within a thousand frames, in any order and however often, adds nothing. *)
Theorem prompt_shown_once json_parse text_decode thrown uuid b text attachments options h :
  let id := uuid (ah_next h) in
  selectedSessionId h <> "" -> trim text <> "" \/ attachments <> [] -> id <> "" ->
  Forall (fun t => u_clientRequestId t <> Some id) (cl_turns (ah_client h)) ->
  ("request:" ^^ id) ∉ cl_seenEventKeys (ah_client h) ->
  let c := ah_client (handle json_parse text_decode thrown uuid b (SendPrompt text attachments options) h) in
  (exists row, cl_turns c = cl_turns (ah_client h) ++ [row] /\ u_userPrompt row = text /\
     u_clientRequestId row = Some id /\ u_userAttachments row = attachments) /\
  (forall frames now open echo, (length frames < 1000)%nat -> timeline_frame echo = true ->
     prop "clientRequestId" (prop "payload" (unwrap echo)) = VStr id ->
     let c := receive json_parse frames c in
     cl_turns (onmessage json_parse now open echo c) = cl_turns c /\
     cl_rawEvents (onmessage json_parse now open echo c) = cl_rawEvents c).
Proof.
  cbv zeta. set (id := uuid (ah_next h)). intros Hs Ht Hid Hnew Hseen. cbn [handle]. unfold sendPrompt. cbv zeta.
  destruct (String.eqb_spec (selectedSessionId h) "") as [|_]; [done|].
  assert ((trim text === "") && (length attachments =? 0)%nat = false) as ->.
  { destruct Ht as [Ht|Ht]; [by apply String.eqb_neq in Ht; rewrite Ht|]. destruct attachments; [done|]. apply andb_false_r. }
  unfold fresh. cbv zeta. fold id.
  match goal with |- context [sendGatewayProxy uuid b ?m ?p ?body false WPrompt ?k] =>
    destruct (proxy_client uuid b m p body false WPrompt k) as [Et Es];
    generalize dependent (ah_client (sendGatewayProxy uuid b m p body false WPrompt k)) end.
  intros c Et Es. split.
  - rewrite Et. cbn [applyLiveEvent setTurns lift ah_client with_ah_client cl_turns with_cl_turns].
    apply (new_input _ _ _ _ _ id text attachments (selectedSessionId h)); try done.
  - intros frames now open echo Hf Htl He.
    assert (request_key (unwrap echo) = "request:" ^^ id) as Ek by (unfold request_key; by rewrite He).
    apply known_request; [done|by rewrite Ek|]. rewrite Ek. apply (receive_recent _ _ _ 1); [lia|]. rewrite Es.
    cbn [applyLiveEvent setTurns lift ah_client with_ah_client with_cl_turns with_cl_seenEventKeys cl_seenEventKeys with_ah_next].
    unfold sadd. apply shas_false in Hseen. rewrite Hseen. apply lastn_snoc. lia.
Qed.

Definition demo_selected : AppHook := setSelectedSessionId "s1" demo_boot.

Lemma prompt_shown_once_witness :
  let send b h := handle (fun _ => None) (fun s => s) (fun s => s) demo_uuid b (SendPrompt "again" [] no_options) h in
  let echo := VObj [("type", VStr "session-user-input"); ("sessionId", VStr "s1"); ("eventSeq", vint 1);
                    ("payload", VObj [("clientRequestId", VStr "0"); ("prompt", VStr "again")])] in
  let c := ah_client (send demo_browser demo_selected) in
  map u_userPrompt (cl_turns c) = ["again"] /\
  cl_turns (onmessage (fun _ => None) (br_now demo_browser) true echo c) = cl_turns c.
Proof.
  cbv zeta. split; [vm_compute; reflexivity|].
  destruct (prompt_shown_once (fun _ => None) (fun s => s) (fun s => s) demo_uuid demo_browser "again" [] no_options demo_selected)
    as [_ H].
  - vm_compute. discriminate.
  - left. vm_compute. discriminate.
  - vm_compute. discriminate.
  - apply (bool_decide_unpack _). vm_compute. exact I.
  - apply (bool_decide_unpack _). vm_compute. exact I.
  - apply (H [] (br_now demo_browser) true (VObj [("type", VStr "session-user-input"); ("sessionId", VStr "s1"); ("eventSeq", vint 1);
        ("payload", VObj [("clientRequestId", VStr "0"); ("prompt", VStr "again")])])).
    + cbn. lia.
    + vm_compute. reflexivity.
    + vm_compute. reflexivity.
Defined.

(** An interruption confirmed after the user has opened another session marks
    that session's last turn as cancelled. *)
Lemma interrupt_marks_shown_turn json_parse decode_uri thrown b sid h turns t :
  cl_turns (ah_client h) = turns ++ [t] ->
  cl_turns (ah_client (resume_waiter json_parse decode_uri thrown b (WInterrupt sid true) (inr VNull) h)) =
    turns ++ [with_u_assistantStatus st_cancelled t].
Proof.
  intros E. cbn [resume_waiter]. unfold interruptSettled, update_session. cbv zeta. cbn. rewrite E, length_app. simpl.
  rewrite Nat.add_1_r. cbn [pred]. clear E. induction turns as [|x turns IH]; [done|]. cbn. by rewrite IH.
Qed.
