(* ===== verification/Views.v ===== *)
(** * What the app shows

    The parts of the app that compute a view from the hook's state, without what
    is only markup: app/src/utils.ts ([statusText], [statusBadgeColor],
    [projectOf], [fmtRelativeTime]) and, of app/src/components,
    SessionSidebar.tsx, ChatCanvas.tsx, DiffView.tsx and RawEventDrawer.tsx. A
    view is a value: the labels, texts, buttons and sub-views in the order they
    are drawn.

    The theorems say that the sidebar shows every matching session once, under one
    header per project, newest project first; that the conversation offers to
    interrupt exactly when the hook streams; and what the diff view keeps of a
    line.

    [localeCompare] and [toLocaleDateString] are parameters. *)

From Stdlib Require Import Ascii.
From S2P Require Import Prelude JsValue JsDate Json CodexEvents Sessions Attachments Aggregator Client Markdown AppHook.

Local Open Scope Z_scope.

(** ** utils.ts *)

Definition status_texts : jmap string string :=
  [("running", "运行中"); ("completed", "已完成"); ("failed", "执行失败"); ("cancelled", "已中断");
   ("starting", "启动中"); ("waiting-approval", "等待审批"); ("resumable", "可恢复"); ("history-only", "只读历史")].

Definition statusText (s : option string) : string :=
  let s := default "" s in default (str_or s "未知状态") (mget s status_texts).

Definition badge_colors : jmap string string :=
  [("running", "var(--color-primary)"); ("streaming", "var(--color-primary)"); ("completed", "var(--color-green)");
   ("waiting-approval", "#e6a23c"); ("failed", "var(--color-red)"); ("cancelled", "var(--color-red)")].

Definition statusBadgeColor (s : option string) : string :=
  default "var(--color-text-muted)" (mget (default "" s) badge_colors).

(** [path.split(/[\\/]/)] *)
Definition path_segments (path : string) : list string :=
  split_char "/" (smap (fun c => if is_separator c then "/"%char else c) path).

Definition projectOf (s : val) : string :=
  let path := match str_prop "workspacePath" s, str_prop "cwd" s with
              | Some p, _ => p | None, Some p => p | None, None => ""
              end in
  default "默认工作区" (first_some [truthy_str (prop "projectName" s); truthy_str (prop "project" s);
                                    last (List.filter (fun x => x !== "") (path_segments path))]).

(** [lastUpdatedAt || updatedAt || createdAt || ""] *)
Definition activity (s : val) : string :=
  default "" (first_some [truthy_str (prop "lastUpdatedAt" s); truthy_str (prop "updatedAt" s);
                          truthy_str (prop "createdAt" s)]).

(** ** Flags kept in a plain object *)

(** The names every object literal inherits; what they hold is truthy. *)
Definition object_prototype : list string :=
  ["constructor"; "toString"; "toLocaleString"; "valueOf"; "hasOwnProperty"; "isPrototypeOf";
   "propertyIsEnumerable"; "__proto__"; "__defineGetter__"; "__defineSetter__"; "__lookupGetter__";
   "__lookupSetter__"].

(** [flags[key]], read as a condition: its own property, else an inherited one. *)
Definition flag (key : string) (flags : jmap string bool) : option bool :=
  match mget key flags with
  | Some b => Some b
  | None => if bool_decide (key ∈ object_prototype) then Some true else None
  end.

Definition flag_set (key : string) (flags : jmap string bool) : bool := default false (flag key flags).

(** [{ ...flags, [key]: !flags[key] }] *)
Definition flip (key : string) (flags : jmap string bool) : jmap string bool :=
  mset key (negb (flag_set key flags)) flags.

Section locale.
(** [localeCompare(a, b) < 0], and the local date of a time. *)
Context (locale_lt : string -> string -> bool) (toLocaleDateString : Z -> string).

Definition fmtRelativeTime (now : Z) (value : string) : string :=
  if value === "" then ""
  else match date_parse value with
       | None => "Invalid Date"
       | Some time =>
           let sec := Z.max 0 (now - time) / 1000 in
           let min := sec / 60 in
           let hour := min / 60 in
           let days := hour / 24 in
           if sec <? 60 then "刚刚"
           else if min <? 60 then zstr min ^^ " 分钟前"
           else if hour <? 24 then zstr hour ^^ " 小时前"
           else if days <? 30 then zstr days ^^ " 天前"
           else toLocaleDateString time
       end.

(** ** SessionSidebar.tsx *)

Definition matchKeyword (keyword : string) (s : val) : bool :=
  let has t := includes (to_lower keyword) (to_lower t) in
  let field key := match truthy_str (prop key s) with Some t => has t | None => false end in
  (trim keyword === "") || field "title" || field "workspacePath" || field "cwd" || has (projectOf s).

Definition matchStatus (filterStatus : string) (s : val) : bool :=
  (filterStatus === "all")
  || existsb (fun f => (filterStatus === f) && opt_str_eqb (str_prop "status" s) (Some f))
       ["running"; "waiting-approval"; "completed"; "cancelled"].

Definition matching (keyword filterStatus : string) (sessions : list val) : list val :=
  List.filter (fun s => matchKeyword keyword s && matchStatus filterStatus s) sessions.

(** One turn of the loop over the matching sessions. *)
Definition add_to_project (projects : jmap string (list val)) (session : val) : jmap string (list val) :=
  let project := projectOf session in
  mset project (default [] (mget project projects) ++ [session]) projects.

Definition latest (l : list val) : Z :=
  foldl (fun latest item => Z.max latest (parse_or (activity item) 0)) 0 l.

Definition project_before (left right : string * list val) : bool := latest right.2 <? latest left.2.

Definition newer_session (a b : val) : bool := locale_lt (activity b) (activity a).

Definition sidebar_projects (keyword filterStatus : string) (sessions : list val) : jmap string (list val) :=
  isort project_before (foldl add_to_project [] (matching keyword filterStatus sessions)).

Definition filteredSessions (keyword filterStatus : string) (sessions : list val) : list val :=
  concat (map (fun e => isort newer_session e.2) (sidebar_projects keyword filterStatus sessions)).

(** A project's header: its name, how many sessions it has, and the workspace its
    button starts a session in. *)
Record project_header := mkHeader { hd_project : string; hd_count : nat; hd_workspace : string }.

Record session_row := mkRow {
  rw_header : option project_header;
  rw_session : option val   (** [None]: the project is folded *)
}.

(** The rows of the list; [previousProject] belongs to the row before. *)
Fixpoint rows (collapsed : jmap string bool) (all : list val) (previousProject : string) (l : list val)
    : list session_row :=
  match l with
  | [] => []
  | s :: rest =>
      let project := projectOf s in
      let ofProject := List.filter (fun item => projectOf item === project) all in
      let target := head ofProject in
      mkRow (if project !== previousProject then
               Some (mkHeader project (length ofProject)
                       (default "" (first_some [target ≫= fun t => truthy_str (prop "workspacePath" t);
                                                target ≫= str_prop "cwd"])))
             else None)
            (if flag_set project collapsed then None else Some s)
      :: rows collapsed all project rest
  end.

Definition sidebar_rows (collapsed : jmap string bool) (keyword filterStatus : string) (sessions : list val)
    : list session_row :=
  let shown := filteredSessions keyword filterStatus sessions in rows collapsed shown "" shown.

(** The button of a header. *)
Definition toggleProject (project : string) (collapsed : jmap string bool) : jmap string bool :=
  flip project collapsed.
End locale.

(** ** DiffView.tsx *)

Inductive diff_kind := added | removed | chunk_header | meta | context.

Definition line_type (line : string) : diff_kind :=
  if starts_with "+" line && negb (starts_with "+++" line) then added
  else if starts_with "-" line && negb (starts_with "---" line) then removed
  else if starts_with "@@" line then chunk_header
  else if starts_with "diff --git" line || starts_with "index " line then meta
  else context.

Record diff_line := mkDiffLine { dl_kind : diff_kind; dl_prefix : string; dl_text : string }.

Definition show_diff_line (line : string) : diff_line :=
  let kind := line_type line in
  mkDiffLine kind (match kind with added => "+" | removed => "-" | _ => " " end) (str_or (skip 1 line) line).

Definition diff_lines (diff : string) : list diff_line := map show_diff_line (split_char "010" diff).

Record diff_view := mkDiffView {
  dv_badge : string; dv_title : string; dv_download : bool; dv_lines : list diff_line
}.

Definition DiffView (diff filePath kind : string) (onDownload : bool) : diff_view :=
  mkDiffView (if kind === "add" then "新增" else if kind === "delete" then "删除" else "修改")
    (str_or filePath "文件差异") ((filePath !== "") && onDownload) (diff_lines diff).

(** ** RawEventDrawer.tsx *)

Definition displayedEvents (filterCurrent : bool) (currentSessionId search : string) (events : list val)
    : list val :=
  reverse (lastn 150 (List.filter (fun e =>
    if filterCurrent && (currentSessionId !== "") && negb (opt_str_eqb (getEventSessionId e) (Some currentSessionId))
    then false
    else (trim search === "") || includes (to_lower search) (to_lower (stringify e))) events)).

(** ** ChatCanvas.tsx *)

Record canvas := mkCanvas {
  cv_autoScroll : bool; cv_openReasoning : jmap string bool; cv_openOutputs : jmap string bool
}.

Definition toggleReasoning (turnId : string) (c : canvas) : canvas :=
  mkCanvas (cv_autoScroll c)
    (flip turnId (cv_openReasoning c)) (cv_openOutputs c).

Definition toggleOutput (toolId : string) (c : canvas) : canvas :=
  mkCanvas (cv_autoScroll c) (cv_openReasoning c)
    (flip toolId (cv_openOutputs c)).

Definition handleScroll (scrollTop scrollHeight clientHeight : Z) (c : canvas) : canvas :=
  mkCanvas (scrollHeight - scrollTop - clientHeight <? 80) (cv_openReasoning c) (cv_openOutputs c).

(** [{value && node}]: React draws a falsy number and leaves out the other falsy
    values. *)
Inductive guarded := Hidden | Bare (n : num) | Shown (v : val).

Definition guard_node (v : val) : guarded :=
  if truthy v then Shown v else match v with VNum n => Bare n | _ => Hidden end.

Inductive tool_card :=
| TerminalCard (command : string) (duration : guarded) (label : string) (failed : bool) (cwd : option string)
    (expanded : bool) (output : option string)
| DiffCard (d : diff_view)
| SubAgentCard (path : option string) (label : string).

(** [String(v)] in a template, of an exit code. *)
Definition exit_text (v : val) : string :=
  match v with VNum n => num_str n | VStr s => s | VNull => "null" | VBool b => if b then "true" else "false" | _ => "" end.

Definition exit_failed (exitCode : val) : bool :=
  match exitCode with VUndef => false | VNum (NInt 0) => false | _ => true end.

Definition non_empty (s : option string) : option string :=
  match s with Some t => if t === "" then None else Some t | None => None end.

Definition show_tool (c : canvas) (tool : ToolItem) : tool_card :=
  match tool with
  | CommandExecution t =>
      let outputExpanded := default true (flag (tc_id t) (cv_openOutputs c)) in
      TerminalCard (tc_command t) (guard_node (tc_durationMs t))
        (if tc_status t === "running" then "执行中"
         else if exit_failed (tc_exitCode t) then "退出码 " ^^ exit_text (tc_exitCode t) else "已完成")
        (exit_failed (tc_exitCode t)) (non_empty (tc_cwd t)) outputExpanded
        (if outputExpanded then non_empty (tc_aggregatedOutput t) else None)
  | FileChange f => DiffCard (DiffView (tf_diff f) (tf_path f) (tf_kind f) true)
  | SubAgent a =>
      SubAgentCard (first_some [non_empty (ts_agentPath a); ts_agentThreadId a])
        (if ts_kind a === "started" then "启动中" else "已执行")
  end.

Record user_bubble := mkBubble {
  ub_interjection : bool; ub_text : string; ub_attachments : list (val * guarded); ub_time : option string
}.

Record turn_card := mkCard {
  cd_user : option user_bubble;
  cd_pulse : bool;
  cd_label : string;
  cd_tokens : option val;
  cd_interrupt : bool;
  cd_resume : bool;
  cd_reasoning : option (string * option (list string * option string));  (** label, and what is unfolded *)
  cd_tools : list tool_card;
  cd_diffs : list diff_view;
  cd_approvals : list ApprovalRequest;
  cd_text : string  (** drawn by [MarkdownView], with its cursor while [cd_pulse] *)
}.

Definition status_label (s : assistant_status) : string :=
  match s with
  | st_streaming => "思考生成中"
  | st_waiting_approval => "等待审批中"
  | st_cancelled => "已中断"
  | st_failed => "执行异常"
  | _ => "执行完成"
  end.

Definition show_user (turn : TurnMessage) : option user_bubble :=
  if u_userPrompt turn === "" then None
  else Some (mkBubble (u_isInterjection turn) (u_userPrompt turn)
               (map (fun att => (prop "name" att, guard_node (prop "size" att))) (u_userAttachments turn))
               (u_userTime turn)).

Definition show_reasoning (c : canvas) (turn : TurnMessage) : option (string * option (list string * option string)) :=
  if (u_reasoning turn === "") && bool_decide (u_reasoningSummary turn = []) then None
  else Some (if u_reasoningCompleted turn then "已完成思考过程" else "正在思考推理...",
             if flag_set (u_turnId turn) (cv_openReasoning c) then
               Some (u_reasoningSummary turn, non_empty (Some (u_reasoning turn)))
             else None).

Definition show_turn (c : canvas) (isStreaming isLast : bool) (turn : TurnMessage) : turn_card :=
  let isTurnStreaming := isLast && (bool_decide (u_assistantStatus turn = st_streaming) || isStreaming) in
  mkCard (show_user turn) isTurnStreaming (status_label (u_assistantStatus turn)) (u_tokenUsage turn)
    isTurnStreaming (bool_decide (u_assistantStatus turn = st_cancelled) && isLast) (show_reasoning c turn)
    (map (show_tool c) (u_tools turn)) (map (fun d => DiffView d "" "" false) (u_diffs turn))
    (u_approvals turn) (u_text turn).

Fixpoint ChatCanvas (c : canvas) (isStreaming : bool) (turns : list TurnMessage) : list turn_card :=
  match turns with
  | [] => []
  | turn :: rest => show_turn c isStreaming (match rest with [] => true | _ => false end) turn
                    :: ChatCanvas c isStreaming rest
  end.

(** ** The sidebar *)

Abbreviation of_project p := (List.filter (fun s => projectOf s === p)).

Lemma truthy_str_nonempty v s : truthy_str v = Some s -> s <> "".
Proof. destruct v; simpl; try done. destruct (String.eqb_spec s0 ""); naive_solver. Qed.

Lemma projectOf_nonempty s : projectOf s <> "".
Proof.
  unfold projectOf. cbn [first_some]. destruct (truthy_str (prop "projectName" s)) eqn:E1; [by eapply truthy_str_nonempty|].
  destruct (truthy_str (prop "project" s)) eqn:E2; [by eapply truthy_str_nonempty|].
  destruct (last _) as [x|] eqn:E3; [|done]. cbn.
  apply last_Some_elem_of, list_elem_of_In, filter_In in E3 as [_ H]. intros ->. done.
Qed.

Lemma of_project_app p a b : of_project p (a ++ b) = of_project p a ++ of_project p b.
Proof. apply List.filter_app. Qed.

(** The groups of the sessions seen so far. *)
Definition grouped (seen : list val) (g : jmap string (list val)) : Prop :=
  NoDup g.*1 /\ (forall p, default [] (mget p g) = of_project p seen) /\ (forall p l, mget p g = Some l -> l <> [])
  /\ concat g.*2 ≡ₚ seen.

Lemma concat_mset p l s (g : jmap string (list val)) :
  default [] (mget p g) = l -> concat (mset p (l ++ [s]) g).*2 ≡ₚ concat g.*2 ++ [s].
Proof.
  induction g as [|[q x] g IH]; cbn; intros Hl; [by subst|].
  destruct (decide (q = p)) as [->|]; cbn in *.
  - subst. cbn. rewrite <- !(assoc_L (++)). apply Permutation_app_head, Permutation_app_comm.
  - rewrite (IH Hl). by rewrite (assoc_L (++)).
Qed.

Lemma grouped_add seen g s : grouped seen g -> grouped (seen ++ [s]) (add_to_project g s).
Proof.
  intros (Hn & Hg & Hne & Hc). unfold add_to_project. rewrite Hg. split; [by apply mset_NoDup|]. split; [|split].
  - intros p. rewrite mget_mset, of_project_app. cbn [List.filter]. case_decide as E.
    + subst. by rewrite String.eqb_refl.
    + rewrite Hg. destruct (String.eqb_spec (projectOf s) p); [done|]. by rewrite app_nil_r.
  - intros p l. rewrite mget_mset. case_decide; [|apply Hne]. intros [= <-]. by destruct (of_project _ _).
  - rewrite concat_mset by apply Hg. by rewrite Hc.
Qed.

Lemma grouped_all l : grouped l (foldl add_to_project [] l).
Proof.
  induction l as [|s l IH] using rev_ind; [|rewrite foldl_snoc; by apply grouped_add].
  repeat split; cbn; [constructor|done|done].
Qed.

Lemma flag_flip key k flags :
  flag_set k (flip key flags) = if k === key then negb (flag_set k flags) else flag_set k flags.
Proof.
  unfold flip. destruct (String.eqb_spec k key) as [->|Hne]; unfold flag_set at 1, flag.
  - by rewrite mget_mset_eq.
  - by rewrite mget_mset_ne.
Qed.

Section sidebar.
Context (locale_lt : string -> string -> bool) (collapsed : jmap string bool).

Definition headers (l : list session_row) : list project_header := omap rw_header l.

Definition is_group (e : string * list val) : Prop := e.2 <> [] /\ Forall (fun s => projectOf s = e.1) e.2.

Abbreviation drawn gs := (concat (map (fun e => isort (newer_session locale_lt) e.2) gs)).

Lemma rows_length all prev l : length (rows collapsed all prev l) = length l.
Proof. revert prev. induction l as [|s l IH]; intros prev; [done|]. cbn [rows length]. by rewrite IH. Qed.

(** Within a project no further header is drawn. *)
Lemma rows_same all p l rest :
  Forall (fun s => projectOf s = p) l ->
  headers (rows collapsed all p (l ++ rest)) = headers (rows collapsed all p rest).
Proof.
  induction 1 as [|s l Hs _ IH]; [done|]. cbn [app rows headers omap list_omap]. rewrite Hs, String.eqb_refl. cbn.
  exact IH.
Qed.

Lemma rows_headers all gs prev :
  Forall is_group gs -> NoDup (prev :: gs.*1) ->
  map hd_project (headers (rows collapsed all prev (drawn gs))) = gs.*1
  /\ Forall (fun h => hd_count h = length (of_project (hd_project h) all)) (headers (rows collapsed all prev (drawn gs))).
Proof.
  revert prev. induction gs as [|[p l] gs IH]; intros prev Hg Hn; [by split; [|constructor]|].
  apply Forall_cons in Hg as [[Hne Hp] Hg]. cbn in Hne, Hp.
  apply NoDup_cons in Hn as [Hprev Hn]. cbn in Hprev, Hn.
  destruct (IH p Hg Hn) as [IH1 IH2].
  assert (Forall (fun s => projectOf s = p) (isort (newer_session locale_lt) l)) as Hs by (by rewrite isort_perm).
  assert (isort (newer_session locale_lt) l <> []) as Hne'.
  { intros E. apply Hne, Permutation_nil. by rewrite <- (isort_perm (newer_session locale_lt) l), E. }
  cbn [map concat]. cbn [snd]. destruct (isort (newer_session locale_lt) l) as [|s l']; [done|].
  apply Forall_cons in Hs as [Hs Hl']. cbn [app rows headers omap list_omap]. rewrite Hs.
  destruct (String.eqb_spec p prev) as [->|]; [set_solver|]. cbn [negb rw_header].
  pose proof (rows_same all p l' (drawn gs) Hl') as E. unfold headers in *. cbn [map hd_project fmap list_fmap fst].
  rewrite E, IH1. split; [done|]. by constructor.
Qed.

Lemma rows_sessions all prev l :
  omap rw_session (rows collapsed all prev l)
  = List.filter (fun s => negb (flag_set (projectOf s) collapsed)) l.
Proof.
  revert prev. induction l as [|s l IH]; intros prev; [done|]. cbn [rows omap list_omap List.filter rw_session].
  destruct (flag_set _ _); cbn [negb]; [apply IH|]. f_equal. apply IH.
Qed.

Lemma project_groups keyword filterStatus sessions :
  let m := matching keyword filterStatus sessions in
  let gs := sidebar_projects keyword filterStatus sessions in
  Forall is_group gs /\ NoDup gs.*1 /\ Forall (fun e => e.2 = of_project e.1 m) gs /\ concat gs.*2 ≡ₚ m.
Proof.
  cbn zeta. unfold sidebar_projects. set (m := matching keyword filterStatus sessions).
  destruct (grouped_all m) as (Hn & Hg & Hne & Hc).
  assert (forall p l, (p, l) ∈ foldl add_to_project [] m -> l <> [] /\ l = of_project p m) as Hl.
  { intros p l Hin. apply elem_mget in Hin; [|done]. split; [by eapply Hne|]. by rewrite <- Hg, Hin. }
  pose proof (isort_perm project_before (foldl add_to_project [] m)) as Hp.
  split; [|split; [by rewrite Hp|split; [|by rewrite Hp]]]; apply Forall_forall; intros [p l] Hin;
    rewrite Hp in Hin; destruct (Hl p l Hin) as [? E]; [|done].
  split; [done|]. cbn. rewrite E. apply Forall_forall. intros s Hs.
  apply list_elem_of_In, filter_In in Hs as [_ Hs]. by apply String.eqb_eq.
Qed.

Lemma drawn_perm (gs : jmap string (list val)) : drawn gs ≡ₚ concat gs.*2.
Proof. induction gs as [|e gs IH]; [done|]. cbn. by rewrite isort_perm, IH. Qed.

Lemma projects_sorted (g : jmap string (list val)) :
  StronglySorted (fun a b => latest b.2 <= latest a.2) (isort project_before g).
Proof.
  assert (StronglySorted (fun a b => project_before b a = false) (isort project_before g)) as H.
  { apply isort_sorted; unfold project_before.
    - intros x y z H1%Z.ltb_ge H2%Z.ltb_ge. apply Z.ltb_ge. lia.
    - intros x y H%Z.ltb_lt. apply Z.ltb_ge. lia. }
  induction H as [|x l _ IH Hf]; constructor; [done|]. eapply Forall_impl; [exact Hf|].
  intros y H. by apply Z.ltb_ge.
Qed.

(** C34: The list of sessions shows every session that matches the search and
    the filter, each once, except those of folded projects, and a click on a
    project's header folds or unfolds that project and no other. A project is
    folded when its flag reads as true; that includes, before any click, a
    project named like a property every object inherits
    ([inherited_project_folded]). Every project of a shown session has exactly
    one header, with the number of its matching sessions, and the headers come
    in the order of the projects' latest activity. *)
Theorem sidebar_groups keyword filterStatus sessions :
  let m := matching keyword filterStatus sessions in
  let shown := filteredSessions locale_lt keyword filterStatus sessions in
  let list := sidebar_rows locale_lt collapsed keyword filterStatus sessions in
  let projects := map hd_project (headers list) in
  shown ≡ₚ m
  /\ omap rw_session list = List.filter (fun s => negb (flag_set (projectOf s) collapsed)) shown
  /\ (forall project p, flag_set p (toggleProject project collapsed)
        = if p === project then negb (flag_set p collapsed) else flag_set p collapsed)
  /\ NoDup projects /\ (forall s, s ∈ shown -> projectOf s ∈ projects)
  /\ Forall (fun h => hd_count h = length (of_project (hd_project h) m)) (headers list)
  /\ StronglySorted (fun p q => latest (of_project q m) <= latest (of_project p m)) projects.
Proof.
  cbn zeta. destruct (project_groups keyword filterStatus sessions) as (Hg & Hn & Hl & Hc). cbn zeta in *.
  pose proof (projects_sorted (foldl add_to_project [] (matching keyword filterStatus sessions))) as Hs.
  fold (sidebar_projects keyword filterStatus sessions) in Hs.
  assert (filteredSessions locale_lt keyword filterStatus sessions ≡ₚ matching keyword filterStatus sessions) as Hm
    by (unfold filteredSessions; by rewrite drawn_perm).
  assert (NoDup ("" :: (sidebar_projects keyword filterStatus sessions).*1)) as Hn'.
  { constructor; [|done]. intros ([p l] & E & Hin)%list_elem_of_fmap. cbn in E. subst.
    rewrite Forall_forall in Hg. destruct (Hg _ Hin) as [Hne Hp]. cbn in Hne, Hp.
    destruct l as [|s l]; [done|]. apply Forall_cons in Hp as [Hp _]. by apply projectOf_nonempty in Hp. }
  destruct (rows_headers (filteredSessions locale_lt keyword filterStatus sessions) _ "" Hg Hn') as [Hh Hcount].
  fold (filteredSessions locale_lt keyword filterStatus sessions) in Hh, Hcount. unfold sidebar_rows. rewrite Hh.
  split; [done|]. split; [apply rows_sessions|]. split; [intros; apply flag_flip|]. split; [done|]. split; [|split].
  - intros s Hin. rewrite Hm, <- Hc in Hin. apply list_elem_of_In, in_concat in Hin as (l & Hl' & Hin).
    apply list_elem_of_In, list_elem_of_fmap in Hl' as ([p l'] & -> & Hp). rewrite Forall_forall in Hg.
    destruct (Hg _ Hp) as [_ Hf]. rewrite Forall_forall in Hf. apply list_elem_of_In in Hin.
    rewrite (Hf _ Hin). apply list_elem_of_fmap. by exists (p, l').
  - eapply Forall_impl; [exact Hcount|]. cbn. intros h ->. apply Permutation_length.
    by apply Permutation_List_filter.
  - clear -Hl Hs. revert Hl. induction Hs as [|[p l] gs _ IH Hf]; intros Hl; [constructor|].
    apply Forall_cons in Hl as [Hl Hls]. constructor; [by apply IH|]. apply Forall_fmap, Forall_forall.
    intros [q l'] Hin. rewrite Forall_forall in Hf, Hls. pose proof (Hf _ Hin) as H. pose proof (Hls _ Hin) as E.
    cbn in *. by rewrite <- E, <- Hl.
Qed.
End sidebar.

(** A workspace whose last directory is called constructor: nothing was folded,
    and its session is not shown. *)
Example inherited_project_folded :
  let s := VObj [("id", VStr "s"); ("workspacePath", VStr "/src/constructor")] in
  map (fun r => (hd_project <$> rw_header r, rw_session r)) (sidebar_rows String.ltb [] "" "all" [s])
  = [(Some "constructor", None)].
Proof. reflexivity. Qed.

(** ** The conversation *)

Definition is_last (i : nat) (turns : list TurnMessage) : bool := (S i =? length turns)%nat.

Lemma canvas_lookup c streaming turns i :
  ChatCanvas c streaming turns !! i = (show_turn c streaming (is_last i turns)) <$> turns !! i.
Proof.
  unfold is_last. revert i. induction turns as [|t turns IH]; intros [|i]; [done..| |].
  - cbn. by destruct turns.
  - cbn [ChatCanvas lookup list_lookup]. rewrite IH. done.
Qed.

(** The button that interrupts is on the last card and only there, and it is
    offered exactly when the hook considers the session to be streaming. *)
Theorem interrupt_offered c h i card :
  ChatCanvas c (isStreaming h) (cl_turns (ah_client h)) !! i = Some card ->
  cd_interrupt card = is_last i (cl_turns (ah_client h)) && isStreaming h.
Proof.
  rewrite canvas_lookup. intros (turn & Ht & ->)%fmap_Some. unfold show_turn. cbn [cd_interrupt].
  destruct (is_last i (cl_turns (ah_client h))) eqn:El; [|done]. cbn. unfold isStreaming, is_last in *.
  apply Nat.eqb_eq in El. rewrite last_lookup, <- El. cbn [pred]. rewrite Ht.
  by destruct (bool_decide _).
Qed.

Lemma starts_with_char c a s : starts_with (String c "") (String a s) = Ascii.eqb c a.
Proof. cbn. by destruct (Ascii.eqb c a), s. Qed.

Lemma starts_with_first c s : starts_with (String c "") s = true -> exists s', s = String c s'.
Proof. destruct s as [|a s]; [done|]. rewrite starts_with_char. intros ->%Ascii.eqb_eq. by exists s. Qed.

Lemma diff_prefix line :
  match line_type line with
  | added => starts_with "+" line = true
  | removed => starts_with "-" line = true
  | _ => True
  end.
Proof.
  unfold line_type. destruct (starts_with "+" line && _) eqn:E; [by apply andb_true_iff in E as [? _]|].
  clear E. destruct (starts_with "-" line && _) eqn:E; [by apply andb_true_iff in E as [? _]|].
  destruct (starts_with "@@" line); [done|]. by destruct (_ || _).
Qed.

(** What is drawn for a line of a diff is the line itself exactly for added and
    removed lines and for context lines with their leading space, of at least two
    characters; of every other line the first character is lost or doubled. *)
Theorem diff_line_exact line :
  dl_prefix (show_diff_line line) ^^ dl_text (show_diff_line line) = line
  <-> (2 <= slen line)%nat /\ (line_type line = added \/ line_type line = removed \/ starts_with " " line = true).
Proof.
  pose proof (diff_prefix line) as Hp. destruct line as [|a [|b s]].
  - split; [done|intros [H _]; unfold slen in H; cbn in H; lia].
  - split; [|intros [H _]; unfold slen in H; cbn in H; lia]. intros H%(f_equal slen).
    rewrite slen_sapp in H. revert H. unfold show_diff_line. cbn. by destruct (line_type _).
  - change (dl_text (show_diff_line (String a (String b s)))) with (String b s).
    assert (2 <= slen (String a (String b s)))%nat as Hlen by (unfold slen; cbn; lia).
    unfold show_diff_line. cbn [dl_prefix]. destruct (line_type (String a (String b s))).
    1: apply starts_with_first in Hp as [s' [= -> _]].
    2: apply starts_with_first in Hp as [s' [= -> _]].
    1-2: split; [intros _; eauto|done].
    all: rewrite starts_with_char; split; [intros [= <-]; eauto|].
    all: intros [_ [?|[?|<-%Ascii.eqb_eq]]]; done.
Qed.

(** A command's output is unfolded at first; the first click on its header only
    records that, and the second one folds it. *)
Lemma first_toggle_idle c t :
  flag (tc_id t) (cv_openOutputs c) = None ->
  show_tool (toggleOutput (tc_id t) c) (CommandExecution t) = show_tool c (CommandExecution t)
  /\ (exists command duration label failed cwd,
       show_tool (toggleOutput (tc_id t) (toggleOutput (tc_id t) c)) (CommandExecution t)
       = TerminalCard command duration label failed cwd false None).
Proof.
  intros H. unfold show_tool, toggleOutput. cbn [cv_openOutputs]. unfold flip, flag_set, flag in *.
  rewrite !mget_mset_eq, H. cbn. eauto 10.
Qed.

(** A message of attachments alone, as the composer sends it, has no bubble. *)
Lemma attachments_alone_hidden :
  let now := {| ck_ms := 0; ck_iso := "1970-01-01T00:00:00.000Z"; ck_random := "0000" |} in
  let payload := VObj [("sessionId", VStr "s"); ("clientRequestId", VStr "r"); ("prompt", VStr "");
                       ("attachments", VArr [VObj [("name", VStr "a.txt"); ("size", vint 3)]])] in
  let turns := applyLiveEventToTurns (fun _ => None) now
                 (mkEvent "session-user-input" (Some "s") None payload None) None [] in
  map (fun t => length (u_userAttachments t)) turns = [1%nat]
  /\ map cd_user (ChatCanvas (mkCanvas true [] []) true turns) = [None].
Proof. by vm_compute. Qed.

(** React draws the falsy operand of [size && ...]: an empty file shows a bare 0. *)
Lemma empty_attachment_zero : guard_node (vint 0) = Bare (NInt 0).
Proof. done. Qed.

(** The drawer shows at most 150 events, the newest first. *)
Lemma drawer_newest filterCurrent current search events :
  exists older, let shown := displayedEvents filterCurrent current search events in
  (length shown <= 150)%nat /\ older ++ reverse shown `sublist_of` events.
Proof.
  unfold displayedEvents. set (l := List.filter _ events). destruct (lastn_suffix 150 l) as [older E].
  exists older. cbn zeta. rewrite reverse_involutive, <- E, length_reverse. split; [apply lastn_le|].
  unfold l. clear. induction events as [|e events IH]; cbn; [done|]. case_match; by constructor.
Qed.
