(* ===== verification/Forms.v ===== *)
(** * The app's forms

    The components of app/src/components that keep state of their own and call
    the hook: ApprovalCard.tsx, MessageComposer.tsx, NewSessionModal.tsx, and the
    handlers of Header.tsx, LandingPage.tsx, SessionSidebar.tsx and
    SettingsModal.tsx. Each is a state machine whose step takes an event of the user,
    of the promise the component awaits, of a timer or of its properties, with the
    guards of the elements that raise it (a disabled button raises none). React
    commits a state update before the next event. The calls a component made are
    kept in its state.

    The theorems: a card never decides twice; a composer sends no empty message
    and only one at a time, and a failed message stays in the box; full access is
    only ever requested after the user confirmed it, in a way the gateway
    accepts. *)

From Stdlib Require Import Ascii.
From S2P Require Import Prelude JsValue JsDate Json CodexEvents GatewayStore Sessions Attachments Aggregator Client EnvFile AppHook.

Local Open Scope Z_scope.

#[global] Instance approval_status_eq_dec : EqDecision approval_status.
Proof. solve_decision. Defined.

Lemma trim_start_space s : sforall is_space (trim_start s) = true -> trim_start s = "".
Proof. induction s as [|c s IH]; cbn; [done|]. destruct (is_space c) eqn:E; [done|]. cbn. by rewrite E. Qed.

Lemma trim_space s : trim s = "" -> sforall is_space s = true.
Proof.
  intros H. assert (forall x, trim_start x = "" -> sforall is_space x = true) as Hs.
  { induction x as [|c x IH]; cbn; [done|]. by destruct (is_space c). }
  apply Hs, trim_start_space. rewrite <- sforall_srev. apply Hs.
  unfold trim, trim_end in H. apply (f_equal srev) in H. by rewrite srev_involutive in H.
Qed.

Lemma trim_trim_nonempty s : trim s <> "" -> trim (trim s) <> "".
Proof.
  intros H E%trim_space. apply H. unfold trim, trim_end in *. rewrite sforall_srev in E.
  by rewrite (trim_start_space _ E).
Qed.

(** ** ApprovalCard.tsx *)

Module Card.

(** A call of [onDecision]: [None] under way, [Some None] succeeded, else the
    message of the error. *)
Record call := mkCall { ca_decision : approval_decision; ca_amendment : list string; ca_outcome : option (option string) }.

(** [remainingSec] is [None] before the first check; [Some None] stands for NaN. *)
Record card := mkCard {
  ac_prop : approval_status;
  ac_submitting : bool;
  ac_localStatus : approval_status;
  ac_remainingSec : option (option Z);
  ac_actionError : string;
  ac_calls : list call
}.


Section card.
Context (a : ApprovalRequest).




(** [proposedExecpolicyAmendment || (command ? [command] : undefined)]: an empty
    array is no [undefined], but the hook sends neither. *)
Definition amendment : list string :=
  match ar_proposedExecpolicyAmendment a, ar_command a with
  | Some l, _ => l
  | None, Some command => if command === "" then [] else [command]
  | None, None => []
  end.

(** Whether the button that always allows is offered. *)
Definition hasAmendment : bool :=
  match ar_proposedExecpolicyAmendment a with Some (_ :: _) => true | _ => false end
  || match ar_command a with Some command => command !== "" | None => false end.

Definition handleAction (decision : approval_decision) (withAmendment : bool) (c : card) : card :=
  if ac_submitting c || negb (bool_decide (ac_localStatus c = ap_pending)) then c
  else mkCard (ac_prop c) true (ac_localStatus c) (ac_remainingSec c) ""
         (ac_calls c ++ [mkCall decision (if withAmendment then amendment else []) None]).

















(** With an empty proposal and a command, the button that always allows is
    offered and does what the other one does. *)
Lemma always_allow_is_once command c :
  ar_proposedExecpolicyAmendment a = Some [] -> ar_command a = Some command -> command <> "" ->
  hasAmendment = true /\ handleAction Approve true c = handleAction Approve false c.
Proof.
  intros Hp Hc Hne. unfold hasAmendment, handleAction, amendment. rewrite Hp, Hc. split; [|done].
  by destruct (String.eqb_spec command "").
Qed.
End card.
End Card.

(** ** MessageComposer.tsx *)

Module Composer.

(** A chosen file, with the data URL the reader gives or [None] where it fails. *)
Record file := mkFile { fi_name : string; fi_type : string; fi_size : Z; fi_url : option string }.

(** [fileToBase64] of utils.ts, on the result of the reader. *)
Definition fileToBase64 (result : string) : string :=
  match split_char "," result with _ :: data :: _ => data | _ => result end.

Definition attachment (f : file) : option val :=
  (fun url => VObj [("name", VStr (fi_name f)); ("mimeType", VStr (str_or (fi_type f) "application/octet-stream"));
                    ("size", vint (fi_size f)); ("dataBase64", VStr (fileToBase64 url))]) <$> fi_url f.

Record message := mkMessage { me_prompt : string; me_attachments : list val; me_options : prompt_options }.

(** [mc_reading] counts the selections whose files are being read; [mc_sent] is
    what was passed to [onSend]. *)
Record composer := mkComposer {
  mc_text : string;
  mc_attachments : list val;
  mc_sending : bool;
  mc_isComposing : bool;
  mc_showSettings : bool;
  mc_model : string;
  mc_effort : string;
  mc_multiAgentMode : string;
  mc_reading : nat;
  mc_sent : list message
}.

Definition empty_composer : composer := mkComposer "" [] false false false "" "medium" "" 0 [].

Definition with_text (v : string) (c : composer) : composer :=
  mkComposer v (mc_attachments c) (mc_sending c) (mc_isComposing c) (mc_showSettings c) (mc_model c) (mc_effort c)
    (mc_multiAgentMode c) (mc_reading c) (mc_sent c).
Definition with_files (reading : nat) (v : list val) (c : composer) : composer :=
  mkComposer (mc_text c) v (mc_sending c) (mc_isComposing c) (mc_showSettings c) (mc_model c) (mc_effort c)
    (mc_multiAgentMode c) reading (mc_sent c).
Definition with_sending (v : bool) (sent : list message) (c : composer) : composer :=
  mkComposer (mc_text c) (mc_attachments c) v (mc_isComposing c) (mc_showSettings c) (mc_model c) (mc_effort c)
    (mc_multiAgentMode c) (mc_reading c) sent.
Definition with_composing (v : bool) (c : composer) : composer :=
  mkComposer (mc_text c) (mc_attachments c) (mc_sending c) v (mc_showSettings c) (mc_model c) (mc_effort c)
    (mc_multiAgentMode c) (mc_reading c) (mc_sent c).
Definition with_options (show : bool) (model effort mode : string) (c : composer) : composer :=
  mkComposer (mc_text c) (mc_attachments c) (mc_sending c) (mc_isComposing c) show model effort mode
    (mc_reading c) (mc_sent c).

(** The properties of the component when an event arrives. *)
Record props := mkProps { pr_isStreaming : bool; pr_disabled : bool }.

Definition handleSend (p : props) (c : composer) : composer :=
  let promptToSend := trim (mc_text c) in
  if ((promptToSend === "") && (length (mc_attachments c) =? 0)%nat) || mc_sending c || pr_disabled p then c
  else with_sending true
         (mc_sent c ++ [mkMessage promptToSend (mc_attachments c)
                          (mkOptions (mc_model c) (mc_effort c) (mc_multiAgentMode c) None)]) c.

(** The rest of [handleSend] once [onSend] is settled. *)
Definition handleSend_settled (ok : bool) (c : composer) : composer :=
  if negb (mc_sending c) then c
  else with_sending false (mc_sent c) (if ok then with_files (mc_reading c) [] (with_text "" c) else c).

(** [handleFileSelect] when all files of one selection are read. *)
Definition handleFileSelect (files : list file) (c : composer) : composer :=
  match mc_reading c with
  | O => c
  | S n => with_files n (mc_attachments c ++ omap attachment files) c
  end.

Definition removeAttachment (index : nat) (c : composer) : composer :=
  with_files (mc_reading c) (delete index (mc_attachments c)) c.

Definition handleKeyDown (shift : bool) (p : props) (c : composer) : composer :=
  if negb shift && negb (mc_isComposing c) then handleSend p c else c.

Inductive composer_event :=
| Typed (s : string)
| Enter (shift : bool)
| CompositionStart
| CompositionEnd
| SendClick
| SendSettled (ok : bool)
| FilesChosen
| FilesRead (files : list file)
| Remove (index : nat)
| Options (show : bool) (model effort mode : string).

Definition composer_step (p : props) (e : composer_event) (c : composer) : composer :=
  let inactive := pr_disabled p || mc_sending c in
  match e with
  | Typed s => if inactive then c else with_text s c
  | Enter shift => if inactive then c else handleKeyDown shift p c
  | CompositionStart => if inactive then c else with_composing true c
  | CompositionEnd => with_composing false c
  | SendClick => if pr_isStreaming p then c else handleSend p c
  | SendSettled ok => handleSend_settled ok c
  | FilesChosen => if inactive then c else with_files (S (mc_reading c)) (mc_attachments c) c
  | FilesRead files => handleFileSelect files c
  | Remove index => removeAttachment index c
  | Options show model effort mode => with_options show model effort mode c
  end.

Definition composer_run (events : list (props * composer_event)) (c : composer) : composer := foldl (fun c e => composer_step e.1 e.2 c) c events.

(** The check of [sendPrompt] on what it is given. *)
Definition accepted (m : message) : Prop :=
  (trim (me_prompt m) === "") && (length (me_attachments m) =? 0)%nat = false.

Definition in_box (c : composer) : Prop :=
  mc_sending c = true -> exists m, last (mc_sent c) = Some m /\ me_prompt m = trim (mc_text c).

Lemma accepted_sent text atts o :
  (trim text === "") && (length atts =? 0)%nat = false -> accepted (mkMessage (trim text) atts o).
Proof.
  unfold accepted. cbn. destruct (length atts =? 0)%nat; [|by rewrite !andb_false_r]. rewrite !andb_true_r.
  intros H%String.eqb_neq. apply String.eqb_neq. by apply trim_trim_nonempty.
Qed.

Lemma handleSend_cases p c :
  handleSend p c = c
  \/ (mc_sending c = false /\ exists m, handleSend p c = with_sending true (mc_sent c ++ [m]) c
                                   /\ me_prompt m = trim (mc_text c) /\ accepted m).
Proof.
  unfold handleSend. destruct (_ && _) eqn:Ec; cbn [orb]; [by left|]. destruct (mc_sending c); [by left|].
  destruct (pr_disabled p); [by left|]. right. split; [done|]. eexists. split; [done|]. split; [done|].
  by apply accepted_sent.
Qed.

(** One event either sends nothing and leaves the box as it is while a message is
    under way, or sends one message when none is. *)
Lemma composer_step_sends p e c :
  (mc_sent (composer_step p e c) = mc_sent c /\ (mc_sending (composer_step p e c) = true -> mc_sending c = true)
   /\ (mc_sending (composer_step p e c) = true -> mc_text (composer_step p e c) = mc_text c))
  \/ (mc_sending c = false /\ mc_sending (composer_step p e c) = true /\ mc_text (composer_step p e c) = mc_text c
      /\ exists m, mc_sent (composer_step p e c) = mc_sent c ++ [m] /\ me_prompt m = trim (mc_text c) /\ accepted m).
Proof.
  assert (forall c', (handleSend p c = c' \/ c = c') -> 
    (mc_sent c' = mc_sent c /\ (mc_sending c' = true -> mc_sending c = true) /\ (mc_sending c' = true -> mc_text c' = mc_text c))
    \/ (mc_sending c = false /\ mc_sending c' = true /\ mc_text c' = mc_text c
        /\ exists m, mc_sent c' = mc_sent c ++ [m] /\ me_prompt m = trim (mc_text c) /\ accepted m)) as Hs.
  { intros c' [<-|<-]; [|by left]. destruct (handleSend_cases p c) as [->|(Hi & m & -> & Hm)]; [by left|].
    right. repeat split; try done. by exists m. }
  destruct e; cbn [composer_step]; try (destruct (pr_disabled p || mc_sending c) eqn:Ed; [by left|]);
    try (apply orb_false_iff in Ed as [_ Ed]); try (left; cbn; rewrite ?Ed; done).
  - apply Hs. unfold handleKeyDown. destruct (_ && _); auto.
  - apply Hs. destruct (pr_isStreaming p); auto.
  - left. unfold handleSend_settled. destruct (mc_sending c) eqn:E; cbn; [by destruct ok|by rewrite E].
  - left. unfold handleFileSelect. by destruct (mc_reading c).
Qed.

(** Over any run of the composer: what it sends passes the hook's check for empty
    messages; it sends nothing while a message is under way; the text of that
    message stays in the box until the answer, and a failure leaves it there. *)
Theorem composer_sends events :
  let c := composer_run events empty_composer in
  Forall accepted (mc_sent c) /\ in_box c
  /\ (forall p e, mc_sending c = true -> mc_sent (composer_step p e c) = mc_sent c)
  /\ (forall p, mc_text (composer_step p (SendSettled false) c) = mc_text c
                /\ mc_attachments (composer_step p (SendSettled false) c) = mc_attachments c).
Proof.
  cbn zeta. assert (Forall accepted (mc_sent (composer_run events empty_composer)) /\ in_box (composer_run events empty_composer)) as [Ha Hb].
  { induction events as [|[p e] events IH] using rev_ind; [by split; [constructor|]|].
    unfold composer_run in *. rewrite foldl_snoc. cbn. revert IH. generalize (foldl (fun c e => composer_step e.1 e.2 c) empty_composer events).
    intros c [Ha Hb]. destruct (composer_step_sends p e c) as [(E & Hi & Ht)|(Hi & Hs & Ht & m & E & Hm & Hacc)].
    - rewrite E. split; [done|]. intros H. rewrite E, (Ht H). by apply Hb, Hi.
    - rewrite E. split; [apply Forall_app; split; [done|by repeat constructor]|]. intros _. exists m.
      by rewrite E, Ht, last_snoc. }
  split; [done|]. split; [done|]. generalize (composer_run events empty_composer). intros c. split.
  - intros p e H. destruct (composer_step_sends p e c) as [(E & _)|(Hi & _)]; [done|congruence].
  - intros p. cbn [composer_step]. unfold handleSend_settled. by destruct (mc_sending c).
Qed.

(** A selection still being read when the message is sent is dropped when the
    message succeeds, without having been sent. *)
Lemma late_attachment_lost :
  let p := mkProps false false in
  let f := mkFile "a.txt" "text/plain" 1 (Some "data:text/plain;base64,YQ==") in
  let c := composer_run [(p, Typed "hi"); (p, FilesChosen); (p, Enter false); (p, FilesRead [f]); (p, SendSettled true)] empty_composer in
  map me_prompt (mc_sent c) = ["hi"] /\ map me_attachments (mc_sent c) = [[]] /\ mc_attachments c = [] /\ mc_reading c = 0%nat.
Proof. by vm_compute. Qed.
End Composer.

(** ** NewSessionModal.tsx, Header.tsx *)

Module NewSession.

Record modal := mkModal {
  nm_isOpen : bool;
  nm_default : string;
  nm_workspacePath : string;
  nm_prompt : string;
  nm_title : string;
  nm_policy : SessionPolicyMode;
  nm_model : string;
  nm_customModel : string;
  nm_effort : string;
  nm_multiAgentMode : string;
  nm_submitting : bool;
  nm_err : string;
  nm_calls : list new_session
}.

Definition with_open (isOpen : bool) (dflt workspacePath : string) (m : modal) : modal :=
  mkModal isOpen dflt workspacePath (nm_prompt m) (nm_title m) (nm_policy m) (nm_model m) (nm_customModel m)
    (nm_effort m) (nm_multiAgentMode m) (nm_submitting m) (nm_err m) (nm_calls m).
Definition with_submit (submitting : bool) (err : string) (calls : list new_session) (m : modal) : modal :=
  mkModal (nm_isOpen m) (nm_default m) (nm_workspacePath m) (nm_prompt m) (nm_title m) (nm_policy m) (nm_model m)
    (nm_customModel m) (nm_effort m) (nm_multiAgentMode m) submitting err calls.

(** The fields of the form. *)
Record fields := mkFields {
  fd_workspacePath : string; fd_prompt : string; fd_title : string; fd_policy : SessionPolicyMode;
  fd_model : string; fd_customModel : string; fd_effort : string; fd_multiAgentMode : string
}.

Definition with_fields (f : fields) (m : modal) : modal :=
  mkModal (nm_isOpen m) (nm_default m) (fd_workspacePath f) (fd_prompt f) (fd_title f) (fd_policy f) (fd_model f)
    (fd_customModel f) (fd_effort f) (fd_multiAgentMode f) (nm_submitting m) (nm_err m) (nm_calls m).

Definition closed_modal (dflt : string) : modal :=
  mkModal false dflt (str_or dflt "D:\个人项目\CodeHarbor") "" "" confirm "" "" "medium" "" false "" [].

(** A render with other properties, and the effect on them. *)
Definition rerender (isOpen : bool) (dflt : string) (m : modal) : modal :=
  let changed := negb (Bool.eqb isOpen (nm_isOpen m)) || (dflt !== nm_default m) in
  with_open isOpen dflt (if changed && isOpen && (dflt !== "") then dflt else nm_workspacePath m) m.

Definition params (m : modal) : new_session :=
  let full := bool_decide (nm_policy m = full_access) in
  mkNewSession (trim (nm_workspacePath m)) (trim (nm_prompt m)) (trim (nm_title m))
    (mode_str (nm_policy m)) full
    (if nm_model m === "custom" then trim (nm_customModel m) else nm_model m) (nm_effort m) (nm_multiAgentMode m).

(** [confirmed] is the user's answer to [window.confirm]. *)
Definition handleSubmit (confirmed : bool) (m : modal) : modal :=
  if (trim (nm_workspacePath m) === "") || (trim (nm_prompt m) === "") then
    with_submit (nm_submitting m) "工作区路径和初始需求提示词不能为空" (nm_calls m) m
  else if bool_decide (nm_policy m = full_access) && negb confirmed then with_submit false "" (nm_calls m) m
  else with_submit true "" (nm_calls m ++ [params m]) m.

(** The rest of [handleSubmit] once [onSubmit] is settled; on success [onClose]
    makes the app render the closed modal. *)
Definition handleSubmit_settled (r : option string) (m : modal) : modal :=
  if negb (nm_submitting m) then m
  else match r with
       | None => rerender false (nm_default m) (with_submit false (nm_err m) (nm_calls m) m)
       | Some message => with_submit false message (nm_calls m) m
       end.

Inductive modal_event :=
| Rerender (isOpen : bool) (dflt : string)
| Edit (f : fields)
| Submit (confirmed : bool)
| SubmitSettled (r : option string).

(** The form raises nothing while it is closed, and its button is disabled while a
    submission is under way or the prompt is blank. *)
Definition modal_step (e : modal_event) (m : modal) : modal :=
  match e with
  | Rerender isOpen dflt => rerender isOpen dflt m
  | Edit f => if nm_isOpen m then with_fields f m else m
  | Submit confirmed =>
      if nm_isOpen m && negb (nm_submitting m) && (trim (nm_prompt m) !== "") then handleSubmit confirmed m else m
  | SubmitSettled r => handleSubmit_settled r m
  end.

Definition modal_run (events : list modal_event) (m : modal) : modal := foldl (fun m e => modal_step e m) m events.

(** [handlePolicyChange] of Header.tsx: the call of [onPolicyChange], if any. *)
Definition handlePolicyChange (mode : SessionPolicyMode) (confirmed : bool) : option (SessionPolicyMode * bool) :=
  if bool_decide (mode = full_access) && negb confirmed then None
  else Some (mode, bool_decide (mode = full_access)).

(** Where the modal proposes to work (main.tsx): the project the user started
    from, else the selected session's. *)
Definition default_workspace (newSessionWorkspace : string) (selected : option val) : string :=
  default "" (first_some [truthy_str (VStr newSessionWorkspace);
                          selected ≫= fun s => truthy_str (prop "workspacePath" s);
                          selected ≫= str_prop "cwd"]).

(** ** Full access *)

Definition full (p : new_session) : bool := ns_policy p === "full-access".
Definition consent (e : modal_event) : bool := match e with Submit true => true | _ => false end.

(** A request that states its mode, confirms full access and nothing else, and
    that the gateway does not refuse for a missing confirmation. *)
Definition stated (mode : SessionPolicyMode) (confirmed : bool) : Prop :=
  confirmed = bool_decide (mode = full_access)
  /\ forall current, fullAccessConfirmationRequired (Some mode) (if confirmed then Some true else None) current = false.

Definition sound (p : new_session) : Prop :=
  ns_workspacePath p <> "" /\ ns_prompt p <> ""
  /\ exists mode, ns_policy p = mode_str mode /\ stated mode (ns_confirm p).

Lemma stated_mode mode : stated mode (bool_decide (mode = full_access)).
Proof. split; [done|]. intros current. by destruct mode, current as [[]|]. Qed.

Lemma submit_calls confirmed m :
  nm_calls (handleSubmit confirmed m) = nm_calls m
  \/ (nm_calls (handleSubmit confirmed m) = nm_calls m ++ [params m] /\ sound (params m)
      /\ (full (params m) = true -> confirmed = true)).
Proof.
  unfold handleSubmit. destruct (String.eqb_spec (trim (nm_workspacePath m)) ""); [by left|].
  destruct (String.eqb_spec (trim (nm_prompt m)) ""); [by left|]. cbn [orb].
  destruct (bool_decide (nm_policy m = full_access)) eqn:Ef; cbn [andb].
  - destruct confirmed; [|by left]. right. split; [done|]. split; [|done]. split; [done|]. split; [done|].
    exists (nm_policy m). split; [done|]. apply stated_mode.
  - right. split; [done|]. split; [split; [done|]; split; [done|]; exists (nm_policy m); split; [done|]; apply stated_mode|].
    unfold full, params. cbn [ns_policy]. by destruct (nm_policy m).
Qed.

Lemma modal_step_calls e m :
  nm_calls (modal_step e m) = nm_calls m
  \/ (nm_calls (modal_step e m) = nm_calls m ++ [params m] /\ sound (params m) /\ (full (params m) = true -> consent e = true)).
Proof.
  destruct e as [o d|f|b|r]; cbn [modal_step]; [by left|left; by destruct (nm_isOpen m)| |left].
  - destruct (_ && _); [|by left]. destruct (submit_calls b m) as [?|(E & Hs & Hf)]; [by left|].
    right. split; [done|]. split; [done|]. intros ->%Hf. done.
  - unfold handleSubmit_settled. destruct (negb _); [done|]. by destruct r.
Qed.

(** C23: Full access is only requested after the user confirmed it: over any run of the
    form at most one full-access session is requested per confirmed submission,
    and every request names a workspace and a task and passes the gateway's check;
    likewise the mode switch of the header. *)
Theorem full_access_confirmed dflt events :
  let calls := nm_calls (modal_run events (closed_modal dflt)) in
  (length (List.filter full calls) <= length (List.filter consent events))%nat
  /\ Forall sound calls
  /\ (forall mode confirmed mode' c, handlePolicyChange mode confirmed = Some (mode', c) ->
        mode' = mode /\ stated mode c /\ (mode = full_access -> confirmed = true)).
Proof.
  cbn zeta. apply and_assoc. split.
  - induction events as [|e events [IH1 IH2]] using rev_ind; [by split; [|constructor]|].
    unfold modal_run in *. rewrite foldl_snoc. revert IH1 IH2.
    generalize (foldl (fun m e => modal_step e m) (closed_modal dflt) events). intros m IH1 IH2.
    destruct (modal_step_calls e m) as [->|(-> & Hs & Hf)]; rewrite List.filter_app, length_app.
    + split; [lia|done].
    + rewrite List.filter_app, length_app, Forall_app. split; [|split; [done|by apply Forall_singleton]].
      cbn [List.filter]. destruct (full (params m)); [rewrite Hf by done|]; cbn [length]; lia.
  - intros mode confirmed mode' c. unfold handlePolicyChange.
    destruct (bool_decide (mode = full_access)) eqn:Em, confirmed; cbn [andb negb]; intros [= <- <-];
      (split; [done|split; [rewrite <- Em; apply stated_mode|]]); [done..|].
    by apply bool_decide_eq_false in Em.
Qed.
End NewSession.

(** ** LandingPage.tsx *)

Module Landing.

Inductive auth_mode := login_mode | register_mode.

Record page := mkPage {
  lp_authMode : auth_mode; lp_registerPassword : string; lp_registerPasswordConfirm : string; lp_isSubmitting : bool
}.

Inductive auth_call := CallRegister (username password : string) | CallLogin.

(** The submission of the form, with the hook's user and password. *)
Definition submitAuth (user password : string) (p : page) : page * option auth_call :=
  let submit c := (mkPage (lp_authMode p) (lp_registerPassword p) (lp_registerPasswordConfirm p) true, Some c) in
  if lp_isSubmitting p then (p, None)
  else match lp_authMode p with
       | register_mode =>
           if (slen (lp_registerPassword p) <? 12)%nat || (lp_registerPassword p !== lp_registerPasswordConfirm p)
              || (trim user === "")
           then (p, None) else submit (CallRegister (trim user) (lp_registerPassword p))
       | login_mode => if (trim user === "") || (password === "") then (p, None) else submit CallLogin
       end.

Definition submitAuth_settled (p : page) : page :=
  mkPage (lp_authMode p) (lp_registerPassword p) (lp_registerPasswordConfirm p) false.

(** An account is only registered with a password of at least twelve characters
    typed twice, and nothing is submitted during a submission. *)
Lemma registration_checked user password p username pw p' :
  submitAuth user password p = (p', Some (CallRegister username pw)) ->
  lp_isSubmitting p = false /\ lp_isSubmitting p' = true /\ username = trim user /\ username <> ""
  /\ (12 <= slen pw)%nat /\ pw = lp_registerPassword p /\ pw = lp_registerPasswordConfirm p.
Proof.
  unfold submitAuth. destruct (lp_isSubmitting p), (lp_authMode p); try done; [by destruct (_ || _)|].
  destruct (Nat.ltb_spec (slen (lp_registerPassword p)) 12); [done|].
  destruct (String.eqb_spec (lp_registerPassword p) (lp_registerPasswordConfirm p)); [|done].
  destruct (String.eqb_spec (trim user) ""); [done|]. cbn. intros [= <- <- <-]. done.
Qed.
End Landing.

(** ** The buttons of SessionSidebar.tsx and SettingsModal.tsx *)

Module Buttons.

(** [forkingId] and the sessions [onForkSession] was called for. *)
Record forks := mkForks { fk_forkingId : option string; fk_calls : list string }.

Definition handleFork (id : string) (f : forks) : forks :=
  match fk_forkingId f with
  | Some current => if current === "" then mkForks (Some id) (fk_calls f ++ [id]) else f
  | None => mkForks (Some id) (fk_calls f ++ [id])
  end.

Definition handleFork_settled (f : forks) : forks := mkForks None (fk_calls f).

Definition revoke (deviceId : string) (confirmed : bool) : option string := if confirmed then Some deviceId else None.

(** [localStorage.removeItem("codeharbor.eventCursors")] *)
Definition handleClearLocalCache (c : AppClient) : AppClient := with_cl_storage None c.

(** The button removes the stored cursors, but not the ones the hook holds: the
    next event stores them all again. *)
Lemma cleared_cursors_return c sid seq :
  cl_storage_ok c = true -> sid <> "" -> cursor_of sid c < seq -> seq <> 0 ->
  (length (mset sid seq (cl_cursors c)) <= Z.to_nat 10000)%nat ->
  cl_storage (handleClearLocalCache c) = None
  /\ cl_storage (saveCursor sid seq (handleClearLocalCache c)) = Some (mset sid seq (cl_cursors c)).
Proof.
  intros Hok Hsid Hlt Hz Hlen. split; [done|]. unfold saveCursor.
  change (cursor_of sid (handleClearLocalCache c)) with (cursor_of sid c).
  change (cl_cursors (handleClearLocalCache c)) with (cl_cursors c).
  destruct (String.eqb_spec sid ""); [done|]. destruct (Z.eqb_spec seq 0); [done|]. cbn [orb].
  destruct (Z.ltb_spec (cursor_of sid c) seq); [|lia]. cbn zeta.
  destruct (Nat.ltb_spec (Z.to_nat 10000) (length (mset sid seq (cl_cursors c)))); [lia|].
  unfold persist_cursors. cbn [cl_storage_ok with_cl_cursors handleClearLocalCache with_cl_storage]. by rewrite Hok.
Qed.
End Buttons.
